(* ===== verification/_CoqProject ===== *)
-Q . S2P
Prelude.v
CStrings.v
Avl.v
Patterns.v
Libs.v
Schema.v
SchemaProps.v
UbusxAcl.v
WsubusClient.v
ClientTable.v
ClientProps.v
Rpc.v
PeerIO.v
AccessCheck.v
AccessReq.v
Session.v
SessionInv.v
SessionProps.v
Validation.v
UbusProxy.v
ProxyProps.v
ProxyConn.v
MergeProps.v
ProxySafety.v
EndToEnd.v
EventFlow.v
Mirror.v
Uproxyd.v
UproxydProps.v
HttpServe.v
WsHttp.v
DBus.v
DBusIo.v
Config.v
Main.v
Wsubus.v
DBusRpc.v
DBusRpcProps.v
DBusSession.v
DBusSessionProps.v
