(* ===== verification/Prelude.v ===== *)
(** * Verification of owsd

    owsd is a daemon that gives WebSocket clients access to the ubus of an
    OpenWrt box.  A client sends JSON-RPC requests (call, list, subscribe,
    subscribe-list, unsubscribe); the daemon checks each against a session of
    rpcd, the peer's TLS certificate or the interface's restrictions, does what
    it asks on the bus and sends the answer back.  The daemon is also a client:
    as a proxy ("ubusx") it connects to other owsd daemons, registers stubs of
    their objects on its own bus and forwards calls and events; the separate
    daemon uproxyd tells it which hosts to connect to.  It also serves the files
    of a web interface, and, when built with D-Bus, offers the objects of that
    bus too.  Each daemon runs in one thread, as callbacks of libwebsockets,
    libubus, libdbus and uloop.

    ** How the code is modelled

    Definitions keep the names of the C functions.  A function that only
    computes is a Rocq function; a function that changes the state of a
    component takes and returns that state, or is a program of the monad [M]
    below, whose [None] is a run that does not come back: a failed assertion,
    or the use of a freed or NULL pointer.  Objects on the C heap that callbacks
    share are kept in finite maps from their addresses, so that using one after
    it was freed is such a run.  Integers are [Z], with [u32], [s32] and [u64]
    where the width matters; C strings are [string].  Callbacks that can come in
    any order are the steps of a relation, with an invariant of the reachable
    states proved by induction on the steps.

    ** Files

    - Prelude: integers, the monad with its total ([wp]) and partial ([pwp])
      program logic and tactics, lemmas on lists.
    - CStrings: the functions of <string.h> the sources use.
    - Avl, Libs: the interfaces of libubox, json-c and libubus as type classes
      with the laws the code relies on, and instances that satisfy them
      ([list_avl], [ref_jsonc], [ref_libubox]).
    - Schema, SchemaProps: schema.c, the store of JSON schemas on a heap of its
      own; SchemaProps relates the heap to what the files describe.
    - Patterns, UbusxAcl: ubusx_acl.c, the list of the objects TLS peers may
      use, and its comparison of patterns.
    - WsubusClient, ClientTable, ClientProps: wsubus_client.c and the connection
      callbacks of ws_ubusproxy.c, the table of remote buses.  WsubusClient has
      the operations, ClientTable the step relation and its invariant,
      ClientProps the theorems.
    - Rpc: rpc.c, rpc_call.c, rpc_list.c, the parse functions of rpc_sub.c and
      util_jsonrpc.c.
    - PeerIO: the slots of proxied calls, the request limit, the ages of
      requests and the write queue of wsubus.impl.h.
    - AccessCheck: access_check.c, the decisions.
    - AccessReq: access_check.c, the handle of a check that is pending in uloop
      or in ubus, and the specification that it is called back once.
    - Session, SessionInv, SessionProps: one client of the daemon, from
      wsubus.c, rpc_call_ubus.h, rpc_list_ubus.h, rpc_sub.c and the rest of
      wsubus.impl.h.  Session has the state and the handlers, SessionInv the
      invariant with a lemma per handler, SessionProps the theorems.
    - Validation: util_json_validation.c and its hooks in wsubus.c and
      rpc_call_ubus.h, over the session of Session.
    - UbusProxy, ProxyProps: the connection to a remote bus, from
      ws_ubusproxy.c and local_stub.c.
    - ProxyConn: all connections to remote buses with the table of them, under the
      callback [ws_ubusproxy_cb] of ws_ubusproxy.c.
    - MergeProps: an answer to "list" when there are stubs already, compared with
      a reference that looks every object up, and the events about objects.
    - ProxySafety: every other message of a remote bus.
    - EndToEnd, EventFlow, Mirror: the proxy of one daemon and the session of
      another as the two ends of a connection: calls, events and the list of
      objects.
    - Uproxyd, UproxydProps: uproxyd.c, the daemon that follows the hosts of the
      router, with the methods of owsd it calls (wsubus_client.c).
    - HttpServe: ws_http_serve.c, the answer to a request for a file, as the
      calls it makes to libwebsockets.
    - WsHttp: ws_http.c, the descriptors libwebsockets wants polled, in the table
      of [struct prog_context] and in uloop (the interface [Uloop]).
    - DBus: dubus_conversions_names.c, dubus_conversions_types.c and util_dbus.c,
      names, types and values between ubus and D-Bus (the interface [LibDbus]).
    - DBusIo: dbus-io.c, the timers and watches of libdbus in uloop.
    - Config: config.c and the options and vhosts of main.c.
    - Main: the rest of main.c, what [main] takes and gives back.
    - Wsubus: the callback of the protocol in wsubus.c: the origin filter, the
      fragments of messages, and the clients that share the request limit.
    - DBusRpc, DBusRpcProps: rpc_call_dbus.h, rpc_list_dbus.c and the choice of
      the bus in rpc_call.c and rpc_list.c; the contexts of requests on D-Bus
      beside the session of Session.
    - DBusSession, DBusSessionProps: all clients of a build with D-Bus: the static
      list of subscriptions and the signals of rpc_sub.c, and the message
      handler, the cleaner and the end of a session of that build.

    ** What the theorems show

    - Sessions: in whatever order messages and the callbacks of the bus and of
      the checks come, which of them come back and keep the queues, the heap, the
      pending checks and the request counter consistent is decided exactly: all
      but a check that does not come back, a list without an id or with an
      argument type without a name, and the cleaner of stale requests and an
      unsubscription when they free what a pending check still uses.  From states
      so reached a call is made only after a positive check, every request that
      does not crash the daemon is answered once, and closing the connection
      leaves nothing behind.
    - Access: a check that is granted without rpcd was granted for a verified
      certificate and an allowed object, or for a login the interface permits;
      the session id a check is made for is the one that reaches rpcd; a check
      that is started is called back once with its decision, unless it is
      cancelled, and its handle is not used after it was freed.
    - Access list and path patterns: the trees, searched with a comparison that
      is no order, decide exactly the match of one of the stored patterns; a star
      at the end of an asked name counts as a wildcard.
    - Table of remote buses: the indexes stay in order over every sequence of
      configuration calls and connection callbacks; addresses, sockets, timers
      and states stay consistent exactly as long as no socket gets the address of
      a closed one that another client still names; the end of a connection takes
      all its stubs off the local bus.
    - Messages: the requests the proxy builds are parsed back by the daemon to
      the same values; dispatch and error codes on every branch.
    - Peer I/O: the bit mask of proxied calls is a set of 20 slots; the drain
      loop keeps the order of the text and comes back.
    - Proxy: the handshake registers exactly the wanted objects; an answer
      reaches the caller that waits for it and nobody else; the names and
      signatures of stubs.  A list that comes when there are stubs leaves exactly
      the stubs that looking up each of its objects gives; or the walk along the
      stubs runs off their end, and which lists make it do so is decided.  Any
      other message of a remote bus is handled, but for one with a null method.
    - Two daemons: a call on a stub is made on the far bus with the same object,
      method and message, and answered to its caller with the same data and
      status, or refused by the far access list, whatever else both daemons do;
      an event of the far bus is replayed, drops a stub or asks for the list if
      the access list lets it pass; the stubs made from the list of the far daemon
      have the methods and arguments of the objects it exposes.
    - uproxyd with owsd: the events of the router make owsd want exactly the
      hosts that are there, and the turns of the cleaner remove every client
      over the limit of reconnections, and none below it.
    - HTTP: a request is answered once, with the file it names (cut off after
      4095 bytes) or an encoded form of it, and never leaves a buffer; uloop
      watches exactly the descriptors libwebsockets asked for.
    - Start: the configuration file and the options describe the same ports,
      every vhost has the restrictions of its port, and a handshake is let in
      exactly if the configuration of its port says so; [main] comes back on every
      path and, after the event loop, has given everything back, the blocks it
      allocated for copies of ports included.
    - Validation: a call in the documented form is made exactly if the validator
      accepts it; the schemas found are those of the files, and flushing them
      frees all.  A call in another form is proved to pass the validator by.
    - Protocol: a message has the same effect however it is cut into fragments,
      if its object ends in the last one; otherwise the client is dropped.  The
      limits of all clients stay within the memory set aside, but each client may
      have one request more than its limit.
    - D-Bus: values keep their type and names their meaning on the way between
      the buses, a call goes to one bus and its reply is answered once in every
      order of events, a list asks for every object once and ends, as long as the
      bus has not refused to list its names: the context of a refused list is
      freed while it is linked, and unlinking a neighbour of it is proved not to
      come back; the timers of libdbus run as it wants; signals are watched exactly
      while somebody is subscribed, and reach the subscriptions they match.  A
      client that leaves while a list has just begun is proved to stop the daemon.

    ** Fuel and bounds

    Loops that are not structural have fuel, with a proof that it is enough:
    [strtok_loop] the length of the string, [mute_patterns] one more than the
    number of patterns, [call_foreach] the 20 slots, [nsec_down] and [nsec_up]
    two turns, as nanosecond fields are below a second, [advance] one more than
    the number of stubs, [clean_loop] one turn per client.  [reservice] is
    bounded by the source itself, [wsd_trigger_dispatch] ends when libdbus says
    so.  [serve_list] counts the answers of a bus: as many as there are objects
    are enough.  [drain_one] takes the results of [lws_write] as a list
    and stops when the list does; that it stops at all is a theorem about lists
    in which every call makes progress.  Strings compared as patterns are
    shorter than 2^31 bytes, because the code keeps their length in an int, and
    one connection to a remote bus makes fewer than 2^31 requests.

    ** What is not modelled

    The texts of usage and log messages; the constructor and destructor of
    rpc_list_dbus.c, which only call libxml2; the tests.  The text parsers and
    printers (json-c, blobmsg, libxml2), the validator of schemas, the sockets
    (libwebsockets), the buses, the file system and the clock are parameters, and
    memory allocation does not fail.  Session is a build without D-Bus and without
    validation; DBusSession and Validation are the builds with the one and the
    other.  Main takes the event loop as a parameter that keeps the list of
    ports.  Stubs and sockets get any address that is not in use; contexts of
    requests get addresses that were not used before, so that a use after free is
    always noticed.  In DBusSession the operations of ubus requests on the queue
    of a client are those of Session, which do not look at the neighbours.  The
    theorems on two daemons are about a peer with a certificate, and messages
    of strings, 32-bit integers, tables and arrays. *)

From stdpp Require Import base list gmap strings numbers sorting.

Set Default Proof Using "Type".

(** ** Machine integers

    C integers are [Z] with the wrap-around of their width written out. *)

Declare Scope owsd_scope.
Delimit Scope owsd_scope with owsd.
Open Scope Z_scope.

(** Conversion to [uint32_t] / [unsigned int]. *)
Definition u32 (z : Z) : Z := z mod 2 ^ 32.

(** Conversion to a 64-bit [size_t] / [unsigned long]. *)
Definition u64 (z : Z) : Z := z mod 2 ^ 64.

(** Conversion to [int] (two's complement, 32 bits). *)
Definition s32 (z : Z) : Z := (z + 2 ^ 31) mod 2 ^ 32 - 2 ^ 31.

Lemma u32_small z : 0 <= z < 2 ^ 32 -> u32 z = z.
Proof. intros. by apply Z.mod_small. Qed.

Lemma u64_small z : 0 <= z < 2 ^ 64 -> u64 z = z.
Proof. intros. by apply Z.mod_small. Qed.

Lemma s32_small z : - 2 ^ 31 <= z < 2 ^ 31 -> s32 z = z.
Proof. intros. unfold s32. rewrite Z.mod_small; lia. Qed.

Lemma s32_u32 z : - 2 ^ 31 <= z < 2 ^ 31 -> s32 (u32 z) = z.
Proof.
  intros Hz. unfold s32, u32. rewrite Zplus_mod_idemp_l. by apply s32_small.
Qed.

Lemma u32_s32 z : 0 <= z < 2 ^ 32 -> u32 (s32 z) = z.
Proof.
  intros Hz. unfold u32, s32. rewrite Zminus_mod_idemp_l.
  replace (z + 2 ^ 31 - 2 ^ 31) with z by lia. by apply Z.mod_small.
Qed.

Lemma u32_range z : 0 <= u32 z < 2 ^ 32.
Proof. apply Z.mod_pos_bound. lia. Qed.

Lemma u32_succ_pred z : u32 (u32 (z - 1) + 1) = u32 z.
Proof. unfold u32. rewrite Zplus_mod_idemp_l. f_equal. lia. Qed.

Lemma u32_pred_succ z : u32 (u32 (z + 1) - 1) = u32 z.
Proof. unfold u32. rewrite Zminus_mod_idemp_l. f_equal. lia. Qed.

(** ** A state monad with aborting runs

    [None] is a run that does not come back: a failed [assert], or a read
    through a pointer whose object was freed.  Everything else a handler
    does is a state change and a result. *)

Definition M (S A : Type) : Type := S -> option (A * S).

Definition M_ret {S A} (a : A) : M S A := fun s => Some (a, s).

Definition M_bind {S A B} (m : M S A) (f : A -> M S B) : M S B :=
  fun s => match m s with Some (a, s') => f a s' | None => None end.

Definition abort {S A} : M S A := fun _ => None.
Definition get {S} : M S S := fun s => Some (s, s).
Definition put {S} (s : S) : M S unit := fun _ => Some (tt, s).
Definition modify {S} (f : S -> S) : M S unit := fun s => Some (tt, f s).
Definition gets {S A} (f : S -> A) : M S A := fun s => Some (f s, s).
Definition deref {S A} (f : S -> option A) : M S A :=
  fun s => match f s with Some a => Some (a, s) | None => None end.
Definition assert_ {S} (b : bool) : M S unit :=
  fun s => if b then Some (tt, s) else None.

Notation "'let*' x ':=' m 'in' k" := (M_bind m (fun x => k))
  (at level 10, x binder, m at level 100, k at level 200)
  : owsd_scope.
Notation "m ';;;' k" := (M_bind m (fun _ => k))
  (at level 110, right associativity) : owsd_scope.
Notation "'when' b 'do' m" := (if b then m else M_ret tt)
  (at level 10, b at level 100, m at level 105) : owsd_scope.
Open Scope owsd_scope.

(** [forM_ l f] runs [f] on the elements of [l] in order. *)
Fixpoint forM_ {S A} (l : list A) (f : A -> M S unit) : M S unit :=
  match l with
  | [] => M_ret tt
  | a :: l' => f a ;;; forM_ l' f
  end.

(** Total weakest precondition: the run comes back, in [Q]. *)
Definition wp {S A} (m : M S A) (Q : A -> S -> Prop) (s : S) : Prop :=
  match m s with Some (a, s') => Q a s' | None => False end.

Section wp.
Context {S A B : Type}.
Implicit Types (s : S).

Lemma wp_ret (a : A) (Q : A -> S -> Prop) s : Q a s -> wp (M_ret a) Q s.
Proof. done. Qed.

Lemma wp_bind (m : M S A) (f : A -> M S B) (Q : B -> S -> Prop) s :
  wp m (fun a s' => wp (f a) Q s') s -> wp (M_bind m f) Q s.
Proof. unfold wp, M_bind. by destruct (m s) as [[??]|]. Qed.

Lemma wp_mono (m : M S A) (Q R : A -> S -> Prop) s :
  wp m Q s -> (forall a s', Q a s' -> R a s') -> wp m R s.
Proof. unfold wp. destruct (m s) as [[??]|]; eauto. Qed.

Lemma wp_get (Q : S -> S -> Prop) s : Q s s -> wp get Q s.
Proof. done. Qed.

Lemma wp_put s' (Q : unit -> S -> Prop) s : Q tt s' -> wp (put s') Q s.
Proof. done. Qed.

Lemma wp_modify f (Q : unit -> S -> Prop) s : Q tt (f s) -> wp (modify f) Q s.
Proof. done. Qed.

Lemma wp_gets (f : S -> A) (Q : A -> S -> Prop) s : Q (f s) s -> wp (gets f) Q s.
Proof. done. Qed.

Lemma wp_deref (f : S -> option A) a (Q : A -> S -> Prop) s :
  f s = Some a -> Q a s -> wp (deref f) Q s.
Proof. unfold wp, deref. by intros ->. Qed.

Lemma wp_assert b (Q : unit -> S -> Prop) s : b = true -> Q tt s -> wp (assert_ b) Q s.
Proof. unfold wp, assert_. by intros ->. Qed.

Lemma wp_run (m : M S A) (Q : A -> S -> Prop) s :
  wp m Q s <-> exists a s', m s = Some (a, s') /\ Q a s'.
Proof. unfold wp. destruct (m s) as [[a s']|]; split.
  - eauto.
  - by intros (? & ? & [= <- <-] & ?).
  - done.
  - by intros (? & ? & ? & ?). Qed.
End wp.

Lemma wp_forM {S A} (l : list A) (f : A -> M S unit) (I : list A -> S -> Prop) s :
  I l s ->
  (forall a l' s', I (a :: l') s' -> wp (f a) (fun _ => I l') s') ->
  wp (forM_ l f) (fun _ : unit => I []) s.
Proof.
  intros HI Hstep. revert s HI. induction l as [|a l IH]; intros s HI; [done|].
  cbn [forM_]. apply wp_bind. eapply wp_mono; [by apply Hstep|]. eauto.
Qed.

(** One symbolic step of a monadic program in a [wp] goal. *)
Ltac wp_step :=
  lazymatch goal with
  | |- wp (M_bind _ _) _ _ => apply wp_bind
  | |- wp (M_ret _) _ _ => apply wp_ret
  | |- wp get _ _ => apply wp_get
  | |- wp (put _) _ _ => apply wp_put
  | |- wp (modify _) _ _ => apply wp_modify
  | |- wp (gets _) _ _ => apply wp_gets
  end; cbn beta.
Ltac wp_steps := repeat wp_step.

(** Partial correctness: a run that comes back ends in [Q]. *)
Definition pwp {S A} (m : M S A) (Q : A -> S -> Prop) (s : S) : Prop :=
  forall a s', m s = Some (a, s') -> Q a s'.

Section pwp.
Context {S A B : Type}.
Implicit Types (s : S).

Lemma pwp_ret (a : A) (Q : A -> S -> Prop) s : Q a s -> pwp (M_ret a) Q s.
Proof. by intros ??? [= <- <-]. Qed.

Lemma pwp_bind (m : M S A) (f : A -> M S B) (Q : B -> S -> Prop) s :
  pwp m (fun a s' => pwp (f a) Q s') s -> pwp (M_bind m f) Q s.
Proof.
  unfold pwp, M_bind. intros Hm b s'. destruct (m s) as [[a s1]|]; [|done]. by apply Hm.
Qed.

Lemma pwp_mono (m : M S A) (Q R : A -> S -> Prop) s :
  pwp m Q s -> (forall a s', Q a s' -> R a s') -> pwp m R s.
Proof. unfold pwp. eauto. Qed.

Lemma pwp_abort (Q : A -> S -> Prop) s : pwp abort Q s.
Proof. done. Qed.

Lemma pwp_get (Q : S -> S -> Prop) s : Q s s -> pwp get Q s.
Proof. by intros ??? [= <- <-]. Qed.

Lemma pwp_modify f (Q : unit -> S -> Prop) s : Q tt (f s) -> pwp (modify f) Q s.
Proof. by intros ??? [= <- <-]. Qed.

Lemma pwp_gets (f : S -> A) (Q : A -> S -> Prop) s : Q (f s) s -> pwp (gets f) Q s.
Proof. by intros ??? [= <- <-]. Qed.

Lemma pwp_deref (f : S -> option A) (Q : A -> S -> Prop) s :
  (forall a, f s = Some a -> Q a s) -> pwp (deref f) Q s.
Proof. unfold pwp, deref. intros HQ a s'. destruct (f s); [|done]. intros [= <- <-]. auto. Qed.
End pwp.

(** Symbolic steps of a monadic program in a [pwp] goal. *)
Ltac pwp_step :=
  lazymatch goal with
  | |- pwp (M_bind _ _) _ _ => apply pwp_bind
  | |- pwp (M_ret _) _ _ => apply pwp_ret
  | |- pwp abort _ _ => apply pwp_abort
  | |- pwp get _ _ => apply pwp_get
  | |- pwp (modify _) _ _ => apply pwp_modify
  | |- pwp (gets _) _ _ => apply pwp_gets
  | |- pwp (deref _) _ _ => apply pwp_deref; intros ??
  | |- pwp (if ?b then _ else _) _ _ => destruct b eqn:?
  | |- pwp (match ?b with _ => _ end) _ _ => destruct b eqn:?
  end; cbn beta.
Ltac pwp_steps := repeat pwp_step.

(** A program keeps a predicate of the state, whatever it returns. *)
Definition preserves {S A} (P : S -> Prop) (m : M S A) : Prop :=
  forall s, P s -> pwp m (fun _ s' => P s') s.

Section preserves.
Context {S : Type} (P : S -> Prop).

Lemma preserves_ret {A} (a : A) : preserves P (M_ret a).
Proof. intros s Hs. by apply pwp_ret. Qed.

Lemma preserves_abort {A} : preserves P (abort (A := A)).
Proof. intros s Hs. by apply pwp_abort. Qed.

Lemma preserves_bind {A B} (m : M S A) (f : A -> M S B) :
  preserves P m -> (forall a, preserves P (f a)) -> preserves P (M_bind m f).
Proof. intros Hm Hf s Hs. apply pwp_bind. eapply pwp_mono; [by apply Hm|]. intros a s' Hs'. by apply Hf. Qed.

Lemma preserves_get : preserves P get.
Proof. intros s Hs. by apply pwp_get. Qed.

Lemma preserves_gets {A} (f : S -> A) : preserves P (gets f).
Proof. intros s Hs. by apply pwp_gets. Qed.

Lemma preserves_deref {A} (f : S -> option A) : preserves P (deref f).
Proof. intros s Hs. by apply pwp_deref. Qed.

Lemma preserves_assert b : preserves P (assert_ b).
Proof. intros s Hs [] s'. unfold assert_. destruct b; [by intros [= <-]|done]. Qed.

Lemma preserves_modify f : (forall s, P s -> P (f s)) -> preserves P (modify f).
Proof. intros Hf s Hs. by apply pwp_modify, Hf. Qed.

Lemma preserves_forM {A} (f : A -> M S unit) l : (forall a, preserves P (f a)) -> preserves P (forM_ l f).
Proof. intros Hf. induction l; cbn [forM_]; [apply preserves_ret|]. by apply preserves_bind. Qed.
End preserves.

(** Take a program apart along [preserves]; what a component's own state changes
    keep is for its own lemmas. *)
Ltac preserves_step :=
  lazymatch goal with
  | |- preserves _ (M_bind _ _) => apply preserves_bind; [|intros ?]
  | |- preserves _ (M_ret _) => apply preserves_ret
  | |- preserves _ abort => apply preserves_abort
  | |- preserves _ get => apply preserves_get
  | |- preserves _ (gets _) => apply preserves_gets
  | |- preserves _ (deref _) => apply preserves_deref
  | |- preserves _ (assert_ _) => apply preserves_assert
  | |- preserves _ (forM_ _ _) => apply preserves_forM; intros ?
  | |- preserves _ (match ?b with _ => _ end) => destruct b
  end; cbn beta.

(** ** Generic list lemmas *)

Section lists.
Context {A : Type}.
Implicit Types (l : list A).

Lemma Forall_StronglySorted_app (R : relation A) l1 l2 :
  StronglySorted R l1 -> StronglySorted R l2 ->
  (forall a b, a ∈ l1 -> b ∈ l2 -> R a b) -> StronglySorted R (l1 ++ l2).
Proof.
  induction 1 as [|a l1 Hs IH Hf]; simpl; [done|]. intros H2 Hc. constructor.
  - apply IH; [done|]. set_solver.
  - apply Forall_app; split; [done|]. apply Forall_forall. set_solver.
Qed.

Lemma StronglySorted_app_cross (R : relation A) l1 l2 a b :
  StronglySorted R (l1 ++ l2) -> a ∈ l1 -> b ∈ l2 -> R a b.
Proof.
  induction l1 as [|c l1 IH]; simpl; [set_solver|].
  intros Hs Ha Hb. inversion Hs as [|?? Hs' Hf]; subst.
  apply elem_of_cons in Ha as [->|Ha].
  - rewrite Forall_forall in Hf. apply Hf. set_solver.
  - by apply IH.
Qed.

Lemma StronglySorted_sub (R : relation A) l1 l2 :
  sublist l1 l2 -> StronglySorted R l2 -> StronglySorted R l1.
Proof.
  induction 1 as [|x l1 l2 Hsub IH|x l1 l2 Hsub IH]; intros Hs; [constructor| |].
  - inversion Hs as [|?? Hs' Hf]; subst. constructor; [auto|].
    rewrite !Forall_forall in *. intros y Hy. apply Hf.
    apply sublist_submseteq in Hsub. by eapply elem_of_submseteq.
  - inversion Hs; subst. auto.
Qed.

Lemma sublist_filter_mono (P : A -> Prop) `{!forall x, Decision (P x)} l1 l2 :
  l1 `sublist_of` l2 -> filter P l1 `sublist_of` filter P l2.
Proof.
  induction 1 as [|x l1 l2 _ IH|x l1 l2 _ IH]; [done|..]; rewrite !filter_cons; case_decide; auto using sublist.
Qed.

Lemma filter_ext_in (P Q : A -> Prop) `{!forall x, Decision (P x), !forall x, Decision (Q x)} l :
  (forall x, x ∈ l -> P x <-> Q x) -> filter P l = filter Q l.
Proof.
  induction l as [|x l IH]; intros Hl; [done|]. rewrite !filter_cons, IH by set_solver.
  specialize (Hl x ltac:(set_solver)). repeat case_decide; tauto.
Qed.

Lemma filter_all (P : A -> Prop) `{!forall x, Decision (P x)} l :
  (forall x, x ∈ l -> P x) -> filter P l = l.
Proof.
  induction l as [|x l IH]; intros Hl; [done|].
  rewrite filter_cons, decide_True, IH by set_solver. done.
Qed.

Lemma sublist_elem_of l1 l2 x : l1 `sublist_of` l2 -> x ∈ l1 -> x ∈ l2.
Proof. intros Hs%sublist_submseteq Hx. by eapply elem_of_submseteq. Qed.
End lists.

Create HintDb owsd.
Create Rewrite HintDb owsd.
#[export] Hint Resolve u32_range : owsd.
