(* ===== verification/CStrings.v ===== *)
(** * The C string functions the sources use

    A [char *] is the Rocq [string] of its bytes up to the terminating NUL.
    The comparison functions return a number of which, as in the C standard,
    only the sign means anything; [strstr] and [strchr] return the rest of
    the string from the match on, as the C functions return a pointer into
    it. *)

From Stdlib Require Import Ascii.
From stdpp Require Import base list strings numbers sets gmap.
From S2P Require Import Prelude.

Definition byte (c : Ascii.ascii) : Z := Z.of_N (Ascii.N_of_ascii c).

Definition strlen (s : string) : Z := Z.of_nat (String.length s).

(** The bytes of a string as a list, for membership statements. *)
Fixpoint chars (s : string) : list Ascii.ascii :=
  match s with EmptyString => [] | String c s' => c :: chars s' end.

Fixpoint strcmp (a b : string) : Z :=
  match a, b with
  | EmptyString, EmptyString => 0
  | EmptyString, String _ _ => -1
  | String _ _, EmptyString => 1
  | String x a', String y b' =>
      if byte x =? byte y then strcmp a' b' else byte x - byte y
  end.

Fixpoint strncmp (a b : string) (n : nat) : Z :=
  match n with
  | O => 0
  | S n' =>
      match a, b with
      | EmptyString, EmptyString => 0
      | EmptyString, String _ _ => -1
      | String _ _, EmptyString => 1
      | String x a', String y b' =>
          if byte x =? byte y then strncmp a' b' n' else byte x - byte y
      end
  end.

Definition tolower (c : Ascii.ascii) : Z :=
  if (65 <=? byte c) && (byte c <=? 90) then byte c + 32 else byte c.

Fixpoint strncasecmp (a b : string) (n : nat) : Z :=
  match n with
  | O => 0
  | S n' =>
      match a, b with
      | EmptyString, EmptyString => 0
      | EmptyString, String _ _ => -1
      | String _ _, EmptyString => 1
      | String x a', String y b' =>
          if tolower x =? tolower y then strncasecmp a' b' n'
          else tolower x - tolower y
      end
  end.

(** The first [n] bytes, and the bytes after them. *)
Fixpoint str_take (n : nat) (s : string) : string :=
  match n, s with
  | S n', String c s' => String c (str_take n' s')
  | _, _ => EmptyString
  end.

Fixpoint str_drop (n : nat) (s : string) : string :=
  match n, s with
  | S n', String _ s' => str_drop n' s'
  | _, _ => s
  end.

(** [strncat(dest, src, n)]: at most [n] bytes of [src] are appended. *)
Definition strncat (dest src : string) (n : nat) : string :=
  dest +:+ str_take n src.

(** [s] starts with [p]: [strstr(s, p) == s]. *)
Fixpoint starts_with (p s : string) : bool :=
  match p, s with
  | EmptyString, _ => true
  | String x p', String y s' => (byte x =? byte y) && starts_with p' s'
  | String _ _, EmptyString => false
  end.

(** [strstr(hay, needle)]: the suffix of [hay] at the first match. *)
Fixpoint strstr (hay needle : string) : option string :=
  if starts_with needle hay then Some hay
  else match hay with
       | EmptyString => None
       | String _ hay' => strstr hay' needle
       end.

(** [strchr(s, c)] for [c] other than NUL. *)
Fixpoint strchr (s : string) (c : Ascii.ascii) : option string :=
  match s with
  | EmptyString => None
  | String x s' => if byte x =? byte c then Some s else strchr s' c
  end.

(** The bytes before the first [c] (all of them when there is none). *)
Fixpoint before_chr (s : string) (c : Ascii.ascii) : string :=
  match s with
  | EmptyString => EmptyString
  | String x s' =>
      if byte x =? byte c then EmptyString else String x (before_chr s' c)
  end.

(** [s[strlen(s) - 1]], for a non-empty [s]. *)
Fixpoint last_byte (s : string) : option Ascii.ascii :=
  match s with
  | EmptyString => None
  | String c EmptyString => Some c
  | String _ s' => last_byte s'
  end.

(** Writing [to] over every [from], as the [strchr] loops of the sources do. *)
Fixpoint str_replace (from to : Ascii.ascii) (s : string) : string :=
  match s with
  | EmptyString => EmptyString
  | String c s' =>
      String (if byte c =? byte from then to else c) (str_replace from to s')
  end.

Definition is_delim (delims : string) (c : Ascii.ascii) : bool :=
  match strchr delims c with Some _ => true | None => false end.

(** [strtok_r]: skip delimiters, then the token up to the next delimiter and
    what is left after that delimiter. *)
Fixpoint skip_delims (delims s : string) : string :=
  match s with
  | EmptyString => EmptyString
  | String c s' => if is_delim delims c then skip_delims delims s' else s
  end.

Fixpoint token (delims s : string) : string * string :=
  match s with
  | EmptyString => (EmptyString, EmptyString)
  | String c s' =>
      if is_delim delims c then (EmptyString, s')
      else let '(t, r) := token delims s' in (String c t, r)
  end.

Definition strtok_r (s delims : string) : option (string * string) :=
  match skip_delims delims s with
  | EmptyString => None
  | s' => Some (token delims s')
  end.

(** The loop [for (t = strtok_r(s, d, &p); t; t = strtok_r(NULL, d, &p))];
    every call consumes at least one byte, so the length of [s] is enough
    fuel (see [strtok_loop_fuel]). *)
Fixpoint strtok_loop (fuel : nat) (s delims : string) : list string :=
  match fuel with
  | O => []
  | S f =>
      match strtok_r s delims with
      | None => []
      | Some (t, r) => t :: strtok_loop f r delims
      end
  end.

Definition strtok_all (s delims : string) : list string :=
  strtok_loop (S (String.length s)) s delims.

(** White space, as [isspace] has it in the C locale. *)
Definition whitespace : string :=
  String "009" (String "010" (String "011" (String "012" (String "013" " ")))).

(** The longest run of decimal digits and its value; [None] without a digit. *)
Fixpoint digits (s : string) (acc : option Z) : option Z * string :=
  match s with
  | EmptyString => (acc, s)
  | String c s' =>
      if (48 <=? byte c) && (byte c <=? 57)
      then digits s' (Some (10 * default 0 acc + (byte c - 48)))
      else (acc, s)
  end.

(** [strtol(s, &end, 10)]: the value, clamped to a 64-bit [long], and [end]. *)
Definition strtol10 (s : string) : Z * string :=
  let t := skip_delims whitespace s in
  let '(neg, t) := match t with
                   | String "-" t' => (true, t')
                   | String "+" t' => (false, t')
                   | _ => (false, t)
                   end in
  match digits t None with
  | (Some n, rest) => (Z.max (- 2 ^ 63) (Z.min (2 ^ 63 - 1) (if neg : bool then - n else n)), rest)
  | (None, _) => (0, s)
  end.

Definition atoi (s : string) : Z := s32 (strtol10 s).1.

(** ** Facts *)

Lemma str_app_cons c s t : String c s +:+ t = String c (s +:+ t).
Proof. done. Qed.

Lemma byte_range c : 0 <= byte c < 256.
Proof.
  unfold byte. pose proof (Ascii.N_ascii_bounded c). lia.
Qed.

Lemma byte_inj x y : byte x = byte y -> x = y.
Proof.
  unfold byte. intros H. apply N2Z.inj in H.
  by rewrite <- (Ascii.ascii_N_embedding x), <- (Ascii.ascii_N_embedding y), H.
Qed.

Lemma byte_eqb x y : (byte x =? byte y) = bool_decide (x = y).
Proof.
  case_bool_decide as H; [subst; apply Z.eqb_refl|].
  apply Z.eqb_neq. by intros ?%byte_inj.
Qed.

(** Case analysis on every byte comparison of the goal and the context. *)
Ltac byte_cases :=
  repeat match goal with
  | H : context [byte ?x =? byte ?y] |- _ =>
      rewrite (byte_eqb x y) in H; destruct (bool_decide_reflect (x = y)); subst
  | |- context [byte ?x =? byte ?y] =>
      rewrite (byte_eqb x y); destruct (bool_decide_reflect (x = y)); subst
  end.

Lemma byte_neq x y : x <> y -> byte x <> byte y.
Proof. by intros H ?%byte_inj. Qed.

(** Distinct characters have distinct bytes; then linear arithmetic. *)
Ltac byte_lia :=
  repeat match goal with
  | H : ?x <> ?y |- _ =>
      match type of x with Ascii.ascii => apply byte_neq in H end
  end; first [lia | exfalso; lia].

Lemma strcmp_refl a : strcmp a a = 0.
Proof. induction a as [|c a IH]; simpl; [done|]. by rewrite Z.eqb_refl. Qed.

Lemma strcmp_eq a b : strcmp a b = 0 <-> a = b.
Proof.
  split; [|intros ->; apply strcmp_refl].
  revert b. induction a as [|x a IH]; intros [|y b]; simpl; try done.
  byte_cases; [intros ?%IH; congruence|]. intros. byte_lia.
Qed.

Lemma strcmp_opp a b : Z.sgn (strcmp a b) = - Z.sgn (strcmp b a).
Proof.
  revert b. induction a as [|x a IH]; intros [|y b]; simpl; try done.
  rewrite (Z.eqb_sym (byte y)). byte_cases; [done|]. rewrite <- Z.sgn_opp. f_equal. lia.
Qed.

Lemma strcmp_trans a b c : strcmp a b < 0 -> strcmp b c < 0 -> strcmp a c < 0.
Proof.
  revert b c. induction a as [|x a IH]; intros [|y b] [|z c]; simpl; try lia.
  byte_cases; intros; try byte_lia. by eauto.
Qed.

Lemma starts_with_refl s : starts_with s s = true.
Proof. induction s as [|c s IH]; simpl; [done|]. by rewrite Z.eqb_refl. Qed.

Lemma starts_with_spec p s : starts_with p s = true <-> exists t, s = p +:+ t.
Proof.
  revert s. induction p as [|x p IH]; intros s; simpl.
  - split; [by exists s|done].
  - destruct s as [|y s].
    + split; [done|intros [t ?]; done].
    + rewrite andb_true_iff, IH, byte_eqb, bool_decide_eq_true. split.
      * intros [-> [t ->]]. by exists t.
      * intros [t [= -> ->]]. eauto.
Qed.

Lemma starts_with_trans a b c :
  starts_with a b = true -> starts_with b c = true -> starts_with a c = true.
Proof.
  revert b c. induction a as [|x a IH]; intros [|y b] [|z c]; simpl; try done.
  all: intros H1 H2; try discriminate.
  rewrite andb_true_iff, Z.eqb_eq in *. destruct H1, H2.
  split; [congruence|eauto].
Qed.

(** Two prefixes of one string are prefixes of one another. *)
Lemma starts_with_linear a b s :
  starts_with a s = true -> starts_with b s = true ->
  starts_with a b = true \/ starts_with b a = true.
Proof.
  revert b s. induction a as [|x a IH]; intros [|y b] [|z s]; simpl; auto.
  all: intros H1 H2; try discriminate.
  rewrite !andb_true_iff, !Z.eqb_eq in *. destruct H1, H2.
  destruct (IH b s); auto with congruence.
Qed.

Lemma starts_with_length a b :
  starts_with a b = true -> (String.length a <= String.length b)%nat.
Proof.
  revert b. induction a as [|x a IH]; intros [|y b]; simpl; try (done || lia).
  rewrite andb_true_iff. intros [_ ?%IH]. lia.
Qed.

Lemma starts_with_same_length a b :
  starts_with a b = true -> (String.length b <= String.length a)%nat -> a = b.
Proof.
  revert b. induction a as [|x a IH]; intros [|y b]; simpl; try (done || lia).
  rewrite andb_true_iff, byte_eqb, bool_decide_eq_true.
  intros [-> H] ?. f_equal. apply IH; [done|lia].
Qed.

(** [strncmp] up to the length of the first string is a prefix test. *)
Lemma strncmp_prefix a b :
  strncmp a b (String.length a) = 0 <-> starts_with a b = true.
Proof.
  revert b. induction a as [|x a IH]; intros b; simpl; [done|].
  destruct b as [|y b]; [done|].
  rewrite andb_true_iff, Z.eqb_eq, <- IH. byte_cases.
  - tauto.
  - split; intros; byte_lia.
Qed.

(** [strncmp] past the end of one string is an equality test. *)
Lemma strncmp_eqb a b n :
  (String.length b < n)%nat -> (strncmp a b n =? 0) = bool_decide (a = b).
Proof.
  revert a b. induction n as [|n IH]; intros [|x a] [|y b] Hn; simpl in *; try (done || lia).
  rewrite byte_eqb. case_bool_decide as E.
  - rewrite IH by lia. subst. apply bool_decide_ext. split; [by intros -> | by intros [=]].
  - rewrite bool_decide_eq_false_2 by (intros [=]; done). apply Z.eqb_neq. byte_lia.
Qed.

(** Where [strncmp] finds a difference, [strcmp] finds the same one. *)
Lemma strncmp_strcmp a b n : strncmp a b n <> 0 -> strncmp a b n = strcmp a b.
Proof.
  revert a b. induction n as [|n IH]; intros [|x a] [|y b]; simpl; try done.
  byte_cases; [apply IH|done].
Qed.

Lemma strncmp_opp a b n : Z.sgn (strncmp a b n) = - Z.sgn (strncmp b a n).
Proof.
  revert a b. induction n as [|n IH]; intros [|x a] [|y b]; simpl; try done.
  rewrite (Z.eqb_sym (byte y)). byte_cases; [done|]. rewrite <- Z.sgn_opp. f_equal. lia.
Qed.

(** Only the first [n] bytes matter to [strncmp ... n]. *)
Lemma strncmp_take_l m a b n :
  (n <= m)%nat -> strncmp (str_take m a) b n = strncmp a b n.
Proof.
  revert m a b. induction n as [|n IH]; intros [|m] [|x a] [|y b] ?; simpl; try (done || lia).
  byte_cases; [apply IH; lia|done].
Qed.

Lemma strncmp_take_r m a b n :
  (n <= m)%nat -> strncmp a (str_take m b) n = strncmp a b n.
Proof.
  revert m a b. induction n as [|n IH]; intros [|m] [|x a] [|y b] ?; simpl; try (done || lia).
  byte_cases; [apply IH; lia|done].
Qed.

(** A string between a prefix [p] of [b] and [b] itself also starts with [p]. *)
Lemma starts_with_convex p a b :
  starts_with p b = true -> strcmp p a <= 0 -> strcmp a b <= 0 ->
  starts_with p a = true.
Proof.
  revert a b. induction p as [|x p IH]; intros [|y a] [|z b]; simpl; try (done || lia).
  rewrite !andb_true_iff, !Z.eqb_eq. byte_cases; intros [? Hp] ??; eauto; byte_lia.
Qed.

Lemma starts_with_le p s : starts_with p s = true -> strcmp p s <= 0.
Proof.
  revert s. induction p as [|x p IH]; intros [|y s]; simpl; try (done || lia).
  rewrite andb_true_iff, Z.eqb_eq. intros [-> ?]. rewrite Z.eqb_refl. eauto.
Qed.

Lemma strcmp_gt_lt a b : 0 < strcmp a b <-> strcmp b a < 0.
Proof. pose proof (strcmp_opp a b). lia. Qed.

Lemma str_take_length n s :
  String.length (str_take n s) = Nat.min n (String.length s).
Proof. revert s. induction n; intros [|c s]; simpl; auto. Qed.

Lemma str_take_ge n s : (String.length s <= n)%nat -> str_take n s = s.
Proof.
  revert s. induction n as [|n IH]; intros [|c s]; simpl; try (done || lia).
  intros. f_equal. apply IH. lia.
Qed.

Lemma str_take_app n s t :
  (n <= String.length s)%nat -> str_take n (s +:+ t) = str_take n s.
Proof.
  revert s. induction n as [|n IH]; intros [|c s]; simpl; try done.
  all: try (intros; lia).
  - intros. change (String c s +:+ t) with (String c (s +:+ t)). simpl.
    f_equal. apply IH. lia.
Qed.

Lemma starts_with_take n s : starts_with (str_take n s) s = true.
Proof.
  revert s. induction n as [|n IH]; intros [|c s]; simpl; try done.
  by rewrite Z.eqb_refl, IH.
Qed.

Lemma strchr_is_Some s c : is_Some (strchr s c) <-> c ∈ chars s.
Proof.
  induction s as [|x s IH]; simpl.
  - split; [intros [? [=]]|set_solver].
  - byte_cases.
    + split; [intros _; apply elem_of_cons; auto | eauto].
    + rewrite IH, elem_of_cons. intuition congruence.
Qed.

Lemma is_delim_spec d c : is_delim d c = true <-> c ∈ chars d.
Proof.
  unfold is_delim. rewrite <- strchr_is_Some.
  destruct (strchr d c); split; intros H; try done; eauto; by destruct H.
Qed.

Lemma skip_delims_length d s :
  (String.length (skip_delims d s) <= String.length s)%nat.
Proof. induction s as [|c s IH]; simpl; [done|]. destruct (is_delim d c); simpl; lia. Qed.

Lemma skip_delims_head d s c s' :
  skip_delims d s = String c s' -> is_delim d c = false.
Proof.
  induction s as [|x s IH]; simpl; [done|].
  destruct (is_delim d x) eqn:E; [done|]. by intros [= <- <-].
Qed.

Lemma token_length d s :
  (String.length (token d s).2 <= String.length s - String.length (token d s).1)%nat
  /\ (String.length (token d s).1 <= String.length s)%nat.
Proof.
  induction s as [|c s IH]; simpl; [done|].
  destruct (is_delim d c); simpl; [lia|]. destruct (token d s); simpl in *. lia.
Qed.

(** Every token is non-empty and leaves strictly less to split. *)
Lemma strtok_r_progress s d t r :
  strtok_r s d = Some (t, r) ->
  (0 < String.length t)%nat /\ (String.length r < String.length s)%nat.
Proof.
  unfold strtok_r. destruct (skip_delims d s) as [|c s'] eqn:E; [done|].
  pose proof (skip_delims_head _ _ _ _ E) as Hc.
  pose proof (skip_delims_length d s) as Hl. rewrite E in Hl.
  pose proof (token_length d (String c s')) as Ht. simpl in *. rewrite Hc in *.
  destruct (token d s'); simpl in *. intros [= <- <-]. simpl. lia.
Qed.

(** More fuel than the length of the string changes nothing. *)
Lemma strtok_loop_fuel f f' s d :
  (String.length s < f)%nat -> (String.length s < f')%nat ->
  strtok_loop f s d = strtok_loop f' s d.
Proof.
  revert f' s. induction f as [|f IH]; intros [|f'] s ??; try lia. simpl.
  destruct (strtok_r s d) as [[t r]|] eqn:E; [|done].
  pose proof (strtok_r_progress _ _ _ _ E). f_equal. apply IH; lia.
Qed.

Lemma strtok_all_eq s d :
  strtok_all s d =
  match strtok_r s d with None => [] | Some (t, r) => t :: strtok_all r d end.
Proof.
  unfold strtok_all at 1. cbn [strtok_loop].
  destruct (strtok_r s d) as [[t r]|] eqn:E; [|done].
  pose proof (strtok_r_progress _ _ _ _ E). f_equal.
  unfold strtok_all. apply strtok_loop_fuel; lia.
Qed.

Lemma token_no_delim d s c : c ∈ chars (token d s).1 -> is_delim d c = false.
Proof.
  induction s as [|x s IH]; simpl; [set_solver|].
  destruct (is_delim d x) eqn:E; simpl; [set_solver|].
  destruct (token d s); simpl in *. rewrite elem_of_cons.
  intros [->|?]; [done|auto].
Qed.

(** The tokens are the non-empty delimiter-free pieces of the string. *)
Lemma strtok_all_tokens s d :
  Forall (fun t => t <> EmptyString /\ forall c, c ∈ chars t -> is_delim d c = false)
    (strtok_all s d).
Proof.
  remember (String.length s) as n eqn:Hn.
  revert s Hn. induction (lt_wf n) as [n _ IH]. intros s ->.
  rewrite strtok_all_eq. destruct (strtok_r s d) as [[t r]|] eqn:E; constructor.
  - split.
    + apply strtok_r_progress in E as [E _]. by destruct t; simpl in *; [lia|].
    + intros c. unfold strtok_r in E. destruct (skip_delims d s) as [|x s']; [done|].
      intros Hc. apply (token_no_delim d (String x s')).
      replace (token d (String x s')) with (t, r) by congruence. done.
  - eapply IH; [|done]. by apply strtok_r_progress in E as [_ ?].
Qed.

Lemma str_replace_length x y s : String.length (str_replace x y s) = String.length s.
Proof. induction s; simpl; auto. Qed.

Lemma str_replace_app x y s t :
  str_replace x y (s +:+ t) = str_replace x y s +:+ str_replace x y t.
Proof.
  induction s as [|c s IH]; [done|].
  change (String c s +:+ t) with (String c (s +:+ t)). simpl. by rewrite IH.
Qed.

Lemma str_replace_id x y s : x ∉ chars s -> str_replace x y s = s.
Proof.
  induction s as [|c s IH]; simpl; [done|]. rewrite not_elem_of_cons. intros [? ?].
  byte_cases; [done|]. by rewrite IH.
Qed.

(** Writing [y] over [x] and back is the identity on strings without [y]. *)
Lemma str_replace_inv x y s :
  y ∉ chars s -> str_replace y x (str_replace x y s) = s.
Proof.
  induction s as [|c s IH]; simpl; [done|]. rewrite not_elem_of_cons. intros [??].
  rewrite IH by done. f_equal. byte_cases; done.
Qed.

Lemma str_app_nil_r s : s +:+ "" = s.
Proof. induction s as [|c s IH]; [done|]. by rewrite str_app_cons, IH. Qed.

Lemma str_app_assoc a b c : (a +:+ b) +:+ c = a +:+ (b +:+ c).
Proof. induction a as [|x a IH]; [done|]. by rewrite !str_app_cons, IH. Qed.

Lemma str_app_length a b :
  String.length (a +:+ b) = (String.length a + String.length b)%nat.
Proof. induction a as [|x a IH]; [done|]. rewrite str_app_cons. simpl. by rewrite IH. Qed.

Lemma str_drop_app a b : str_drop (String.length a) (a +:+ b) = b.
Proof. induction a as [|x a IH]; [by destruct b|]. by rewrite str_app_cons. Qed.

#[export] Hint Resolve strcmp_refl starts_with_refl starts_with_take : owsd.
#[export] Hint Rewrite str_take_length str_app_length str_replace_length : owsd.

Lemma chars_app s t : chars (s +:+ t) = chars s ++ chars t.
Proof. induction s as [|c s IH]; [done|]. rewrite str_app_cons. simpl. by rewrite IH. Qed.

Lemma chars_length s : length (chars s) = String.length s.
Proof. induction s; simpl; auto. Qed.

Lemma str_take_le n s t : (n <= String.length s)%nat -> str_take n (s +:+ t) = str_take n s.
Proof.
  revert s. induction n as [|n IH]; intros [|c s] Hn; [done..|simpl in Hn; lia|].
  rewrite str_app_cons. simpl in *. by rewrite IH by lia.
Qed.

Lemma strstr_length hay needle r :
  strstr hay needle = Some r -> (String.length r <= String.length hay)%nat.
Proof.
  induction hay as [|c hay IH]; cbn [strstr]; destruct (starts_with _ _); intros E; simplify_eq/=; [lia..|].
  specialize (IH E). lia.
Qed.

(** [strstr(s, p) == s], as the sources test for a prefix. *)
Lemma strstr_prefix p s :
  match strstr s p with
  | Some r => (String.length r =? String.length s)%nat
  | None => false
  end = starts_with p s.
Proof.
  destruct s as [|c s]; cbn [strstr]; destruct (starts_with p _) eqn:E; rewrite ?Nat.eqb_refl; try done.
  destruct (strstr s p) as [r|] eqn:F; [|done]. apply strstr_length in F. apply Nat.eqb_neq. simpl. lia.
Qed.
