(* ===== verification/Avl.v ===== *)
(** * The libubox AVL tree, as an interface

    [libubox/avl.h] is not part of the repository: the operations are
    parameters.  A tree is the list of its keys in key order; the laws are
    what a search tree gives for a comparison function, with no assumption
    that the function is an order.  A search is only promised to find a match
    when the comparison of the wanted key with the keys of the tree is
    monotone, because a search tree descends by the sign of the comparison. *)

From stdpp Require Import base list strings numbers sets sorting.
From S2P Require Import Prelude CStrings.

Definition cmp_fn := string -> string -> Z.

(** Along the tree, key [k] is first above, then equal to, then below. *)
Definition search_mono (cmp : cmp_fn) (k : string) (l : list string) : Prop :=
  exists l1 lm l2, l = l1 ++ lm ++ l2 /\
    Forall (fun e => 0 < cmp k e) l1 /\
    Forall (fun e => cmp k e = 0) lm /\
    Forall (fun e => cmp k e < 0) l2.

Class AvlTree := {
  (** [avl_find(tree, key)] *)
  avl_find : cmp_fn -> list string -> string -> option string;
  (** [avl_find_ge_element]: the first key not below the wanted one *)
  avl_find_ge : cmp_fn -> list string -> string -> option string;
  (** [avl_insert(tree, node)] on a tree without duplicates; [None] is -1 *)
  avl_insert : cmp_fn -> list string -> string -> option (list string);
  (** [avl_delete(tree, node)]: the keys of a tree without duplicates are
      distinct, so a node is named by its key *)
  avl_delete : list string -> string -> list string;

  avl_find_sound cmp l k e :
    avl_find cmp l k = Some e -> e ∈ l /\ cmp k e = 0;
  avl_find_complete cmp l k :
    search_mono cmp k l -> (exists e, e ∈ l /\ cmp k e = 0) ->
    is_Some (avl_find cmp l k);
  avl_find_ge_split cmp l1 l2 k :
    Forall (fun e => 0 < cmp k e) l1 -> Forall (fun e => cmp k e <= 0) l2 ->
    avl_find_ge cmp (l1 ++ l2) k = head l2;
  avl_insert_new cmp l1 l2 k :
    Forall (fun e => 0 < cmp k e) l1 -> Forall (fun e => cmp k e < 0) l2 ->
    avl_insert cmp (l1 ++ l2) k = Some (l1 ++ k :: l2);
  avl_insert_dup cmp l k :
    search_mono cmp k l -> (exists e, e ∈ l /\ cmp k e = 0) ->
    avl_insert cmp l k = None;
  avl_delete_spec l k : avl_delete l k = filter (fun e => e <> k) l;
}.

(** ** The laws can hold: a sorted list searched from the left *)

Fixpoint list_find (cmp : cmp_fn) (l : list string) (k : string) : option string :=
  match l with
  | [] => None
  | e :: l' => if cmp k e =? 0 then Some e else list_find cmp l' k
  end.

Fixpoint list_find_ge (cmp : cmp_fn) (l : list string) (k : string) : option string :=
  match l with
  | [] => None
  | e :: l' => if cmp k e <=? 0 then Some e else list_find_ge cmp l' k
  end.

Fixpoint list_insert (cmp : cmp_fn) (l : list string) (k : string) : option (list string) :=
  match l with
  | [] => Some [k]
  | e :: l' =>
      if cmp k e =? 0 then None
      else if cmp k e <? 0 then Some (k :: e :: l')
      else (cons e) <$> list_insert cmp l' k
  end.

Lemma list_find_sound cmp l k e :
  list_find cmp l k = Some e -> e ∈ l /\ cmp k e = 0.
Proof.
  induction l as [|x l IH]; simpl; [done|]. case_match eqn:E.
  - intros [= ->]. apply Z.eqb_eq in E. split; [apply elem_of_cons; auto | done].
  - intros [??]%IH. split; [apply elem_of_cons; auto | done].
Qed.

Lemma list_find_complete cmp l k :
  (exists e, e ∈ l /\ cmp k e = 0) -> is_Some (list_find cmp l k).
Proof.
  intros (e & He & H0). induction l as [|x l IH]; [by apply elem_of_nil in He|].
  simpl. case_match eqn:E; [eauto|].
  apply elem_of_cons in He as [->|He]; [|auto]. by rewrite H0 in E.
Qed.

Lemma list_find_ge_split cmp l1 l2 k :
  Forall (fun e => 0 < cmp k e) l1 -> Forall (fun e => cmp k e <= 0) l2 ->
  list_find_ge cmp (l1 ++ l2) k = head l2.
Proof.
  induction 1 as [|x l1 Hx _ IH]; simpl.
  - intros H2. destruct H2 as [|y l2 Hy]; simpl; [done|]. by rewrite (proj2 (Z.leb_le _ _)).
  - rewrite (proj2 (Z.leb_gt _ _)) by lia. done.
Qed.

Lemma list_insert_new cmp l1 l2 k :
  Forall (fun e => 0 < cmp k e) l1 -> Forall (fun e => cmp k e < 0) l2 ->
  list_insert cmp (l1 ++ l2) k = Some (l1 ++ k :: l2).
Proof.
  induction 1 as [|x l1 Hx _ IH]; simpl.
  - intros H2. destruct H2 as [|y l2 Hy]; simpl; [done|].
    rewrite (proj2 (Z.eqb_neq _ _)) by lia. by rewrite (proj2 (Z.ltb_lt _ _)).
  - intros H2. rewrite (proj2 (Z.eqb_neq _ _)) by lia.
    rewrite (proj2 (Z.ltb_ge _ _)) by lia. by rewrite IH.
Qed.

Lemma list_insert_dup cmp l k :
  search_mono cmp k l -> (exists e, e ∈ l /\ cmp k e = 0) -> list_insert cmp l k = None.
Proof.
  intros (l1 & lm & l2 & -> & H1 & Hm & H2) (e & He & H0).
  induction H1 as [|x l1 Hx H1 IH]; simpl in *.
  - destruct Hm as [|y lm Hy Hm]; simpl in *.
    + rewrite Forall_forall in H2. apply H2 in He. lia.
    + by rewrite Hy.
  - rewrite (proj2 (Z.eqb_neq _ _)) by lia.
    rewrite (proj2 (Z.ltb_ge _ _)) by lia.
    rewrite IH; [done|]. apply elem_of_cons in He as [->|He]; [lia|done].
Qed.

Program Definition list_avl : AvlTree := {|
  avl_find := list_find;
  avl_find_ge := list_find_ge;
  avl_insert := list_insert;
  avl_delete := fun l k => filter (fun e => e <> k) l;
|}.
Next Obligation. apply list_find_sound. Qed.
Next Obligation. intros; by apply list_find_complete. Qed.
Next Obligation. apply list_find_ge_split. Qed.
Next Obligation. apply list_insert_new. Qed.
Next Obligation. apply list_insert_dup. Qed.
Next Obligation. done. Qed.

(** ** Trees ordered by [strcmp] *)

Definition key_lt (a b : string) : Prop := strcmp a b < 0.

Lemma sorted_NoDup l : StronglySorted key_lt l -> NoDup l.
Proof.
  induction 1 as [|k l _ IH Hk]; constructor; [|done]. intros Hin.
  rewrite Forall_forall in Hk. specialize (Hk k Hin). unfold key_lt in Hk.
  rewrite strcmp_refl in Hk. lia.
Qed.

(** A new key splits the sorted keys. *)
Lemma sorted_split k l :
  StronglySorted key_lt l -> k ∉ l ->
  exists l1 l2, l = l1 ++ l2 /\ Forall (fun e => 0 < strcmp k e) l1 /\ Forall (fun e => strcmp k e < 0) l2.
Proof.
  induction 1 as [|e l Hs IH He]; intros Hk; [by exists [], []|].
  destruct (Z_lt_ge_dec (strcmp k e) 0) as [Hlt|Hge].
  - exists [], (e :: l). split_and!; [done..|]. constructor; [done|].
    eapply Forall_impl; [exact He|]. intros x Hx. by eapply strcmp_trans.
  - destruct IH as (l1 & l2 & -> & H1 & H2); [set_solver|].
    exists (e :: l1), l2. split_and!; [done| |done]. constructor; [|done].
    assert (strcmp k e <> 0) by (rewrite strcmp_eq; set_solver). lia.
Qed.

(** Inserting a key: refused if it is there, else between its neighbours. *)
Lemma avl_insert_sorted `{AvlTree} l k :
  StronglySorted key_lt l ->
  match avl_insert strcmp l k with
  | Some l' => (k ∉ l) /\ StronglySorted key_lt l' /\ exists l1 l2, l = l1 ++ l2 /\ l' = l1 ++ k :: l2
  | None => k ∈ l
  end.
Proof.
  intros Hs. destruct (decide (k ∈ l)) as [Hk|Hk].
  - rewrite avl_insert_dup; [done| |by exists k; rewrite strcmp_refl].
    apply list_elem_of_split in Hk as (l1 & l2 & ->). exists l1, [k], l2. split_and!; [done|..].
    + apply Forall_forall. intros x Hx. apply strcmp_gt_lt, (StronglySorted_app_cross key_lt _ _ x k Hs); set_solver.
    + by repeat constructor; rewrite strcmp_refl.
    + apply Forall_forall. intros x Hx.
      rewrite cons_middle, app_assoc in Hs. apply (StronglySorted_app_cross key_lt _ _ k x Hs); set_solver.
  - destruct (sorted_split k l Hs Hk) as (l1 & l2 & -> & H1 & H2). rewrite (avl_insert_new _ _ _ _ H1 H2).
    split; [done|]. split; [|by exists l1, l2]. apply Forall_StronglySorted_app.
    + eapply StronglySorted_sub; [|exact Hs]. by apply sublist_inserts_r.
    + constructor; [|exact H2]. eapply StronglySorted_sub; [|exact Hs]. by apply sublist_inserts_l.
    + intros x y Hx Hy. unfold key_lt. apply elem_of_cons in Hy as [->|Hy].
      * apply strcmp_gt_lt. rewrite Forall_forall in H1. auto.
      * eapply (StronglySorted_app_cross key_lt); eauto.
Qed.
