(* ===== verification/Patterns.v ===== *)
(** * Wildcard object patterns

    [ubus_object_path_compare] (ubusx_acl.c) and [client_path_comp]
    (wsubus_client.c) are the same function: the comparison function of the
    two AVL trees of patterns.  It is not an order, since ["a*"] compares
    equal to both ["ab"] and ["ac"].  This file shows what makes a search
    tree work with it all the same: where it is not zero its sign is the sign
    of a lexicographic order on the patterns without their ['*'], and
    matching is convex in that order, so that in a tree whose patterns do not
    match one another the patterns that match a wanted name are contiguous
    ([search_mono_sorted]). *)

From stdpp Require Import base list strings numbers sorting sets gmap.
From Stdlib Require Import Ascii.
From S2P Require Import Prelude CStrings Avl.

(** [pattern[len - 1] == '*'] *)
Definition wildcard (p : string) : bool :=
  match last_byte p with Some c => byte c =? byte "*"%char | None => false end.

(** ubusx_acl.c, [ubus_object_path_compare]: the difference of the two
    [size_t] lengths is converted to [int] by the return. *)
Definition ubus_object_path_compare (pattern1 pattern2 : string) : Z :=
  let len1 := String.length pattern1 in
  let len2 := String.length pattern2 in
  if (len1 =? 0)%nat || (len2 =? 0)%nat then s32 (Z.of_nat len1 - Z.of_nat len2)
  else
    let p1_wildcard := wildcard pattern1 in
    let p2_wildcard := wildcard pattern2 in
    if negb p1_wildcard && negb p2_wildcard then strcmp pattern1 pattern2
    else if negb (Bool.eqb p1_wildcard p2_wildcard) then
      strncmp pattern1 pattern2 ((if p1_wildcard then len1 else len2) - 1)
    else strncmp pattern1 pattern2 ((if (len1 <? len2)%nat then len1 else len2) - 1).

(** wsubus_client.c, [client_path_comp]: the same text. *)
Definition client_path_comp : cmp_fn := ubus_object_path_compare.

Abbreviation pcmp := ubus_object_path_compare.

(** C strings shorter than 2 GiB, so that a length fits an [int]. *)
Definition short (s : string) : Prop := strlen s < 2 ^ 31.

(** ** The order behind the comparison *)

Definition strip (p : string) : string :=
  if wildcard p then str_take (String.length p - 1) p else p.

Definition pkey (p : string) : option string :=
  match p with EmptyString => None | _ => Some (strip p) end.

Definition kcmp (a b : option string) : Z :=
  match a, b with
  | None, None => 0
  | None, Some _ => -1
  | Some _, None => 1
  | Some a, Some b => strcmp a b
  end.

(** What a zero result means. *)
Definition pmatch (a b : string) : Prop :=
  match pkey a, pkey b with
  | None, None => True
  | Some a', Some b' =>
      match wildcard a, wildcard b with
      | false, false => a' = b'
      | true, false => starts_with a' b' = true
      | false, true => starts_with b' a' = true
      | true, true => starts_with a' b' = true \/ starts_with b' a' = true
      end
  | _, _ => False
  end.

Lemma kcmp_trans a b c : kcmp a b < 0 -> kcmp b c < 0 -> kcmp a c < 0.
Proof. destruct a, b, c; simpl; try lia. apply strcmp_trans. Qed.

Lemma kcmp_opp a b : Z.sgn (kcmp a b) = - Z.sgn (kcmp b a).
Proof. destruct a, b; try done. apply strcmp_opp. Qed.

Lemma strip_length p :
  String.length (strip p) = if wildcard p then (String.length p - 1)%nat else String.length p.
Proof.
  unfold strip. destruct (wildcard p); [|done]. rewrite str_take_length. lia.
Qed.

Lemma strip_plain p : wildcard p = false -> strip p = p.
Proof. unfold strip. by intros ->. Qed.

Lemma pkey_nonempty p : p <> "" -> pkey p = Some (strip p).
Proof. by destruct p. Qed.

Lemma length_zero p : (String.length p =? 0)%nat = true <-> p = "".
Proof. rewrite Nat.eqb_eq. by destruct p. Qed.

(** The comparison of two non-empty patterns, on the stripped strings. *)
Lemma pcmp_nonempty a b :
  a <> "" -> b <> "" ->
  pcmp a b =
    match wildcard a, wildcard b with
    | false, false => strcmp (strip a) (strip b)
    | true, false => strncmp (strip a) (strip b) (String.length (strip a))
    | false, true => strncmp (strip a) (strip b) (String.length (strip b))
    | true, true =>
        strncmp (strip a) (strip b)
          (Nat.min (String.length (strip a)) (String.length (strip b)))
    end.
Proof.
  intros Ha Hb. rewrite !strip_length. unfold ubus_object_path_compare.
  destruct (_ || _) eqn:E; [apply orb_true_iff in E as [E|E]; by apply length_zero in E|].
  unfold strip. destruct (wildcard a), (wildcard b); simpl; try done.
  - rewrite strncmp_take_l, strncmp_take_r by lia. f_equal.
    destruct (Nat.ltb_spec (String.length a) (String.length b)); lia.
  - by rewrite strncmp_take_l.
  - by rewrite strncmp_take_r.
Qed.

Lemma pcmp_empty a b :
  short a -> short b -> a = "" \/ b = "" -> Z.sgn (pcmp a b) = Z.sgn (kcmp (pkey a) (pkey b)).
Proof.
  unfold ubus_object_path_compare, short, strlen. intros Ha Hb Hab.
  assert ((String.length a =? 0)%nat || (String.length b =? 0)%nat = true) as ->.
  { apply orb_true_iff. rewrite !length_zero. tauto. }
  rewrite s32_small by lia.
  destruct a, b; simpl; try lia; destruct Hab; done.
Qed.

(** Where the comparison is not zero it follows the lexicographic order. *)
Lemma pcmp_sign a b :
  short a -> short b -> pcmp a b <> 0 -> Z.sgn (pcmp a b) = Z.sgn (kcmp (pkey a) (pkey b)).
Proof.
  intros Ha Hb H. destruct (decide (a = "" \/ b = "")) as [E|E]; [by apply pcmp_empty|].
  assert (a <> "" /\ b <> "") as [Na Nb] by tauto. clear E.
  rewrite (pkey_nonempty a), (pkey_nonempty b) by done. simpl.
  revert H. rewrite pcmp_nonempty by done.
  destruct (wildcard a), (wildcard b); intros H; f_equal; try by apply strncmp_strcmp.
Qed.

Lemma strncmp_prefix_r a b :
  strncmp a b (String.length b) = 0 <-> starts_with b a = true.
Proof.
  rewrite <- strncmp_prefix. pose proof (strncmp_opp a b (String.length b)). lia.
Qed.

Lemma pcmp_match a b : short a -> short b -> pcmp a b = 0 <-> pmatch a b.
Proof.
  intros Ha Hb. destruct (decide (a = "" \/ b = "")) as [E|E].
  - pose proof (pcmp_empty a b Ha Hb E) as H. unfold pmatch.
    destruct a, b; simpl in *; destruct E; try done; lia.
  - assert (a <> "" /\ b <> "") as [Na Nb] by tauto. clear E. unfold pmatch.
    rewrite (pkey_nonempty a), (pkey_nonempty b), pcmp_nonempty by done.
    destruct (wildcard a), (wildcard b).
    + destruct (Nat.min_spec (String.length (strip a)) (String.length (strip b)))
        as [[Hl ->]|[Hl ->]].
      * rewrite strncmp_prefix. split; [auto|]. intros [?|H]; [done|].
        apply starts_with_length in H. lia.
      * rewrite strncmp_prefix_r. split; [auto|]. intros [H|?]; [|done].
        apply starts_with_same_length in H as ->; [apply starts_with_refl|lia].
    + apply strncmp_prefix.
    + apply strncmp_prefix_r.
    + apply strcmp_eq.
Qed.

Lemma pmatch_sym a b : pmatch a b -> pmatch b a.
Proof.
  unfold pmatch. destruct (pkey a), (pkey b); try done.
  destruct (wildcard a), (wildcard b); try done; tauto.
Qed.

Lemma pmatch_refl a : pmatch a a.
Proof.
  unfold pmatch. destruct (pkey a); [|done]. destruct (wildcard a); auto using starts_with_refl.
Qed.

Lemma pcmp_opp a b : short a -> short b -> Z.sgn (pcmp a b) = - Z.sgn (pcmp b a).
Proof.
  intros Ha Hb. destruct (decide (pcmp a b = 0)) as [H|H].
  - rewrite H. apply pcmp_match, pmatch_sym, pcmp_match in H; [|done..]. by rewrite H.
  - assert (pcmp b a <> 0).
    { intros H'. apply H. apply pcmp_match, pmatch_sym, pcmp_match in H'; done. }
    rewrite (pcmp_sign a b), (pcmp_sign b a) by done. apply kcmp_opp.
Qed.

(** ** Convexity of matching *)

Lemma pmatch_convex_l k a b :
  kcmp (pkey k) (pkey a) < 0 -> kcmp (pkey a) (pkey b) < 0 -> pmatch k b -> pmatch k a.
Proof.
  unfold pmatch. destruct (pkey k) as [k'|], (pkey a) as [a'|], (pkey b) as [b'|]; simpl; try lia.
  intros Hka Hab. pose proof (strcmp_trans _ _ _ Hka Hab) as Hkb.
  assert (starts_with k' b' = true -> starts_with k' a' = true) as Hcv.
  { intros. apply (starts_with_convex k' a' b'); [done|lia..]. }
  assert (starts_with b' k' = true -> False) as Hno.
  { intros Hs%starts_with_le. apply strcmp_gt_lt in Hkb. lia. }
  destruct (wildcard k), (wildcard b), (wildcard a); try (intros [?|?] || intros ?);
    subst; try tauto; try (by left; auto); try (exfalso; lia || tauto);
    try (rewrite strcmp_refl in *; lia); auto.
Qed.

Lemma pmatch_convex_r k a b :
  kcmp (pkey a) (pkey b) < 0 -> kcmp (pkey b) (pkey k) < 0 -> pmatch k a -> pmatch a b.
Proof.
  intros Hab Hbk Hm. apply pmatch_sym in Hm. by apply (pmatch_convex_l a b k).
Qed.

Definition pat_lt (a b : string) : Prop := pcmp a b < 0.

(** The invariant of the two pattern trees. *)
Definition tree_wf (l : list string) : Prop :=
  Forall short l /\ StronglySorted pat_lt l.

Lemma pat_lt_kcmp a b : short a -> short b -> pat_lt a b -> kcmp (pkey a) (pkey b) < 0.
Proof.
  unfold pat_lt. intros Ha Hb H. pose proof (pcmp_sign a b Ha Hb). lia.
Qed.

Lemma pcmp_lt_mono k a b :
  short k -> short a -> short b -> pat_lt a b -> pcmp k a < 0 -> pcmp k b < 0.
Proof.
  intros Hk Ha Hb Hab Hka.
  pose proof (pat_lt_kcmp a b Ha Hb Hab) as Kab. pose proof (pat_lt_kcmp k a Hk Ha Hka) as Kka.
  pose proof (kcmp_trans _ _ _ Kka Kab) as Kkb.
  destruct (decide (pcmp k b = 0)) as [E|E].
  - apply pcmp_match in E; [|done..]. apply (pmatch_convex_l k a b) in E; [|done..].
    apply pcmp_match in E; [lia|done..].
  - pose proof (pcmp_sign k b Hk Hb E). lia.
Qed.

Lemma pcmp_gt_mono k a b :
  short k -> short a -> short b -> pat_lt a b -> 0 < pcmp k b -> 0 < pcmp k a.
Proof.
  intros Hk Ha Hb Hab Hkb.
  pose proof (pat_lt_kcmp a b Ha Hb Hab) as Kab.
  assert (pat_lt b k) as Hbk by (unfold pat_lt; pose proof (pcmp_opp k b Hk Hb); lia).
  pose proof (pat_lt_kcmp b k Hb Hk Hbk) as Kbk.
  pose proof (kcmp_trans _ _ _ Kab Kbk) as Kak.
  destruct (decide (pcmp k a = 0)) as [E|E].
  - apply pcmp_match in E; [|done..]. apply (pmatch_convex_r k a b) in E; [|done..].
    apply pcmp_match in E; [|done..]. unfold pat_lt in Hab. lia.
  - pose proof (pcmp_sign k a Hk Ha E). pose proof (kcmp_opp (pkey a) (pkey k)). lia.
Qed.

(** In a well-formed tree every search is monotone. *)
Lemma search_mono_sorted k l : short k -> tree_wf l -> search_mono pcmp k l.
Proof.
  intros Hk [Hsh Hs]. induction Hs as [|e l Hs IH Hlt].
  { exists [], [], []. repeat split; constructor. }
  inversion Hsh as [|?? He Hl]; subst. rewrite Forall_forall in Hlt, Hl.
  destruct (IH ltac:(by apply Forall_forall)) as (l1 & lm & l2 & -> & H1 & Hm & H2).
  destruct (Z.lt_trichotomy (pcmp k e) 0) as [E|[E|E]].
  - exists [], [], (e :: l1 ++ lm ++ l2). repeat split; try constructor; try done.
    apply Forall_forall. intros x Hx. by apply (pcmp_lt_mono k e x); auto.
  - assert (l1 = []) as ->.
    { destruct l1 as [|x l1]; [done|]. inversion H1; subst.
      assert (x ∈ (x :: l1) ++ lm ++ l2) by set_solver.
      assert (0 < pcmp k e); [|lia]. apply (pcmp_gt_mono k e x); auto. }
    exists [], (e :: lm), l2. repeat split; try done. by constructor.
  - exists (e :: l1), lm, l2. repeat split; try done. by constructor.
Qed.

(** ** What the wanted name matches *)

(** A name that is not a pattern itself: an object path. *)
Lemma pmatch_name p name :
  name <> "" -> wildcard name = false ->
  pmatch name p <->
  p <> "" /\ (if wildcard p then starts_with (strip p) name = true else p = name).
Proof.
  intros Hn Hw. unfold pmatch. rewrite (pkey_nonempty name) by done.
  rewrite (strip_plain name), Hw by done.
  destruct (decide (p = "")) as [->|Hp]; [simpl; split; [done|by intros [? _]]|].
  rewrite (pkey_nonempty p) by done.
  destruct (wildcard p) eqn:E; [tauto|].
  rewrite (strip_plain p) by done. split; [by intros ->|by intros [_ ->]].
Qed.

(** Pattern [p] fits the asked [name], which may end in a star itself; [strip]
    takes that star away. *)
Definition pattern_fits (p name : string) : Prop :=
  (name = "" <-> p = "") /\
  match wildcard p, wildcard name with
  | false, false => p = name
  | true, false => starts_with (strip p) name = true
  | false, true => starts_with (strip name) p = true
  | true, true => starts_with (strip p) (strip name) = true \/ starts_with (strip name) (strip p) = true
  end.

Lemma pmatch_iff name p : pmatch name p <-> pattern_fits p name.
Proof.
  unfold pmatch, pattern_fits. destruct (decide (name = "")) as [->|Hn], (decide (p = "")) as [->|Hp].
  - done.
  - rewrite (pkey_nonempty p) by done. simpl. tauto.
  - rewrite (pkey_nonempty name) by done. simpl. tauto.
  - rewrite (pkey_nonempty name), (pkey_nonempty p) by done.
    destruct (wildcard name) eqn:En, (wildcard p) eqn:Ep; rewrite ?(strip_plain name), ?(strip_plain p) by done;
      intuition congruence.
Qed.

(** ** Searching and inserting in a well-formed tree *)

Section tree.
Context `{AvlTree}.

Lemma avl_find_match l k :
  tree_wf l -> short k ->
  is_Some (avl_find pcmp l k) <-> exists e, e ∈ l /\ pmatch k e.
Proof.
  intros Hwf Hk. assert (forall e, e ∈ l -> pcmp k e = 0 <-> pmatch k e) as Hm.
  { intros e He. apply pcmp_match; [done|]. destruct Hwf as [Hs _].
    rewrite Forall_forall in Hs. auto. }
  split.
  - intros [e He]. apply avl_find_sound in He as [??]. exists e. split; [done|by apply Hm].
  - intros (e & He & Hp). apply avl_find_complete; [by apply search_mono_sorted|].
    exists e. split; [done|by apply Hm].
Qed.

Lemma avl_find_none l k :
  tree_wf l -> short k -> avl_find pcmp l k = None <-> forall e, e ∈ l -> ~ pmatch k e.
Proof.
  intros Hwf Hk. rewrite eq_None_not_Some, avl_find_match by done. naive_solver.
Qed.

Lemma avl_insert_match l k e :
  tree_wf l -> short k -> e ∈ l -> pmatch k e -> avl_insert pcmp l k = None.
Proof.
  intros Hwf Hk He Hp. apply avl_insert_dup; [by apply search_mono_sorted|].
  exists e. split; [done|]. apply pcmp_match; try done. destruct Hwf as [Hs _].
  rewrite Forall_forall in Hs. auto.
Qed.

Lemma avl_insert_nomatch l k :
  tree_wf l -> short k -> (forall e, e ∈ l -> ~ pmatch k e) ->
  exists l', avl_insert pcmp l k = Some l' /\ tree_wf l' /\
    forall x, x ∈ l' <-> x = k \/ x ∈ l.
Proof.
  intros Hwf Hk Hno. destruct (search_mono_sorted k l Hk Hwf)
    as (l1 & lm & l2 & -> & H1 & Hm & H2).
  destruct Hwf as [Hsh Hs]. pose proof Hsh as Hsh'. rewrite Forall_forall in Hsh.
  assert (lm = []) as ->.
  { destruct lm as [|x lm]; [done|]. inversion Hm; subst.
    destruct (Hno x); [set_solver|]. apply pcmp_match; auto. apply Hsh. set_solver. }
  simpl in *. exists (l1 ++ k :: l2). split; [by apply avl_insert_new|]. split.
  - apply Forall_app in Hsh' as [? ?]. rewrite Forall_forall in H1, H2. split.
    { apply Forall_app. split; [done|by constructor]. }
    assert (StronglySorted pat_lt l1 /\ StronglySorted pat_lt l2) as [Hs1 Hs2].
    { split; eapply StronglySorted_sub; try exact Hs.
      - apply sublist_inserts_r. done.
      - apply sublist_inserts_l. done. }
    apply Forall_StronglySorted_app; [done| |].
    + constructor; [done|]. apply Forall_forall. intros x Hx. by apply H2.
    + intros a b Ha Hb. apply elem_of_cons in Hb as [->|Hb].
      * unfold pat_lt. specialize (H1 a Ha). simpl in H1.
        pose proof (pcmp_opp a k (Hsh a ltac:(set_solver)) Hk). lia.
      * by apply (StronglySorted_app_cross pat_lt l1 l2).
  - intros x. set_solver.
Qed.

Lemma tree_wf_nil : tree_wf [].
Proof. split; constructor. Qed.

Lemma avl_delete_wf l k : tree_wf l -> tree_wf (avl_delete l k).
Proof.
  rewrite avl_delete_spec. intros [Hsh Hs]. split.
  - apply Forall_forall. intros x Hx. rewrite Forall_forall in Hsh.
    apply list_elem_of_filter in Hx as [_ Hx]. auto.
  - eapply StronglySorted_sub; [|done]. apply sublist_filter.
Qed.

Lemma elem_of_avl_delete l k x : x ∈ avl_delete l k <-> x <> k /\ x ∈ l.
Proof. by rewrite avl_delete_spec, list_elem_of_filter. Qed.
End tree.

#[export] Hint Resolve tree_wf_nil avl_delete_wf pmatch_refl pmatch_sym : owsd.
