(* ===== verification/Libs.v ===== *)
(** * The libraries owsd is built on, as interfaces

    libubox (blobmsg), json-c and libubus are not part of the repository.
    The values they carry are data types here (a blobmsg attribute, a JSON
    tree, the enumerations of their headers); their functions are the
    methods of type classes, with the documented behaviour the sources rely
    on as laws.  [ref_jsonc] and [ref_libubox] at the end show that the laws
    can hold. *)

From stdpp Require Import base list strings numbers sets gmap.
From S2P Require Import Prelude CStrings.

(** ** libubus status codes ([enum ubus_msg_status]) *)

Definition UBUS_STATUS_OK : Z := 0.
Definition UBUS_STATUS_INVALID_ARGUMENT : Z := 2.
Definition UBUS_STATUS_METHOD_NOT_FOUND : Z := 3.
Definition UBUS_STATUS_NOT_FOUND : Z := 4.
Definition UBUS_STATUS_NO_DATA : Z := 5.
Definition UBUS_STATUS_PERMISSION_DENIED : Z := 6.
Definition UBUS_STATUS_NOT_SUPPORTED : Z := 8.
Definition UBUS_STATUS_UNKNOWN_ERROR : Z := 9.

(** ** blobmsg *)

(** [enum blobmsg_type]; [BLOBMSG_TYPE_BOOL] is another name of [INT8]. *)
Inductive blobmsg_type :=
  | BLOBMSG_TYPE_UNSPEC | BLOBMSG_TYPE_ARRAY | BLOBMSG_TYPE_TABLE
  | BLOBMSG_TYPE_STRING | BLOBMSG_TYPE_INT64 | BLOBMSG_TYPE_INT32
  | BLOBMSG_TYPE_INT16 | BLOBMSG_TYPE_INT8 | BLOBMSG_TYPE_DOUBLE
  | BLOBMSG_TYPE_LAST.

#[export] Instance blobmsg_type_eq_dec : EqDecision blobmsg_type.
Proof. solve_decision. Defined.

(** The payload of an attribute; an attribute is a name and a payload.  The
    integers are unsigned, as they are stored. *)
Inductive blob :=
  | BUnspec
  | BArray (l : list (string * blob))
  | BTable (l : list (string * blob))
  | BString (s : string)
  | BInt64 (z : Z)
  | BInt32 (z : Z)
  | BInt16 (z : Z)
  | BInt8 (z : Z)
  | BDouble (repr : string).

Definition attr : Type := string * blob.

(** [blobmsg_name] and [blobmsg_type] of an attribute. *)
Definition blobmsg_name (a : attr) : string := a.1.

Definition blob_type (b : blob) : blobmsg_type :=
  match b with
  | BUnspec => BLOBMSG_TYPE_UNSPEC
  | BArray _ => BLOBMSG_TYPE_ARRAY
  | BTable _ => BLOBMSG_TYPE_TABLE
  | BString _ => BLOBMSG_TYPE_STRING
  | BInt64 _ => BLOBMSG_TYPE_INT64
  | BInt32 _ => BLOBMSG_TYPE_INT32
  | BInt16 _ => BLOBMSG_TYPE_INT16
  | BInt8 _ => BLOBMSG_TYPE_INT8
  | BDouble _ => BLOBMSG_TYPE_DOUBLE
  end.

Definition blobmsg_type_of (a : attr) : blobmsg_type := blob_type a.2.

(** The attributes inside a container. *)
Definition blob_children (b : blob) : list attr :=
  match b with BArray l | BTable l => l | _ => [] end.

(** [struct blobmsg_policy] *)
Record blobmsg_policy := Policy { pol_name : string; pol_type : blobmsg_type }.

Definition type_ok (t : blobmsg_type) (a : attr) : Prop :=
  t = BLOBMSG_TYPE_UNSPEC \/ blobmsg_type_of a = t.

#[export] Instance type_ok_dec t a : Decision (type_ok t a).
Proof. unfold type_ok. apply _. Defined.

(** ** JSON trees *)

(** [JNull] is both the JSON null and the NULL pointer json-c uses for it. *)
Inductive json :=
  | JNull
  | JBool (b : bool)
  | JInt (z : Z)
  | JDouble (repr : string)
  | JString (s : string)
  | JArray (l : list json)
  | JObject (l : list (string * json)).

Inductive json_type :=
  | json_type_null | json_type_boolean | json_type_double | json_type_int
  | json_type_object | json_type_array | json_type_string.

#[export] Instance json_type_eq_dec : EqDecision json_type.
Proof. solve_decision. Defined.

Definition type_of_json (j : json) : json_type :=
  match j with
  | JNull => json_type_null
  | JBool _ => json_type_boolean
  | JInt _ => json_type_int
  | JDouble _ => json_type_double
  | JString _ => json_type_string
  | JArray _ => json_type_array
  | JObject _ => json_type_object
  end.

(** [json_object_is_type(obj, type)] *)
Definition json_object_is_type (j : json) (t : json_type) : bool :=
  bool_decide (type_of_json j = t).

(** A NULL test of a [struct json_object *]. *)
Definition is_null (j : json) : bool :=
  match j with JNull => true | _ => false end.

Fixpoint assoc {A} (k : string) (l : list (string * A)) : option A :=
  match l with
  | [] => None
  | (k', v) :: l' => if decide (k = k') then Some v else assoc k l'
  end.

Class JsonC := {
  (** [json_object_object_get_ex(obj, key, &value)]: [None] is FALSE, and
      [*value] is then NULL *)
  json_object_object_get_ex : json -> string -> option json;
  json_object_array_get_idx : json -> nat -> json;
  json_object_array_length : json -> nat;
  json_object_get_string : json -> option string;
  json_object_get_int : json -> Z;
  json_object_get_boolean : json -> bool;
  json_object_to_json_string : json -> string;
  json_tokener_parse : string -> json;

  get_ex_object l k : json_object_object_get_ex (JObject l) k = assoc k l;
  get_ex_other j k :
    json_object_is_type j json_type_object = false -> json_object_object_get_ex j k = None;
  get_idx_array l i : json_object_array_get_idx (JArray l) i = default JNull (l !! i);
  array_length_array l : json_object_array_length (JArray l) = length l;
  get_string_string s : json_object_get_string (JString s) = Some s;
  get_string_null : json_object_get_string JNull = None;
  get_string_some j : is_null j = false -> is_Some (json_object_get_string j);
  get_int_int z : - 2 ^ 31 <= z < 2 ^ 31 -> json_object_get_int (JInt z) = z;
  get_int_null : json_object_get_int JNull = 0;
  get_boolean_bool b : json_object_get_boolean (JBool b) = b;
  get_boolean_null : json_object_get_boolean JNull = false;
}.

(** The value a [get_ex] call leaves in its output argument. *)
Definition json_get `{JsonC} (j : json) (k : string) : json :=
  default JNull (json_object_object_get_ex j k).

Lemma json_get_object `{JsonC} l k : json_get (JObject l) k = default JNull (assoc k l).
Proof. unfold json_get. by rewrite get_ex_object. Qed.

Class LibUbox := {
  (** [blobmsg_parse(policy, n, tb, data, len)] and its array form *)
  blobmsg_parse : list blobmsg_policy -> list attr -> list (option attr);
  blobmsg_parse_array : list blobmsg_type -> list attr -> list (option attr);
  (** [blobmsg_get_string], meaningful on a string attribute *)
  blobmsg_get_string : attr -> string;
  (** [blobmsg_get_u32] and its like, meaningful on their own type *)
  blobmsg_get_u32 : attr -> Z;
  blobmsg_get_u16 : attr -> Z;
  blobmsg_get_u8 : attr -> Z;
  (** the attributes [blobmsg_for_each_attr] visits inside an attribute *)
  blobmsg_attrs : attr -> list attr;
  (** [blobmsg_add_object(buf, jobj)]: the fields it appends *)
  blobmsg_add_object : json -> list attr;
  (** [blobmsg_format_json(blob, true)] of a table with these fields *)
  blobmsg_format_json : list attr -> string;

  parse_length ps l : length (blobmsg_parse ps l) = length ps;
  parse_sound ps l i a :
    blobmsg_parse ps l !! i = Some (Some a) ->
    exists p, ps !! i = Some p /\ a ∈ l /\ a.1 = pol_name p /\ type_ok (pol_type p) a;
  parse_complete ps l i p a :
    ps !! i = Some p -> a ∈ l -> a.1 = pol_name p -> type_ok (pol_type p) a ->
    (forall b, b ∈ l -> b.1 = pol_name p -> b = a) ->
    blobmsg_parse ps l !! i = Some (Some a);
  parse_array_length ts l : length (blobmsg_parse_array ts l) = length ts;
  parse_array_sound ts l i a :
    blobmsg_parse_array ts l !! i = Some (Some a) ->
    exists t, ts !! i = Some t /\ a ∈ l /\ type_ok t a;
  parse_array_exact ts l :
    Forall2 type_ok ts (take (length ts) l) ->
    blobmsg_parse_array ts l = Some <$> take (length ts) l;
  parse_array_short ts l :
    (length l < length ts)%nat -> None ∈ blobmsg_parse_array ts l;
  get_string_attr n s : blobmsg_get_string (n, BString s) = s;
  get_u32_attr n z : 0 <= z < 2 ^ 32 -> blobmsg_get_u32 (n, BInt32 z) = z;
  get_u16_attr n z : 0 <= z < 2 ^ 16 -> blobmsg_get_u16 (n, BInt16 z) = z;
  get_u8_attr n z : 0 <= z < 2 ^ 8 -> blobmsg_get_u8 (n, BInt8 z) = z;
  attrs_array n l : blobmsg_attrs (n, BArray l) = l;
  attrs_table n l : blobmsg_attrs (n, BTable l) = l;
}.

(** The conversion of JSON to blobmsg fields, on the JSON values the sources
    build themselves: strings, integers, arrays and objects of these. *)
Class JsonBlob `{JsonC, LibUbox} := {
  json_blob : json -> blob;
  add_object_object l :
    blobmsg_add_object (JObject l) = (fun kv => (kv.1, json_blob kv.2)) <$> l;
  json_blob_string s : json_blob (JString s) = BString s;
  json_blob_int z : - 2 ^ 31 <= z < 2 ^ 31 -> json_blob (JInt z) = BInt32 (u32 z);
  json_blob_array l :
    json_blob (JArray l) = BArray ((fun j => ("", json_blob j)) <$> l);
  json_blob_object l :
    json_blob (JObject l) = BTable ((fun kv => (kv.1, json_blob kv.2)) <$> l);
}.

(** The JSON value [blobmsg_format_json] prints for a blob, as the parser of
    json-c reads it back: the integers are signed, [INT8] is a boolean, the
    names of array elements are dropped. *)
Definition s16 (z : Z) : Z := (z + 2 ^ 15) mod 2 ^ 16 - 2 ^ 15.
Definition s64 (z : Z) : Z := (z + 2 ^ 63) mod 2 ^ 64 - 2 ^ 63.

Fixpoint blob_json (b : blob) : json :=
  match b with
  | BUnspec => JNull
  | BArray l => JArray ((fun a => blob_json a.2) <$> l)
  | BTable l => JObject ((fun a => (a.1, blob_json a.2)) <$> l)
  | BString s => JString s
  | BInt64 z => JInt (s64 z)
  | BInt32 z => JInt (s32 z)
  | BInt16 z => JInt (s16 z)
  | BInt8 z => JBool (negb (z =? 0))
  | BDouble r => JDouble r
  end.

(** A message that the printer of libubox and the parser of json-c carry over. *)
Definition prints_as `{JsonC, LibUbox} (msg : list attr) : Prop :=
  json_tokener_parse (blobmsg_format_json msg) = blob_json (BTable msg).

(** ** Reference instances *)

Definition ref_get_idx (j : json) (i : nat) : json :=
  match j with JArray l => default JNull (l !! i) | _ => JNull end.

Definition ref_get_ex (j : json) (k : string) : option json :=
  match j with JObject l => assoc k l | _ => None end.

Definition ref_array_length (j : json) : nat :=
  match j with JArray l => length l | _ => O end.

Definition ref_get_string (j : json) : option string :=
  match j with JString s => Some s | JNull => None | _ => Some "" end.

Definition ref_get_int (j : json) : Z :=
  match j with JInt z => s32 z | JBool true => 1 | _ => 0 end.

Definition ref_get_boolean (j : json) : bool :=
  match j with JBool b => b | JInt z => negb (z =? 0) | _ => false end.

(** [parse] is what the text parser answers. *)
Program Definition ref_jsonc_with (parse : string -> json) : JsonC := {|
  json_object_object_get_ex := ref_get_ex;
  json_object_array_get_idx := ref_get_idx;
  json_object_array_length := ref_array_length;
  json_object_get_string := ref_get_string;
  json_object_get_int := ref_get_int;
  json_object_get_boolean := ref_get_boolean;
  json_object_to_json_string := fun _ => "";
  json_tokener_parse := parse;
|}.
Next Obligation. done. Qed.
Next Obligation. by intros parse []. Qed.
Next Obligation. done. Qed.
Next Obligation. done. Qed.
Next Obligation. done. Qed.
Next Obligation. done. Qed.
Next Obligation. intros parse []; try done; by eexists. Qed.
Next Obligation. intros. by apply s32_small. Qed.
Next Obligation. done. Qed.
Next Obligation. done. Qed.
Next Obligation. done. Qed.

Definition ref_jsonc : JsonC := ref_jsonc_with (fun _ => JNull).

Definition ref_parse (ps : list blobmsg_policy) (l : list attr) : list (option attr) :=
  (fun p => snd <$> list_find (fun a : attr => a.1 = pol_name p /\ type_ok (pol_type p) a) l) <$> ps.

Fixpoint ref_parse_array (ts : list blobmsg_type) (l : list attr) : list (option attr) :=
  match ts, l with
  | [], _ => []
  | t :: ts', [] => None :: ref_parse_array ts' []
  | t :: ts', a :: l' =>
      (if decide (type_ok t a) then Some a else None) :: ref_parse_array ts' l'
  end.

Fixpoint ref_json_blob (j : json) : blob :=
  match j with
  | JNull => BUnspec
  | JBool b => BInt8 (if b then 1 else 0)
  | JInt z => BInt32 (u32 z)
  | JDouble r => BDouble r
  | JString s => BString s
  | JArray l => BArray ((fun j => ("", ref_json_blob j)) <$> l)
  | JObject l => BTable ((fun kv => (kv.1, ref_json_blob kv.2)) <$> l)
  end.

Lemma ref_parse_array_length ts l : length (ref_parse_array ts l) = length ts.
Proof. revert l. induction ts; intros [|??]; simpl; auto. Qed.

Lemma ref_parse_array_sound ts l i a :
  ref_parse_array ts l !! i = Some (Some a) ->
  exists t, ts !! i = Some t /\ a ∈ l /\ type_ok t a.
Proof.
  revert l i. induction ts as [|t ts IH]; intros [|b l] [|i]; simpl; try done.
  - intros (t' & ? & He & ?)%IH. by apply elem_of_nil in He.
  - case_decide; [|done]. intros [= ->]. exists t. split_and!; [done|set_solver|done].
  - intros (t' & ? & ? & ?)%IH. exists t'. split_and!; [done|set_solver|done].
Qed.

Lemma ref_parse_array_exact ts l :
  Forall2 type_ok ts (take (length ts) l) ->
  ref_parse_array ts l = Some <$> take (length ts) l.
Proof.
  revert l. induction ts as [|t ts IH]; intros l; simpl; [done|].
  destruct l as [|a l]; simpl; [by intros ?%Forall2_cons_nil_inv|].
  intros [? ?]%Forall2_cons. rewrite decide_True by done. by rewrite IH.
Qed.

Lemma ref_parse_array_short ts l :
  (length l < length ts)%nat -> None ∈ ref_parse_array ts l.
Proof.
  revert l. induction ts as [|t ts IH]; intros [|a l]; simpl; try lia; intros.
  - left.
  - right. apply IH. lia.
Qed.

Definition ref_attr_string (a : attr) : string :=
  match a.2 with BString s => s | _ => "" end.

Definition ref_attr_number (a : attr) : Z :=
  match a.2 with BInt64 z | BInt32 z | BInt16 z | BInt8 z => z | _ => 0 end.

Definition ref_add_object (j : json) : list attr :=
  match j with JObject l => (fun kv => (kv.1, ref_json_blob kv.2)) <$> l | _ => [] end.

(** [format] is what the text printer answers. *)
Program Definition ref_libubox_with (format : list attr -> string) : LibUbox := {|
  blobmsg_parse := ref_parse;
  blobmsg_parse_array := ref_parse_array;
  blobmsg_get_string := ref_attr_string;
  blobmsg_get_u32 := ref_attr_number;
  blobmsg_get_u16 := ref_attr_number;
  blobmsg_get_u8 := ref_attr_number;
  blobmsg_attrs := fun a => blob_children a.2;
  blobmsg_add_object := ref_add_object;
  blobmsg_format_json := format;
|}.
Next Obligation. intros. apply length_fmap. Qed.
Next Obligation.
  intros _ ps l i a Hi. unfold ref_parse in Hi. rewrite list_lookup_fmap in Hi.
  destruct (ps !! i) as [p|] eqn:E; [|done]. exists p. split; [done|].
  simpl in Hi. destruct (list_find _ l) as [[n b]|] eqn:F; [|done].
  simplify_eq/=. apply list_find_Some in F as (Hn & [??] & _).
  split_and!; [by eapply list_elem_of_lookup_2|done..].
Qed.
Next Obligation.
  intros _ ps l i p a Hp Ha Hn Ht Hu. unfold ref_parse. rewrite list_lookup_fmap, Hp. simpl.
  destruct (list_find (fun b : attr => b.1 = pol_name p /\ type_ok (pol_type p) b) l)
    as [[n b]|] eqn:F.
  - apply list_find_Some in F as (Hb & [Hbn _] & _). simpl.
    by rewrite (Hu b (list_elem_of_lookup_2 _ _ _ Hb) Hbn).
  - apply list_find_None in F. rewrite Forall_forall in F. by destruct (F a Ha).
Qed.
Next Obligation. intros _. apply ref_parse_array_length. Qed.
Next Obligation. intros _. apply ref_parse_array_sound. Qed.
Next Obligation. intros _. apply ref_parse_array_exact. Qed.
Next Obligation. intros _. apply ref_parse_array_short. Qed.
Next Obligation. done. Qed.
Next Obligation. done. Qed.
Next Obligation. done. Qed.
Next Obligation. done. Qed.
Next Obligation. done. Qed.
Next Obligation. done. Qed.

Definition ref_libubox : LibUbox := ref_libubox_with (fun _ => "").

Program Definition ref_json_blob_inst : @JsonBlob ref_jsonc ref_libubox :=
  @Build_JsonBlob ref_jsonc ref_libubox ref_json_blob _ _ _ _ _.
Next Obligation. done. Qed.
Next Obligation. done. Qed.
Next Obligation. done. Qed.
Next Obligation. done. Qed.
Next Obligation. done. Qed.
