(* ===== verification/Schema.v ===== *)
(** * schema.c: the JSON schemas of ubus objects

    A directory of files describes the arguments of the methods of ubus
    objects.  schema.c reads them into a tree of objects, each with a tree of
    methods, finds the schema of a method, and frees everything again.  It
    serves the validation of calls (Validation); the build takes the validator
    from a library instead, so schema.c is not compiled.

    The C heap is one map from addresses to cells: reading or freeing an address
    that is not in it does not come back.  A tree of libubox is the list of its
    keys (the interface [AvlTree]) with the node of each key.  Memory does not
    run out; [method_name] and [object_name] are never used and left out. *)

From stdpp Require Import base list strings numbers sets gmap sorting.
From S2P Require Import Prelude CStrings Avl Libs.

Local Arguments strcmp : simpl never.

Definition METHOD_NAME_MAX_LEN : nat := 64.
Definition OBJECT_NAME_MAX_LEN : nat := 64.

Definition addr := nat.
(** A pointer: [None] is NULL. *)
Definition ptr := option addr.

Record avl_tree := AvlNodes { t_keys : list string; t_nodes : gmap string addr }.

(** [struct schema_method] and [struct schema_object]; [regex_exp] points to
    what [regcomp] has allocated. *)
Record schema_method := SchemaMethod { sm_input : ptr; sm_output : ptr; sm_key : ptr }.

Record schema_object := SchemaObject {
  so_definitions : ptr;
  so_regex : bool;
  so_regex_exp : ptr;
  so_methods : avl_tree;
  so_key : ptr;
}.

Section schema.
Context `{AvlTree, LibUbox}.
(** <regex.h>: what [regcomp] compiles a pattern to, or [None] for an error;
    [regexec] says that it matches. *)
Variable regex_t : Type.
Variable regcomp : string -> option regex_t.
Variable regexec : regex_t -> string -> bool.
(** Whether [regfree] takes a [regex_t] that [regcomp] has not filled: POSIX
    leaves that undefined, the usual libraries do nothing. *)
Variable regfree_unfilled : bool.
(** [blobmsg_get_bool], [blobmsg_format_json(attr, true)] and
    [blobmsg_add_json_from_file]. *)
Variable blobmsg_get_bool : attr -> bool.
Variable format_attr : attr -> string.
Variable add_json_from_file : string -> option (list attr).

Inductive cell :=
  | CStr (s : string)
  | CMethod (m : schema_method)
  | CObject (o : schema_object)
  | CRegex (r : regex_t)
  | CBuf (l : list attr).

(** The heap, and [prog->schema_objects]. *)
Record store := Store {
  heap : gmap addr cell;
  brk : addr;
  schema_objects : avl_tree;
}.

Definition set_heap h s := Store h (brk s) (schema_objects s).
Definition set_objects t s := Store (heap s) (brk s) t.

Definition malloc (c : cell) : M store addr :=
  fun s => Some (brk s, Store (<[brk s := c]> (heap s)) (S (brk s)) (schema_objects s)).

Definition free_at (a : addr) : M store unit :=
  let* _ := deref (fun s => heap s !! a) in
  modify (fun s => set_heap (delete a (heap s)) s).

Definition free (p : ptr) : M store unit :=
  match p with Some a => free_at a | None => M_ret tt end.

Definition as_str (c : cell) : option string := match c with CStr x => Some x | _ => None end.
Definition as_method (c : cell) : option schema_method := match c with CMethod m => Some m | _ => None end.
Definition as_object (c : cell) : option schema_object := match c with CObject o => Some o | _ => None end.
Definition as_regex (c : cell) : option regex_t := match c with CRegex r => Some r | _ => None end.

Definition read {A} (f : cell -> option A) (a : addr) : M store A :=
  deref (fun s => heap s !! a ≫= f).
(** Reading through a pointer that may be NULL. *)
Definition read_ptr {A} (f : cell -> option A) (p : ptr) : M store A :=
  deref (fun s => p ≫= fun a => heap s !! a ≫= f).
Definition write (a : addr) (c : cell) : M store unit :=
  let* _ := deref (fun s => heap s !! a) in
  modify (fun s => set_heap (<[a := c]> (heap s)) s).

Definition with_method (a : addr) (f : schema_method -> schema_method) : M store unit :=
  let* m := read as_method a in write a (CMethod (f m)).
Definition with_object (a : addr) (f : schema_object -> schema_object) : M store unit :=
  let* o := read as_object a in write a (CObject (f o)).

Definition set_input p m := SchemaMethod p (sm_output m) (sm_key m).
Definition set_output p m := SchemaMethod (sm_input m) p (sm_key m).
Definition set_mkey p m := SchemaMethod (sm_input m) (sm_output m) p.
Definition set_definitions p o := SchemaObject p (so_regex o) (so_regex_exp o) (so_methods o) (so_key o).
Definition set_regex b o := SchemaObject (so_definitions o) b (so_regex_exp o) (so_methods o) (so_key o).
Definition set_regex_exp p o := SchemaObject (so_definitions o) (so_regex o) p (so_methods o) (so_key o).
Definition set_methods t o := SchemaObject (so_definitions o) (so_regex o) (so_regex_exp o) t (so_key o).
Definition set_okey p o := SchemaObject (so_definitions o) (so_regex o) (so_regex_exp o) (so_methods o) p.

(** ** Trees *)

Definition empty_tree : avl_tree := AvlNodes [] ∅.

(** [avl_insert] with [avl_strcmp]; its result is not looked at. *)
Definition tree_insert (t : avl_tree) (k : string) (a : addr) : avl_tree :=
  match avl_insert strcmp (t_keys t) k with
  | Some keys => AvlNodes keys (<[k := a]> (t_nodes t))
  | None => t
  end.

Definition tree_delete (t : avl_tree) (k : string) : avl_tree :=
  AvlNodes (avl_delete (t_keys t) k) (delete k (t_nodes t)).

(** The nodes in key order. *)
Definition tree_elems (t : avl_tree) : list (string * option addr) :=
  (fun k => (k, t_nodes t !! k)) <$> t_keys t.

(** ** Freeing *)

Definition schema_flush_method (a : addr) : M store unit :=
  let* m := read as_method a in
  free (sm_input m) ;;;
  free (sm_output m) ;;;
  free (sm_key m) ;;;
  free_at a.

Definition schema_flush_methods (o : addr) : M store unit :=
  let* so := read as_object o in
  forM_ (tree_elems (so_methods so)) (fun n =>
    let* a := deref (fun _ => n.2) in
    with_object o (fun so => set_methods (tree_delete (so_methods so) n.1) so) ;;;
    schema_flush_method a).

Definition schema_flush_object (o : addr) : M store unit :=
  schema_flush_methods o ;;;
  let* so := read as_object o in
  free (so_key so) ;;;
  free (so_definitions so) ;;;
  (when so_regex so do
     match so_regex_exp so with
     | Some r => free_at r
     | None => if regfree_unfilled then M_ret tt else abort
     end) ;;;
  free_at o.

Definition schema_flush_objects : M store unit :=
  let* t := gets schema_objects in
  forM_ (tree_elems t) (fun n =>
    let* a := deref (fun _ => n.2) in
    modify (fun s => set_objects (tree_delete (schema_objects s) n.1) s) ;;;
    schema_flush_object a).

(** ** Reading a file *)

(** The fields "input" and "output" of the properties of a method. *)
Definition method_field (m : addr) (method : attr) : M store unit :=
  if strncmp (blobmsg_name method) "input" 6 =? 0 then
    let* t := malloc (CStr (format_attr method)) in
    with_method m (set_input (Some t))
  else when strncmp (blobmsg_name method) "output" 7 =? 0 do
    (let* t := malloc (CStr (format_attr method)) in
     with_method m (set_output (Some t))).

Definition schema_parse_object (o : addr) (object : attr) : M store unit :=
  forM_ (blobmsg_attrs object) (fun properties =>
    when strncmp (blobmsg_name properties) "properties" 11 =? 0 do
      (let* m := malloc (CMethod (SchemaMethod None None None)) in
       let* k := malloc (CStr (blobmsg_name object)) in
       with_method m (set_mkey (Some k)) ;;;
       with_object o (fun so => set_methods (tree_insert (so_methods so) (blobmsg_name object) m) so) ;;;
       forM_ (blobmsg_attrs properties) (method_field m))).

(** One field of the file; the local variable [definitions] is threaded. *)
Definition setup_root (o : addr) (root : attr) (definitions : ptr) : M store ptr :=
  (when strncmp (blobmsg_name root) "regex" 6 =? 0 do
     with_object o (set_regex (blobmsg_get_bool root))) ;;;
  (when strncmp (blobmsg_name root) "object" 7 =? 0 do
     (let* k := malloc (CStr (blobmsg_get_string root)) in
      with_object o (set_okey (Some k)))) ;;;
  let* definitions :=
    if strncmp (blobmsg_name root) "definitions" 12 =? 0 then
      let* t := malloc (CStr (format_attr root)) in M_ret (Some t)
    else M_ret definitions in
  (when strncmp (blobmsg_name root) "properties" 11 =? 0 do
     forM_ (blobmsg_attrs root) (fun object =>
       when bool_decide (blobmsg_type_of object = BLOBMSG_TYPE_TABLE) do
         schema_parse_object o object)) ;;;
  M_ret definitions.

Fixpoint setup_roots (o : addr) (roots : list attr) (definitions : ptr) : M store ptr :=
  match roots with
  | [] => M_ret definitions
  | root :: rest => let* d := setup_root o root definitions in setup_roots o rest d
  end.

Definition schema_setup_file (path : string) : M store unit :=
  let* acl := malloc (CBuf (default [] (add_json_from_file path))) in
  match add_json_from_file path with
  | None => free_at acl
  | Some roots =>
      let* o := malloc (CObject (SchemaObject None false None empty_tree None)) in
      let* definitions := setup_roots o roots None in
      let* so := read as_object o in
      let* compiled :=
        if so_regex so then
          let* key := read_ptr as_str (so_key so) in
          match regcomp key with
          | None => M_ret false
          | Some r => let* x := malloc (CRegex r) in with_object o (set_regex_exp (Some x)) ;;; M_ret true
          end
        else M_ret true in
      match compiled, so_key so with
      | true, Some k =>
          with_object o (set_definitions definitions) ;;;
          let* key := read as_str k in
          modify (fun s => set_objects (tree_insert (schema_objects s) key o) s) ;;;
          free_at acl
      | _, _ => schema_flush_object o
      end
  end.

(** [files] are the paths [glob] finds; [None] is an error of it. *)
Definition schema_setup_json (files : option (list string)) : M store unit :=
  modify (set_objects empty_tree) ;;;
  match files with
  | None => M_ret tt
  | Some l => forM_ l schema_setup_file
  end.

(** ** Looking up *)

(** The first element of a tree that [test] accepts. *)
Fixpoint first_elem (l : list (string * option addr)) (test : addr -> M store bool) : M store ptr :=
  match l with
  | [] => M_ret None
  | n :: rest =>
      let* a := deref (fun _ => n.2) in
      let* b := test a in
      if b then M_ret (Some a) else first_elem rest test
  end.

Definition object_matches (object : string) (a : addr) : M store bool :=
  let* so := read as_object a in
  if so_regex so then
    let* r := read_ptr as_regex (so_regex_exp so) in M_ret (regexec r object)
  else
    let* k := read_ptr as_str (so_key so) in
    M_ret (strncmp object k OBJECT_NAME_MAX_LEN =? 0).

Definition schema_get_object_schema (object : string) : M store ptr :=
  let* t := gets schema_objects in
  first_elem (tree_elems t) (object_matches object).

Definition schema_get_definitions_schema (object : string) : M store ptr :=
  let* o := schema_get_object_schema object in
  match o with
  | None => M_ret None
  | Some a => let* so := read as_object a in M_ret (so_definitions so)
  end.

Definition method_matches (method : string) (a : addr) : M store bool :=
  let* m := read as_method a in
  let* k := read_ptr as_str (sm_key m) in
  M_ret (strncmp method k METHOD_NAME_MAX_LEN =? 0).

Definition schema_get_method_schema (object method : string) : M store ptr :=
  let* o := schema_get_object_schema object in
  match o with
  | None => M_ret None
  | Some a =>
      let* so := read as_object a in
      first_elem (tree_elems (so_methods so)) (method_matches method)
  end.
End schema.
