(* ===== verification/SchemaProps.v ===== *)
(** * Schema: what the store of schemas holds, finds and frees

    A representation predicate relates the heap of Schema to the objects a set of
    files describes ([spec_object], a function of the parsed file), together with
    the addresses each object owns.  Reading a file extends what is represented,
    a lookup returns what is represented, and flushing frees exactly what is
    owned.  The theorems at the end are about all files together. *)

From stdpp Require Import base list strings numbers sets gmap sorting.
From S2P Require Import Prelude CStrings Avl Libs Schema.

Local Arguments strcmp : simpl never.
Set Default Proof Using "Type".

(** ** Trees keep their keys sorted *)

Record tree_wf (t : avl_tree) : Prop := {
  tw_sorted : StronglySorted key_lt (t_keys t);
  tw_nodes k : k ∈ t_keys t <-> is_Some (t_nodes t !! k);
}.

Section trees.
Context `{AvlTree}.

Lemma tree_insert_new t k a :
  tree_wf t -> k ∉ t_keys t ->
  tree_wf (tree_insert t k a) /\ t_nodes (tree_insert t k a) = <[k := a]> (t_nodes t) /\
  exists l1 l2, t_keys t = l1 ++ l2 /\ t_keys (tree_insert t k a) = l1 ++ k :: l2.
Proof.
  intros [Hs Hn] Hk. pose proof (avl_insert_sorted _ k Hs) as Hi. unfold tree_insert.
  destruct (avl_insert strcmp (t_keys t) k) as [l'|]; [|done].
  destruct Hi as (_ & Hs' & l1 & l2 & El & ->). split_and!; [|done|by exists l1, l2].
  split; cbn [t_keys t_nodes]; [done|].
  intros k'. rewrite lookup_insert_is_Some. rewrite <- Hn, El, !elem_of_app, elem_of_cons.
  destruct (decide (k = k')); naive_solver.
Qed.
End trees.

(** ** The schemas a file describes *)

Record method_text := MethodText { mt_input : option string; mt_output : option string }.

Record object_text (regex_t : Type) := ObjectText {
  ot_key : option string;
  ot_definitions : option string;
  ot_regex : bool;
  ot_exp : option regex_t;
  ot_methods : gmap string method_text;
}.
Arguments ObjectText {_}.
Arguments ot_key {_}.
Arguments ot_definitions {_}.
Arguments ot_regex {_}.
Arguments ot_exp {_}.
Arguments ot_methods {_}.

(** The first field of a name. *)
Definition field (n : string) (l : list attr) : option attr := head (filter (fun a : attr => a.1 = n) l).

(** The fields have different names. *)
Definition names_unique (l : list attr) : Prop := NoDup (l.*1).

Lemma field_cons n a l : field n (a :: l) = if decide (a.1 = n) then Some a else field n l.
Proof. unfold field. rewrite filter_cons. by case_decide. Qed.

Lemma field_notin n l : n ∉ l.*1 -> field n l = None.
Proof.
  induction l as [|a l IH]; intros Hn; [done|]. rewrite field_cons, decide_False, IH; [done|..]; set_solver.
Qed.

(** A loop that works on the fields of one name works on one field. *)
Lemma forM_field {S} n (F : attr -> M S unit) l (s : S) :
  names_unique l ->
  forM_ l (fun a : attr => when bool_decide (a.1 = n) do F a) s =
  match field n l with Some a => F a s | None => Some (tt, s) end.
Proof.
  intros Hu. revert s. induction l as [|a l IH]; intros s; [done|]. apply NoDup_cons in Hu as [Ha Hu].
  rewrite field_cons. cbn [forM_]. case_decide as E.
  - unfold M_bind. rewrite bool_decide_eq_true_2 by done. destruct (F a s) as [[[] s']|] eqn:EF; [|done].
    rewrite IH, field_notin; [done| |done]. by rewrite <- E.
  - rewrite bool_decide_eq_false_2 by done. cbn. by rewrite IH.
Qed.

Lemma forM_ext {S A} (l : list A) (f g : A -> M S unit) (s : S) :
  (forall a (s : S), f a s = g a s) -> forM_ l f s = forM_ l g s.
Proof.
  intros E. revert s. induction l as [|a l IH]; intros s; [done|]. cbn [forM_]. unfold M_bind.
  rewrite E. by destruct (g a s) as [[[] ?]|].
Qed.

Section spec.
Context `{LibUbox}.
Variable regex_t : Type.
Variable regcomp : string -> option regex_t.
Variable blobmsg_get_bool : attr -> bool.
Variable format_attr : attr -> string.

Definition spec_method (object : attr) : option (string * method_text) :=
  properties ← field "properties" (blobmsg_attrs object);
  guard (blobmsg_type_of object = BLOBMSG_TYPE_TABLE);;
  Some (blobmsg_name object,
        MethodText (format_attr <$> field "input" (blobmsg_attrs properties))
          (format_attr <$> field "output" (blobmsg_attrs properties))).

Definition spec_methods (roots : list attr) : gmap string method_text :=
  list_to_map (omap spec_method (default [] (blobmsg_attrs <$> field "properties" roots))).

Definition spec_object (roots : list attr) : object_text regex_t :=
  let key := blobmsg_get_string <$> field "object" roots in
  let regex := default false (blobmsg_get_bool <$> field "regex" roots) in
  ObjectText key (format_attr <$> field "definitions" roots) regex
    (if regex then key ≫= regcomp else None) (spec_methods roots).

(** The names of the fields of a JSON object are distinct: so are those of the
    tables of a file, down to the fields of a method. *)
Record file_unique (roots : list attr) : Prop := {
  fu_roots : names_unique roots;
  fu_methods r : field "properties" roots = Some r -> names_unique (blobmsg_attrs r);
  fu_method r o : field "properties" roots = Some r -> o ∈ blobmsg_attrs r -> names_unique (blobmsg_attrs o);
  fu_fields r o p : field "properties" roots = Some r -> o ∈ blobmsg_attrs r ->
    field "properties" (blobmsg_attrs o) = Some p -> names_unique (blobmsg_attrs p);
}.

(** A file that is taken: it names an object, and a regular expression compiles. *)
Record file_usable (roots : list attr) : Prop := {
  fo_unique : file_unique roots;
  fo_key : is_Some (ot_key (spec_object roots));
  fo_regex : ot_regex (spec_object roots) = true -> is_Some (ot_exp (spec_object roots));
}.
End spec.

(** ** What the heap holds for an object

    Each predicate also gives the addresses it owns, so that two of them are
    kept apart by [NoDup]. *)

Section rep.
Context {regex_t : Type}.
Implicit Types (h : gmap addr (cell regex_t)) (fp : list addr).

Definition text_at h (p : ptr) (t : option string) : Prop :=
  match p, t with
  | None, None => True
  | Some a, Some x => h !! a = Some (CStr regex_t x)
  | _, _ => False
  end.

Definition regex_at h (p : ptr) (r : option regex_t) : Prop :=
  match p, r with
  | None, None => True
  | Some a, Some x => h !! a = Some (CRegex regex_t x)
  | _, _ => False
  end.

Definition method_at h (a : addr) (name : string) (mt : method_text) fp : Prop :=
  exists m, h !! a = Some (CMethod regex_t m) /\ text_at h (sm_input m) (mt_input mt) /\
    text_at h (sm_output m) (mt_output mt) /\ text_at h (sm_key m) (Some name) /\
    fp = option_list (sm_input m) ++ option_list (sm_output m) ++ option_list (sm_key m) ++ [a].

(** The methods of a tree, with what each owns. *)
Definition methods_at h (t : avl_tree) (mts : gmap string method_text) (fps : list (list addr)) : Prop :=
  Forall2 (fun k fp => exists a mt, t_nodes t !! k = Some a /\ mts !! k = Some mt /\ method_at h a k mt fp)
    (t_keys t) fps.

Record object_at h (o : addr) (so : schema_object) (d : ptr) (ot : object_text regex_t) fps fp : Prop := {
  oa_cell : h !! o = Some (CObject regex_t so);
  oa_key : text_at h (so_key so) (ot_key ot);
  oa_definitions : text_at h d (ot_definitions ot);
  oa_exp : regex_at h (so_regex_exp so) (ot_exp ot);
  oa_regex : so_regex so = ot_regex ot;
  oa_tree : tree_wf (so_methods so);
  oa_dom k : k ∈ t_keys (so_methods so) <-> is_Some (ot_methods ot !! k);
  oa_methods : methods_at h (so_methods so) (ot_methods ot) fps;
  oa_fp : fp = concat fps ++ option_list (so_key so) ++ option_list d ++ option_list (so_regex_exp so) ++ [o];
}.

(** The predicates only look at what they own. *)
Definition agree h h' fp : Prop := forall a, a ∈ fp -> h' !! a = h !! a.

Lemma text_at_agree h h' p t fp : text_at h p t -> agree h h' fp -> option_list p ⊆ fp -> text_at h' p t.
Proof. destruct p, t; simpl; try done. intros E Ha Hs. rewrite Ha; [done|]. apply Hs. set_solver. Qed.

Lemma regex_at_agree h h' p r fp : regex_at h p r -> agree h h' fp -> option_list p ⊆ fp -> regex_at h' p r.
Proof. destruct p, r; simpl; try done. intros E Ha Hs. rewrite Ha; [done|]. apply Hs. set_solver. Qed.

Lemma method_at_agree h h' a name mt fp : method_at h a name mt fp -> agree h h' fp -> method_at h' a name mt fp.
Proof.
  intros (m & E & Hi & Ho & Hk & ->) Ha. exists m.
  split_and!; [|by eapply text_at_agree; [done..|set_solver]..|done].
  rewrite Ha; [done|]. rewrite !elem_of_app. set_solver.
Qed.

Lemma methods_at_agree h h' t mts fps :
  methods_at h t mts fps -> agree h h' (concat fps) -> methods_at h' t mts fps.
Proof.
  unfold methods_at. intros HF Ha. induction HF as [|k fp ks fps (a & mt & ? & ? & ?) _ IH]; constructor.
  - exists a, mt. split_and!; [done..|]. eapply method_at_agree; [done|]. intros x Hx. apply Ha. set_solver.
  - apply IH. intros x Hx. apply Ha. simpl. set_solver.
Qed.

Lemma object_at_agree h h' o so d ot fps fp :
  object_at h o so d ot fps fp -> agree h h' fp -> object_at h' o so d ot fps fp.
Proof.
  intros [] Ha. subst fp. split; try done.
  - rewrite Ha; [done|]. set_solver.
  - eapply text_at_agree; [done..|]. set_solver.
  - eapply text_at_agree; [done..|]. set_solver.
  - eapply regex_at_agree; [done..|]. set_solver.
  - eapply methods_at_agree; [done|]. intros x Hx. apply Ha. set_solver.
Qed.

(** The heap without a list of addresses. *)
Definition hminus h fp : gmap addr (cell regex_t) := foldr delete h fp.

Lemma hminus_lookup h fp a : hminus h fp !! a = if decide (a ∈ fp) then None else h !! a.
Proof.
  induction fp as [|b fp IH]; simpl; [done|]. destruct (decide (a = b)) as [->|Hne].
  - rewrite lookup_delete_eq, decide_True; [done|set_solver].
  - rewrite lookup_delete_ne, IH by done. do 2 case_decide; set_solver.
Qed.

Lemma hminus_app h fp fp' : hminus (hminus h fp) fp' = hminus h (fp ++ fp').
Proof. apply map_eq. intros a. rewrite !hminus_lookup. repeat case_decide; set_solver. Qed.

Lemma hminus_agree h fp fp' : fp ## fp' -> agree h (hminus h fp) fp'.
Proof. intros Hd a Ha. rewrite hminus_lookup, decide_False; [done|set_solver]. Qed.

Lemma hminus_insert_in h o c fp : o ∈ fp -> hminus (<[o := c]> h) fp = hminus h fp.
Proof.
  intros Ho. apply map_eq. intros a. rewrite !hminus_lookup. case_decide; [done|].
  rewrite lookup_insert_ne; [done|]. by intros ->.
Qed.

Lemma hminus_insert_out h o c fp : o ∉ fp -> hminus (<[o := c]> h) fp = <[o := c]> (hminus h fp).
Proof.
  intros Ho. apply map_eq. intros a. rewrite hminus_lookup. destruct (decide (a = o)) as [->|Hne].
  - by rewrite decide_False, !lookup_insert_eq.
  - rewrite !lookup_insert_ne, hminus_lookup by done. done.
Qed.
End rep.

(** ** Flushing frees what is owned *)

Section flush.
Context `{AvlTree} {regex_t : Type}.
Variable regfree_unfilled : bool.
Implicit Types (s : store regex_t).

Definition minus s fp : store regex_t := set_heap regex_t (hminus (heap _ s) fp) s.

(** Distinct addresses that can be freed. *)
Definition owned s fp : Prop := NoDup fp /\ forall a, a ∈ fp -> is_Some (heap _ s !! a).

Lemma minus_minus s fp fp' : minus (minus s fp) fp' = minus s (fp ++ fp').
Proof. unfold minus. cbn. by rewrite hminus_app. Qed.

Lemma owned_app s fp fp' : owned s (fp ++ fp') -> owned s fp /\ owned (minus s fp) fp'.
Proof.
  intros [(H1 & Hd & H2)%NoDup_app Hp]. split; split; try done.
  - intros a Ha. apply Hp. set_solver.
  - intros a Ha. cbn. rewrite hminus_lookup, decide_False; [apply Hp; set_solver|].
    intros ?. by eapply Hd.
Qed.

Lemma wp_read {A} f a (x : A) Q s : heap _ s !! a ≫= f = Some x -> Q x s -> wp (read regex_t f a) Q s.
Proof. intros. by eapply wp_deref. Qed.

Lemma wp_free_at a Q s : is_Some (heap _ s !! a) -> Q tt (minus s [a]) -> wp (free_at regex_t a) Q s.
Proof. intros [c Hc] HQ. unfold free_at. wp_step. eapply wp_deref; [exact Hc|]. wp_steps. exact HQ. Qed.

(** Freeing the first of what is owned leaves the rest. *)
Lemma wp_free_first {A} p rest (k : M (store regex_t) A) Q s :
  owned s (option_list p ++ rest) ->
  (owned (minus s (option_list p)) rest -> wp k Q (minus s (option_list p))) ->
  wp (free regex_t p ;;; k) Q s.
Proof.
  intros [[_ Hp] Hr]%owned_app Hk. wp_step. specialize (Hk Hr). destruct p as [a|]; simpl in *.
  - apply wp_free_at; [apply Hp; set_solver|done].
  - wp_steps. by destruct s.
Qed.

Lemma wp_free_last a s : owned s [a] -> wp (free_at regex_t a) (fun _ s' => s' = minus s [a]) s.
Proof. intros [_ Hp]. apply wp_free_at; [apply Hp; set_solver|done]. Qed.

Lemma text_at_present h p t a : text_at (regex_t:=regex_t) h p t -> a ∈ option_list p -> is_Some (h !! a).
Proof. destruct p, t; simpl; set_solver. Qed.

Lemma regex_at_present h p r a : regex_at (regex_t:=regex_t) h p r -> a ∈ option_list p -> is_Some (h !! a).
Proof. destruct p, r; simpl; set_solver. Qed.

Lemma method_at_present h a name mt fp x : method_at (regex_t:=regex_t) h a name mt fp -> x ∈ fp -> is_Some (h !! x).
Proof.
  intros (m & E & ? & ? & ? & ->). rewrite !elem_of_app, list_elem_of_singleton.
  intros [?|[?|[?| ->]]]; eauto using text_at_present.
Qed.

Lemma methods_at_present h t mts fps x :
  methods_at (regex_t:=regex_t) h t mts fps -> x ∈ concat fps -> is_Some (h !! x).
Proof.
  unfold methods_at. induction 1 as [|k fp ks fps (a & mt & _ & _ & Hm) _ IH]; [set_solver|].
  simpl. rewrite elem_of_app. intros [?|?]; eauto using method_at_present.
Qed.

Lemma object_at_present h o so d ot fps fp x :
  object_at (regex_t:=regex_t) h o so d ot fps fp -> x ∈ fp -> is_Some (h !! x).
Proof.
  intros [? ? ? ? ? ? ? ? ->]. rewrite !elem_of_app, list_elem_of_singleton.
  intros [?|[?|[?|[?| ->]]]]; eauto using methods_at_present, text_at_present, regex_at_present.
Qed.

Lemma wp_flush_method a name mt fp s :
  method_at (heap _ s) a name mt fp -> NoDup fp ->
  wp (schema_flush_method regex_t a) (fun _ s' => s' = minus s fp) s.
Proof.
  intros Hm Hnd. assert (Hown : owned s fp) by (split; eauto using method_at_present).
  destruct Hm as (m & Ea & _ & _ & _ & ->).
  unfold schema_flush_method. wp_step. eapply wp_read; [by rewrite Ea|].
  do 3 (eapply wp_free_first; [eassumption|]; clear Hown; intros Hown).
  eapply wp_mono; [by apply wp_free_last|]. intros _ ? ->. by rewrite !minus_minus, ?app_assoc.
Qed.

(** The state while the methods of [o] are flushed. *)
Definition without s (o : addr) (so : schema_object) (t : avl_tree) fp : store regex_t :=
  set_heap regex_t (<[o := CObject regex_t (set_methods t so)]> (hminus (heap _ s) fp)) s.

Lemma wp_flush_methods_loop o so ks (nodes : gmap string addr) mts fps s t :
  methods_at (heap _ s) (AvlNodes ks nodes) mts fps ->
  NoDup (concat fps) -> o ∉ concat fps ->
  heap _ s !! o = Some (CObject regex_t (set_methods t so)) ->
  wp (forM_ ((fun k => (k, nodes !! k)) <$> ks) (fun n =>
        let* a := deref (fun _ => n.2) in
        with_object regex_t o (fun so => set_methods (tree_delete (so_methods so) n.1) so) ;;;
        schema_flush_method regex_t a))
     (fun _ s' => exists t', s' = without s o so t' (concat fps)) s.
Proof.
  revert ks s t. induction fps as [|fp fps IH]; intros ks s t HF Hnd Ho Hc;
    unfold methods_at in HF; cbn [t_keys t_nodes] in HF.
  { apply Forall2_nil_inv_r in HF as ->. wp_steps. exists t. unfold without. simpl.
    rewrite insert_id by done. by destruct s. }
  apply Forall2_cons_inv_r in HF as (k & ks' & (a & mt & En & Em & Hm) & HF & ->).
  cbn [fmap list_fmap forM_]. wp_step. wp_step. eapply wp_deref; [exact En|]. cbn [fst snd]. wp_step.
  unfold with_object. wp_step. eapply wp_read; [by rewrite Hc|].
  unfold write. wp_step. eapply wp_deref; [exact Hc|]. wp_step.
  simpl in Hnd, Ho. apply NoDup_app in Hnd as (Hnd1 & Hd & Hnd2).
  set (t1 := tree_delete t k).
  set (s1 := set_heap regex_t (<[o := CObject regex_t (set_methods t1 so)]> (heap _ s)) s).
  assert (Hs1 : forall x, x <> o -> heap _ s1 !! x = heap _ s !! x) by (intros; cbn; by rewrite lookup_insert_ne).
  eapply wp_mono; [eapply (wp_flush_method a k mt fp s1); [|done]|].
  { eapply method_at_agree; [exact Hm|]. intros x Hx. apply Hs1. set_solver. }
  intros _ s2 ->. eapply wp_mono; [eapply (IH ks' (minus s1 fp) t1)|].
  - eapply methods_at_agree; [exact HF|]. intros x Hx. cbn [minus heap set_heap].
    rewrite hminus_lookup, decide_False by (intros ?; by eapply Hd). apply Hs1. set_solver.
  - done.
  - set_solver.
  - cbn [minus heap set_heap]. rewrite hminus_lookup, decide_False by set_solver. cbn. by rewrite lookup_insert_eq.
  - intros _ s' [t' ->]. exists t'. unfold without, minus, set_heap. cbn. f_equal.
    rewrite hminus_app, hminus_insert_out by set_solver. by rewrite insert_insert_eq.
Qed.

Lemma wp_flush_object o so ot fps fp s :
  object_at (heap _ s) o so (so_definitions so) ot fps fp -> NoDup fp ->
  (so_regex so = true -> so_regex_exp so = None -> regfree_unfilled = true) ->
  (so_regex so = false -> so_regex_exp so = None) ->
  wp (schema_flush_object regex_t regfree_unfilled o) (fun _ s' => s' = minus s fp) s.
Proof.
  intros Hat Hnd Hre Hno. assert (Hown : owned s fp) by (split; eauto using object_at_present).
  destruct Hat as [Hc _ _ _ _ _ _ Hms ->].
  unfold schema_flush_object, schema_flush_methods. wp_step. wp_step. eapply wp_read; [by rewrite Hc|].
  assert (Ho : o ∉ concat fps).
  { apply NoDup_app in Hnd as (_ & Hd & _). intros Hin. apply (Hd o Hin). set_solver. }
  destruct (so_methods so) as [ks nodes] eqn:Et.
  eapply wp_mono; [eapply (wp_flush_methods_loop o so ks nodes _ fps s (so_methods so)); [done| |done|]|].
  { by apply NoDup_app in Hnd as (? & _). }
  { rewrite Hc. by destruct so. }
  intros _ s1 [t' ->]. wp_step. eapply wp_read; [cbn; by rewrite lookup_insert_eq|].
  cbn [so_key so_definitions so_regex so_regex_exp set_methods].
  apply owned_app in Hown as [_ Hown].
  set (s1 := without s o so t' (concat fps)).
  assert (Hown1 : owned s1 (option_list (so_key so) ++ option_list (so_definitions so) ++ option_list (so_regex_exp so) ++ [o])).
  { destruct Hown as [Hn Hp]. split; [done|]. intros a Ha. cbn.
    destruct (decide (a = o)) as [->|]; [rewrite lookup_insert_eq; eauto|]. rewrite lookup_insert_ne by done. by apply Hp. }
  clear Hown. rename Hown1 into Hown.
  do 2 (eapply wp_free_first; [eassumption|]; clear Hown; intros Hown).
  assert (Hlast : wp (free regex_t (so_regex_exp so) ;;; free_at regex_t o)
    (fun _ s' => s' = minus s1 (option_list (so_key so) ++ option_list (so_definitions so) ++ option_list (so_regex_exp so) ++ [o]))
    (minus (minus s1 (option_list (so_key so))) (option_list (so_definitions so)))).
  { eapply wp_free_first; [exact Hown|]. intros Hown'. eapply wp_mono; [by apply wp_free_last|].
    intros _ ? ->. by rewrite !minus_minus, ?app_assoc. }
  assert (Hend : minus s1 (option_list (so_key so) ++ option_list (so_definitions so) ++ option_list (so_regex_exp so) ++ [o])
    = minus s (concat fps ++ option_list (so_key so) ++ option_list (so_definitions so) ++ option_list (so_regex_exp so) ++ [o])).
  { unfold minus, s1, without, set_heap. cbn. f_equal. rewrite hminus_insert_in by set_solver. by rewrite hminus_app. }
  rewrite Hend in Hlast. destruct (so_regex so) eqn:Er.
  - destruct (so_regex_exp so) as [x|] eqn:Ex; [exact Hlast|].
    rewrite Hre by done. exact Hlast.
  - rewrite Hno in * by done. exact Hlast.
Qed.
End flush.

(** ** The whole store *)

Section objects.
Context `{AvlTree} {regex_t : Type}.
Variable regfree_unfilled : bool.
Implicit Types (s : store regex_t) (es : list (object_text regex_t * list addr)).

(** An object of the tree: its expression is compiled exactly if it has one. *)
Definition object_in h (a : addr) (k : string) (e : object_text regex_t * list addr) : Prop :=
  exists so mfps, object_at h a so (so_definitions so) e.1 mfps e.2 /\
    ot_key e.1 = Some k /\ so_regex so = bool_decide (is_Some (ot_exp e.1)).

Definition objects_at h (t : avl_tree) es : Prop :=
  Forall2 (fun k e => exists a, t_nodes t !! k = Some a /\ object_in h a k e) (t_keys t) es.

(** The store holds the objects [ots] in key order, and [h0] besides. *)
Definition store_rep (h0 : gmap addr (cell regex_t)) s (ots : list (object_text regex_t)) : Prop :=
  exists es, ots = es.*1 /\ tree_wf (schema_objects _ s) /\ objects_at (heap _ s) (schema_objects _ s) es /\
    NoDup (concat (es.*2)) /\ hminus (heap _ s) (concat (es.*2)) = h0 /\
    forall a, (brk _ s <= a)%nat -> heap _ s !! a = None.

Lemma object_in_agree h h' a k e : object_in h a k e -> agree h h' e.2 -> object_in h' a k e.
Proof. intros (so & mfps & ? & ? & ?) Ha. exists so, mfps. split; eauto using object_at_agree. Qed.

Lemma objects_at_agree h h' t es : objects_at h t es -> agree h h' (concat (es.*2)) -> objects_at h' t es.
Proof.
  unfold objects_at. induction 1 as [|k e ks es (a & ? & ?) _ IH]; intros Ha; constructor.
  - exists a. split; [done|]. eapply object_in_agree; [done|]. intros x Hx. apply Ha. simpl. set_solver.
  - apply IH. intros x Hx. apply Ha. simpl. set_solver.
Qed.

Lemma regex_at_is_Some h p r : regex_at (regex_t:=regex_t) h p r -> is_Some p <-> is_Some r.
Proof. destruct p, r; simpl; intros; split; intros [? ?]; eauto; done. Qed.

Lemma wp_flush_in a k e s :
  object_in (heap _ s) a k e -> NoDup e.2 ->
  wp (schema_flush_object regex_t regfree_unfilled a) (fun _ s' => s' = minus s e.2) s.
Proof.
  intros (so & mfps & Hat & _ & Hre) Hnd. pose proof (regex_at_is_Some _ _ _ (oa_exp _ _ _ _ _ _ _ Hat)) as Hex.
  apply (wp_flush_object _ a so e.1 mfps); [done..| |]; rewrite Hre.
  - intros Hs%bool_decide_eq_true Hn. apply Hex in Hs as [? ?]. by rewrite Hn in *.
  - intros Hs%bool_decide_eq_false. apply eq_None_not_Some. by rewrite Hex.
Qed.

Lemma wp_flush_objects_loop ks nodes es s :
  objects_at (heap _ s) (AvlNodes ks nodes) es -> NoDup (concat (es.*2)) -> NoDup ks ->
  t_keys (schema_objects _ s) = ks ->
  wp (forM_ ((fun k => (k, nodes !! k)) <$> ks) (fun n =>
        let* a := deref (fun _ => n.2) in
        modify (fun s => set_objects regex_t (tree_delete (schema_objects _ s) n.1) s) ;;;
        schema_flush_object regex_t regfree_unfilled a))
     (fun _ s' => exists t, t_keys t = [] /\ s' = set_objects _ t (minus s (concat (es.*2)))) s.
Proof.
  revert ks s. induction es as [|e es IH]; intros ks s HF Hnd Hks Hk;
    unfold objects_at in HF; cbn [t_keys t_nodes] in HF.
  { apply Forall2_nil_inv_r in HF as ->. wp_steps. exists (schema_objects _ s). split; [done|]. by destruct s. }
  apply Forall2_cons_inv_r in HF as (k & ks' & (a & En & Ho) & HF & ->).
  cbn [fmap list_fmap forM_]. wp_step. wp_step. eapply wp_deref; [exact En|]. cbn [fst snd]. wp_step. wp_step.
  simpl in Hnd. apply NoDup_app in Hnd as (Hnd1 & Hd & Hnd2). apply NoDup_cons in Hks as [Hks1 Hks2].
  set (s1 := set_objects regex_t (tree_delete (schema_objects _ s) k) s).
  eapply wp_mono; [by apply (wp_flush_in a k e s1)|]. intros _ s2 ->.
  eapply wp_mono; [eapply (IH ks' (minus s1 e.2))|].
  - eapply objects_at_agree; [exact HF|]. intros x Hx. cbn.
    rewrite hminus_lookup, decide_False; [done|]. intros ?. by eapply Hd.
  - done.
  - done.
  - cbn. rewrite Hk, avl_delete_spec, filter_cons_False by auto. apply filter_all. by intros x Hx ->.
  - intros _ s' (t & Ht & ->). exists t. split; [done|]. unfold minus, set_objects, set_heap. cbn. by rewrite hminus_app.
Qed.

(** Flushing gives back all the store has allocated. *)
Lemma wp_flush_objects h0 s ots :
  store_rep h0 s ots ->
  wp (schema_flush_objects regex_t regfree_unfilled)
     (fun _ s' => heap _ s' = h0 /\ t_keys (schema_objects _ s') = []) s.
Proof.
  intros (es & _ & Hwf & Hat & Hnd & Hh & _). unfold schema_flush_objects. wp_step. wp_step.
  destruct (schema_objects _ s) as [ks nodes] eqn:Et.
  eapply wp_mono; [eapply (wp_flush_objects_loop ks nodes es s); [done|done| |by rewrite Et]|].
  - apply sorted_NoDup, (tw_sorted _ Hwf).
  - by intros _ s' (t & Ht & ->).
Qed.
(** An object that was built beside the store enters the tree. *)

Lemma store_rep_insert h0 s ots s' k o e :
  store_rep h0 s ots -> k ∉ t_keys (schema_objects _ s) -> object_in (heap _ s') o k e -> NoDup e.2 ->
  (forall a, a ∈ e.2 -> (brk _ s <= a < brk _ s')%nat) -> (forall a, a ∉ e.2 -> heap _ s' !! a = heap _ s !! a) ->
  schema_objects _ s' = tree_insert (schema_objects _ s) k o -> (brk _ s <= brk _ s')%nat ->
  exists ots', ots' ≡ₚ e.1 :: ots /\ store_rep h0 s' ots'.
Proof.
  intros (es & -> & Hwf & Hat & Hnd & Hh & Hfree) Hk Hin Hnde Hnew Hfr Ht Hbrk.
  destruct (tree_insert_new _ k o Hwf Hk) as (Hwf' & Hnodes & l1 & l2 & El & El').
  assert (Hold : forall a, a ∈ concat (es.*2) -> a ∉ e.2).
  { intros a Ha Ha'. apply Hnew in Ha'. assert (is_Some (heap _ s !! a)) as [? Hs].
    { clear -Hat Ha. unfold objects_at in Hat. induction Hat as [|k e ks es (x & _ & so & mf & Ho & _) _ IH]; [set_solver|].
      simpl in Ha. apply elem_of_app in Ha as [Ha|Ha]; [by eapply object_at_present|auto]. }
    rewrite Hfree in Hs by lia. done. }
  assert (Hat' : objects_at (heap _ s') (schema_objects _ s) es).
  { eapply objects_at_agree; [done|]. intros a Ha. apply Hfr. auto. }
  unfold objects_at in Hat'. rewrite El in Hat'. apply Forall2_app_inv_l in Hat' as (e1 & e2 & He1 & He2 & ->).
  exists ((e1 ++ e :: e2).*1). split; [rewrite !fmap_app, fmap_cons; solve_Permutation|].
  assert (Hp : concat ((e1 ++ e :: e2).*2) ≡ₚ e.2 ++ concat ((e1 ++ e2).*2)).
  { rewrite !fmap_app, fmap_cons, !concat_app, concat_cons. solve_Permutation. }
  exists (e1 ++ e :: e2). rewrite Ht. split_and!; [done|done| | | |].
  - unfold objects_at. rewrite El'. rewrite El in Hk.
    assert (Hsub : forall l es, Forall2 (fun k' e => exists a, t_nodes (schema_objects _ s) !! k' = Some a /\
        object_in (heap _ s') a k' e) l es -> k ∉ l ->
        Forall2 (fun k' e => exists a, t_nodes (tree_insert (schema_objects _ s) k o) !! k' = Some a /\
        object_in (heap _ s') a k' e) l es).
    { intros l es HF Hn. induction HF as [|k' x l es (a & E1 & Ho) _ IH]; constructor; [|set_solver].
      exists a. rewrite Hnodes, lookup_insert_ne by set_solver. done. }
    apply Forall2_app; [apply Hsub; [done|set_solver]|]. constructor; [|apply Hsub; [done|set_solver]].
    exists o. by rewrite Hnodes, lookup_insert_eq.
  - rewrite Hp. apply NoDup_app. split_and!; [done| |done]. intros a Ha Ha'. by eapply Hold.
  - rewrite <- Hh. apply map_eq. intros a. rewrite !hminus_lookup.
    rewrite (decide_ext (a ∈ concat ((e1 ++ e :: e2).*2)) (a ∈ e.2 ++ concat ((e1 ++ e2).*2))) by (by rewrite Hp).
    destruct (decide (a ∈ e.2)) as [Ha|Ha].
    + rewrite decide_True by set_solver. case_decide; [done|]. symmetry. apply Hfree. by apply Hnew in Ha as [? _].
    + rewrite Hfr by done. apply decide_ext. set_solver.
  - intros a Ha. rewrite Hfr; [apply Hfree; lia|]. intros ?%Hnew. lia.
Qed.

Lemma store_rep_keys h0 s ots k :
  store_rep h0 s ots -> k ∈ t_keys (schema_objects regex_t s) -> exists ot, ot ∈ ots /\ ot_key ot = Some k.
Proof.
  intros (es & -> & _ & Hat & _). unfold objects_at in Hat.
  induction Hat as [|k' e ks es (a & _ & so & mf & _ & Hk & _) _ IH]; [set_solver|].
  intros [->|Hin]%elem_of_cons; [exists e.1; split; [set_solver|done]|].
  destruct (IH Hin) as (ot & ? & ?). exists ot. split; [set_solver|done].
Qed.
End objects.

(** ** Reading a file builds the objects it describes *)

Section setup.
Context `{AvlTree, LibUbox} {regex_t : Type}.
Variable format_attr : attr -> string.
Implicit Types (s : store regex_t) (h : gmap addr (cell regex_t)).

(** Since the heap was [h] and ended at [b], exactly [fp] was allocated and
    kept; the tree of objects is [t]. *)
Record built h (b : addr) (t : avl_tree) s fp : Prop := {
  bu_nodup : NoDup fp;
  bu_new a : a ∈ fp -> (b <= a < brk _ s)%nat;
  bu_frame a : a ∉ fp -> heap _ s !! a = h !! a;
  bu_fresh a : (b <= a)%nat -> h !! a = None;
  bu_brk : (b <= brk _ s)%nat;
  bu_tree : schema_objects _ s = t;
}.

Definition alloced (c : cell regex_t) s : store regex_t :=
  Store _ (<[brk _ s := c]> (heap _ s)) (S (brk _ s)) (schema_objects _ s).

Definition written a (c : cell regex_t) s : store regex_t := set_heap _ (<[a := c]> (heap _ s)) s.

Lemma wp_malloc c Q s : Q (brk _ s) (alloced c s) -> wp (malloc regex_t c) Q s.
Proof. done. Qed.

Lemma wp_write a c Q s : is_Some (heap _ s !! a) -> Q tt (written a c s) -> wp (write regex_t a c) Q s.
Proof. intros [x Hx] HQ. unfold write. wp_step. eapply wp_deref; [exact Hx|]. by wp_steps. Qed.

Lemma wp_with_method a f m Q s :
  heap _ s !! a = Some (CMethod _ m) -> Q tt (written a (CMethod _ (f m)) s) -> wp (with_method regex_t a f) Q s.
Proof. intros E HQ. unfold with_method. wp_step. eapply wp_read; [by rewrite E|]. apply wp_write; [by rewrite E|done]. Qed.

Lemma wp_with_object a f o Q s :
  heap _ s !! a = Some (CObject _ o) -> Q tt (written a (CObject _ (f o)) s) -> wp (with_object regex_t a f) Q s.
Proof. intros E HQ. unfold with_object. wp_step. eapply wp_read; [by rewrite E|]. apply wp_write; [by rewrite E|done]. Qed.

Lemma built_perm h b t s fp fp' : fp ≡ₚ fp' -> built h b t s fp -> built h b t s fp'.
Proof.
  intros Hp []. split; try done.
  - by rewrite <- Hp.
  - intros a Ha. rewrite <- Hp in Ha. auto.
  - intros a Ha. rewrite <- Hp in Ha. auto.
Qed.

Lemma built_start b t s : brk _ s = b -> schema_objects _ s = t ->
  (forall a, (b <= a)%nat -> heap _ s !! a = None) -> built (heap _ s) b t s [].
Proof. intros <- <- Hf. split; try done; [constructor|set_solver]. Qed.

Lemma built_fresh h b t s fp a : built h b t s fp -> (brk _ s <= a)%nat -> (a ∉ fp) /\ heap _ s !! a = None.
Proof.
  intros [] Ha. assert (Hn : a ∉ fp) by (intros ?%bu_new0; lia). split; [done|].
  rewrite bu_frame0 by done. apply bu_fresh0. lia.
Qed.

Lemma built_malloc h b t s fp c : built h b t s fp -> built h b t (alloced c s) (brk _ s :: fp).
Proof.
  intros Hb. pose proof (built_fresh _ _ _ _ _ (brk _ s) Hb) as [Hn _]; [done|]. destruct Hb. split; try done; cbn.
  - by constructor.
  - intros a [->|Ha]%elem_of_cons; [lia|]. apply bu_new0 in Ha. lia.
  - intros a [Hne Ha]%not_elem_of_cons. rewrite lookup_insert_ne by done. auto.
  - lia.
Qed.

Lemma built_written h b t s fp a c : built h b t s fp -> a ∈ fp -> built h b t (written a c s) fp.
Proof.
  intros [] Ha. split; try done. intros x Hx. cbn. rewrite lookup_insert_ne; [auto|]. by intros ->.
Qed.

Lemma alloced_agree c s fp : brk _ s ∉ fp -> agree (heap _ s) (heap _ (alloced c s)) fp.
Proof. intros Hn a Ha. cbn. rewrite lookup_insert_ne; [done|]. by intros <-. Qed.

Lemma written_agree a c s fp : a ∉ fp -> agree (heap _ s) (heap _ (written a c s)) fp.
Proof. intros Hn x Hx. cbn. rewrite lookup_insert_ne; [done|]. by intros ->. Qed.

(** A method with the texts of some of its fields. *)
Definition add_fields (mt : method_text) (fields : list attr) : method_text :=
  MethodText (mt_input mt ∪ (format_attr <$> field "input" fields))
    (mt_output mt ∪ (format_attr <$> field "output" fields)).

Definition add_field (mt : method_text) (f : attr) : method_text :=
  if decide (f.1 = "input") then MethodText (Some (format_attr f)) (mt_output mt)
  else if decide (f.1 = "output") then MethodText (mt_input mt) (Some (format_attr f)) else mt.

(** A string of a method after its cell was written. *)
Lemma text_at_written a c s p x : text_at (heap _ s) p x -> a ∉ option_list p -> text_at (heap _ (written a c s)) p x.
Proof. intros Ht Ha. eapply text_at_agree; [done|by apply written_agree|done]. Qed.

Lemma method_at_self h a name mt fp m :
  method_at (regex_t:=regex_t) h a name mt fp -> NoDup fp -> h !! a = Some (CMethod _ m) ->
  (a ∉ option_list (sm_input m)) /\ (a ∉ option_list (sm_output m)) /\ a ∉ option_list (sm_key m).
Proof.
  intros (m' & E & _ & _ & _ & ->) Hnd E'. rewrite E' in E. injection E as <-.
  rewrite 2!(app_assoc _ _ [a]), (app_assoc _ _ [a]) in Hnd || rewrite !app_assoc in Hnd.
  apply NoDup_app in Hnd as (_ & Hd & _).
  split_and!; intros Ha; (eapply Hd; [|by apply list_elem_of_singleton]); rewrite !elem_of_app; auto.
Qed.

Lemma wp_method_field h b t m name mt fp f s :
  method_at (heap _ s) m name mt fp -> built h b t s fp ->
  (f.1 = "input" -> mt_input mt = None) -> (f.1 = "output" -> mt_output mt = None) ->
  wp (method_field regex_t format_attr m f)
     (fun _ s' => exists fp', method_at (heap _ s') m name (add_field mt f) fp' /\ built h b t s' fp') s.
Proof.
  intros Hm Hb Hin Hout. unfold method_field, add_field, blobmsg_name. rewrite !strncmp_eqb by (simpl; lia).
  destruct (built_fresh _ _ _ _ _ (brk _ s) Hb) as [Hn _]; [done|].
  pose proof (bu_nodup _ _ _ _ _ Hb) as Hnd. pose proof (built_malloc _ _ _ _ _ (CStr _ (format_attr f)) Hb) as Hb1.
  pose proof (alloced_agree (CStr _ (format_attr f)) _ _ Hn) as Hag.
  pose proof (method_at_agree _ _ _ _ _ _ Hm Hag) as Hm1.
  pose proof Hm1 as (x & Ex & Hxi & Hxo & Hxk & Hfp).
  destruct (method_at_self _ _ _ _ _ _ Hm1 Hnd Ex) as (Hsi & Hso & Hsk).
  assert (Hfp' : m ∈ fp) by (rewrite Hfp; set_solver).
  assert (Hne : m <> brk _ s) by (by intros ->).
  case_bool_decide as Ei; [|case_bool_decide as Eo].
  - rewrite decide_True by done. rewrite Hin in Hxi by done. destruct (sm_input x) eqn:Ein; [done|].
    wp_step. apply wp_malloc. eapply wp_with_method; [exact Ex|]. exists (brk _ s :: fp).
    split; [|apply built_written; [done|set_solver]].
    exists (set_input (Some (brk _ s)) x). split_and!; cbn [set_input sm_input sm_output sm_key mt_input mt_output].
    + cbn. by rewrite lookup_insert_eq.
    + cbn. by rewrite lookup_insert_ne, lookup_insert_eq.
    + by apply text_at_written.
    + by apply text_at_written.
    + by rewrite Hfp.
  - rewrite decide_False, decide_True by done. rewrite Hout in Hxo by done. destruct (sm_output x) eqn:Eou; [done|].
    wp_step. apply wp_malloc. eapply wp_with_method; [exact Ex|].
    exists (option_list (sm_input x) ++ brk _ s :: option_list (sm_key x) ++ [m]).
    split; [|eapply built_perm; [|apply built_written; [done|set_solver]]; rewrite Hfp; simpl; solve_Permutation].
    exists (set_output (Some (brk _ s)) x). split_and!; cbn [set_output sm_input sm_output sm_key mt_input mt_output].
    + cbn. by rewrite lookup_insert_eq.
    + by apply text_at_written.
    + cbn. by rewrite lookup_insert_ne, lookup_insert_eq.
    + by apply text_at_written.
    + done.
  - rewrite !decide_False by done. wp_steps. by exists fp.
Qed.

Lemma wp_method_fields h b t m name fields mt fp s :
  method_at (heap _ s) m name mt fp -> built h b t s fp -> names_unique fields ->
  ("input" ∈ fields.*1 -> mt_input mt = None) -> ("output" ∈ fields.*1 -> mt_output mt = None) ->
  wp (forM_ fields (method_field regex_t format_attr m))
     (fun _ s' => exists fp', method_at (heap _ s') m name (add_fields mt fields) fp' /\ built h b t s' fp') s.
Proof.
  revert mt fp s. induction fields as [|f fields IH]; intros mt fp s Hm Hb Hu Hin Hout.
  { wp_steps. exists fp. unfold add_fields. simpl. rewrite !(right_id_L None (∪)). by destruct mt. }
  apply NoDup_cons in Hu as [Hf Hu]. cbn [forM_]. wp_step.
  eapply wp_mono; [eapply wp_method_field; [done..| |]|].
  { intros E. apply Hin. rewrite fmap_cons, E. set_solver. }
  { intros E. apply Hout. rewrite fmap_cons, E. set_solver. }
  intros _ s1 (fp1 & Hm1 & Hb1). eapply wp_mono; [eapply (IH (add_field mt f)); [done..| |]|].
  - intros Hx. unfold add_field. rewrite decide_False by (intros E; by rewrite E in Hf).
    case_decide; apply Hin; set_solver.
  - intros Hx. unfold add_field. case_decide; [apply Hout; set_solver|]. rewrite decide_False by (intros E; by rewrite E in Hf).
    apply Hout; set_solver.
  - intros _ s2 (fp2 & Hm2 & Hb2). exists fp2. split; [|done].
    assert (add_fields (add_field mt f) fields = add_fields mt (f :: fields)) as <-; [|done].
    unfold add_fields, add_field. rewrite !field_cons. destruct (decide (f.1 = "input")) as [Ei|].
    + rewrite Hin by (rewrite fmap_cons, Ei; set_solver). rewrite decide_False by congruence.
      rewrite (field_notin "input") by (by rewrite <- Ei). done.
    + case_decide as Eo; [|done]. rewrite (Hout ltac:(rewrite fmap_cons, Eo; set_solver)).
      rewrite (field_notin "output") by (by rewrite <- Eo). done.
Qed.

(** The new method [m] of an object and what it owns, beside the object. *)
Lemma built_beside h b t s fp o so s' fp' :
  built h b t s fp -> o ∈ fp ->
  built (heap _ (written o (CObject _ so) s)) (brk _ s) t s' fp' ->
  built h b t s' (fp' ++ fp) /\ (fp' ## fp) /\ heap _ s' !! o = Some (CObject _ so) /\
  forall a, a ∈ fp -> a <> o -> heap _ s' !! a = heap _ s !! a.
Proof.
  intros Hb Ho Hb'.
  assert (Hd : fp' ## fp).
  { intros a Ha Ha'. apply (bu_new _ _ _ _ _ Hb') in Ha. apply (bu_new _ _ _ _ _ Hb) in Ha'. lia. }
  assert (Hfr : forall a, a ∈ fp -> heap _ s' !! a = heap _ (written o (CObject _ so) s) !! a).
  { intros a Ha. apply (bu_frame _ _ _ _ _ Hb'). set_solver. }
  split_and!; [|done| |].
  - destruct Hb, Hb'. split; try done.
    + apply NoDup_app. split_and!; [done| |done]. set_solver.
    + intros a [?%bu_new1|?%bu_new0]%elem_of_app; lia.
    + intros a [? ?]%not_elem_of_app. rewrite bu_frame1 by done. cbn.
      rewrite lookup_insert_ne; [auto|]. by intros ->.
    + lia.
  - rewrite Hfr by done. cbn. apply lookup_insert_eq.
  - intros a Ha Hne. rewrite Hfr by done. cbn. by rewrite lookup_insert_ne.
Qed.

Definition add_method (name : string) (mt : method_text) (ot : object_text regex_t) : object_text regex_t :=
  ObjectText (ot_key ot) (ot_definitions ot) (ot_regex ot) (ot_exp ot) (<[name := mt]> (ot_methods ot)).

(** The object with the method [m] in its tree. *)
Lemma object_at_method h h' o so d ot fps fp m name mt fp' :
  object_at (regex_t:=regex_t) h o so d ot fps fp -> NoDup fp -> name ∉ t_keys (so_methods so) ->
  method_at h' m name mt fp' ->
  h' !! o = Some (CObject _ (set_methods (tree_insert (so_methods so) name m) so)) ->
  (forall a, a ∈ fp -> a <> o -> h' !! a = h !! a) ->
  exists so' fps' fp'', object_at h' o so' d (add_method name mt ot) fps' fp'' /\ fp' ++ fp ≡ₚ fp''.
Proof.
  intros [Hc Hk Hde He Hr Ht Hdom Hms ->] Hnd Hname Hm Ho Hfr.
  assert (Hd : o ∉ concat fps ++ option_list (so_key so) ++ option_list d ++ option_list (so_regex_exp so)).
  { intros Hin. rewrite !app_assoc in Hnd. rewrite !app_assoc in Hin. apply NoDup_app in Hnd as (_ & Hd & _).
    eapply Hd; [exact Hin|set_solver]. }
  assert (Hag : agree h h' (concat fps ++ option_list (so_key so) ++ option_list d ++ option_list (so_regex_exp so))).
  { intros a Ha. apply Hfr; [set_solver|]. by intros ->. }
  destruct (tree_insert_new _ name m Ht Hname) as (Ht' & Hnodes & l1 & l2 & El & El').
  assert (Hms' : methods_at h' (so_methods so) (ot_methods ot) fps).
  { eapply methods_at_agree; [done|]. intros a Ha. apply Hag. set_solver. }
  unfold methods_at in Hms'. rewrite El in Hms'. apply Forall2_app_inv_l in Hms' as (f1 & f2 & Hf1 & Hf2 & ->).
  exists (set_methods (tree_insert (so_methods so) name m) so), (f1 ++ fp' :: f2). eexists. split.
  - split; cbn [set_methods so_key so_definitions so_regex so_regex_exp so_methods add_method ot_key ot_definitions
      ot_regex ot_exp ot_methods]; [done|..|done|done| | |reflexivity].
    + eapply text_at_agree; [done..|]. set_solver.
    + eapply text_at_agree; [done..|]. set_solver.
    + eapply regex_at_agree; [done..|]. set_solver.
    + intros k. rewrite El', lookup_insert_is_Some, <- Hdom, El, !elem_of_app, elem_of_cons.
      destruct (decide (name = k)); naive_solver.
    + assert (Hsub : forall l f, Forall2 (fun k fp => exists a mt, t_nodes (so_methods so) !! k = Some a /\
          ot_methods ot !! k = Some mt /\ method_at h' a k mt fp) l f -> name ∉ l ->
          Forall2 (fun k fp => exists a mt0, t_nodes (tree_insert (so_methods so) name m) !! k = Some a /\
            <[name := mt]> (ot_methods ot) !! k = Some mt0 /\ method_at h' a k mt0 fp) l f).
      { intros l f HF Hn. induction HF as [|k fp l f (a & mt0 & E1 & E2 & Hat) _ IH]; constructor; [|set_solver].
        exists a, mt0. rewrite Hnodes, !lookup_insert_ne by set_solver. done. }
      unfold methods_at. rewrite El'. rewrite El in Hname. apply Forall2_app; [apply Hsub; [done|set_solver]|].
      constructor; [|apply Hsub; [done|set_solver]].
      exists m, mt. by rewrite Hnodes, !lookup_insert_eq.
  - rewrite !concat_app, concat_cons. solve_Permutation.
Qed.

Definition method_of (ob : attr) : option method_text :=
  (fun p => add_fields (MethodText None None) (blobmsg_attrs p)) <$> field "properties" (blobmsg_attrs ob).

Lemma wp_parse_object h b t o so d ot fps fp ob s :
  object_at (heap _ s) o so d ot fps fp -> built h b t s fp ->
  names_unique (blobmsg_attrs ob) ->
  (forall p, field "properties" (blobmsg_attrs ob) = Some p -> names_unique (blobmsg_attrs p)) ->
  ob.1 ∉ t_keys (so_methods so) ->
  wp (schema_parse_object regex_t format_attr o ob)
     (fun _ s' => exists so' fps' fp',
        object_at (heap _ s') o so' d (match method_of ob with Some mt => add_method ob.1 mt ot | None => ot end) fps' fp' /\
        built h b t s' fp') s.
Proof.
  intros Hat Hb Hu Hup Hname. unfold schema_parse_object, wp, method_of, blobmsg_name.
  erewrite forM_ext; [|intros p s0; rewrite strncmp_eqb by (simpl; lia); reflexivity].
  rewrite forM_field by done. destruct (field "properties" (blobmsg_attrs ob)) as [p|] eqn:Ep; simpl; [|by exists so, fps, fp].
  specialize (Hup p eq_refl). pose proof (bu_nodup _ _ _ _ _ Hb) as Hnd.
  assert (Ho : o ∈ fp) by (rewrite (oa_fp _ _ _ _ _ _ _ Hat); set_solver).
  pose proof (bu_new _ _ _ _ _ Hb o Ho) as Hlt.
  match goal with |- match ?m ?s0 with _ => _ end => change (wp m (fun _ s' => exists so' fps' fp',
    object_at (heap _ s') o so' d (add_method ob.1 (add_fields (MethodText None None) (blobmsg_attrs p)) ot) fps' fp' /\
    built h b t s' fp') s0) end.
  wp_step. apply wp_malloc. wp_step. apply wp_malloc. wp_step.
  eapply wp_with_method; [cbn; rewrite lookup_insert_ne by lia; apply lookup_insert_eq|].
  wp_step. eapply wp_with_object.
  { cbn. rewrite !lookup_insert_ne by lia. apply (oa_cell _ _ _ _ _ _ _ Hat). }
  set (m := brk _ s). set (so' := set_methods _ so). set (mc := CMethod _ _).
  match goal with |- wp _ _ ?st =>
    assert (Est : st = written m mc (alloced (CStr _ ob.1) (alloced (CMethod _ (SchemaMethod None None None)) (written o (CObject _ so') s)))) end.
  { unfold written, alloced, set_heap. cbn. f_equal. fold m.
    rewrite !(insert_insert_ne _ o) by lia. done. }
  rewrite Est. clear Est.
  assert (Hb0 : built (heap _ (written o (CObject _ so') s)) m t (written o (CObject _ so') s) []).
  { apply built_start; [done|by apply (bu_tree _ _ _ _ _ Hb)|]. intros a Ha. cbn.
    rewrite lookup_insert_ne by lia. by apply (built_fresh _ _ _ _ _ a Hb). }
  eapply wp_mono; [eapply (wp_method_fields _ _ _ m ob.1 _ (MethodText None None) [S m; m]); [| |done..]|].
  - exists (SchemaMethod None None (Some (S m))). cbn. rewrite lookup_insert_eq, lookup_insert_ne, lookup_insert_eq by lia. done.
  - apply built_written; [|set_solver]. do 2 apply built_malloc. exact Hb0.
  - intros _ s5 (fp2 & Hm2 & Hb2).
    destruct (built_beside _ _ _ _ _ _ _ _ _ Hb Ho Hb2) as (Hb5 & _ & Ho5 & Hfr5).
    destruct (object_at_method _ _ _ _ _ _ _ _ _ _ _ _ Hat Hnd Hname Hm2 Ho5 Hfr5) as (so5 & fps5 & fp5 & Hat5 & Hp5).
    exists so5, fps5, fp5. split; [done|]. by eapply built_perm.
Qed.

Definition with_methods (f : gmap string method_text -> gmap string method_text) (ot : object_text regex_t)
  : object_text regex_t :=
  ObjectText (ot_key ot) (ot_definitions ot) (ot_regex ot) (ot_exp ot) (f (ot_methods ot)).

(** An object under construction: [d] is the local variable [definitions]. *)
Definition building h b t (o : addr) (d : ptr) (ot : object_text regex_t) s : Prop :=
  exists so fps fp, object_at (heap _ s) o so d ot fps fp /\ built h b t s fp.

Lemma spec_method_of ob :
  blobmsg_type_of ob = BLOBMSG_TYPE_TABLE -> spec_method format_attr ob = (fun mt => (ob.1, mt)) <$> method_of ob.
Proof.
  intros Et. unfold spec_method, method_of, add_fields. destruct (field "properties" (blobmsg_attrs ob)); simpl; [|done].
  rewrite option_guard_True by done. by rewrite !(left_id_L None (∪)).
Qed.

Lemma spec_method_other ob :
  blobmsg_type_of ob <> BLOBMSG_TYPE_TABLE -> spec_method format_attr ob = None.
Proof.
  intros Et. unfold spec_method. destruct (field "properties" (blobmsg_attrs ob)); simpl; [|done].
  by rewrite option_guard_False.
Qed.

Lemma spec_method_name ob k mt : spec_method format_attr ob = Some (k, mt) -> k = ob.1.
Proof.
  unfold spec_method. destruct (field "properties" (blobmsg_attrs ob)); simpl; [|done].
  case_guard; simpl; [|done]. by intros [= <- <-].
Qed.

Definition object_unique (ob : attr) : Prop :=
  names_unique (blobmsg_attrs ob) /\
  forall p, field "properties" (blobmsg_attrs ob) = Some p -> names_unique (blobmsg_attrs p).

Definition add_methods (obs : list attr) : object_text regex_t -> object_text regex_t :=
  with_methods (fun m => m ∪ list_to_map (omap (spec_method format_attr) obs)).

Lemma wp_parse_objects h b t o d obs ot s :
  building h b t o d ot s -> names_unique obs -> Forall object_unique obs ->
  (forall ob, ob ∈ obs -> ot_methods ot !! ob.1 = None) ->
  wp (forM_ obs (fun object => when bool_decide (blobmsg_type_of object = BLOBMSG_TYPE_TABLE) do
                   schema_parse_object regex_t format_attr o object))
     (fun _ => building h b t o d (add_methods obs ot)) s.
Proof.
  revert ot s. induction obs as [|ob obs IH]; intros ot s Hbu Hu Huo Hnew.
  { wp_steps. unfold add_methods, with_methods. simpl. rewrite (right_id_L ∅ (∪)). by destruct ot. }
  apply NoDup_cons in Hu as [Hn Hu]. apply Forall_cons in Huo as [[Hu1 Hu2] Huo]. cbn [forM_].
  assert (Hnew' : forall x, x ∈ obs -> ot_methods ot !! x.1 = None) by set_solver.
  assert (Hne : forall x, x ∈ obs -> x.1 <> ob.1).
  { intros x Hx E. apply Hn. rewrite <- E. by apply list_elem_of_fmap_2. }
  wp_step. case_bool_decide as Et.
  - destruct Hbu as (so & fps & fp & Hat & Hb). eapply wp_mono; [eapply wp_parse_object; [done..|]|].
    { rewrite (oa_dom _ _ _ _ _ _ _ Hat), Hnew by set_solver. by intros [? ?]. }
    intros u s1 Hbu1. cbn beta in Hbu1. clear u.
    assert (E : add_methods (ob :: obs) ot =
      add_methods obs (match method_of ob with Some mt => add_method ob.1 mt ot | None => ot end)).
    { unfold add_methods, with_methods, add_method. simpl. rewrite (spec_method_of _ Et).
      destruct (method_of ob); simpl; [|done]. f_equal.
      rewrite <- insert_union_l, insert_union_r; [done|]. apply Hnew. set_solver. }
    rewrite E. apply IH; [exact Hbu1|done|done|].
    intros x Hx. destruct (method_of ob); cbn; [rewrite lookup_insert_ne by (by apply not_eq_sym, Hne)|]; auto.
  - wp_steps. assert (E : add_methods (ob :: obs) ot = add_methods obs ot).
    { unfold add_methods, with_methods. simpl. by rewrite spec_method_other. }
    rewrite E. by apply IH.
Qed.

Variable blobmsg_get_bool : attr -> bool.

(** What one field of the file adds to the object. *)
Definition add_root (ot : object_text regex_t) (root : attr) : object_text regex_t :=
  if decide (root.1 = "regex") then
    ObjectText (ot_key ot) (ot_definitions ot) (blobmsg_get_bool root) (ot_exp ot) (ot_methods ot)
  else if decide (root.1 = "object") then
    ObjectText (Some (blobmsg_get_string root)) (ot_definitions ot) (ot_regex ot) (ot_exp ot) (ot_methods ot)
  else if decide (root.1 = "definitions") then
    ObjectText (ot_key ot) (Some (format_attr root)) (ot_regex ot) (ot_exp ot) (ot_methods ot)
  else if decide (root.1 = "properties") then add_methods (blobmsg_attrs root) ot
  else ot.

(** An object whose cell changes outside its tree. *)
Lemma object_at_written h o so d ot fps fp so' c :
  object_at (regex_t:=regex_t) h o so d ot fps fp -> NoDup fp -> c = CObject _ so' ->
  so_methods so' = so_methods so ->
  methods_at (<[o := c]> h) (so_methods so') (ot_methods ot) fps /\
  (forall p x, text_at h p x -> (o ∉ option_list p) -> text_at (<[o := c]> h) p x) /\
  (o ∉ option_list (so_key so)) /\ (o ∉ option_list d) /\ o ∉ option_list (so_regex_exp so).
Proof.
  intros [Hc Hk Hde He Hr Ht Hdom Hms ->] Hnd -> Et.
  assert (Hd : o ∉ concat fps ++ option_list (so_key so) ++ option_list d ++ option_list (so_regex_exp so)).
  { intros Hin. rewrite !app_assoc in Hnd. rewrite !app_assoc in Hin. apply NoDup_app in Hnd as (_ & Hd & _).
    eapply Hd; [exact Hin|set_solver]. }
  split_and!; [| |set_solver..].
  - rewrite Et. eapply methods_at_agree; [done|]. intros a Ha. rewrite lookup_insert_ne; [done|]. set_solver.
  - intros p x Hx Hp. eapply text_at_agree; [done| |reflexivity]. intros a Ha. rewrite lookup_insert_ne; [done|]. set_solver.
Qed.

Lemma building_alloced h b t o d ot s c :
  building h b t o d ot s ->
  exists so fps fp, object_at (heap _ (alloced c s)) o so d ot fps fp /\
    built h b t (alloced c s) (brk _ s :: fp) /\ heap _ (alloced c s) !! brk _ s = Some c /\
    NoDup fp /\ o ∈ fp /\ o <> brk _ s.
Proof.
  intros (so & fps & fp & Hat & Hb). destruct (built_fresh _ _ _ _ _ (brk _ s) Hb) as [Hn _]; [done|].
  assert (Ho : o ∈ fp) by (rewrite (oa_fp _ _ _ _ _ _ _ Hat); set_solver).
  exists so, fps, fp. split_and!; [|by apply built_malloc|by apply lookup_insert_eq|by apply (bu_nodup _ _ _ _ _ Hb)|done|].
  - eapply object_at_agree; [done|by apply alloced_agree].
  - intros E. by rewrite E in Ho.
Qed.

Lemma wp_set_regex h b t o d ot s v :
  building h b t o d ot s ->
  wp (with_object regex_t o (set_regex v))
     (fun _ => building h b t o d (ObjectText (ot_key ot) (ot_definitions ot) v (ot_exp ot) (ot_methods ot))) s.
Proof.
  intros (so & fps & fp & Hat & Hb). eapply wp_with_object; [apply (oa_cell _ _ _ _ _ _ _ Hat)|].
  assert (Ho : o ∈ fp) by (rewrite (oa_fp _ _ _ _ _ _ _ Hat); set_solver).
  destruct (object_at_written _ _ _ _ _ _ _ (set_regex v so) _ Hat (bu_nodup _ _ _ _ _ Hb) eq_refl eq_refl)
    as (Hms & Htx & Hk & Hd & He).
  exists (set_regex v so), fps, fp. split; [|by apply built_written].
  destruct Hat. split; cbn -[lookup insert]; [apply lookup_insert_eq|by apply Htx|by apply Htx| |done..].
  eapply regex_at_agree; [done|by apply written_agree|done].
Qed.

Lemma wp_set_key h b t o d ot s x :
  building h b t o d ot s -> ot_key ot = None ->
  wp (let* k := malloc regex_t (CStr _ x) in with_object regex_t o (set_okey (Some k)))
     (fun _ => building h b t o d (ObjectText (Some x) (ot_definitions ot) (ot_regex ot) (ot_exp ot) (ot_methods ot))) s.
Proof.
  intros Hbu Hkey. wp_step. apply wp_malloc.
  destruct (building_alloced _ _ _ _ _ _ _ (CStr _ x) Hbu) as (so & fps & fp & Hat & Hb & Hx & Hnd & Ho & Hne).
  eapply wp_with_object; [apply (oa_cell _ _ _ _ _ _ _ Hat)|].
  destruct (object_at_written _ _ _ _ _ _ _ (set_okey (Some (brk _ s)) so) _ Hat Hnd eq_refl eq_refl)
    as (Hms & Htx & Hk & Hd & He).
  destruct Hat as [Hc Hkt Hde Hex Hr Ht Hdom _ Hfp]. rewrite Hkey in Hkt.
  destruct (so_key so) eqn:Esk; [done|].
  eexists (set_okey (Some (brk _ s)) so), fps, _. split.
  - split; cbn -[lookup insert heap]; [apply lookup_insert_eq| |by apply Htx| |done..].
    + apply (Htx (Some (brk _ s)) (Some x)); [done|]. set_solver.
    + eapply regex_at_agree; [done|by apply written_agree|done].
  - eapply built_perm; [|apply built_written; [exact Hb|set_solver]]. rewrite Hfp. cbn. solve_Permutation.
Qed.

Lemma wp_new_definitions h b t o ot s x :
  building h b t o None ot s ->
  wp (let* a := malloc regex_t (CStr _ x) in M_ret (Some a))
     (fun d => building h b t o d (ObjectText (ot_key ot) (Some x) (ot_regex ot) (ot_exp ot) (ot_methods ot))) s.
Proof.
  intros Hbu. wp_step. apply wp_malloc. wp_steps.
  destruct (building_alloced _ _ _ _ _ _ _ (CStr _ x) Hbu) as (so & fps & fp & Hat & Hb & Hx & Hnd & Ho & Hne).
  destruct Hat as [Hc Hkt Hde Hex Hr Ht Hdom Hms Hfp].
  eexists so, fps, _. split; [by split|]. eapply built_perm; [|exact Hb]. rewrite Hfp. cbn. solve_Permutation.
Qed.

(** The conditions under which a field leaves nothing unreferenced. *)
Definition root_fits (ot : object_text regex_t) (root : attr) : Prop :=
  (root.1 = "object" -> ot_key ot = None) /\
  (root.1 = "definitions" -> ot_definitions ot = None) /\
  (root.1 = "properties" -> names_unique (blobmsg_attrs root) /\ Forall object_unique (blobmsg_attrs root) /\
     ot_methods ot = ∅).

Lemma wp_setup_root h b t o d ot root s :
  building h b t o d ot s -> root_fits ot root ->
  wp (setup_root regex_t blobmsg_get_bool format_attr o root d)
     (fun d' => building h b t o d' (add_root ot root)) s.
Proof.
  intros Hbu (Hk & Hd & Hp). unfold setup_root, add_root, blobmsg_name. rewrite !strncmp_eqb by (simpl; lia).
  destruct (decide (root.1 = "regex")) as [E|Er].
  { rewrite E. cbn [bool_decide decide_rel]. repeat rewrite bool_decide_eq_false_2 by done.
    rewrite bool_decide_eq_true_2 by done. wp_step. eapply wp_mono; [by apply wp_set_regex|].
    intros u s1 Hb1. cbn beta in Hb1. by wp_steps. }
  rewrite (bool_decide_eq_false_2 (root.1 = "regex")) by done. wp_steps.
  destruct (decide (root.1 = "object")) as [E|Eo].
  { rewrite E. repeat rewrite bool_decide_eq_false_2 by done.
    rewrite bool_decide_eq_true_2 by done. eapply wp_mono; [apply wp_set_key; by auto|].
    intros u s1 Hb1. cbn beta in Hb1. by wp_steps. }
  rewrite (bool_decide_eq_false_2 (root.1 = "object")) by done. wp_steps.
  destruct (decide (root.1 = "definitions")) as [E|Ed].
  { rewrite E. repeat rewrite bool_decide_eq_false_2 by done. rewrite bool_decide_eq_true_2 by done.
    assert (d = None) as ->.
    { destruct Hbu as (so & fps & fp & Hat & _). pose proof (oa_definitions _ _ _ _ _ _ _ Hat) as Ht.
      rewrite Hd in Ht by done. by destruct d. }
    eapply wp_mono; [by apply wp_new_definitions|]. intros d' s1 Hb1. by wp_steps. }
  rewrite (bool_decide_eq_false_2 (root.1 = "definitions")) by done. wp_steps.
  destruct (decide (root.1 = "properties")) as [E|Ep].
  - rewrite bool_decide_eq_true_2 by done. destruct (Hp E) as (Hu & Huo & Hm).
    eapply wp_mono; [apply wp_parse_objects; [done..|]|].
    + intros ob _. by rewrite Hm.
    + intros u s1 Hb1. cbn beta in Hb1. by wp_steps.
  - rewrite bool_decide_eq_false_2 by done. by wp_steps.
Qed.

(** *** The fields of a file *)

Lemma add_root_fits ot r r' : root_fits ot r' -> r.1 <> r'.1 -> root_fits (add_root ot r) r'.
Proof.
  intros (Hk & Hd & Hp) Hne. unfold add_root. repeat case_decide; split_and!; cbn; intros; auto; try congruence.
Qed.

Lemma wp_setup_roots h b t o d ot roots s :
  building h b t o d ot s -> names_unique roots -> Forall (root_fits ot) roots ->
  wp (setup_roots regex_t blobmsg_get_bool format_attr o roots d)
     (fun d' => building h b t o d' (fold_left add_root roots ot)) s.
Proof.
  revert d ot s. induction roots as [|r roots IH]; intros d ot s Hbu Hu Hf; cbn [setup_roots fold_left]; [by wp_steps|].
  apply NoDup_cons in Hu as [Hr Hu]. apply Forall_cons in Hf as [Hf1 Hf]. wp_step.
  eapply wp_mono; [by apply wp_setup_root|]. intros d' s1 Hbu1. apply IH; [done..|].
  apply Forall_forall. intros r' Hr'. apply add_root_fits.
  - rewrite Forall_forall in Hf. auto.
  - intros E. apply Hr. rewrite E. by apply list_elem_of_fmap_2.
Qed.

Definition object_zero : object_text regex_t := ObjectText None None false None ∅.

(** What the fields of a file add up to. *)
Lemma fold_add_root roots ot :
  names_unique roots ->
  fold_left add_root roots ot =
  ObjectText (match field "object" roots with Some r => Some (blobmsg_get_string r) | None => ot_key ot end)
    (match field "definitions" roots with Some r => Some (format_attr r) | None => ot_definitions ot end)
    (match field "regex" roots with Some r => blobmsg_get_bool r | None => ot_regex ot end)
    (ot_exp ot)
    (match field "properties" roots with
     | Some r => ot_methods ot ∪ list_to_map (omap (spec_method format_attr) (blobmsg_attrs r))
     | None => ot_methods ot end).
Proof.
  revert ot. induction roots as [|r roots IH]; intros ot Hu; [by destruct ot|].
  apply NoDup_cons in Hu as [Hr Hu]. cbn [fold_left]. rewrite IH by done. rewrite !field_cons.
  unfold add_root, add_methods, with_methods.
  destruct (decide (r.1 = "regex")) as [E|]; [|destruct (decide (r.1 = "object")) as [E|];
    [|destruct (decide (r.1 = "definitions")) as [E|]; [|destruct (decide (r.1 = "properties")) as [E|]]]];
    try (rewrite E in Hr; rewrite (field_notin _ _ Hr), ?E); repeat case_decide; done.
Qed.

Variable regfree_unfilled : bool.

(** The object with its definitions, in the state that has the buffer freed. *)
Lemma wp_finish_file h0 s ots acl s4 o so d ot fps fp k x :
  store_rep h0 s ots -> acl = brk _ s ->
  object_at (heap _ s4) o so d ot fps fp ->
  built (<[acl := CBuf _ x]> (heap _ s)) (S acl) (schema_objects _ s) s4 fp ->
  ot_key ot = Some k -> k ∉ t_keys (schema_objects _ s) ->
  ot_regex ot = bool_decide (is_Some (ot_exp ot)) ->
  wp (match so_key so with
      | Some p =>
          with_object regex_t o (set_definitions d) ;;;
          let* key := read regex_t (as_str regex_t) p in
          modify (fun s => set_objects regex_t (tree_insert (schema_objects _ s) key o) s) ;;;
          free_at regex_t acl
      | None => schema_flush_object regex_t regfree_unfilled o
      end)
     (fun _ s' => exists ots', ots' ≡ₚ ot :: ots /\ store_rep h0 s' ots') s4.
Proof.
  intros Hrep -> Hat Hb Hk Hnew Hre.
  assert (Ho : o ∈ fp) by (rewrite (oa_fp _ _ _ _ _ _ _ Hat); set_solver).
  pose proof (bu_nodup _ _ _ _ _ Hb) as Hnd. pose proof (oa_key _ _ _ _ _ _ _ Hat) as Hkt. rewrite Hk in Hkt.
  destruct (so_key so) as [p|] eqn:Ep; [|done].
  destruct (object_at_written _ _ _ _ _ _ _ (set_definitions d so) _ Hat Hnd eq_refl eq_refl)
    as (Hms & Htx & Hko & Hdo & Heo).
  wp_step. eapply wp_with_object; [apply (oa_cell _ _ _ _ _ _ _ Hat)|].
  pose proof (built_written _ _ _ _ _ o (CObject _ (set_definitions d so)) Hb Ho) as Hb5.
  set (s5 := written o (CObject _ (set_definitions d so)) s4) in *.
  assert (Hat5 : object_at (heap _ s5) o (set_definitions d so) d ot fps fp).
  { destruct Hat. split; cbn -[lookup insert]; [apply lookup_insert_eq|by rewrite Ep in *; apply Htx|by apply Htx| |done..].
    eapply regex_at_agree; [done|by apply written_agree|done]. }
  assert (Hkey5 : heap _ s5 !! p = Some (CStr _ k)).
  { pose proof (oa_key _ _ _ _ _ _ _ Hat5) as Hx. cbn in Hx. by rewrite Ep, Hk in Hx. }
  wp_step. eapply wp_read; [by rewrite Hkey5|]. wp_step. wp_step.
  assert (Hacl : brk _ s ∉ fp) by (intros ?%(bu_new _ _ _ _ _ Hb5); lia).
  apply wp_free_at.
  { cbn [set_objects heap]. rewrite (bu_frame _ _ _ _ _ Hb5) by done. rewrite lookup_insert_eq. eauto. }
  assert (Hfr : forall a, a ∉ fp -> heap _ (minus s5 [brk _ s]) !! a = heap _ s !! a).
  { intros a Ha. destruct (decide (a = brk _ s)) as [->|Hne].
    - cbn. rewrite lookup_delete_eq. destruct Hrep as (es & _ & _ & _ & _ & _ & Hf). by rewrite Hf.
    - cbn [minus heap set_heap hminus foldr]. rewrite lookup_delete_ne, (bu_frame _ _ _ _ _ Hb5), lookup_insert_ne by done. done. }
  eapply (store_rep_insert h0 s ots _ k o (ot, fp)); [done|done| |done| |exact Hfr| |]; cbn [fst snd].
  - exists (set_definitions d so), fps. split_and!; [|done|cbn [fst]; rewrite <- Hre; apply (oa_regex _ _ _ _ _ _ _ Hat)].
    cbn [so_definitions set_definitions fst snd]. eapply object_at_agree; [exact Hat5|].
    intros a Ha. cbn [minus heap set_heap hminus foldr set_objects]. rewrite lookup_delete_ne; [done|]. by intros <-.
  - intros a ?%(bu_new _ _ _ _ _ Hb5). cbn in *. lia.
  - cbn. f_equal. apply (bu_tree _ _ _ _ _ Hb5).
  - cbn. pose proof (bu_brk _ _ _ _ _ Hb5) as Hx. cbn in Hx. lia.
Qed.

Variable regcomp : string -> option regex_t.

Lemma fold_spec roots :
  names_unique roots ->
  fold_left add_root roots object_zero =
  let ot := spec_object regex_t regcomp blobmsg_get_bool format_attr roots in
  ObjectText (ot_key ot) (ot_definitions ot) (ot_regex ot) None (ot_methods ot).
Proof.
  intros Hu. rewrite fold_add_root by done. unfold spec_object, spec_methods. cbn.
  f_equal; try (by destruct (field _ _)).
  destruct (field "properties" roots); cbn; [by rewrite (left_id_L ∅ (∪))|done].
Qed.

Lemma roots_fit roots : file_unique roots -> Forall (root_fits object_zero) roots.
Proof.
  intros [Hu Hm Ho Hf]. apply Forall_forall. intros r Hr. split_and!; try done. intros E.
  assert (Ef : field "properties" roots = Some r).
  { clear -Hu Hr E. induction roots as [|x roots IH]; [set_solver|]. apply NoDup_cons in Hu as [Hx Hu].
    rewrite field_cons. apply elem_of_cons in Hr as [<-|Hr]; [by rewrite decide_True|].
    rewrite decide_False; [auto|]. intros Ex. apply Hx. rewrite Ex, <- E. by apply list_elem_of_fmap_2. }
  split_and!; [by eapply Hm| |done]. apply Forall_forall. intros ob Hob. split; [by eapply Ho|].
  intros p Hp. by eapply Hf.
Qed.


(** *** A file *)

(** The regular expression of an object is compiled into its cell. *)
Lemma wp_compile h b t o so d ot fps fp x r s :
  object_at (heap _ s) o so d ot fps fp -> built h b t s fp -> ot_exp ot = None ->
  text_at (heap _ s) (so_key so) (Some x) -> regcomp x = Some r ->
  wp (let* key := read_ptr regex_t (as_str regex_t) (so_key so) in
      match regcomp key with
      | None => M_ret false
      | Some r => let* x := malloc regex_t (CRegex _ r) in with_object regex_t o (set_regex_exp (Some x)) ;;; M_ret true
      end)
     (fun c s' => c = true /\ exists so' fp',
        object_at (heap _ s') o so' d (ObjectText (ot_key ot) (ot_definitions ot) (ot_regex ot) (Some r) (ot_methods ot)) fps fp' /\
        so_key so' = so_key so /\ built h b t s' fp') s.
Proof.
  intros Hat Hb Hexp Hkey Hr. wp_step. unfold read_ptr. destruct (so_key so) as [k|] eqn:Ek; [|done].
  eapply wp_deref; [by cbn; rewrite Hkey|]. rewrite Hr. wp_step. apply wp_malloc.
  destruct (built_fresh _ _ _ _ _ (brk _ s) Hb) as [Hn _]; [done|].
  pose proof (bu_nodup _ _ _ _ _ Hb) as Hnd. pose proof (built_malloc _ _ _ _ _ (CRegex _ r) Hb) as Hb1.
  assert (Ho : o ∈ fp) by (rewrite (oa_fp _ _ _ _ _ _ _ Hat); set_solver).
  apply (object_at_agree _ (heap _ (alloced (CRegex _ r) s))) in Hat; [|by apply alloced_agree].
  wp_step. eapply wp_with_object; [apply (oa_cell _ _ _ _ _ _ _ Hat)|]. wp_steps. split; [done|].
  destruct (object_at_written _ _ _ _ _ _ _ (set_regex_exp (Some (brk _ s)) so) _ Hat Hnd eq_refl eq_refl)
    as (Hms & Htx & Hk & Hd & He).
  destruct Hat as [Hc Hkt Hde Hex Hre Ht Hdom _ Hfp]. rewrite Hexp in Hex.
  destruct (so_regex_exp so) eqn:Ese; [done|].
  eexists (set_regex_exp (Some (brk _ s)) so), _. split_and!; [|done|].
  - split; cbn -[lookup insert heap]; [apply lookup_insert_eq|by apply Htx|by apply Htx| |done..].
    cbn -[lookup insert]. rewrite lookup_insert_ne by (intros E; by rewrite E in Ho). apply lookup_insert_eq.
  - eapply built_perm; [|apply built_written; [exact Hb1|set_solver]]. rewrite Hfp. cbn. solve_Permutation.
Qed.

Variable add_json_from_file : string -> option (list attr).
Local Abbreviation setup_file :=
  (schema_setup_file regex_t regcomp regfree_unfilled blobmsg_get_bool format_attr add_json_from_file).
Local Abbreviation spec := (spec_object regex_t regcomp blobmsg_get_bool format_attr).


Lemma wp_setup_file h0 s ots path roots :
  store_rep h0 s ots -> add_json_from_file path = Some roots ->
  file_usable regex_t regcomp blobmsg_get_bool format_attr roots ->
  (forall ot, ot ∈ ots -> ot_key ot <> ot_key (spec roots)) ->
  wp (setup_file path) (fun _ s' => exists ots', ots' ≡ₚ spec roots :: ots /\ store_rep h0 s' ots') s.
Proof.
  intros Hrep Hfile [Hu [k Hk] Hre] Hnew. unfold schema_setup_file. rewrite Hfile. cbn [default].
  wp_step. apply wp_malloc. wp_step. apply wp_malloc. wp_step.
  set (s1 := alloced (CBuf _ roots) s). set (zero := SchemaObject None false None empty_tree None).
  assert (Hfresh : forall a, (brk _ s <= a)%nat -> heap _ s !! a = None) by (by destruct Hrep as (? & _ & _ & _ & _ & _ & ?)).
  assert (Hbu : building (heap _ s1) (brk _ s1) (schema_objects _ s) (brk _ s1) None object_zero (alloced (CObject _ zero) s1)).
  { exists zero, [], [brk _ s1]. split; [split; cbn; try done|].
    - apply lookup_insert_eq.
    - split; [constructor|]. intros ?. cbn. rewrite lookup_empty. split; [set_solver|by intros [? ?]].
    - intros ?. rewrite lookup_empty. split; [set_solver|by intros [? ?]].
    - constructor.
    - apply built_malloc, built_start; [done..|]. intros a Ha. cbn in *. rewrite lookup_insert_ne by lia. apply Hfresh. lia. }
  eapply wp_mono; [apply wp_setup_roots; [exact Hbu|by apply fu_roots|by apply roots_fit]|].
  intros d s3 (so & fps & fp & Hat & Hb). rewrite fold_spec in Hat by (by apply fu_roots). cbv zeta in Hat.
  assert (Hknew : k ∉ t_keys (schema_objects _ s)).
  { intros Hin. destruct (store_rep_keys _ _ _ _ Hrep Hin) as (ot & Hot & Hotk).
    apply (Hnew ot Hot). by rewrite Hotk, Hk. }
  pose proof (oa_key _ _ _ _ _ _ _ Hat) as Hkt. cbn [ot_key] in Hkt. rewrite Hk in Hkt.
  wp_step. eapply wp_read; [by rewrite (oa_cell _ _ _ _ _ _ _ Hat)|]. wp_step.
  pose proof (oa_regex _ _ _ _ _ _ _ Hat) as Hr. cbn [ot_regex] in Hr. rewrite Hr.
  destruct (ot_regex (spec roots)) eqn:Er.
  - destruct (Hre eq_refl) as [r Hexp].
    assert (Hrc : regcomp k = Some r).
    { clear -Hexp Hk Er. unfold spec_object in *. cbn in *. rewrite Er in Hexp. by rewrite Hk in Hexp. }
    eapply wp_mono; [eapply wp_compile; [exact Hat|exact Hb|done|exact Hkt|exact Hrc]|].
    intros c s4 (-> & so' & fp' & Hat4 & Hkey4 & Hb4).
    rewrite <- Hkey4. eapply (wp_finish_file _ _ _ _ _ _ _ _ (spec roots)); [done|done| |exact Hb4|exact Hk|exact Hknew|].
    + cbn [ot_key ot_definitions ot_regex ot_methods] in Hat4. by rewrite <- Hexp, <- Er in Hat4.
    + by rewrite Er, Hexp.
  - wp_steps. eapply (wp_finish_file _ _ _ _ _ _ _ _ (spec roots)); [done|done| |exact Hb|exact Hk|exact Hknew|].
    + assert (Hexp : ot_exp (spec roots) = None) by (clear -Er; unfold spec_object in *; cbn in *; by rewrite Er).
      rewrite <- Hexp in Hat. by rewrite <- Er in Hat.
    + assert (Hexp : ot_exp (spec roots) = None) by (clear -Er; unfold spec_object in *; cbn in *; by rewrite Er).
      by rewrite Er, Hexp.
Qed.

(** A file that cannot be parsed changes nothing. *)
Lemma wp_setup_missing h0 s ots path :
  store_rep h0 s ots -> add_json_from_file path = None ->
  wp (setup_file path) (fun _ s' => store_rep h0 s' ots) s.
Proof.
  intros (es & -> & Hwf & Hat & Hnd & Hh & Hf) Hfile. unfold schema_setup_file. rewrite Hfile. wp_step. apply wp_malloc.
  apply wp_free_at; [cbn; rewrite lookup_insert_eq; eauto|].
  assert (E : forall a, heap _ (minus (alloced (CBuf _ (default [] None)) s) [brk _ s]) !! a = heap _ s !! a).
  { intros a. cbn. destruct (decide (a = brk _ s)) as [->|Hne]; [by rewrite lookup_delete_eq, Hf|].
    by rewrite lookup_delete_ne, lookup_insert_ne. }
  exists es. split_and!; [done|done| |done| |].
  - eapply objects_at_agree; [exact Hat|]. intros a _. apply E.
  - rewrite <- Hh. apply map_eq. intros a. rewrite !hminus_lookup. case_decide; [done|]. apply E.
  - intros a Ha. rewrite E. apply Hf. cbn in Ha. lia.
Qed.

(** *** All files *)

(** The files that can be parsed are usable and describe different objects. *)
Definition files_usable (files : list string) : Prop :=
  Forall (file_usable regex_t regcomp blobmsg_get_bool format_attr) (omap add_json_from_file files) /\
  NoDup ((fun roots => ot_key (spec roots)) <$> omap add_json_from_file files).

Lemma wp_setup_files h0 s ots files :
  store_rep h0 s ots -> files_usable files ->
  (forall ot roots, ot ∈ ots -> roots ∈ omap add_json_from_file files -> ot_key ot <> ot_key (spec roots)) ->
  wp (forM_ files setup_file)
     (fun _ s' => exists ots', ots' ≡ₚ (spec <$> omap add_json_from_file files) ++ ots /\ store_rep h0 s' ots') s.
Proof.
  unfold files_usable. revert s ots. induction files as [|f files IH]; intros s ots Hrep [Hok Hnd] Hnew; cbn [forM_].
  { wp_steps. by exists ots. }
  cbn [omap list_omap] in *. destruct (add_json_from_file f) as [roots|] eqn:Ef.
  - apply Forall_cons in Hok as [Hok1 Hok]. apply NoDup_cons in Hnd as [Hn Hnd]. wp_step.
    eapply wp_mono; [apply wp_setup_file; [done..|]|]; [intros; apply Hnew; set_solver|].
    intros u s1 (ots1 & Hp1 & Hrep1). clear u. eapply wp_mono; [apply (IH s1 ots1); [done|done|]|].
    + intros ot r Hot Hr. rewrite Hp1 in Hot. apply elem_of_cons in Hot as [->|Hot].
      * intros E. apply Hn. change (ot_key (spec roots) ∈ (fun roots => ot_key (spec roots)) <$> omap add_json_from_file files).
        rewrite E. apply list_elem_of_fmap. by exists r.
      * apply Hnew; set_solver.
    + intros u s2 (ots2 & Hp2 & Hrep2). clear u. exists ots2. split; [|done]. rewrite Hp2, Hp1. cbn. solve_Permutation.
  - wp_step. eapply wp_mono; [by apply wp_setup_missing|]. intros u s1 Hrep1. cbn beta in Hrep1. clear u. by apply IH.
Qed.

(** A heap that ends at [brk]. *)
Definition store_ok s : Prop := forall a, (brk _ s <= a)%nat -> heap _ s !! a = None.

Lemma wp_setup_json s files :
  store_ok s -> files_usable files ->
  wp (schema_setup_json regex_t regcomp regfree_unfilled blobmsg_get_bool format_attr add_json_from_file (Some files))
     (fun _ s' => exists ots, ots ≡ₚ spec <$> omap add_json_from_file files /\ store_rep (heap _ s) s' ots) s.
Proof.
  intros Hs Hok. unfold schema_setup_json. wp_step. wp_step. eapply wp_mono; [apply (wp_setup_files (heap _ s) _ []); [|done|set_solver]|].
  - exists []. split_and!; [done| |constructor|constructor|done|done]. split; [constructor|].
    intros k. cbn. rewrite lookup_empty. split; [set_solver|by intros [? ?]].
  - intros u s' (ots & Hp & Hrep). exists ots. by rewrite app_nil_r in Hp.
Qed.

End setup.

(** ** Looking up *)

Section lookup.
Context {regex_t : Type}.
Implicit Types (s : store regex_t).


Variable regexec : regex_t -> string -> bool.

(** An object is meant by a name: its expression matches, or the names agree in
    the first 64 characters. *)
Definition object_meant (name : string) (ot : object_text regex_t) : bool :=
  match ot_exp ot, ot_key ot with
  | Some r, _ => regexec r name
  | None, Some k => strncmp name k OBJECT_NAME_MAX_LEN =? 0
  | None, None => false
  end.

Definition meant (name : string) (ots : list (object_text regex_t)) : option (object_text regex_t) :=
  head (filter (fun ot => object_meant name ot = true) ots).

Lemma object_matches_run name a k e s :
  object_in (heap _ s) a k e -> object_matches regex_t regexec name a s = Some (object_meant name e.1, s).
Proof.
  intros (so & mf & Hat & Hk & Hre). unfold object_matches, read, M_bind, deref.
  rewrite (oa_cell _ _ _ _ _ _ _ Hat). cbn. pose proof (oa_exp _ _ _ _ _ _ _ Hat) as Hx.
  pose proof (oa_key _ _ _ _ _ _ _ Hat) as Hkt. rewrite Hk in Hkt. unfold object_meant, read_ptr, deref.
  destruct (ot_exp e.1) as [r|] eqn:Ee.
  - rewrite bool_decide_eq_true_2 in Hre by done. rewrite Hre. destruct (so_regex_exp so); [|done].
    cbn in *. by rewrite Hx.
  - rewrite bool_decide_eq_false_2 in Hre by (by intros [? ?]). rewrite Hre, Hk. destruct (so_key so); [|done].
    cbn in *. by rewrite Hkt.
Qed.

Lemma meant_cons name ot ots : meant name (ot :: ots) = if object_meant name ot then Some ot else meant name ots.
Proof. unfold meant. rewrite filter_cons. case_decide as E; [by rewrite E|]. by destruct (object_meant name ot). Qed.

Lemma get_object_run h0 s ots name :
  store_rep h0 s ots ->
  exists p, schema_get_object_schema regex_t regexec name s = Some (p, s) /\
    match meant name ots with
    | None => p = None
    | Some ot => exists a so mfps fp, p = Some a /\ object_at (heap _ s) a so (so_definitions so) ot mfps fp
    end.
Proof.
  intros (es & -> & _ & Hat & _). unfold schema_get_object_schema, M_bind, gets, tree_elems, objects_at in *.
  destruct (schema_objects _ s) as [ks nodes]. cbn [t_keys t_nodes] in *.
  induction Hat as [|k e ks es (a & En & Hin) _ IH]; [by exists None|].
  rewrite !fmap_cons, meant_cons. cbn -[meant]. rewrite En. unfold M_bind at 1. cbn -[meant]. unfold M_bind.
  rewrite (object_matches_run _ _ _ _ _ Hin). destruct (object_meant name e.1) eqn:Em.
  - exists (Some a). split; [done|]. destruct Hin as (so & mf & Ho & _). by exists a, so, mf, e.2.
  - exact IH.
Qed.

Lemma get_definitions_run h0 s ots name :
  store_rep h0 s ots ->
  exists p, schema_get_definitions_schema regex_t regexec name s = Some (p, s) /\
    text_at (heap _ s) p (meant name ots ≫= ot_definitions).
Proof.
  intros Hrep. destruct (get_object_run _ _ _ name Hrep) as (p & Hrun & Hp).
  unfold schema_get_definitions_schema, M_bind. rewrite Hrun. destruct (meant name ots) as [ot|]; cbn.
  - destruct Hp as (a & so & mf & fp & -> & Hat). unfold read, deref. rewrite (oa_cell _ _ _ _ _ _ _ Hat). cbn.
    eexists. split; [done|]. apply (oa_definitions _ _ _ _ _ _ _ Hat).
  - rewrite Hp. by exists None.
Qed.

Lemma strncmp_eqb_l a b n : (String.length a < n)%nat -> (strncmp a b n =? 0) = bool_decide (a = b).
Proof.
  intros Hn. transitivity (strncmp b a n =? 0).
  - pose proof (strncmp_opp a b n) as Ho. apply Bool.eq_true_iff_eq. rewrite !Z.eqb_eq. lia.
  - rewrite strncmp_eqb by done. by apply bool_decide_ext.
Qed.

Lemma get_method_run h0 s ots name method :
  store_rep h0 s ots -> (String.length method < METHOD_NAME_MAX_LEN)%nat ->
  exists p, schema_get_method_schema regex_t regexec name method s = Some (p, s) /\
    match meant name ots ≫= (fun ot => ot_methods ot !! method) with
    | None => p = None
    | Some mt => exists a fp, p = Some a /\ method_at (heap _ s) a method mt fp
    end.
Proof.
  intros Hrep Hlen. destruct (get_object_run _ _ _ name Hrep) as (p & Hrun & Hp).
  unfold schema_get_method_schema, M_bind at 1. rewrite Hrun. destruct (meant name ots) as [ot|]; [|rewrite Hp; by exists None].
  destruct Hp as (o & so & mf & fp & -> & Hat). unfold M_bind at 1, read, deref. rewrite (oa_cell _ _ _ _ _ _ _ Hat). cbn.
  pose proof (oa_methods _ _ _ _ _ _ _ Hat) as Hms. pose proof (oa_dom _ _ _ _ _ _ _ Hat method) as Hdom.
  unfold methods_at, tree_elems in *. destruct (so_methods so) as [ks nodes]. cbn [t_keys t_nodes] in *. clear Hat Hrun Hrep.
  assert (Hdom' : method ∉ ks -> ot_methods ot !! method = None).
  { intros Hn. apply eq_None_not_Some. by rewrite <- Hdom. }
  clear Hdom. induction Hms as [|k fpk ks fps (a & mt & En & Em & Hm) _ IH].
  { rewrite Hdom' by set_solver. by exists None. }
  cbn. rewrite En. unfold M_bind at 1. cbn. unfold M_bind, method_matches, read, M_bind, deref.
  pose proof Hm as (m & Ea & _ & _ & Hk & _). rewrite Ea. cbn. destruct (sm_key m) as [x|] eqn:Ek; [|done].
  unfold read_ptr, deref. cbn in Hk |- *. rewrite Hk. cbn. rewrite strncmp_eqb_l by done. case_bool_decide as E.
  - subst k. rewrite Em. exists (Some a). split; [done|]. by exists a, fpk.
  - apply IH. intros Hn. apply Hdom'. set_solver.
Qed.
End lookup.

(** Objects in the order of their names. *)
Definition in_key_order {regex_t} (ots : list (object_text regex_t)) : Prop :=
  exists ks, StronglySorted key_lt ks /\ Forall2 (fun k ot => ot_key ot = Some k) ks ots.

Lemma store_rep_sorted {regex_t} h0 (s : store regex_t) ots : store_rep h0 s ots -> in_key_order ots.
Proof.
  intros (es & -> & Hwf & Hat & _). exists (t_keys (schema_objects _ s)). split; [apply (tw_sorted _ Hwf)|].
  unfold objects_at in Hat. rewrite Forall2_fmap_r. eapply Forall2_impl; [exact Hat|].
  by intros k e (a & _ & so & mf & _ & Hk & _).
Qed.

(** ** Theorems *)

(** C23: After schema files were read that are usable and describe different objects, the
    schema of a method with a name of less than 64 characters is found exactly if a file
    describes it: the object is the first in the order of names that the name means (by its
    regular expression, or by its name up to 64 characters), the method is the one of that
    name, and the texts found are the printed "input" and "output" of the file.  A file is
    usable if it names an object, its regular expression compiles and the names of its
    tables are distinct; files that cannot be parsed do not matter.  Two files for one
    object are left out: the second is not found then. *)
Theorem schema_lookup `{AvlTree, LibUbox} (regex_t : Type) (regcomp : string -> option regex_t)
    (regexec : regex_t -> string -> bool) (regfree_unfilled : bool) (blobmsg_get_bool : attr -> bool)
    (format_attr : attr -> string) (add_json_from_file : string -> option (list attr))
    (files : list string) (object method : string) (s : store regex_t) :
  store_ok s ->
  files_usable format_attr blobmsg_get_bool regcomp add_json_from_file files ->
  (String.length method < METHOD_NAME_MAX_LEN)%nat ->
  wp (schema_setup_json regex_t regcomp regfree_unfilled blobmsg_get_bool format_attr add_json_from_file (Some files) ;;;
      schema_get_method_schema regex_t regexec object method)
     (fun p s' => exists ots,
        ots ≡ₚ spec_object regex_t regcomp blobmsg_get_bool format_attr <$> omap add_json_from_file files /\
        in_key_order ots /\
        match meant regexec object ots ≫= (fun ot => ot_methods ot !! method) with
        | None => p = None
        | Some mt => exists a fp, p = Some a /\ method_at (heap _ s') a method mt fp
        end) s.
Proof.
  intros Hs Hok Hlen. wp_step. eapply wp_mono; [by apply wp_setup_json|]. intros u s1 (ots & Hp & Hrep). clear u.
  destruct (get_method_run regexec _ _ _ object method Hrep Hlen) as (p & Hrun & Hres).
  apply wp_run. exists p, s1. split; [done|]. exists ots. split_and!; [done|by eapply store_rep_sorted|done].
Qed.

(** C24: Reading any set of usable schema files and flushing them gives every allocation back:
    the heap is what it was before, whatever the order of the files, and no pointer is freed
    twice or read after it was freed. *)
Theorem schema_flush_frees_all `{AvlTree, LibUbox} (regex_t : Type) (regcomp : string -> option regex_t)
    (regfree_unfilled : bool) (blobmsg_get_bool : attr -> bool)
    (format_attr : attr -> string) (add_json_from_file : string -> option (list attr))
    (files : list string) (s : store regex_t) :
  store_ok s ->
  files_usable format_attr blobmsg_get_bool regcomp add_json_from_file files ->
  wp (schema_setup_json regex_t regcomp regfree_unfilled blobmsg_get_bool format_attr add_json_from_file (Some files) ;;;
      schema_flush_objects regex_t regfree_unfilled)
     (fun _ s' => heap _ s' = heap _ s /\ t_keys (schema_objects _ s') = []) s.
Proof.
  intros Hs Hok. wp_step. eapply wp_mono; [by apply wp_setup_json|]. intros u s1 (ots & Hp & Hrep). clear u.
  by eapply wp_flush_objects.
Qed.

(** ** Concrete files *)

Section examples.
Local Existing Instance list_avl.
Local Existing Instance ref_libubox.

(** An expression is a prefix, and "(" is not one. *)
Definition ex_regcomp (p : string) : option string := if decide (p = "(") then None else Some p.
Definition ex_regexec (r name : string) : bool := starts_with r name.
Definition ex_bool (a : attr) : bool := match a.2 with BInt8 z => negb (z =? 0) | _ => false end.
Definition ex_format (a : attr) : string := a.1.

Definition wifi_file : list attr :=
  [("object", BString "router.wifi"); ("definitions", BTable []);
   ("properties", BTable [("status", BTable [("properties", BTable [("input", BTable []); ("output", BTable [])])]);
                          ("note", BString "text")])].
Definition dsl_file : list attr :=
  [("regex", BInt8 1); ("object", BString "router.dsl");
   ("properties", BTable [("stats", BTable [("properties", BTable [("output", BTable [])])])])].
(** No object is named. *)
Definition nameless_file : list attr := [("definitions", BTable [])].

Definition ex_files (path : string) : option (list attr) :=
  if decide (path = "wifi.json") then Some wifi_file
  else if decide (path = "dsl.json") then Some dsl_file
  else if decide (path = "nameless.json") then Some nameless_file else None.

Definition ex_store : store string := Store _ ∅ 0%nat empty_tree.

Definition ex_paths : list string := ["wifi.json"; "broken.json"; "dsl.json"].

Lemma ex_store_ok : store_ok ex_store.
Proof. intros a _. apply lookup_empty. Defined.

Local Ltac unique_names := repeat (constructor; [set_solver|]); constructor.

Lemma wifi_usable : file_usable string ex_regcomp ex_bool ex_format wifi_file.
Proof.
  split; [|by eexists|done]. split.
  - unfold names_unique. cbn. unique_names.
  - intros r [= <-]. unfold names_unique. cbn. unique_names.
  - intros r o [= <-]. cbn. intros [->|[->|?%elem_of_nil]%elem_of_cons]%elem_of_cons; [..|done];
      unfold names_unique; cbn; unique_names.
  - intros r o p [= <-]. cbn. intros [->|[->|?%elem_of_nil]%elem_of_cons]%elem_of_cons; [..|done]; [|done].
    intros [= <-]. unfold names_unique. cbn. unique_names.
Qed.

Lemma dsl_usable : file_usable string ex_regcomp ex_bool ex_format dsl_file.
Proof.
  split; [|by eexists|by eexists]. split.
  - unfold names_unique. cbn. unique_names.
  - intros r [= <-]. unfold names_unique. cbn. unique_names.
  - intros r o [= <-]. cbn. intros ->%list_elem_of_singleton. unfold names_unique; cbn; unique_names.
  - intros r o p [= <-]. cbn. intros ->%list_elem_of_singleton [= <-]. unfold names_unique. cbn. unique_names.
Qed.

Lemma ex_files_usable : files_usable ex_format ex_bool ex_regcomp ex_files ex_paths.
Proof.
  split.
  - apply Forall_cons; split; [apply wifi_usable|]. apply Forall_cons; split; [apply dsl_usable|constructor].
  - cbn. unique_names.
Qed.

Lemma schema_lookup_witness :
  store_ok ex_store /\
  files_usable ex_format ex_bool ex_regcomp ex_files ex_paths /\
  wp (schema_setup_json string ex_regcomp true ex_bool ex_format ex_files (Some ex_paths) ;;;
      schema_get_method_schema string ex_regexec "router.dsl.1" "stats")
     (fun p _ => is_Some p) ex_store.
Proof.
  split; [exact ex_store_ok|]. split; [exact ex_files_usable|].
  eapply wp_mono; [apply (schema_lookup string ex_regcomp ex_regexec true ex_bool ex_format ex_files
    ex_paths "router.dsl.1" "stats" ex_store ex_store_ok ex_files_usable); unfold METHOD_NAME_MAX_LEN; cbn; lia|].
  intros p s' (ots & Hp & Hsort & Hres). symmetry in Hp. apply Permutation_length_2_inv in Hp as [->| ->];
    vm_compute in Hres; destruct Hres as (a & fp & -> & _); by eexists.
Defined.

Lemma schema_flush_frees_all_witness :
  wp (schema_setup_json string ex_regcomp false ex_bool ex_format ex_files (Some ex_paths) ;;;
      schema_flush_objects string false)
     (fun _ s' => heap _ s' = heap _ ex_store /\ t_keys (schema_objects _ s') = []) ex_store.
Proof.
  exact (schema_flush_frees_all string ex_regcomp false ex_bool ex_format ex_files ex_paths ex_store
           ex_store_ok ex_files_usable).
Defined.

(** A file that names no object is dropped, but its buffer and its definitions stay allocated. *)
Example nameless_file_leaks :
  exists s, schema_setup_file string ex_regcomp true ex_bool ex_format ex_files "nameless.json" ex_store = Some (tt, s) /\
    t_keys (schema_objects _ s) = [] /\ size (heap _ s) = 2%nat.
Proof. eexists. split; [vm_compute; reflexivity|]. split; vm_compute; reflexivity. Qed.

(** The second file of an object does not enter the tree, and nothing of it is freed. *)
Example duplicate_file_leaks :
  exists s, (schema_setup_json string ex_regcomp true ex_bool ex_format ex_files (Some ["dsl.json"; "dsl.json"]) ;;;
             schema_flush_objects string true) ex_store = Some (tt, s) /\
    t_keys (schema_objects _ s) = [] /\ size (heap _ s) = 6%nat.
Proof. eexists. split; [vm_compute; reflexivity|]. split; vm_compute; reflexivity. Qed.
End examples.
