(* ===== verification/UbusxAcl.v ===== *)
(** * ubusx_acl.c: which local objects remote buses may see

    The state is the AVL tree [uxacl_objects] of patterns.  Memory
    exhaustion ([calloc], [strdup]) is not modelled. *)

From stdpp Require Import base list strings numbers sorting sets gmap.
From S2P Require Import Prelude CStrings Avl Patterns.

Section acl.
Context `{AvlTree}.

(** The object name of ["object->method1,method2"]: the code writes NUL over
    the arrow found by [strstr]. *)
Definition object_name (object : string) : string :=
  match strstr object "->" with
  | Some methods => str_take (String.length object - String.length methods) object
  | None => object
  end.

Definition ubusx_acl__add_object (acl : list string) (object : string) : list string :=
  match avl_insert ubus_object_path_compare acl (object_name object) with
  | Some acl' => acl'
  | None => acl
  end.

Definition ubusx_acl__add_objects (acl : list string) (objects : option string)
  : list string :=
  match objects with
  | None => acl
  | Some objects =>
      if strlen objects =? 0 then acl
      else fold_left ubusx_acl__add_object (strtok_all objects " ") acl
  end.

Definition ubusx_acl__allow_object (acl : list string) (objname : string) : bool :=
  match acl with
  | [] => true
  | _ =>
      match avl_find ubus_object_path_compare acl objname with
      | Some _ => true
      | None => false
      end
  end.

Definition ubusx_acl__allow_method (objname methodname : string) : bool := true.

Definition ubusx_acl__destroy (acl : list string) : list string := [].

(** ** Invariant *)

(** The trees the program can build. *)
Inductive acl_reachable : list string -> Prop :=
| acl_init : acl_reachable []
| acl_add acl objects :
    acl_reachable acl -> short objects ->
    acl_reachable (ubusx_acl__add_objects acl (Some objects))
| acl_add_null acl :
    acl_reachable acl -> acl_reachable (ubusx_acl__add_objects acl None)
| acl_clear acl : acl_reachable acl -> acl_reachable (ubusx_acl__destroy acl).

(** The patterns one [-X] argument asks for. *)
Definition requested (objects : string) : list string :=
  object_name <$> strtok_all objects " ".

Lemma object_name_short o : short o -> short (object_name o).
Proof.
  unfold object_name, short, strlen. destruct (strstr o "->"); [|done].
  rewrite str_take_length. lia.
Qed.

Lemma strtok_all_short s d : short s -> Forall short (strtok_all s d).
Proof.
  remember (String.length s) as n eqn:Hn. revert s Hn.
  induction (lt_wf n) as [n _ IH]. intros s -> Hs. rewrite strtok_all_eq.
  destruct (strtok_r s d) as [[t r]|] eqn:E; constructor.
  - unfold short, strlen in *. unfold strtok_r in E.
    pose proof (skip_delims_length d s). destruct (skip_delims d s) as [|c s'] eqn:Es; [done|].
    injection E as E. pose proof (token_length d (String c s')) as [_ Ht].
    simpl in E, Ht. rewrite E in Ht. simpl in *. lia.
  - apply strtok_r_progress in E as [_ E]. eapply IH; [exact E|done|].
    unfold short, strlen in *. lia.
Qed.

Lemma requested_short s : short s -> Forall short (requested s).
Proof.
  intros Hs. apply Forall_fmap, (Forall_impl _ _ _ (strtok_all_short s " " Hs)).
  apply object_name_short.
Qed.

Lemma add_object_cases acl o :
  tree_wf acl -> short (object_name o) ->
  let acl' := ubusx_acl__add_object acl o in
  tree_wf acl' /\ (forall x, x ∈ acl' -> x = object_name o \/ x ∈ acl) /\
  (forall x, x ∈ acl -> x ∈ acl') /\
  ((forall e, e ∈ acl -> ~ pmatch (object_name o) e) -> object_name o ∈ acl') /\
  (exists e, e ∈ acl' /\ pmatch (object_name o) e).
Proof.
  intros Hwf Ho acl'. subst acl'. unfold ubusx_acl__add_object.
  destruct (avl_find pcmp acl (object_name o)) eqn:E.
  - apply avl_find_sound in E as [He E0].
    assert (pmatch (object_name o) s) as Hm.
    { apply pcmp_match; try done. destruct Hwf as [Hs _].
      rewrite Forall_forall in Hs. auto. }
    rewrite (avl_insert_match acl _ s) by done.
    split_and!; try done; [auto| |eauto]. intros Hno. by destruct (Hno s).
  - pose proof (proj1 (avl_find_none _ _ Hwf Ho) E) as Hno.
    destruct (avl_insert_nomatch acl (object_name o)) as (l' & -> & Hwf' & Hl'); [done..|].
    split_and!; [done|..].
    + intros x. apply Hl'.
    + intros x Hx. apply Hl'. auto.
    + intros _. apply Hl'. auto.
    + exists (object_name o). split; [apply Hl'; auto|apply pmatch_refl].
Qed.

Lemma fold_add_object acl os :
  tree_wf acl -> Forall short (object_name <$> os) ->
  let acl' := fold_left ubusx_acl__add_object os acl in
  tree_wf acl' /\
  (forall x, x ∈ acl' -> x ∈ object_name <$> os \/ x ∈ acl) /\
  (forall x, x ∈ acl -> x ∈ acl').
Proof.
  revert acl. induction os as [|o os IH]; intros acl Hwf Hsh; simpl.
  { split_and!; [done|auto..]. }
  apply Forall_cons in Hsh as [Ho Hsh].
  destruct (add_object_cases acl o Hwf Ho) as (Hwf1 & Hin1 & Hsub1 & _).
  destruct (IH _ Hwf1 Hsh) as (Hwf2 & Hin2 & Hsub2). split_and!; [done|..].
  - intros x [Hx|[->|Hx]%Hin1]%Hin2; rewrite elem_of_cons; auto.
  - auto.
Qed.

Lemma acl_reachable_wf acl : acl_reachable acl -> tree_wf acl.
Proof.
  induction 1 as [|acl s Ha IH Hs|acl Ha IH|acl Ha IH]; auto using tree_wf_nil.
  unfold ubusx_acl__add_objects. case_match; [done|].
  apply fold_add_object; [done|]. by apply requested_short.
Qed.

Lemma allow_object_match acl name :
  tree_wf acl -> short name ->
  ubusx_acl__allow_object acl name = true <->
  acl = [] \/ exists p, p ∈ acl /\ pmatch name p.
Proof.
  intros Hwf Hn. pose proof (avl_find_match acl name Hwf Hn) as Hf.
  unfold ubusx_acl__allow_object. destruct acl as [|a acl].
  { split; auto. }
  destruct (avl_find pcmp (a :: acl) name).
  - split; [|done]. intros _. right. apply Hf. eauto.
  - split; [done|]. intros [?|He]; [done|]. apply Hf in He as [? ?]. done.
Qed.

Lemma allow_object_fits acl name :
  tree_wf acl -> short name ->
  ubusx_acl__allow_object acl name = true <->
  acl = [] \/ exists p, p ∈ acl /\ pattern_fits p name.
Proof.
  intros Hwf Hn. rewrite allow_object_match by done.
  by setoid_rewrite (fun p => pmatch_iff name p).
Qed.

(** With no two requested patterns matching each other, all are stored. *)
Lemma fold_add_all acl os :
  tree_wf acl -> Forall short (object_name <$> os) ->
  (forall x y, x ∈ acl -> y ∈ object_name <$> os -> ~ pmatch y x) ->
  StronglySorted (fun x y => ~ pmatch y x) (object_name <$> os) ->
  forall x, x ∈ object_name <$> os -> x ∈ fold_left ubusx_acl__add_object os acl.
Proof.
  revert acl. induction os as [|o os IH]; intros acl Hwf Hsh Hacl Hs x Hx.
  { by apply elem_of_nil in Hx. }
  simpl in *. apply Forall_cons in Hsh as [Ho Hsh].
  inversion Hs as [|?? Hs' Hall]; subst. rewrite Forall_forall in Hall.
  destruct (add_object_cases acl o Hwf Ho) as (Hwf1 & Hin1 & Hsub1 & Hnew1 & _).
  assert (object_name o ∈ ubusx_acl__add_object acl o) as Ho'.
  { apply Hnew1. intros e He. apply Hacl; [done|]. apply elem_of_cons. auto. }
  destruct (fold_add_object (ubusx_acl__add_object acl o) os Hwf1 Hsh) as (_ & _ & Hmono).
  apply elem_of_cons in Hx as [->|Hx]; [auto|].
  apply IH; try done. intros a b [->|Ha]%Hin1 Hb; [by apply Hall|].
  apply Hacl; [done|]. apply elem_of_cons. auto.
Qed.
End acl.

#[export] Hint Resolve acl_reachable_wf : owsd.

Section acl_examples.
Context `{AvlTree}.

Lemma add_object_first o : ubusx_acl__add_object [] o = [object_name o].
Proof.
  unfold ubusx_acl__add_object.
  by rewrite (avl_insert_new pcmp [] [] (object_name o)) by constructor.
Qed.

Lemma allow_object_single p name :
  short p -> short name ->
  ubusx_acl__allow_object [p] name = true <-> pmatch name p.
Proof.
  intros Hp Hn. rewrite allow_object_match; [|by split; repeat constructor|done].
  split.
  - intros [?|(q & Hq & ?)]; [done|]. by apply list_elem_of_singleton in Hq as ->.
  - intros Hm. right. exists p. split; [by apply list_elem_of_singleton|done].
Qed.
End acl_examples.

(** ** Properties *)

(** C3: the access list decides exactly by the patterns stored in it.  In every
    tree the program can build, a name is allowed if and only if no pattern is
    stored or a stored pattern fits it, although the tree is searched with a
    comparison that is not an order.  A pattern fits a name without a star if
    it is the name itself, or a wildcard whose text before the star is a
    prefix of the name; a star at the end of the asked name, which may come
    from a client, is taken as a wildcard too, and then a pattern fits if the
    text before that star is a prefix of it; of two wildcards one text before
    the star must be a prefix of the other.  The empty name is fitted by the
    empty pattern alone. *)
Theorem acl_allow_iff `{AvlTree} (acl : list string) (name : string) :
  acl_reachable acl -> short name ->
  ubusx_acl__allow_object acl name = true <->
  acl = [] \/ exists p, p ∈ acl /\ pattern_fits p name.
Proof. intros Hr Hn. apply allow_object_fits; eauto with owsd. Qed.

Lemma acl_allow_iff_witness :
  let acl := ubusx_acl__add_objects (H := list_avl) [] (Some "router system*") in
  (ubusx_acl__allow_object (H := list_avl) acl "r*" = true <->
   acl = [] \/ exists p, p ∈ acl /\ pattern_fits p "r*").
Proof.
  intros acl. apply (acl_allow_iff (H := list_avl)).
  - apply acl_add; [apply acl_init|done].
  - done.
Defined.

(** With only "router" listed, the name "r*" is allowed. *)
Example acl_asked_star_allowed `{AvlTree} :
  ubusx_acl__allow_object (ubusx_acl__add_objects [] (Some "router")) "r*" = true.
Proof.
  unfold ubusx_acl__add_objects. change (strlen "router" =? 0) with false. cbn match.
  change (strtok_all "router" " ") with ["router"]. cbn [fold_left].
  rewrite add_object_first. change (object_name "router") with "router".
  by rewrite allow_object_single.
Qed.

(** One [-X] argument whose space-separated patterns do not match each
    other, given to an empty list, allows exactly the names that one of its
    patterns (with its [->methods] part cut off) matches. *)
Theorem acl_grants_requested `{AvlTree} (objects name : string) :
  short objects -> strlen objects <> 0 ->
  StronglySorted (fun x y => ~ pmatch y x) (requested objects) ->
  short name -> name <> "" -> wildcard name = false ->
  ubusx_acl__allow_object (ubusx_acl__add_objects [] (Some objects)) name = true <->
  requested objects = [] \/ exists p, p ∈ requested objects /\ p <> "" /\
    (if wildcard p then starts_with (strip p) name = true else p = name).
Proof.
  intros Ho Hl Hs Hn Hne Hw.
  rewrite allow_object_match by eauto using acl_reachable_wf, acl_add, acl_init.
  assert (forall x, x ∈ ubusx_acl__add_objects [] (Some objects) <-> x ∈ requested objects) as Heq.
  { intros x. unfold ubusx_acl__add_objects. rewrite (proj2 (Z.eqb_neq _ _)) by done. split.
    - intros Hx. by destruct (proj1 (proj2 (fold_add_object [] (strtok_all objects " ")
        tree_wf_nil (requested_short objects Ho))) x Hx) as [|?%elem_of_nil].
    - apply fold_add_all; [apply tree_wf_nil|by apply requested_short|set_solver|done]. }
  setoid_rewrite (fun p => pmatch_name p name Hne Hw). setoid_rewrite Heq.
  split; (intros [He|?]; [left|by right]).
  - apply elem_of_nil_inv. intros x Hx%Heq. rewrite He in Hx. by apply elem_of_nil in Hx.
  - apply elem_of_nil_inv. intros x Hx%Heq. rewrite He in Hx. by apply elem_of_nil in Hx.
Qed.

Lemma acl_grants_requested_witness :
  ubusx_acl__allow_object (H := list_avl)
    (ubusx_acl__add_objects (H := list_avl) [] (Some "network->get,set wifi*")) "wifi.radio" = true.
Proof.
  apply (acl_grants_requested (H := list_avl)); try done.
  - change (requested "network->get,set wifi*") with ["network"; "wifi*"].
    repeat constructor. vm_compute. done.
  - right. exists "wifi*". split; [|done]. vm_compute. right. left.
Defined.

(** Whatever is added, in whatever order, the list never allows a name
    that no requested pattern matches (unless nothing was requested). *)
Theorem acl_never_overgrants `{AvlTree} (objects name : string) :
  short objects -> short name -> name <> "" -> wildcard name = false ->
  ubusx_acl__allow_object (ubusx_acl__add_objects [] (Some objects)) name = true ->
  requested objects = [] \/ exists p, p ∈ requested objects /\ p <> "" /\
    (if wildcard p then starts_with (strip p) name = true else p = name).
Proof.
  intros Ho Hn Hne Hw Ha. apply allow_object_match in Ha;
    [|by eauto using acl_reachable_wf, acl_add, acl_init|done].
  setoid_rewrite <- (fun p => pmatch_name p name Hne Hw).
  unfold ubusx_acl__add_objects in Ha. destruct (Z.eqb_spec (strlen objects) 0) as [E|E].
  { left. destruct objects; [done|]. unfold strlen in E. simpl in E. lia. }
  destruct (fold_add_object [] (strtok_all objects " ") tree_wf_nil (requested_short _ Ho))
    as (_ & Hin & _).
  destruct Ha as [Ha|(p & Hp & Hm)].
  - left. unfold requested. destruct (strtok_all objects " ") as [|o os] eqn:Eo; [done|].
    exfalso. simpl in Ha.
    assert (Forall short (object_name <$> o :: os)) as Hsh.
    { rewrite <- Eo. by apply requested_short. }
    apply Forall_cons in Hsh as [? Hsh]. rewrite add_object_first in Ha.
    destruct (fold_add_object [object_name o] os) as (_ & _ & Hmono); try done.
    { by split; repeat constructor. }
    specialize (Hmono (object_name o)). rewrite Ha in Hmono.
    by apply elem_of_nil in Hmono; [|apply list_elem_of_singleton].
  - right. exists p. split; [|done]. by destruct (Hin p Hp) as [|?%elem_of_nil].
Qed.

Lemma acl_never_overgrants_witness :
  requested "a b*" = [] \/ exists p, p ∈ requested "a b*" /\ p <> "" /\
    (if wildcard p then starts_with (strip p) "bc" = true else p = "bc").
Proof. by apply (acl_never_overgrants (H := list_avl) "a b*" "bc"). Defined.

(** A wildcard that is added after a name it covers is lost.  The tree
    refuses a key that compares equal to one it holds, so [router router*]
    stores only [router], and [router.network] is denied although the
    administrator listed a pattern for it. *)
Theorem acl_drops_overlapping_wildcard `{AvlTree} :
  ubusx_acl__add_objects [] (Some "router router*") = ["router"] /\
  "router*" ∈ requested "router router*" /\
  ubusx_acl__allow_object (ubusx_acl__add_objects [] (Some "router router*"))
    "router.network" = false.
Proof.
  assert (ubusx_acl__add_objects [] (Some "router router*") = ["router"]) as ->.
  { unfold ubusx_acl__add_objects.
    change (strlen "router router*" =? 0) with false. cbn match.
    change (strtok_all "router router*" " ") with ["router"; "router*"]. cbn [fold_left].
    rewrite add_object_first. change (object_name "router") with "router".
    unfold ubusx_acl__add_object. change (object_name "router*") with "router*".
    rewrite (avl_insert_match ["router"] "router*" "router"); [done|..].
    - by split; repeat constructor.
    - done.
    - by apply list_elem_of_singleton.
    - done. }
  split; [done|]. split; [vm_compute; right; left|].
  apply not_true_is_false. rewrite allow_object_single by done. done.
Qed.

(** The list is split at spaces only.  The comma-separated form of the
    usage text is one single name, so that none of its objects is allowed. *)
Theorem acl_commas_do_not_separate `{AvlTree} :
  requested "object1,object2->method,object3" = ["object1,object2"] /\
  forall name, name ∈ ["object1"; "object2"; "object3"] ->
    ubusx_acl__allow_object
      (ubusx_acl__add_objects [] (Some "object1,object2->method,object3")) name = false.
Proof.
  split; [done|]. intros name Hn.
  unfold ubusx_acl__add_objects.
  change (strlen "object1,object2->method,object3" =? 0) with false. cbn match.
  change (strtok_all "object1,object2->method,object3" " ")
    with ["object1,object2->method,object3"]. cbn [fold_left].
  rewrite add_object_first.
  change (object_name "object1,object2->method,object3") with "object1,object2".
  apply not_true_is_false.
  rewrite !elem_of_cons in Hn. destruct Hn as [->|[->|[->|Hn]]];
    [rewrite allow_object_single; done..|by apply elem_of_nil in Hn].
Qed.

Lemma acl_commas_do_not_separate_witness :
  ubusx_acl__allow_object (H := list_avl)
    (ubusx_acl__add_objects (H := list_avl) [] (Some "object1,object2->method,object3"))
    "object1" = false.
Proof. apply (acl_commas_do_not_separate (H := list_avl)). left. Defined.
