(* ===== verification/WsubusClient.v ===== *)
(** * wsubus_client.c: the table of remote buses owsd connects to

    The file keeps one static [struct clvh_context] ([connect_infos]): the
    list of clients, sorted by index, and the tree of object patterns, plus
    the TLS file names and the two settings of the proxy.  All of it is the
    record [clvh].  The functions that look a client up change the first one
    that matches, as the C loops return the first one.  [inet_pton] and the
    connecting call of libwebsockets are parameters; memory exhaustion is not
    modelled. *)

From stdpp Require Import base list strings numbers sorting sets gmap.
From S2P Require Import Prelude CStrings Avl Patterns Libs.

(** A [struct lws *] is the number of a socket. *)
Definition lws : Type := nat.

Inductive client_type :=
  | CLIENT_TYPE_UNKNOWN | CLIENT_FROM_PROGARG | CLIENT_FROM_UBUS.

Inductive connection_state :=
  | CONNECTION_STATE_DISCONNECTED | CONNECTION_STATE_CONNECTING
  | CONNECTION_STATE_CONNECTED | CONNECTION_STATE_TEARINGDOWN.

#[export] Instance client_type_eq_dec : EqDecision client_type.
Proof. solve_decision. Defined.
#[export] Instance connection_state_eq_dec : EqDecision connection_state.
Proof. solve_decision. Defined.

(** [struct client_connection_info]; [timer] is the pending timeout in ms, and
    [vhost] and [context] are the two pointers of the connect info. *)
Record client_connection_info := Client {
  index : Z;
  wsi : option lws;
  reconnect_count : Z;
  timer : option Z;
  address : string;
  path : string;
  port : Z;
  vhost : option nat;
  context : option nat;
  type : client_type;
  state : connection_state;
}.

#[export] Instance client_eq_dec : EqDecision client_connection_info.
Proof. solve_decision. Defined.

Definition set_index i c := Client i (wsi c) (reconnect_count c) (timer c) (address c)
  (path c) (port c) (vhost c) (context c) (type c) (state c).
Definition set_wsi w c := Client (index c) w (reconnect_count c) (timer c) (address c)
  (path c) (port c) (vhost c) (context c) (type c) (state c).
Definition set_count n c := Client (index c) (wsi c) n (timer c) (address c)
  (path c) (port c) (vhost c) (context c) (type c) (state c).
Definition set_timer t c := Client (index c) (wsi c) (reconnect_count c) t (address c)
  (path c) (port c) (vhost c) (context c) (type c) (state c).
Definition set_vhost v x c := Client (index c) (wsi c) (reconnect_count c) (timer c) (address c)
  (path c) (port c) v x (type c) (state c).
Definition set_state s c := Client (index c) (wsi c) (reconnect_count c) (timer c) (address c)
  (path c) (port c) (vhost c) (context c) (type c) s.

(** [struct clvh_context connect_infos] and the other statics of the file. *)
Record clvh := Clvh {
  enabled : bool;
  clients : list client_connection_info;
  plws_ctx : option nat;
  pclvh : option nat;
  paths_tree : list string;
  ssl_cert_filepath : option string;
  ssl_private_key_filepath : option string;
  ssl_ca_filepath : option string;
  rpcd_integration : bool;
  retry_timeout : Z;
  object_added : bool;
}.

Definition clvh_init : clvh :=
  Clvh false [] None None [] None None None false 2000 false.

Definition set_clients l s := Clvh (enabled s) l (plws_ctx s) (pclvh s) (paths_tree s)
  (ssl_cert_filepath s) (ssl_private_key_filepath s) (ssl_ca_filepath s)
  (rpcd_integration s) (retry_timeout s) (object_added s).
Definition set_paths t s := Clvh (enabled s) (clients s) (plws_ctx s) (pclvh s) t
  (ssl_cert_filepath s) (ssl_private_key_filepath s) (ssl_ca_filepath s)
  (rpcd_integration s) (retry_timeout s) (object_added s).

(** ** Object patterns *)

Section patterns.
Context `{AvlTree}.

(** [None]: reading [p[-1]] of an empty pattern. *)
Definition broader_pattern (p1 p2 : string) : option bool :=
  match p1, p2 with
  | EmptyString, _ | _, EmptyString => None
  | _, _ =>
      let p1_wildcard := wildcard p1 in
      let p2_wildcard := wildcard p2 in
      Some (if negb p1_wildcard && negb p2_wildcard then true
            else if negb (Bool.eqb p1_wildcard p2_wildcard) then p1_wildcard
            else (String.length p1 <=? String.length p2)%nat)
  end.

(** The [while] loop: [Some (inl l)] is the jump to [out_key], [Some (inr l)]
    the normal exit.  Each turn deletes one pattern, so the number of
    patterns is enough fuel. *)
Fixpoint mute_patterns (fuel : nat) (tree : list string) (new : string)
  : option (list string + list string) :=
  match avl_find client_path_comp tree new with
  | None => Some (inr tree)
  | Some found =>
      match fuel with
      | O => None
      | S f =>
          match broader_pattern found new with
          | None => None
          | Some true => Some (inl tree)
          | Some false => mute_patterns f (avl_delete tree found) new
          end
      end
  end.

Definition wsubus_client_path_pattern_add (tree : list string) (pattern : string)
  : option (list string) :=
  match mute_patterns (S (length tree)) tree pattern with
  | None => None
  | Some (inl tree') => Some tree'
  | Some (inr tree') =>
      match avl_insert client_path_comp tree' pattern with
      | None => Some tree'
      | Some tree'' => Some tree''
      end
  end.

Definition wsubus_client_match_pattern (tree : list string) (name : string) : bool :=
  match tree with
  | [] => true
  | _ =>
      match avl_find client_path_comp tree name with
      | Some _ => true
      | None => false
      end
  end.
End patterns.

(** ** The client list *)

Fixpoint find_first (P : client_connection_info -> bool) (l : list client_connection_info)
  : option client_connection_info :=
  match l with [] => None | c :: l' => if P c then Some c else find_first P l' end.

Fixpoint update_first (P : client_connection_info -> bool)
    (f : client_connection_info -> client_connection_info)
    (l : list client_connection_info) : list client_connection_info :=
  match l with
  | [] => []
  | c :: l' => if P c then f c :: l' else c :: update_first P f l'
  end.

Fixpoint delete_first (P : client_connection_info -> bool)
    (l : list client_connection_info) : list client_connection_info :=
  match l with
  | [] => []
  | c :: l' => if P c then l' else c :: delete_first P l'
  end.

Definition has_index (i : Z) (c : client_connection_info) : bool := i =? index c.
Definition has_wsi (w : lws) (c : client_connection_info) : bool :=
  bool_decide (wsi c = Some w).

Definition get_client_by_index (i : Z) (l : list client_connection_info) :=
  find_first (has_index i) l.

(** The clients that are reconnecting have no wsi: a NULL wsi finds nothing. *)
Definition get_client_by_wsi (w : option lws) (l : list client_connection_info) :=
  match w with None => None | Some w => find_first (has_wsi w) l end.

Fixpoint insert_at (i : Z) (client : client_connection_info)
    (l : list client_connection_info) : list client_connection_info :=
  match l with
  | [] => [set_index i client]
  | tmp :: l' =>
      if i <? index tmp then set_index i client :: tmp :: l'
      else tmp :: insert_at (i + 1) client l'
  end.

Definition insert_at_lowest_free_index (client : client_connection_info)
    (l : list client_connection_info) : list client_connection_info :=
  insert_at 0 client l.

Definition wsubus_client_enable_proxy (s : clvh) : clvh :=
  Clvh true (clients s) (plws_ctx s) (pclvh s) (paths_tree s)
    (ssl_cert_filepath s) (ssl_private_key_filepath s) (ssl_ca_filepath s)
    (rpcd_integration s) (retry_timeout s) (object_added s).

Definition wsubus_client_set_state (w : option lws) (st : connection_state) (s : clvh) : clvh :=
  match w with
  | None => s
  | Some w =>
      set_clients (update_first (has_wsi w)
        (fun c =>
           let c := set_state st c in
           if decide (st = CONNECTION_STATE_CONNECTED) then set_count 0 c else c)
        (clients s)) s
  end.

Definition MAX_IP_LEN : nat := 128.
Definition MAX_PATH_LEN : nat := 128.
Definition WSS_PORT : Z := 443.

Inductive address_family := AF_INET | AF_INET6.

Section create.
(** [inet_pton(af, addr, &dummy)]: 1 for a valid address, 0 for another
    string. *)
Variable inet_pton : address_family -> string -> Z.

(** The result is the port to use, [None] when the arguments are refused. *)
Definition validate_ip_port_path (addr : option string) (port : Z) (path : option string)
  : option Z :=
  match addr, path with
  | Some addr, Some _ =>
      let rv := inet_pton AF_INET addr in
      let rv := if rv =? 0 then inet_pton AF_INET6 addr else rv in
      if rv =? 0 then None
      else if (port <=? 0) || (Z.shiftl 1 16 <=? port) then Some 443 else Some port
  | _, _ => None
  end.

Definition unique_ip (addr : string) (l : list client_connection_info) : bool :=
  forallb (fun c =>
    negb (strcmp addr (address c) =? 0)
    || bool_decide (state c = CONNECTION_STATE_TEARINGDOWN)) l.

Definition wsubus_client_create (addr : option string) (prt : Z) (pth : option string)
    (typ : client_type) (s : clvh) : Z * clvh :=
  match validate_ip_port_path addr prt pth, addr, pth with
  | Some prt, Some addr, Some pth =>
      if unique_ip addr (clients s) then
        let newcl := Client 0 None 0 None (str_take MAX_IP_LEN addr)
          (str_take MAX_PATH_LEN pth) prt (pclvh s) (plws_ctx s) typ
          CONNECTION_STATE_DISCONNECTED in
        (** the timer is set after the insertion, on the inserted client *)
        let newcl := if decide (typ = CLIENT_FROM_UBUS) then set_timer (Some 100) newcl else newcl in
        (0, wsubus_client_enable_proxy
              (set_clients (insert_at_lowest_free_index newcl (clients s)) s))
      else (UBUS_STATUS_INVALID_ARGUMENT, s)
  | _, _, _ => (UBUS_STATUS_INVALID_ARGUMENT, s)
  end.

(** The ubus method "add"; [ip] and [port] are the parsed arguments. *)
Definition add_client (ip : option string) (prt : option Z) (s : clvh) : Z * clvh :=
  match ip with
  | None => (UBUS_STATUS_INVALID_ARGUMENT, s)
  | Some ip =>
      let prt := match prt with Some p => s32 (u32 p) | None => WSS_PORT end in
      if (prt <=? 0) || (Z.shiftl 1 16 <=? prt) then (UBUS_STATUS_INVALID_ARGUMENT, s)
      else wsubus_client_create (Some ip) prt (Some "/") CLIENT_FROM_UBUS s
  end.
End create.

(** A NULL [wsi] is every client. *)
Definition _wsubus_client_connect (w : option lws) (timeout : Z) (s : clvh) : clvh :=
  let arm c := set_timer (Some timeout) (set_count 0 c) in
  match w with
  | None => set_clients (arm <$> clients s) s
  | Some w => set_clients (update_first (has_wsi w) arm (clients s)) s
  end.

Definition wsubus_client_connect_all (s : clvh) : clvh := _wsubus_client_connect None 0 s.

Definition wsubus_client_connect_retry (w : option lws) (s : clvh) : clvh :=
  match w with
  | None => s
  | Some w =>
      set_clients (update_first (has_wsi w)
        (fun c =>
           let n := s32 (reconnect_count c + 1) in
           set_timer (Some (s32 (n * retry_timeout s))) (set_count n (set_wsi None c)))
        (clients s)) s
  end.

Definition wsubus_client_reconnect (w : option lws) (s : clvh) : clvh :=
  _wsubus_client_connect w 2000 s.

(** What [manage_remove_client] makes of a client ([None] is deleted), and the
    socket it asks a writable callback for. *)
Definition manage_remove_client (c : client_connection_info)
  : option client_connection_info * option lws :=
  match state c with
  | CONNECTION_STATE_DISCONNECTED => (None, None)
  | CONNECTION_STATE_CONNECTING => (Some (set_state CONNECTION_STATE_TEARINGDOWN c), None)
  | CONNECTION_STATE_CONNECTED => (Some (set_state CONNECTION_STATE_TEARINGDOWN c), wsi c)
  | CONNECTION_STATE_TEARINGDOWN => (Some c, None)
  end.

(** On the first client with the index; [None]: no such client, and the code
    reads [client->state] through a NULL pointer. *)
Fixpoint remove_index (i : Z) (l : list client_connection_info)
  : option (list client_connection_info * option lws) :=
  match l with
  | [] => None
  | c :: l' =>
      if has_index i c then
        let '(c', w) := manage_remove_client c in
        Some (match c' with Some c' => c' :: l' | None => l' end, w)
      else match remove_index i l' with
           | Some (l'', w) => Some (c :: l'', w)
           | None => None
           end
  end.

(** On every client with the address. *)
Definition remove_ip (ip : string) (l : list client_connection_info)
  : list client_connection_info * list lws :=
  (omap (fun c => if strcmp ip (address c) =? 0 then (manage_remove_client c).1 else Some c) l,
   omap (fun c => if strcmp ip (address c) =? 0 then (manage_remove_client c).2 else None) l).

(** The ubus method "remove": the status and the sockets to be made writable.
    After the loop over the addresses [client] is the list head, never NULL,
    so the call reports success. *)
Definition remove_client (idx : option Z) (ip : option string) : M clvh (Z * list lws) :=
  match idx, ip with
  | Some idx, _ =>
      let* lw := deref (fun s => remove_index (s32 (u32 idx)) (clients s)) in
      modify (set_clients lw.1) ;;;
      M_ret (UBUS_STATUS_OK, option_list lw.2)
  | None, Some ip =>
      let* lw := gets (fun s => remove_ip ip (clients s)) in
      modify (set_clients lw.1) ;;;
      M_ret (UBUS_STATUS_OK, lw.2)
  | None, None => M_ret (UBUS_STATUS_INVALID_ARGUMENT, [])
  end.

Definition state_name (st : connection_state) : string :=
  match st with
  | CONNECTION_STATE_DISCONNECTED => "Disconnected"
  | CONNECTION_STATE_CONNECTING => "Connecting"
  | CONNECTION_STATE_CONNECTED => "Connected"
  | CONNECTION_STATE_TEARINGDOWN => "Teardown"
  end.

(** Decimal text of an [int], as [%d] prints it. *)
Definition dec (z : Z) : string := pretty.pretty z.

Definition dump_client (c : client_connection_info) : attr :=
  (str_take 15 ("proxy-" +:+ dec (index c)), BTable [
     ("index", BInt32 (u32 (index c)));
     ("ip", BString (address c));
     ("port", BInt32 (u32 (port c)));
     ("path", BString (path c));
     ("protocol", BString "ubus-json");
     ("SSL", BInt8 1);
     ("type", BString (if decide (type c = CLIENT_FROM_UBUS) then "ubus" else "uci"));
     ("state", BString (state_name (state c)));
     ("reconnect_count", BInt32 (u32 (reconnect_count c)))]).

(** The ubus method "list": the fields of the reply. *)
Definition list_client (idx : option Z) (s : clvh) : list attr :=
  match idx with
  | None => [("clients", BArray (dump_client <$> clients s))]
  | Some idx =>
      match find_first (fun c => u32 idx =? index c) (clients s) with
      | Some c => [dump_client c]
      | None => []
      end
  end.

(** [created] is the vhost libwebsockets made, if it made one. *)
Definition wsubus_client_start_proxying (lws_ctx : nat) (created : option nat) (s : clvh)
  : Z * clvh :=
  if negb (enabled s) then (-1, s)
  else match ssl_cert_filepath s, ssl_private_key_filepath s, ssl_ca_filepath s with
  | Some _, Some _, Some _ =>
      match created with
      | None => (-3, s)
      | Some clvh =>
          (0, Clvh (enabled s) (set_vhost (Some clvh) (Some lws_ctx) <$> clients s)
                (Some lws_ctx) (Some clvh) (paths_tree s)
                (ssl_cert_filepath s) (ssl_private_key_filepath s) (ssl_ca_filepath s)
                (rpcd_integration s) (retry_timeout s) true)
      end
  | _, _, _ => (-2, s)
  end.

Definition wsubus_client_set_cert_filepath (filepath : string) (s : clvh) : clvh :=
  Clvh (enabled s) (clients s) (plws_ctx s) (pclvh s) (paths_tree s)
    (Some filepath) (ssl_private_key_filepath s) (ssl_ca_filepath s)
    (rpcd_integration s) (retry_timeout s) (object_added s).

Definition wsubus_client_set_private_key_filepath (filepath : string) (s : clvh) : clvh :=
  Clvh (enabled s) (clients s) (plws_ctx s) (pclvh s) (paths_tree s)
    (ssl_cert_filepath s) (Some filepath) (ssl_ca_filepath s)
    (rpcd_integration s) (retry_timeout s) (object_added s).

Definition wsubus_client_set_ca_filepath (filepath : string) (s : clvh) : clvh :=
  Clvh (enabled s) (clients s) (plws_ctx s) (pclvh s) (paths_tree s)
    (ssl_cert_filepath s) (ssl_private_key_filepath s) (Some filepath)
    (rpcd_integration s) (retry_timeout s) (object_added s).

Definition wsubus_client_set_rpcd_integration (b : bool) (s : clvh) : clvh :=
  Clvh (enabled s) (clients s) (plws_ctx s) (pclvh s) (paths_tree s)
    (ssl_cert_filepath s) (ssl_private_key_filepath s) (ssl_ca_filepath s)
    b (retry_timeout s) (object_added s).

Definition wsubus_client_clean (s : clvh) : clvh := set_clients [] s.

Definition wsubus_client_should_destroy (w : option lws) (s : clvh) : bool :=
  match get_client_by_wsi w (clients s) with
  | None => true
  | Some c => bool_decide (state c = CONNECTION_STATE_TEARINGDOWN)
  end.

Definition wsubus_client_destroy (w : option lws) (s : clvh) : clvh :=
  match w with
  | None => s
  | Some w => set_clients (delete_first (has_wsi w) (clients s)) s
  end.

(** ** The connection callbacks of ws_ubusproxy.c, on the table *)

(** [LWS_CALLBACK_CLIENT_CLOSED] / [LWS_CALLBACK_CLOSED] of a remote peer. *)
Definition proxy_closed (w : lws) (s : clvh) : clvh :=
  if wsubus_client_should_destroy (Some w) s then wsubus_client_destroy (Some w) s
  else wsubus_client_reconnect (Some w)
         (wsubus_client_set_state (Some w) CONNECTION_STATE_DISCONNECTED s).

(** [LWS_CALLBACK_CLIENT_CONNECTION_ERROR] *)
Definition proxy_connection_error (w : lws) (s : clvh) : clvh :=
  if wsubus_client_should_destroy (Some w) s then wsubus_client_destroy (Some w) s
  else wsubus_client_connect_retry (Some w)
         (wsubus_client_set_state (Some w) CONNECTION_STATE_DISCONNECTED s).

(** [LWS_CALLBACK_CLIENT_ESTABLISHED], up to the state change: -1 closes. *)
Definition proxy_established (w : lws) (s : clvh) : Z * clvh :=
  if wsubus_client_should_destroy (Some w) s then (-1, s)
  else (0, wsubus_client_set_state (Some w) CONNECTION_STATE_CONNECTED s).

(** ** The reconnection timer *)

(** What [lws_client_connect_via_info] does: it returns the new socket, it
    returns NULL without having made one, or it makes one, stores it through
    [pwsi], reports [LWS_CALLBACK_CLIENT_CONNECTION_ERROR] for it and then
    returns NULL. *)
Inductive connect_outcome :=
  | Connecting (w : lws) | Refused_early | Refused (w : lws).

(** The timer of the client with index [i] fired (it is no longer pending). *)
Definition utimer_reconnect_cb (i : Z) (outcome : connect_outcome) (s : clvh) : clvh :=
  let s := set_clients (update_first (has_index i) (set_timer None) (clients s)) s in
  match outcome with
  | Refused_early => s
  | Refused w =>
      proxy_connection_error w
        (set_clients (update_first (has_index i) (set_wsi (Some w)) (clients s)) s)
  | Connecting w =>
      let s := set_clients (update_first (has_index i) (set_wsi (Some w)) (clients s)) s in
      wsubus_client_set_state (Some w) CONNECTION_STATE_CONNECTING s
  end.

(** ** Patterns: facts *)

(** The names a pattern stands for. *)
Definition covers (p name : string) : Prop :=
  p <> "" /\ (if wildcard p then starts_with (strip p) name = true else p = name).

Definition broader (p q : string) : Prop := forall name, covers q name -> covers p name.

Lemma broader_pattern_eq found new b :
  broader_pattern found new = Some b ->
  found <> "" /\ new <> "" /\
  b = (if negb (wildcard found) && negb (wildcard new) then true
       else if negb (Bool.eqb (wildcard found) (wildcard new)) then wildcard found
       else (String.length found <=? String.length new)%nat).
Proof.
  destruct found as [|x f], new as [|y n]; try done. cbn [broader_pattern].
  intros [= <-]. done.
Qed.

Lemma broader_pattern_true found new :
  pmatch new found -> broader_pattern found new = Some true -> broader found new.
Proof.
  unfold broader, covers, pmatch. intros Hm (Hf & Hw & Hb)%broader_pattern_eq name [_ Hn].
  rewrite !pkey_nonempty in Hm by done. split; [done|].
  pose proof (strip_length found). pose proof (strip_length new).
  destruct (wildcard found) eqn:Ef, (wildcard new) eqn:En; simpl in Hb; try done.
  - eapply starts_with_trans; [|done].
    destruct Hm as [Hm|?]; [|done]. symmetry in Hb. apply Nat.leb_le in Hb.
    apply starts_with_same_length in Hm as ->; [apply starts_with_refl|lia].
  - by rewrite (strip_plain new), Hn in Hm.
  - rewrite !strip_plain in Hm by done. congruence.
Qed.

Lemma broader_pattern_false found new :
  pmatch new found -> broader_pattern found new = Some false -> broader new found.
Proof.
  unfold broader, covers, pmatch. intros Hm (Hf & Hw & Hb)%broader_pattern_eq name [_ Hn].
  rewrite !pkey_nonempty in Hm by done. split; [done|].
  pose proof (strip_length found). pose proof (strip_length new).
  destruct (wildcard found) eqn:Ef, (wildcard new) eqn:En; simpl in Hb; try done.
  - eapply starts_with_trans; [|done].
    destruct Hm as [?|Hm]; [done|]. symmetry in Hb. apply Nat.leb_gt in Hb.
    apply starts_with_length in Hm. destruct new; [done|]. simpl in *. lia.
  - by rewrite (strip_plain found), Hn in Hm.
Qed.

Lemma broader_pattern_some found new :
  found <> "" -> new <> "" -> is_Some (broader_pattern found new).
Proof. destruct found, new; done. Qed.

Section pattern_facts.
Context `{AvlTree}.

Definition pats_wf (l : list string) : Prop := tree_wf l /\ Forall (fun p => p <> "") l.

Lemma mute_patterns_spec f tree new :
  pats_wf tree -> short new -> new <> "" -> (length tree <= f)%nat ->
  exists r, mute_patterns f tree new = Some r /\
  match r with
  | inl t => pats_wf t /\ t ⊆ tree /\
      (forall q, q ∈ tree -> exists q', (q' ∈ t \/ q' = new) /\ broader q' q) /\
      exists q, q ∈ t /\ broader q new
  | inr t => pats_wf t /\ t ⊆ tree /\
      (forall q, q ∈ tree -> exists q', (q' ∈ t \/ q' = new) /\ broader q' q) /\
      forall e, e ∈ t -> ~ pmatch new e
  end.
Proof.
  intros Hwf Hn Hne. revert tree Hwf.
  induction f as [|f IH]; intros tree [Hwf Hnn] Hl; simpl.
  - destruct tree; simpl in Hl; [|lia].
    assert (avl_find client_path_comp [] new = None) as ->.
    { apply avl_find_none; [by apply Hwf|done|]. intros e He. by apply elem_of_nil in He. }
    eexists. split; [done|]. split_and!; try done; intros q Hq; by apply elem_of_nil in Hq.
  - destruct (avl_find client_path_comp tree new) as [found|] eqn:E; cycle 1.
    { eexists. split; [done|]. split_and!; try done.
      - intros q Hq. exists q. split; [by left|by intros ?].
      - by apply avl_find_none. }
    apply avl_find_sound in E as [Hf E].
    pose proof Hwf as Hwf'. destruct Hwf' as [Hsh Hs]. rewrite Forall_forall in Hsh, Hnn.
    apply pcmp_match in E; [|by auto..].
    destruct (broader_pattern_some found new (Hnn _ Hf) Hne) as [b Hb]. rewrite Hb.
    destruct b.
    + eexists. split; [done|]. split_and!; try done.
      * split; [done|]. by apply Forall_forall.
      * intros q Hq. exists q. split; [by left|by intros ?].
      * exists found. split; [done|]. by apply broader_pattern_true.
    + destruct (IH (avl_delete tree found)) as (r & -> & Hr).
      { split; [by apply avl_delete_wf|]. apply Forall_forall. intros x [_ Hx]%elem_of_avl_delete.
        auto. }
      { rewrite avl_delete_spec.
        assert (length (filter (fun e => e <> found) tree) < length tree)%nat; [|lia].
        apply length_filter_lt with found; auto. }
      eexists. split; [done|].
      assert (forall t, t ⊆ avl_delete tree found -> t ⊆ tree) as Hsub.
      { intros t Ht x Hx%Ht. by apply elem_of_avl_delete in Hx as [_ ?]. }
      assert (forall t : list string,
        (forall q, q ∈ avl_delete tree found -> exists q', (q' ∈ t \/ q' = new) /\ broader q' q) ->
        forall q, q ∈ tree -> exists q', (q' ∈ t \/ q' = new) /\ broader q' q) as Hcov.
      { intros t Ht q Hq. destruct (decide (q = found)) as [->|].
        - exists new. split; [by right|]. by apply broader_pattern_false.
        - apply Ht. by apply elem_of_avl_delete. }
      destruct r; naive_solver.
Qed.
End pattern_facts.

Section pattern_lists.
Context `{AvlTree}.

(** The patterns given to [wsubus_client_path_pattern_add], first to last. *)
Fixpoint path_patterns_from (tree : list string) (ps : list string) : option (list string) :=
  match ps with
  | [] => Some tree
  | p :: ps' =>
      match wsubus_client_path_pattern_add tree p with
      | Some tree' => path_patterns_from tree' ps'
      | None => None
      end
  end.

Definition path_patterns_added (ps : list string) : option (list string) :=
  path_patterns_from [] ps.

(** One addition: the tree stays well formed and keeps covering. *)
Lemma path_pattern_add_spec tree new :
  pats_wf tree -> short new -> new <> "" ->
  exists t, wsubus_client_path_pattern_add tree new = Some t /\ pats_wf t /\
    (forall q, q ∈ t -> q = new \/ q ∈ tree) /\
    (forall q, q ∈ new :: tree -> exists q', q' ∈ t /\ broader q' q).
Proof.
  intros Hwf Hn Hne. unfold wsubus_client_path_pattern_add.
  destruct (mute_patterns_spec (S (length tree)) tree new) as (r & -> & Hr); [done..|lia|].
  destruct r as [t|t].
  - destruct Hr as (Hwf' & Hsub & Hcov & q0 & Hq0 & Hb0). exists t.
    split_and!; [done|done|by auto|]. intros q [->|Hq]%elem_of_cons; [by eauto|].
    destruct (Hcov q Hq) as (q' & [?| ->] & Hb); [by eauto|].
    exists q0. split; [done|]. intros name ?. by apply Hb0, Hb.
  - destruct Hr as ([Hwf' Hnn] & Hsub & Hcov & Hno).
    destruct (avl_insert_nomatch t new Hwf' Hn Hno) as (l' & Hl & Hwf2 & Hin).
    unfold client_path_comp. rewrite Hl. exists l'. split_and!; [done| | |].
    + split; [done|]. rewrite Forall_forall in *. intros x [->|Hx]%Hin; auto.
    + intros q [->|Hq]%Hin; auto.
    + intros q [->|Hq]%elem_of_cons.
      * exists new. split; [apply Hin; auto|]. by intros ?.
      * destruct (Hcov q Hq) as (q' & [?| ->] & Hb).
        -- exists q'. split; [apply Hin|]; auto.
        -- exists new. split; [apply Hin|]; auto.
Qed.

Lemma path_patterns_from_spec ps tree :
  pats_wf tree -> Forall (fun p => short p /\ p <> "") ps ->
  exists t, path_patterns_from tree ps = Some t /\ pats_wf t /\
    (forall q, q ∈ t -> q ∈ ps \/ q ∈ tree) /\
    (forall q, q ∈ ps \/ q ∈ tree -> exists q', q' ∈ t /\ broader q' q).
Proof.
  revert tree. induction ps as [|p ps IH]; intros tree Hwf Hps; simpl.
  { exists tree. split_and!; [done|done|auto|]. intros q [Hq|Hq]; [by apply elem_of_nil in Hq|].
    exists q. split; [done|]. by intros ?. }
  apply Forall_cons in Hps as [[Hp Hpe] Hps].
  destruct (path_pattern_add_spec tree p Hwf Hp Hpe) as (t & -> & Hwf1 & Hin1 & Hcov1).
  destruct (IH t Hwf1 Hps) as (t2 & -> & Hwf2 & Hin2 & Hcov2).
  exists t2. split_and!; [done|done| |].
  - intros q [Hq|Hq]%Hin2; [rewrite elem_of_cons; auto|].
    apply Hin1 in Hq as [->|?]; rewrite elem_of_cons; auto.
  - intros q Hq. assert (q ∈ ps \/ q ∈ p :: tree) as [Hq'|Hq'] by (set_solver); [by auto|].
    destruct (Hcov1 q Hq') as (q1 & Hq1 & Hb1).
    destruct (Hcov2 q1 (or_intror Hq1)) as (q2 & Hq2 & Hb2).
    exists q2. split; [done|]. intros name ?. by apply Hb2, Hb1.
Qed.

Lemma pats_wf_nil : pats_wf [].
Proof. split; [apply tree_wf_nil|constructor]. Qed.

Lemma match_pattern_covers tree name :
  pats_wf tree -> short name -> name <> "" -> wildcard name = false ->
  wsubus_client_match_pattern tree name = true <->
  tree = [] \/ exists p, p ∈ tree /\ covers p name.
Proof.
  intros [Hwf _] Hn Hne Hw. pose proof (avl_find_match tree name Hwf Hn) as Hf.
  setoid_rewrite (fun p => pmatch_name p name Hne Hw) in Hf.
  unfold wsubus_client_match_pattern, client_path_comp. destruct tree as [|a t]; [by split; auto|].
  destruct (avl_find pcmp (a :: t) name).
  - split; [|done]. intros _. right. apply Hf. eauto.
  - split; [done|]. intros [?|He]; [done|]. apply Hf in He as [? ?]. done.
Qed.
End pattern_lists.
