(* ===== verification/ClientTable.v ===== *)
(** * The table of remote buses as a state machine

    The operations of WsubusClient.v, interleaved in any order: the ubus
    methods "add" and "remove", the reconnection timers, and what
    libwebsockets reports of the sockets.  The state is the table with the set
    of sockets libwebsockets has open for it.  The guards of the steps on
    sockets are the contract of libwebsockets: it reports only on sockets that
    are open, and a new socket is none of these.  It may have the address of a
    socket that was closed, which a client of the table may still name: such a
    step is labelled with the client and the address, and the invariant holds
    exactly as long as no other client names the address. *)

From stdpp Require Import base list strings numbers sorting sets gmap.
From S2P Require Import Prelude CStrings Avl Patterns Libs WsubusClient.

(** ** Updates of a client known by a unique key *)

Implicit Types (l : list client_connection_info) (c : client_connection_info).

Definition by_index (a b : client_connection_info) : Prop := index a < index b.

Lemma index_inj l a b :
  StronglySorted by_index l -> a ∈ l -> b ∈ l -> index a = index b -> a = b.
Proof.
  induction 1 as [|x l Hs IH Hx]; [by intros ?%elem_of_nil|].
  rewrite Forall_forall in Hx. unfold by_index in Hx.
  intros [->|Ha]%elem_of_cons [->|Hb]%elem_of_cons Hi; auto.
  - apply Hx in Hb. lia.
  - apply Hx in Ha. lia.
Qed.

(** At most one client of the list has [P]. *)
Definition unique (P : client_connection_info -> bool) (l : list client_connection_info) : Prop :=
  forall a b, a ∈ l -> b ∈ l -> P a = true -> P b = true -> index a = index b.

(** What an update makes of each client. *)
Definition on (P : client_connection_info -> bool)
    (g : client_connection_info -> option client_connection_info)
    (c : client_connection_info) : option client_connection_info :=
  if P c then g c else Some c.

Lemma omap_on_none P g (l : list client_connection_info) : (forall c, c ∈ l -> P c = false) -> omap (on P g) l = l.
Proof.
  induction l as [|c l IH]; [done|]. intros Hl. csimpl. unfold on at 1.
  rewrite (Hl c) by (apply elem_of_cons; auto). f_equal. apply IH. intros x Hx.
  apply Hl, elem_of_cons. auto.
Qed.

Lemma unique_tail P c l :
  StronglySorted by_index (c :: l) -> unique P (c :: l) -> P c = true ->
  forall x, x ∈ l -> P x = false.
Proof.
  intros Hs Hu Hc x Hx. apply not_true_is_false. intros Hp.
  inversion Hs as [|?? _ Hf]; subst. rewrite Forall_forall in Hf. apply Hf in Hx as Hlt.
  assert (index c = index x) by (apply Hu; rewrite ?elem_of_cons; auto).
  unfold by_index in Hlt. lia.
Qed.

Lemma unique_cons P c l : unique P (c :: l) -> unique P l.
Proof. intros Hu a b Ha Hb. apply Hu; apply elem_of_cons; auto. Qed.

Lemma update_first_omap P f l :
  StronglySorted by_index l -> unique P l ->
  update_first P f l = omap (on P (fun c => Some (f c))) l.
Proof.
  induction l as [|c l IH]; [done|]. intros Hs Hu. csimpl. unfold on at 1.
  destruct (P c) eqn:E.
  - rewrite omap_on_none; [done|]. by eapply unique_tail.
  - f_equal. apply IH; [by inversion Hs|by eapply unique_cons].
Qed.

Lemma delete_first_omap P l :
  StronglySorted by_index l -> unique P l ->
  delete_first P l = omap (on P (fun _ => None)) l.
Proof.
  induction l as [|c l IH]; [done|]. intros Hs Hu. csimpl. unfold on at 1.
  destruct (P c) eqn:E.
  - rewrite omap_on_none; [done|]. by eapply unique_tail.
  - f_equal. apply IH; [by inversion Hs|by eapply unique_cons].
Qed.

Lemma unique_has_index i l : unique (has_index i) l.
Proof. unfold unique, has_index. intros a b _ _ ?%Z.eqb_eq ?%Z.eqb_eq. lia. Qed.

Lemma remove_index_omap i l :
  StronglySorted by_index l ->
  match remove_index i l with
  | Some (l', w) =>
      l' = omap (on (has_index i) (fun c => (manage_remove_client c).1)) l /\
      exists c, c ∈ l /\ index c = i /\ w = (manage_remove_client c).2
  | None => forall c, c ∈ l -> index c <> i
  end.
Proof.
  induction l as [|c l IH]; intros Hs; simpl; [by intros c ?%elem_of_nil|].
  unfold on at 1. destruct (has_index i c) eqn:E.
  - destruct (manage_remove_client c) as [c' w] eqn:Em. simpl.
    rewrite omap_on_none by (by eapply unique_tail; eauto using unique_has_index).
    split; [by destruct c'|]. exists c. apply Z.eqb_eq in E. rewrite Em.
    split_and!; [apply elem_of_cons|..]; auto.
  - inversion Hs; subst. specialize (IH ltac:(done)).
    destruct (remove_index i l) as [[l'' w]|].
    + destruct IH as [-> (c' & ? & ? & ?)]. split; [done|]. exists c'. rewrite elem_of_cons. auto.
    + intros x [->|Hx]%elem_of_cons; [|by apply IH]. apply Z.eqb_neq in E. lia.
Qed.

Lemma get_client_by_wsi_spec w l :
  match get_client_by_wsi (Some w) l with
  | Some c => c ∈ l /\ wsi c = Some w
  | None => forall c, c ∈ l -> wsi c <> Some w
  end.
Proof.
  simpl. induction l as [|c l IH]; simpl; [by intros c ?%elem_of_nil|].
  unfold has_wsi at 1. case_bool_decide.
  - rewrite elem_of_cons. auto.
  - destruct (find_first (has_wsi w) l).
    + rewrite elem_of_cons. naive_solver.
    + intros x [->|?]%elem_of_cons; auto.
Qed.

Lemma update_first_twice P f g l :
  (forall c, P c = true -> P (g c) = true) ->
  update_first P f (update_first P g l) = update_first P (fun c => f (g c)) l.
Proof.
  intros HP. induction l as [|c l IH]; simpl; [done|].
  destruct (P c) eqn:E; simpl; [by rewrite HP|]. by rewrite E, IH.
Qed.

Lemma update_first_ext P Q f l :
  (forall c, c ∈ l -> P c = Q c) -> update_first P f l = update_first Q f l.
Proof.
  induction l as [|c l IH]; simpl; [done|]. intros HP.
  rewrite (HP c) by (apply elem_of_cons; auto). rewrite IH; [done|].
  intros x Hx. apply HP, elem_of_cons. auto.
Qed.

Lemma update_first_other P f l c : P c = false -> c ∈ l -> c ∈ update_first P f l.
Proof.
  intros HP. induction l as [|x l IH]; simpl; [done|]. rewrite elem_of_cons.
  destruct (P x) eqn:E; rewrite elem_of_cons; intros [->|?]; auto. congruence.
Qed.

(** The client the update hits, and what stays of any client. *)
Lemma update_first_named P f l c :
  c ∈ l -> P c = true ->
  exists c0 c', c0 ∈ l /\ P c0 = true /\ c' ∈ update_first P f l /\ c' = f c0.
Proof.
  intros Hc HP. induction l as [|x l IH]; [by apply elem_of_nil in Hc|]. simpl.
  destruct (P x) eqn:E; [exists x, (f x); rewrite !elem_of_cons; auto|].
  apply elem_of_cons in Hc as [->|Hc]; [congruence|].
  destruct (IH Hc) as (c0 & c' & ? & ? & ? & ?). exists c0, c'. rewrite !elem_of_cons. auto.
Qed.

Lemma update_first_kept P f l c :
  (forall x, index (f x) = index x /\ wsi (f x) = wsi x) -> c ∈ l ->
  exists c', c' ∈ update_first P f l /\ index c' = index c /\ wsi c' = wsi c.
Proof.
  intros Hf. induction l as [|x l IH]; simpl; [by intros ?%elem_of_nil|]. intros [->|Hc]%elem_of_cons.
  - destruct (P x); [exists (f x)|exists x]; rewrite elem_of_cons; naive_solver.
  - destruct (P x); [exists c; rewrite elem_of_cons; auto|].
    destruct (IH Hc) as (c' & ? & ?). exists c'. rewrite elem_of_cons. auto.
Qed.

(** ** The invariant *)

(** A pending timer belongs to a disconnected client; the other clients have
    an open socket, and the socket a disconnected client may still name is
    closed. *)
Definition client_ok (live : gset lws) (c : client_connection_info) : Prop :=
  (timer c <> None -> state c = CONNECTION_STATE_DISCONNECTED) /\
  match state c with
  | CONNECTION_STATE_DISCONNECTED => forall w, wsi c = Some w -> w ∉ live
  | _ => exists w, wsi c = Some w /\ w ∈ live
  end.

Definition wanted (c : client_connection_info) : Prop :=
  state c <> CONNECTION_STATE_TEARINGDOWN.

Record table_inv (l : list client_connection_info) (live : gset lws) : Prop := {
  ti_sorted : StronglySorted by_index l;
  ti_index : forall c, c ∈ l -> 0 <= index c;
  ti_address : forall a b, a ∈ l -> b ∈ l -> wanted a -> wanted b ->
    address a = address b -> index a = index b;
  ti_wsi : forall a b w, a ∈ l -> b ∈ l -> wsi a = Some w -> wsi b = Some w ->
    index a = index b;
  ti_ok : forall c, c ∈ l -> client_ok live c;
  ti_live : forall w, w ∈ live -> exists c, c ∈ l /\ wsi c = Some w /\
    state c <> CONNECTION_STATE_DISCONNECTED;
}.

Lemma omap_sorted (g : client_connection_info -> option client_connection_info) l :
  (forall c c', c ∈ l -> g c = Some c' -> index c' = index c) ->
  StronglySorted by_index l -> StronglySorted by_index (omap g l).
Proof.
  intros Hg Hs. induction Hs as [|c l Hs IH Hf]; csimpl; [constructor|].
  assert (forall x x', x ∈ l -> g x = Some x' -> index x' = index x) as Hg'.
  { intros x x' Hx. apply Hg, elem_of_cons. auto. }
  destruct (g c) as [c'|] eqn:E; [|by auto]. constructor; [by auto|].
  rewrite Forall_forall in *. intros x' (x & Hx & Hx')%list_elem_of_omap.
  unfold by_index in *. rewrite (Hg' x x'), (Hg c c'); auto. apply elem_of_cons. auto.
Qed.

Lemma inv_omap g l live live' :
  table_inv l live ->
  (forall c c', c ∈ l -> g c = Some c' ->
     index c' = index c /\ (wanted c' -> wanted c /\ address c' = address c) /\
     client_ok live' c') ->
  (forall a b a' b' w, a ∈ l -> b ∈ l -> g a = Some a' -> g b = Some b' ->
     wsi a' = Some w -> wsi b' = Some w -> index a = index b) ->
  (forall w, w ∈ live' -> exists c c', c ∈ l /\ g c = Some c' /\ wsi c' = Some w /\
     state c' <> CONNECTION_STATE_DISCONNECTED) ->
  table_inv (omap g l) live'.
Proof.
  intros Hi Hg Hw Hl. split.
  - apply omap_sorted; [|by apply Hi]. intros c c' Hc E. by destruct (Hg c c' Hc E).
  - intros c' (c & Hc & E)%list_elem_of_omap. destruct (Hg c c' Hc E) as [-> _].
    by apply (ti_index l live).
  - intros a' b' (a & Ha & Ea)%list_elem_of_omap (b & Hb & Eb)%list_elem_of_omap Hwa Hwb Had.
    destruct (Hg a a' Ha Ea) as (-> & Hga & _), (Hg b b' Hb Eb) as (-> & Hgb & _).
    apply Hga in Hwa as [? Ha']. apply Hgb in Hwb as [? Hb'].
    apply (ti_address l live); congruence.
  - intros a' b' w (a & Ha & Ea)%list_elem_of_omap (b & Hb & Eb)%list_elem_of_omap ??.
    destruct (Hg a a' Ha Ea) as (-> & _), (Hg b b' Hb Eb) as (-> & _). by eapply Hw.
  - intros c' (c & Hc & E)%list_elem_of_omap. by eapply Hg.
  - intros w (c & c' & Hc & E & ?)%Hl. exists c'. split; [|done].
    apply list_elem_of_omap. eauto.
Qed.

(** Where no client gets another socket. *)
Lemma inv_omap_keep P g l live live' :
  table_inv l live ->
  (forall c c', c ∈ l -> P c = true -> g c = Some c' ->
     index c' = index c /\ (wanted c' -> wanted c /\ address c' = address c) /\
     client_ok live' c' /\ (forall w, wsi c' = Some w -> wsi c = Some w)) ->
  (forall c, c ∈ l -> P c = false -> client_ok live' c) ->
  (forall w, w ∈ live' -> exists c c', c ∈ l /\ on P g c = Some c' /\ wsi c' = Some w /\
     state c' <> CONNECTION_STATE_DISCONNECTED) ->
  table_inv (omap (on P g) l) live'.
Proof.
  intros Hi Hg Hn Hl. eapply inv_omap; [done| | |done]; unfold on.
  - intros c c' Hc. destruct (P c) eqn:E.
    + intros E'. by destruct (Hg c c' Hc E E') as (?&?&?&_).
    + intros [= <-]. auto.
  - assert (forall c c' w, c ∈ l -> (if P c then g c else Some c) = Some c' ->
      wsi c' = Some w -> wsi c = Some w) as Hw.
    { intros c c' w Hc. destruct (P c) eqn:E; [|by intros [= <-]]. intros E'.
      destruct (Hg c c' Hc E E') as (?&?&?&Hkeep). apply Hkeep. }
    intros a b a' b' w Ha Hb Ea Eb Hwa Hwb. apply (ti_wsi l live Hi a b w); eauto.
Qed.

(** ** Inserting a client *)

Lemma insert_at_spec i c l :
  StronglySorted by_index l -> (forall x, x ∈ l -> i <= index x) ->
  exists k l1 l2, l = l1 ++ l2 /\ insert_at i c l = l1 ++ set_index k c :: l2 /\ i <= k /\
    (forall j, i <= j < k <-> exists x, x ∈ l1 /\ index x = j) /\
    (forall x, x ∈ l2 -> k < index x).
Proof.
  intros Hs. revert i. induction Hs as [|t l Hs IH Hf]; intros i Hi; simpl.
  { exists i, [], []. split_and!; [done..| |by intros ? ?%elem_of_nil].
    intros j. split; [lia|]. by intros (? & ?%elem_of_nil & _). }
  rewrite Forall_forall in Hf. unfold by_index in Hf. destruct (Z.ltb_spec i (index t)) as [Hlt|Hge].
  - exists i, [], (t :: l). split_and!; [done..| |].
    + intros j. split; [lia|]. by intros (? & ?%elem_of_nil & _).
    + intros x [->|Hx]%elem_of_cons; [done|]. apply Hf in Hx. lia.
  - assert (index t = i) as Ht by (specialize (Hi t ltac:(apply elem_of_cons; auto)); lia).
    destruct (IH (i + 1)) as (k & l1 & l2 & -> & -> & Hk & Hl1 & Hl2).
    { intros x Hx. apply Hf in Hx. lia. }
    exists k, (t :: l1), l2. split_and!; [done|done|lia| |done].
    intros j. destruct (decide (j = i)) as [->|].
    + split; [|lia]. intros _. exists t. rewrite elem_of_cons. auto.
    + assert (i <= j < k <-> i + 1 <= j < k) as -> by lia. rewrite Hl1.
      split; intros (x & Hx & <-).
      * exists x. rewrite elem_of_cons. auto.
      * apply elem_of_cons in Hx as [->|Hx]; [done|]. eauto.
Qed.

Lemma inv_insert k c l1 l2 live :
  table_inv (l1 ++ l2) live ->
  0 <= k -> (forall x, x ∈ l1 -> index x < k) -> (forall x, x ∈ l2 -> k < index x) ->
  wsi c = None -> state c = CONNECTION_STATE_DISCONNECTED ->
  (forall x, x ∈ l1 ++ l2 -> wanted x -> address x <> address c) ->
  table_inv (l1 ++ set_index k c :: l2) live.
Proof.
  intros Hi Hk H1 H2 Hw Hst Ha.
  assert (forall x, x ∈ l1 ++ set_index k c :: l2 <-> x = set_index k c \/ x ∈ l1 ++ l2) as Hin.
  { intros x. rewrite !elem_of_app, elem_of_cons. tauto. }
  split.
  - pose proof (ti_sorted _ _ Hi) as Hs. apply Forall_StronglySorted_app.
    + eapply StronglySorted_sub; [|done]. by apply sublist_inserts_r.
    + constructor; [eapply StronglySorted_sub; [|done]; by apply sublist_inserts_l|].
      apply Forall_forall. exact H2.
    + intros a b Ha' [->|Hb]%elem_of_cons; [by apply H1|].
      by eapply StronglySorted_app_cross.
  - intros x [->|Hx]%Hin; [done|]. by eapply ti_index.
  - intros a b [->|Ha']%Hin [->|Hb]%Hin; [done|..].
    + intros _ Hwb E. by destruct (Ha b).
    + intros Hwa _ E. by destruct (Ha a).
    + by eapply ti_address.
  - intros a b w [->|Ha']%Hin [->|Hb]%Hin; simpl; try congruence. by eapply ti_wsi.
  - intros x [->|Hx]%Hin; [|by eapply ti_ok]. split; simpl; rewrite Hst; [done|].
    intros w. by rewrite Hw.
  - intros w Hw'. destruct (ti_live _ _ Hi w Hw') as (x & Hx & ?). exists x.
    split; [apply Hin; auto|done].
Qed.

(** ** What the callbacks do, client by client *)

Definition closed_client (c : client_connection_info) : option client_connection_info :=
  match state c with
  | CONNECTION_STATE_TEARINGDOWN => None
  | _ => Some (set_timer (Some 2000) (set_count 0 (set_state CONNECTION_STATE_DISCONNECTED c)))
  end.

Definition failed_client (retry : Z) (c : client_connection_info) : option client_connection_info :=
  match state c with
  | CONNECTION_STATE_TEARINGDOWN => None
  | _ => let n := s32 (reconnect_count c + 1) in
         Some (set_timer (Some (s32 (n * retry)))
                 (set_count n (set_wsi None (set_state CONNECTION_STATE_DISCONNECTED c))))
  end.

Lemma unique_has_wsi w l live : table_inv l live -> unique (has_wsi w) l.
Proof.
  intros Hi a b Ha Hb Hwa%bool_decide_eq_true Hwb%bool_decide_eq_true. by eapply ti_wsi.
Qed.

(** The state of the one client with socket [w]. *)
Lemma should_destroy_spec w s live :
  table_inv (clients s) live ->
  forall c, c ∈ clients s -> wsi c = Some w ->
  wsubus_client_should_destroy (Some w) s = bool_decide (state c = CONNECTION_STATE_TEARINGDOWN).
Proof.
  intros Hi c Hc Hw. unfold wsubus_client_should_destroy.
  pose proof (get_client_by_wsi_spec w (clients s)) as Hg.
  destruct (get_client_by_wsi (Some w) (clients s)) as [c'|].
  - destruct Hg as [Hc' Hw']. assert (c' = c) as ->; [|done].
    eapply index_inj; try done; [by apply Hi|]. by eapply ti_wsi.
  - by destruct (Hg c Hc).
Qed.

Lemma omap_on_ext P g g' l :
  (forall c, c ∈ l -> P c = true -> g c = g' c) -> omap (on P g) l = omap (on P g') l.
Proof.
  induction l as [|c l IH]; [done|]. intros Hg. csimpl. rewrite IH.
  - assert (on P g c = on P g' c) as ->; [|done]. unfold on. destruct (P c) eqn:E; [|done].
    apply Hg; [apply elem_of_cons; auto|done].
  - intros x Hx. apply Hg, elem_of_cons. auto.
Qed.

(** With no client of that socket nothing happens. *)
Lemma destroy_unknown w s :
  (forall c, c ∈ clients s -> wsi c <> Some w) ->
  clients (wsubus_client_destroy (Some w) s) = clients s.
Proof.
  intros Hno. simpl. induction (clients s) as [|c l IH]; simpl; [done|].
  unfold has_wsi at 1. rewrite bool_decide_eq_false_2 by (apply Hno, elem_of_cons; auto).
  f_equal. apply IH. intros x Hx. apply Hno, elem_of_cons. auto.
Qed.

Lemma set_state_clients w st s live :
  table_inv (clients s) live ->
  clients (wsubus_client_set_state (Some w) st s) =
  omap (on (has_wsi w) (fun c => Some (
    if decide (st = CONNECTION_STATE_CONNECTED) then set_count 0 (set_state st c)
    else set_state st c))) (clients s).
Proof. intros Hi. apply update_first_omap; [by apply Hi|by eapply unique_has_wsi]. Qed.

Lemma proxy_closed_clients w s live :
  table_inv (clients s) live ->
  clients (proxy_closed w s) = omap (on (has_wsi w) closed_client) (clients s).
Proof.
  intros Hi. unfold proxy_closed.
  pose proof (should_destroy_spec w s live Hi) as Hsd.
  destruct (wsubus_client_should_destroy (Some w) s).
  - simpl. rewrite delete_first_omap by (apply Hi || by eapply unique_has_wsi).
    apply omap_on_ext. intros c Hc Hw%bool_decide_eq_true. specialize (Hsd c Hc Hw).
    unfold closed_client. by case_bool_decide as E; rewrite ?E.
  - simpl. rewrite update_first_twice by done.
    rewrite update_first_omap by (apply Hi || by eapply unique_has_wsi).
    apply omap_on_ext. intros c Hc Hw%bool_decide_eq_true. specialize (Hsd c Hc Hw).
    unfold closed_client. case_bool_decide; [done|]. by destruct (state c).
Qed.

Lemma proxy_connection_error_clients w s live :
  table_inv (clients s) live ->
  clients (proxy_connection_error w s) =
  omap (on (has_wsi w) (failed_client (retry_timeout s))) (clients s).
Proof.
  intros Hi. unfold proxy_connection_error.
  pose proof (should_destroy_spec w s live Hi) as Hsd.
  destruct (wsubus_client_should_destroy (Some w) s).
  - simpl. rewrite delete_first_omap by (apply Hi || by eapply unique_has_wsi).
    apply omap_on_ext. intros c Hc Hw%bool_decide_eq_true. specialize (Hsd c Hc Hw).
    unfold failed_client. by case_bool_decide as E; rewrite ?E.
  - simpl. rewrite update_first_twice by done.
    rewrite update_first_omap by (apply Hi || by eapply unique_has_wsi).
    apply omap_on_ext. intros c Hc Hw%bool_decide_eq_true. specialize (Hsd c Hc Hw).
    unfold failed_client. case_bool_decide; [done|]. by destruct (state c).
Qed.

(** A closed socket leaves the set of open ones, whichever way its client
    goes on. *)
Lemma inv_socket_gone w g l live :
  table_inv l live ->
  (forall c c', c ∈ l -> wsi c = Some w -> g c = Some c' ->
     index c' = index c /\ wanted c /\ address c' = address c /\
     state c' = CONNECTION_STATE_DISCONNECTED /\ (wsi c' = None \/ wsi c' = Some w)) ->
  table_inv (omap (on (has_wsi w) g) l) (live ∖ {[w]}).
Proof.
  intros Hi Hg. apply inv_omap_keep with live; [done|..].
  - intros c c' Hc Hw%bool_decide_eq_true E.
    destruct (Hg c c' Hc Hw E) as (Hix & Hwant & Had & Hst & Hw').
    split_and!; [done|done| |].
    + split; [by auto|]. rewrite Hst. intros v Hv. destruct Hw' as [Hw'|Hw']; set_solver.
    + intros v Hv. destruct Hw'; congruence.
  - intros c Hc Hw%bool_decide_eq_false. destruct (ti_ok _ _ Hi c Hc) as [Ht Hok].
    split; [done|]. destruct (state c); [set_solver|..]; destruct Hok as (v & Hv & ?);
      exists v; split; [done|set_solver|done|set_solver|done|set_solver].
  - intros v [Hv Hne]%elem_of_difference. destruct (ti_live _ _ Hi v Hv) as (c & Hc & Hvc & Hst).
    exists c, c. split_and!; try done. unfold on, has_wsi. rewrite bool_decide_eq_false_2; [done|].
    set_solver.
Qed.

Lemma proxy_closed_inv w s live :
  table_inv (clients s) live -> table_inv (clients (proxy_closed w s)) (live ∖ {[w]}).
Proof.
  intros Hi. erewrite proxy_closed_clients by done. apply inv_socket_gone; [done|].
  intros c c' Hc Hw. unfold closed_client, wanted.
  destruct (state c); intros [= <-]; simpl; split_and!; auto.
Qed.

Lemma proxy_connection_error_inv w s live :
  table_inv (clients s) live -> table_inv (clients (proxy_connection_error w s)) (live ∖ {[w]}).
Proof.
  intros Hi. erewrite proxy_connection_error_clients by done. apply inv_socket_gone; [done|].
  intros c c' Hc Hw. unfold failed_client, wanted.
  destruct (state c); intros [= <-]; simpl; split_and!; auto.
Qed.

(** No other client than [i] still names the address [w]. *)
Definition not_reused (i : Z) (w : lws) (l : list client_connection_info) : Prop :=
  forall c, c ∈ l -> wsi c = Some w -> index c = i.

Lemma update_then_state i w f l :
  not_reused i w l ->
  update_first (has_wsi w) f
    (update_first (has_index i) (set_wsi (Some w)) (update_first (has_index i) (set_timer None) l)) =
  update_first (has_index i) (fun c => f (set_wsi (Some w) (set_timer None c))) l.
Proof.
  intros Hf. rewrite update_first_twice by done.
  induction l as [|c l IH]; simpl; [done|].
  assert (not_reused i w l) as Hf' by (intros x Hx; apply Hf, elem_of_cons; auto).
  destruct (has_index i c) eqn:E; simpl.
  - unfold has_wsi at 1. by rewrite bool_decide_eq_true_2.
  - unfold has_wsi at 1. rewrite bool_decide_eq_false_2; [by rewrite IH|].
    intros Hw. apply Hf in Hw; [|apply elem_of_cons; auto]. apply Z.eqb_neq in E. lia.
Qed.

Lemma timer_connecting_clients i w s live :
  table_inv (clients s) live -> not_reused i w (clients s) ->
  clients (utimer_reconnect_cb i (Connecting w) s) =
  omap (on (has_index i) (fun c => Some (set_state CONNECTION_STATE_CONNECTING
    (set_wsi (Some w) (set_timer None c))))) (clients s).
Proof.
  intros Hi Hf. simpl. rewrite update_then_state by done.
  apply (update_first_omap (has_index i)); [by apply Hi|apply unique_has_index].
Qed.

(** The timer of a client that is to be connected. *)
Definition timer_due (i : Z) (l : list client_connection_info) : Prop :=
  exists c, c ∈ l /\ index c = i /\ timer c <> None.

Lemma due_disconnected i l live c :
  table_inv l live -> timer_due i l -> c ∈ l -> index c = i ->
  state c = CONNECTION_STATE_DISCONNECTED.
Proof.
  intros Hi (c' & Hc' & Hix & Ht) Hc Hix'.
  assert (c' = c) as -> by (eapply index_inj; [by apply Hi|done..|congruence]).
  by apply (ti_ok _ _ Hi c Hc).
Qed.

(** The due client gets a new socket, open ([live'] has it) or already refused. *)
Lemma inv_new_socket i w g l live live' :
  table_inv l live -> timer_due i l -> not_reused i w l -> w ∉ live ->
  live ⊆ live' -> live' ⊆ {[w]} ∪ live ->
  (forall c, c ∈ l -> index c = i -> index (g c) = i /\ address (g c) = address c /\
     wsi (g c) = Some w /\ client_ok live' (g c)) ->
  table_inv (omap (on (has_index i) (fun c => Some (g c))) l) live'.
Proof.
  intros Hi Hd Hf Hw Hsub1 Hsub2 Hg. eapply inv_omap; [exact Hi|..]; unfold on.
  - intros c c' Hc. destruct (has_index i c) eqn:E; intros [= <-].
    + apply Z.eqb_eq in E. destruct (Hg c Hc (eq_sym E)) as (Hix & Had & _ & Hok).
      split_and!; [congruence| |done]. intros _. unfold wanted. by erewrite due_disconnected by done.
    + split_and!; [done|done|]. destruct (ti_ok _ _ Hi c Hc) as [Ht Hok]. split; [done|].
      apply Z.eqb_neq in E.
      destruct (state c); [|destruct Hok as (v & ? & ?); exists v; split; [done|set_solver]..].
      intros v Hv. specialize (Hok v Hv). specialize (Hf c Hc). set_solver by congruence.
  - intros a b a' b' v Ha Hb.
    destruct (has_index i a) eqn:Ea, (has_index i b) eqn:Eb; intros [= <-] [= <-].
    + apply Z.eqb_eq in Ea, Eb. congruence.
    + apply Z.eqb_eq in Ea. destruct (Hg a Ha (eq_sym Ea)) as (_ & _ & -> & _).
      intros [= <-] Hv. rewrite <- Ea. symmetry. by apply Hf.
    + apply Z.eqb_eq in Eb. destruct (Hg b Hb (eq_sym Eb)) as (_ & _ & -> & _).
      intros Hv [= <-]. rewrite <- Eb. by apply Hf.
    + intros. by eapply ti_wsi.
  - intros v Hv. pose proof (Hsub2 v Hv) as [->%elem_of_singleton|Hv']%elem_of_union.
    + destruct Hd as (c & Hc & Hix & _). exists c, (g c). unfold has_index.
      rewrite (proj2 (Z.eqb_eq i _)) by done.
      destruct (Hg c Hc Hix) as (_ & _ & Hwsi & _ & Hok). split_and!; [done..|].
      intros E. rewrite E in Hok. by destruct (Hok w).
    + destruct (ti_live _ _ Hi v Hv') as (c & Hc & Hvc & Hst). exists c, c.
      destruct (has_index i c) eqn:E; [|done]. apply Z.eqb_eq in E.
      erewrite due_disconnected in Hst by done. done.
Qed.

(** The due client names a socket that is refused before the call returns. *)
Lemma refused_socket_inv i w s live :
  table_inv (clients s) live -> timer_due i (clients s) -> w ∉ live ->
  not_reused i w (clients s) ->
  table_inv (update_first (has_index i) (fun c => set_wsi (Some w) (set_timer None c)) (clients s))
    live.
Proof.
  intros Hi Hd Hw Hf. rewrite update_first_omap by (apply Hi || apply unique_has_index).
  eapply inv_new_socket; try done; [set_solver|]. intros c Hc Hix. split_and!; try done.
  split; [done|]. simpl. erewrite due_disconnected by done. by intros ? [= <-].
Qed.

(** The first client that names [w], by its index. *)
Lemma first_named w l c0 f :
  StronglySorted by_index l -> get_client_by_wsi (Some w) l = Some c0 ->
  update_first (has_wsi w) f l = update_first (has_index (index c0)) f l.
Proof.
  simpl. induction 1 as [|c l Hs IH Hf]; simpl; [done|]. destruct (has_wsi w c) eqn:E.
  - intros [= ->]. unfold has_index. by rewrite Z.eqb_refl.
  - intros Hg. rewrite IH by done. assert (has_index (index c0) c = false) as ->; [|done].
    pose proof (get_client_by_wsi_spec w l) as Hsp. simpl in Hsp. rewrite Hg in Hsp. destruct Hsp as [Hin _].
    rewrite Forall_forall in Hf. apply Hf in Hin. unfold by_index, has_index in *. apply Z.eqb_neq. lia.
Qed.

Lemma omap_omap (f g : client_connection_info -> option client_connection_info) l :
  omap g (omap f l) = omap (fun c => f c ≫= g) l.
Proof.
  induction l as [|c l IH]; csimpl; [done|]. destruct (f c) as [c'|]; csimpl; [|done].
  destruct (g c'); [by f_equal|done].
Qed.

(** Client [i] named [w], then client [k], which names [w] too and is
    disconnected, was marked as failed. *)
Lemma inv_refused i k w n t l live c0 :
  table_inv l live -> timer_due i l -> w ∉ live ->
  c0 ∈ l -> index c0 = k -> (index c0 = i \/ wsi c0 = Some w) ->
  table_inv (omap (fun c => on (has_index i) (fun c => Some (set_wsi (Some w) (set_timer None c))) c
      ≫= on (has_index k) (fun c => Some (set_timer (Some (t c)) (set_count (n c)
           (set_wsi None (set_state CONNECTION_STATE_DISCONNECTED c)))))) l) live.
Proof.
  intros Hi Hd Hw Hc0 Ek Hk0.
  assert (forall c, c ∈ l -> index c = k -> index c = i \/ wsi c = Some w) as Hk.
  { intros c Hc Ec. assert (c = c0) as -> by (eapply index_inj; [by apply Hi|done..|congruence]). done. }
  assert (forall c, c ∈ l -> index c = i \/ index c = k -> state c = CONNECTION_STATE_DISCONNECTED) as Hdis.
  { intros c Hc Hix. assert (index c = i \/ wsi c = Some w) as [E|E] by naive_solver.
    - by eapply due_disconnected.
    - destruct (ti_ok _ _ Hi c Hc) as [_ Hok]. destruct (state c); [done|..];
        destruct Hok as (v & ? & ?); congruence. }
  set (g := fun c => _).
  assert (forall c, g c = Some (if decide (index c = k) then
      set_timer (Some (t (if decide (index c = i) then set_wsi (Some w) (set_timer None c) else c)))
        (set_count (n (if decide (index c = i) then set_wsi (Some w) (set_timer None c) else c))
          (set_wsi None (set_state CONNECTION_STATE_DISCONNECTED
            (if decide (index c = i) then set_wsi (Some w) (set_timer None c) else c))))
      else if decide (index c = i) then set_wsi (Some w) (set_timer None c) else c)) as Hg.
  { intros c. subst g. unfold on, has_index. simpl.
    destruct (Z.eqb_spec i (index c)) as [E|E]; simpl; destruct (Z.eqb_spec k (index c)) as [E'|E'];
      repeat case_decide; try congruence; done. }
  apply inv_omap with live; [done|..].
  - intros c c' Hc. rewrite Hg. intros [= <-]. pose proof (Hdis c Hc) as Hst.
    destruct (ti_ok _ _ Hi c Hc) as [Ht Hok]. unfold wanted, client_ok.
    repeat case_decide; simpl; split_and!; try done; try (by rewrite Hst by auto);
      rewrite ?Hst in * by auto; try done. by intros v [= <-].
  - intros a b a' b' v Ha Hb. rewrite !Hg. intros [= <-] [= <-].
    assert (forall x, x ∈ l -> index x <> i -> index x <> k -> wsi x = Some w -> index c0 = i) as Hone.
    { intros x Hx Hxi Hxk Hxw. destruct Hk0 as [?|Hw0]; [done|]. destruct Hxk. rewrite <- Ek.
      by eapply ti_wsi. }
    repeat case_decide; simpl; intros Hva Hvb; simplify_eq; try congruence; try (by eapply ti_wsi).
    + destruct (Hone b); congruence.
    + destruct (Hone a); congruence.
  - intros v Hv. destruct (ti_live _ _ Hi v Hv) as (c & Hc & Hvc & Hst). exists c, c.
    split_and!; try done. rewrite Hg. rewrite !decide_False; [done|..]; intros E; by rewrite Hdis in Hst by auto.
Qed.

Lemma timer_refused_clients i w s live :
  table_inv (clients s) live -> timer_due i (clients s) -> w ∉ live ->
  exists c0, c0 ∈ clients s /\ state c0 = CONNECTION_STATE_DISCONNECTED /\
    (index c0 = i \/ wsi c0 = Some w) /\
    clients (utimer_reconnect_cb i (Refused w) s) =
    omap (fun c => on (has_index i) (fun c => Some (set_wsi (Some w) (set_timer None c))) c
      ≫= on (has_index (index c0)) (fun c => Some (set_timer (Some (s32 (s32 (reconnect_count c + 1) * retry_timeout s)))
           (set_count (s32 (reconnect_count c + 1))
             (set_wsi None (set_state CONNECTION_STATE_DISCONNECTED c)))))) (clients s).
Proof.
  intros Hi Hd Hw. simpl. rewrite update_first_twice by done.
  set (l1 := update_first (has_index i) (fun c => set_wsi (Some w) (set_timer None c)) (clients s)).
  assert (l1 = omap (on (has_index i) (fun c => Some (set_wsi (Some w) (set_timer None c)))) (clients s)) as El1.
  { apply update_first_omap; [by apply Hi|apply unique_has_index]. }
  assert (StronglySorted by_index l1) as Hs1.
  { rewrite El1. apply omap_sorted; [|by apply Hi]. unfold on. intros c c' _. by destruct (has_index i c); intros [= <-]. }
  assert (forall c, c ∈ l1 -> exists c0, c0 ∈ clients s /\ index c0 = index c /\ state c0 = state c /\
    (index c0 = i \/ wsi c0 = wsi c)) as Hl1.
  { intros c. rewrite El1. intros (c0 & Hc0 & E)%list_elem_of_omap. exists c0. split; [done|]. unfold on in E.
    destruct (has_index i c0) eqn:Ei; injection E as <-; [apply Z.eqb_eq in Ei|]; auto. }
  unfold proxy_connection_error, wsubus_client_should_destroy. cbn [clients set_clients].
  pose proof (get_client_by_wsi_spec w l1) as Hg.
  destruct (get_client_by_wsi (Some w) l1) as [c1|] eqn:Eg; cycle 1.
  { exfalso. destruct Hd as (c & Hc & Hix & _). apply (Hg (set_wsi (Some w) (set_timer None c))); [|done].
    rewrite El1. apply list_elem_of_omap. exists c. split; [done|]. unfold on, has_index. by rewrite Hix, Z.eqb_refl. }
  destruct Hg as [Hc1 Hw1]. destruct (Hl1 c1 Hc1) as (c0 & Hc0 & Ei0 & Est & Hor).
  assert (state c0 = CONNECTION_STATE_DISCONNECTED) as Hst.
  { destruct Hor as [?|Hor]; [by eapply due_disconnected|]. rewrite Hw1 in Hor.
    destruct (ti_ok _ _ Hi c0 Hc0) as [_ Hok]. destruct (state c0); [done|..]; destruct Hok as (v & ? & ?); congruence. }
  rewrite bool_decide_eq_false_2 by congruence. simpl. rewrite update_first_twice by done.
  rewrite (first_named w l1 c1) by done. rewrite update_first_omap by (done || apply unique_has_index).
  rewrite El1, omap_omap. exists c0. rewrite Ei0. split_and!; try done.
  destruct Hor as [?|Hor]; [left|right]; congruence.
Qed.

Lemma timer_refused_inv i w s live :
  table_inv (clients s) live -> timer_due i (clients s) -> w ∉ live ->
  table_inv (clients (utimer_reconnect_cb i (Refused w) s)) live.
Proof.
  intros Hi Hd Hw. destruct (timer_refused_clients i w s live Hi Hd Hw) as (c0 & Hc0 & _ & Hor & ->).
  by apply (inv_refused i (index c0) w (fun c => s32 (reconnect_count c + 1))
    (fun c => s32 (s32 (reconnect_count c + 1) * retry_timeout s)) (clients s) live c0).
Qed.

Lemma timer_inv i out s live :
  table_inv (clients s) live -> timer_due i (clients s) ->
  match out with
  | Connecting w => (w ∉ live) /\ not_reused i w (clients s)
  | Refused w => w ∉ live
  | Refused_early => True
  end ->
  table_inv (clients (utimer_reconnect_cb i out s))
    (match out with Connecting w => {[w]} ∪ live | _ => live end).
Proof.
  intros Hi Hd. destruct out as [w| |w].
  - intros [Hw Hf]. erewrite timer_connecting_clients by done.
    eapply inv_new_socket; try done; [set_solver|]. intros c Hc Hix. split_and!; try done.
    split; [done|]. exists w. split; [done|set_solver].
  - intros _. simpl. rewrite update_first_omap by (apply Hi || apply unique_has_index).
    apply inv_omap_keep with live; [done|..].
    + intros c c' Hc _ [= <-]. split_and!; try done.
      destruct (ti_ok _ _ Hi c Hc) as [_ Hok]. by split.
    + intros c Hc _. by apply Hi.
    + intros v Hv. destruct (ti_live _ _ Hi v Hv) as (c & Hc & ? & ?).
      unfold on. destruct (has_index i c) eqn:E; [|exists c, c; by rewrite E].
      exists c, (set_timer None c). by rewrite E.
  - by apply timer_refused_inv.
Qed.

(** Where the sockets stay as they are. *)
Lemma inv_omap_same P g l live :
  table_inv l live ->
  (forall c, c ∈ l -> P c = true ->
     match g c with
     | Some c' => index c' = index c /\ wsi c' = wsi c /\ address c' = address c /\
         (wanted c' -> wanted c) /\ client_ok live c' /\
         (state c <> CONNECTION_STATE_DISCONNECTED -> state c' <> CONNECTION_STATE_DISCONNECTED)
     | None => state c = CONNECTION_STATE_DISCONNECTED
     end) ->
  table_inv (omap (on P g) l) live.
Proof.
  intros Hi Hg. apply inv_omap_keep with live; [done|..].
  - intros c c' Hc HP E. specialize (Hg c Hc HP). rewrite E in Hg.
    destruct Hg as (? & Hw & ? & ? & ? & ?). rewrite Hw. split_and!; auto.
  - intros c Hc _. by apply Hi.
  - intros v Hv. destruct (ti_live _ _ Hi v Hv) as (c & Hc & Hvc & Hst).
    unfold on. destruct (P c) eqn:HP; [|exists c, c; by rewrite HP].
    specialize (Hg c Hc HP). destruct (g c) as [c'|] eqn:E; [|done].
    destruct Hg as (? & Hw & ? & ? & ? & ?). exists c, c'. rewrite HP, Hw. auto.
Qed.

Lemma manage_remove_ok l live c :
  table_inv l live -> c ∈ l ->
  match (manage_remove_client c).1 with
  | Some c' => index c' = index c /\ wsi c' = wsi c /\ address c' = address c /\
      (wanted c' -> wanted c) /\ client_ok live c' /\
      (state c <> CONNECTION_STATE_DISCONNECTED -> state c' <> CONNECTION_STATE_DISCONNECTED)
  | None => state c = CONNECTION_STATE_DISCONNECTED
  end.
Proof.
  intros Hi Hc. pose proof (ti_ok _ _ Hi c Hc) as [Ht Hok].
  unfold manage_remove_client. destruct (state c) eqn:E; simpl; [done|..];
    rewrite ?E; split_and!; try done; unfold wanted; simpl; rewrite ?E; try done;
    split; simpl; rewrite ?E; auto; by intros ?%Ht.
Qed.

Lemma remove_client_inv idx ip s live r s' :
  table_inv (clients s) live -> remove_client idx ip s = Some (r, s') ->
  table_inv (clients s') live.
Proof.
  intros Hi. unfold remove_client, M_bind, deref, modify, M_ret, gets.
  destruct idx as [idx|]; [|destruct ip as [ip|]]; [| |by intros [= _ <-]].
  - pose proof (remove_index_omap (s32 (u32 idx)) (clients s) (ti_sorted _ _ Hi)) as Hr.
    destruct (remove_index _ _) as [[l' w]|]; [|done]. destruct Hr as [-> _].
    intros [= _ <-]. apply inv_omap_same; [done|]. intros c Hc _. by eapply manage_remove_ok.
  - intros [= _ <-]. simpl.
    apply (inv_omap_same (fun c => strcmp ip (address c) =? 0)); [done|].
    intros c Hc _. by eapply manage_remove_ok.
Qed.

Lemma proxy_established_inv w s live :
  table_inv (clients s) live -> w ∈ live ->
  table_inv (clients (proxy_established w s).2) live.
Proof.
  intros Hi Hw. unfold proxy_established.
  pose proof (should_destroy_spec w s live Hi) as Hsd.
  destruct (wsubus_client_should_destroy (Some w) s); [done|]. cbn [snd].
  erewrite set_state_clients by done. apply inv_omap_same; [done|].
  intros c Hc Hwc%bool_decide_eq_true. simpl. specialize (Hsd c Hc Hwc).
  case_bool_decide; [done|]. split_and!; try done. split; [|by simpl; eauto].
  simpl. intros Ht. apply (ti_ok _ _ Hi c Hc) in Ht as E.
  destruct (ti_ok _ _ Hi c Hc) as [_ Hok]. rewrite E in Hok. by destruct (Hok w Hwc).
Qed.

Lemma connect_all_inv s live :
  table_inv (clients s) live ->
  (forall c, c ∈ clients s -> state c = CONNECTION_STATE_DISCONNECTED) ->
  table_inv (clients (wsubus_client_connect_all s)) live.
Proof.
  intros Hi Hall.
  assert (clients (wsubus_client_connect_all s) =
    omap (on (fun _ => true) (fun c => Some (set_timer (Some 0) (set_count 0 c)))) (clients s)) as ->.
  { simpl. clear. induction (clients s); csimpl; [done|]. by f_equal. }
  apply inv_omap_same; [done|]. intros c Hc _.
  destruct (ti_ok _ _ Hi c Hc) as [_ Hok]. split_and!; try done.
  split; [intros _; by apply (Hall c)|done].
Qed.

(** ** Creating a client *)

Section create_facts.
Variable inet_pton : address_family -> string -> Z.

(** No text form of an address is as long as the buffer it is copied to (an
    IPv6 address has at most 45 characters). *)
Hypothesis inet_pton_length : forall af addr,
  inet_pton af addr <> 0 -> (String.length addr < MAX_IP_LEN)%nat.

Lemma validate_length addr prt pth p :
  validate_ip_port_path inet_pton (Some addr) prt pth = Some p ->
  str_take MAX_IP_LEN addr = addr.
Proof.
  unfold validate_ip_port_path. destruct pth; [|done]. intros Hv. apply str_take_ge.
  destruct (Z.eqb_spec (inet_pton AF_INET addr) 0) as [E|E].
  - destruct (Z.eqb_spec (inet_pton AF_INET6 addr) 0) as [E6|E6]; [done|].
    apply inet_pton_length in E6. lia.
  - apply inet_pton_length in E. lia.
Qed.

Lemma unique_ip_spec addr l :
  unique_ip addr l = true <-> forall c, c ∈ l -> wanted c -> address c <> addr.
Proof.
  unfold unique_ip. rewrite forallb_forall. setoid_rewrite <- list_elem_of_In.
  assert (forall c, negb (strcmp addr (address c) =? 0)
      || bool_decide (state c = CONNECTION_STATE_TEARINGDOWN) = true <->
      (wanted c -> address c <> addr)) as Hc; [|by setoid_rewrite Hc].
  intros c. rewrite orb_true_iff, negb_true_iff, Z.eqb_neq, strcmp_eq, bool_decide_eq_true.
  unfold wanted. destruct (decide (state c = CONNECTION_STATE_TEARINGDOWN)); split; try tauto.
  - intros [Hn|?] _ E; [by apply Hn|done].
  - intros Hn. left. intros E. by apply Hn.
Qed.

Lemma create_cases addr prt pth typ s :
  let r := wsubus_client_create inet_pton addr prt pth typ s in
  (r = (UBUS_STATUS_INVALID_ARGUMENT, s)) \/
  exists a p c, addr = Some a /\ pth = Some p /\ unique_ip a (clients s) = true /\
    r.1 = 0 /\ clients r.2 = insert_at_lowest_free_index c (clients s) /\
    address c = a /\ wsi c = None /\ state c = CONNECTION_STATE_DISCONNECTED.
Proof.
  cbv zeta. unfold wsubus_client_create. destruct (validate_ip_port_path _ _ _ _) as [p'|] eqn:E; [|by left].
  destruct addr as [a|]; [|done]. destruct pth as [p|]; [|done].
  destruct (unique_ip a (clients s)) eqn:Eu; [|by left]. right.
  exists a, p. eexists. split_and!; [done..| | |].
  - apply validate_length in E. by destruct (decide _).
  - by destruct (decide _).
  - by destruct (decide _).
Qed.

Lemma create_inv addr prt pth typ s live :
  table_inv (clients s) live ->
  table_inv (clients (wsubus_client_create inet_pton addr prt pth typ s).2) live.
Proof using inet_pton_length.
  intros Hi. destruct (create_cases addr prt pth typ s) as
    [-> | (a & p & c & -> & -> & Hu & _ & -> & Ha & Hw & Hst)]; [done|].
  destruct (insert_at_spec 0 c (clients s)) as (k & l1 & l2 & El & Er & Hk & Hl1 & Hl2);
    [by apply Hi|by apply (ti_index _ _ Hi)|].
  unfold insert_at_lowest_free_index. rewrite Er. rewrite El in Hi, Hu.
  apply inv_insert; try done.
  - intros x Hx. apply Hl1. eauto.
  - rewrite Ha. by apply unique_ip_spec.
Qed.
End create_facts.

(** ** The steps *)

Lemma table_inv_nil : table_inv [] ∅.
Proof. split; try (by intros ? ?%elem_of_nil); [constructor|set_solver..]. Qed.

Section steps.
Variable inet_pton : address_family -> string -> Z.
Hypothesis inet_pton_length : forall af addr,
  inet_pton af addr <> 0 -> (String.length addr < MAX_IP_LEN)%nat.

(** The label of a step that opens a socket: the client and the address. *)
Inductive step : clvh * gset lws -> option (Z * lws) -> clvh * gset lws -> Prop :=
  | step_create s live addr prt pth typ :
      step (s, live) None ((wsubus_client_create inet_pton addr prt pth typ s).2, live)
  | step_add s live ip prt :
      step (s, live) None ((add_client inet_pton ip prt s).2, live)
  (** the protocol of the client virtual host starts before any connection *)
  | step_connect_all s live :
      (forall c, c ∈ clients s -> state c = CONNECTION_STATE_DISCONNECTED) ->
      step (s, live) None (wsubus_client_connect_all s, live)
  | step_remove s live idx ip r s' :
      remove_client idx ip s = Some (r, s') -> step (s, live) None (s', live)
  | step_timer_connecting s live i w :
      timer_due i (clients s) -> w ∉ live ->
      step (s, live) (Some (i, w)) (utimer_reconnect_cb i (Connecting w) s, {[w]} ∪ live)
  | step_timer_refused s live i w :
      timer_due i (clients s) -> w ∉ live ->
      step (s, live) None (utimer_reconnect_cb i (Refused w) s, live)
  | step_timer_refused_early s live i :
      timer_due i (clients s) ->
      step (s, live) None (utimer_reconnect_cb i Refused_early s, live)
  | step_established s live w :
      w ∈ live -> step (s, live) None ((proxy_established w s).2, live)
  | step_closed s live w :
      w ∈ live -> step (s, live) None (proxy_closed w s, live ∖ {[w]})
  | step_connection_error s live w :
      w ∈ live -> step (s, live) None (proxy_connection_error w s, live ∖ {[w]}).

Inductive reachable : clvh * gset lws -> Prop :=
  | reachable_init s : clients s = [] -> reachable (s, ∅)
  | reachable_step st o st' : reachable st -> step st o st' -> reachable st'.

(** No other client names the address of the socket that is opened. *)
Definition tidy (s : clvh) (o : option (Z * lws)) : Prop :=
  forall i w, o = Some (i, w) -> not_reused i w (clients s).

Inductive tidy_reachable : clvh * gset lws -> Prop :=
  | tidy_init s : clients s = [] -> tidy_reachable (s, ∅)
  | tidy_step st o st' : tidy_reachable st -> step st o st' -> tidy st.1 o -> tidy_reachable st'.

Lemma add_client_cases ip prt s :
  (add_client inet_pton ip prt s = (UBUS_STATUS_INVALID_ARGUMENT, s)) \/
  exists prt', add_client inet_pton ip prt s =
    wsubus_client_create inet_pton ip prt' (Some "/") CLIENT_FROM_UBUS s.
Proof.
  unfold add_client. destruct ip as [ip|]; [|by left]. cbv zeta.
  case_match; [by left|]. right. eauto.
Qed.

Lemma step_inv s live o s' live' :
  table_inv (clients s) live -> step (s, live) o (s', live') -> tidy s o -> table_inv (clients s') live'.
Proof using inet_pton_length.
  intros Hi Hstep Ht. inversion Hstep; subst.
  - by apply create_inv.
  - destruct (add_client_cases ip prt s) as [->|[prt' ->]]; [done|by apply create_inv].
  - by apply connect_all_inv.
  - by eapply remove_client_inv.
  - by apply (timer_inv i (Connecting w)); [..|split; [done|apply Ht]].
  - by apply (timer_inv i (Refused w)).
  - by apply (timer_inv i Refused_early).
  - by apply proxy_established_inv.
  - by apply proxy_closed_inv.
  - by apply proxy_connection_error_inv.
Qed.

Lemma tidy_inv s live : tidy_reachable (s, live) -> table_inv (clients s) live.
Proof using inet_pton_length.
  remember (s, live) as st eqn:E. intros Hr. revert s live E.
  induction Hr as [s0 Hs|[s1 live1] o st' Hr IH Hstep Ht]; intros s live E.
  - simplify_eq. rewrite Hs. apply table_inv_nil.
  - subst. eapply step_inv; [by apply IH|done..].
Qed.

(** Two clients name the address after it was reused. *)
Lemma reused_breaks s live' i w :
  timer_due i (clients s) ->
  table_inv (clients (utimer_reconnect_cb i (Connecting w) s)) live' -> not_reused i w (clients s).
Proof.
  intros (ci & Hci & Hix & _) Hi c Hc Hw. simpl in Hi. rewrite update_first_twice in Hi by done.
  destruct (decide (index c = i)) as [|Hne]; [done|].
  set (l1 := update_first (has_index i) (fun c => set_wsi (Some w) (set_timer None c)) (clients s)) in *.
  assert (exists a, a ∈ l1 /\ index a = i /\ wsi a = Some w) as (a & Ha & Hai & Haw).
  { destruct (update_first_named (has_index i) (fun c => set_wsi (Some w) (set_timer None c)) (clients s) ci)
      as (c0 & a & _ & E%Z.eqb_eq & ? & ->); [done|by apply Z.eqb_eq|]. eexists. split_and!; done. }
  assert (c ∈ l1) as Hcl by (apply update_first_other; [apply Z.eqb_neq; congruence|done]).
  pose proof (ti_wsi _ _ Hi) as Hu.
  destruct (update_first_kept (has_wsi w) (set_state CONNECTION_STATE_CONNECTING) l1 a) as (a' & ? & ? & ?); [done..|].
  destruct (update_first_kept (has_wsi w) (set_state CONNECTION_STATE_CONNECTING) l1 c) as (c' & ? & ? & ?); [done..|].
  assert (index a' = index c') by (apply (Hu a' c' w); assumption || congruence). congruence.
Qed.

(** ** What no reuse can break: the indexes *)

Record indexed (l : list client_connection_info) : Prop := {
  ix_sorted : StronglySorted by_index l;
  ix_index : forall c, c ∈ l -> 0 <= index c;
}.

Lemma indexed_omap g l :
  (forall c c', c ∈ l -> g c = Some c' -> index c' = index c) -> indexed l -> indexed (omap g l).
Proof.
  intros Hg [Hs Hn]. split; [by apply omap_sorted|].
  intros c' (c & Hc & E)%list_elem_of_omap. rewrite (Hg c c') by done. auto.
Qed.

Lemma indexed_update P f l : (forall c, index (f c) = index c) -> indexed l -> indexed (update_first P f l).
Proof.
  intros Hf [Hs Hn].
  assert (forall l', (forall x, x ∈ update_first P f l' -> exists y, y ∈ l' /\ index x = index y)) as Hin.
  { induction l' as [|c l' IH]; simpl; [set_solver|]. intros x. destruct (P c); rewrite !elem_of_cons.
    - intros [->|?]; [exists c; rewrite elem_of_cons; auto|exists x; rewrite elem_of_cons; auto].
    - intros [->|(y & ? & ?)%IH]; [exists c|exists y]; rewrite elem_of_cons; auto. }
  split.
  - clear Hn. induction Hs as [|c l Hs IH Hc]; simpl; [constructor|].
    rewrite Forall_forall in Hc. unfold by_index in *.
    destruct (P c); (constructor; [done|]); apply Forall_forall; intros x Hx.
    + rewrite Hf. auto.
    + destruct (Hin l x Hx) as (y & ? & ->). auto.
  - intros x (y & ? & ->)%Hin. auto.
Qed.

Lemma indexed_delete P l : indexed l -> indexed (delete_first P l).
Proof.
  intros [Hs Hn]. assert (delete_first P l `sublist_of` l) as Hsub.
  { clear. induction l as [|c l IH]; simpl; [done|]. destruct (P c); [by apply sublist_cons|by apply sublist_skip]. }
  split; [by eapply StronglySorted_sub|]. intros c Hc. apply Hn. by eapply elem_of_sublist.
Qed.

Lemma indexed_create addr prt pth typ s :
  indexed (clients s) -> indexed (clients (wsubus_client_create inet_pton addr prt pth typ s).2).
Proof using inet_pton_length.
  intros [Hs Hn]. destruct (create_cases inet_pton inet_pton_length addr prt pth typ s) as
    [-> | (a & p & c & -> & -> & _ & _ & -> & _)]; [done|].
  destruct (insert_at_spec 0 c (clients s)) as (k & l1 & l2 & El & Er & Hk & Hl1 & Hl2); [done..|].
  unfold insert_at_lowest_free_index. rewrite Er. rewrite El in Hs, Hn. split.
  - apply Forall_StronglySorted_app.
    + eapply StronglySorted_sub; [|done]. by apply sublist_inserts_r.
    + constructor; [eapply StronglySorted_sub; [|done]; by apply sublist_inserts_l|]. by apply Forall_forall.
    + intros x y Hx [->|Hy]%elem_of_cons; [apply Hl1; eauto|by eapply StronglySorted_app_cross].
  - intros x. rewrite elem_of_app, elem_of_cons. intros [?|[->|?]]; [|done|]; apply Hn; set_solver.
Qed.

Lemma indexed_remove idx ip s r s' :
  indexed (clients s) -> remove_client idx ip s = Some (r, s') -> indexed (clients s').
Proof.
  intros Hi. unfold remove_client, M_bind, deref, modify, M_ret, gets.
  assert (forall c c', (manage_remove_client c).1 = Some c' -> index c' = index c) as Hm.
  { intros c c'. unfold manage_remove_client. destruct (state c); simpl; by intros [= <-]. }
  destruct idx as [idx|]; [|destruct ip as [ip|]]; [| |by intros [= _ <-]].
  - pose proof (remove_index_omap (s32 (u32 idx)) (clients s) (ix_sorted _ Hi)) as Hr.
    destruct (remove_index _ _) as [[l' w]|]; [|done]. destruct Hr as [-> _].
    intros [= _ <-]. apply indexed_omap; [|done]. unfold on. intros c c' _. destruct (has_index _ c); [apply Hm|].
    by intros [= <-].
  - intros [= _ <-]. apply indexed_omap; [|done]. intros c c' _. destruct (_ =? 0); [apply Hm|]. by intros [= <-].
Qed.

Lemma indexed_set_state w st s : indexed (clients s) -> indexed (clients (wsubus_client_set_state (Some w) st s)).
Proof. intros Hi. apply indexed_update; [|done]. intros c. by case_decide. Qed.

Lemma indexed_closed w s : indexed (clients s) -> indexed (clients (proxy_closed w s)).
Proof.
  intros Hi. unfold proxy_closed. destruct (wsubus_client_should_destroy _ _); [by apply indexed_delete|].
  by apply indexed_update, indexed_set_state.
Qed.

Lemma indexed_error w s : indexed (clients s) -> indexed (clients (proxy_connection_error w s)).
Proof.
  intros Hi. unfold proxy_connection_error. destruct (wsubus_client_should_destroy _ _); [by apply indexed_delete|].
  by apply indexed_update, indexed_set_state.
Qed.

Lemma step_indexed s live o s' live' :
  indexed (clients s) -> step (s, live) o (s', live') -> indexed (clients s').
Proof using inet_pton_length.
  intros Hi Hstep. inversion Hstep; subst; simpl.
  - by apply indexed_create.
  - destruct (add_client_cases ip prt s) as [->|[prt' ->]]; [done|by apply indexed_create].
  - destruct Hi as [Hs Hn]. split.
    + clear -Hs. induction Hs as [|c l Hs IH Hc]; csimpl; constructor; [done|].
      apply Forall_fmap. done.
    + intros c (c0 & -> & ?)%list_elem_of_fmap. simpl. auto.
  - by eapply indexed_remove.
  - by repeat apply indexed_update.
  - by apply indexed_error, indexed_update, indexed_update.
  - by apply indexed_update.
  - unfold proxy_established. destruct (wsubus_client_should_destroy _ _); [done|]. by apply indexed_set_state.
  - by apply indexed_closed.
  - by apply indexed_error.
Qed.

Lemma reachable_indexed s live : reachable (s, live) -> indexed (clients s).
Proof using inet_pton_length.
  remember (s, live) as st eqn:E. intros Hr. revert s live E.
  induction Hr as [s0 Hs|[s1 live1] o st' Hr IH Hstep]; intros s live E.
  - simplify_eq. rewrite Hs. split; [constructor|by intros ? ?%elem_of_nil].
  - subst. eapply step_indexed; [by eapply IH|done].
Qed.

Lemma tidy_reachable_reachable st : tidy_reachable st -> reachable st.
Proof. induction 1; [by constructor|by eapply reachable_step]. Qed.

(** A client that was removed and waits for its socket [w] to close. *)
Definition tearing (w : lws) (l : list client_connection_info) : Prop :=
  exists c, c ∈ l /\ wsi c = Some w /\ state c = CONNECTION_STATE_TEARINGDOWN.

Lemma omap_tearing P g l w :
  (forall c, c ∈ l -> P c = true -> wsi c = Some w ->
     state c = CONNECTION_STATE_TEARINGDOWN -> g c = Some c) ->
  tearing w l -> tearing w (omap (on P g) l).
Proof.
  intros Hg (c & Hc & Hw & Hst). exists c. split; [|done]. apply list_elem_of_omap.
  exists c. split; [done|]. unfold on. destruct (P c) eqn:E; auto.
Qed.

Lemma create_tearing addr prt pth typ s live w :
  table_inv (clients s) live -> tearing w (clients s) ->
  tearing w (clients (wsubus_client_create inet_pton addr prt pth typ s).2).
Proof using inet_pton_length.
  intros Hi (c & Hc & ?). exists c. split; [|done].
  destruct (create_cases inet_pton inet_pton_length addr prt pth typ s) as
    [-> | (a & p & n & -> & -> & _ & _ & -> & _)]; [done|].
  destruct (insert_at_spec 0 n (clients s)) as (k & l1 & l2 & El & Er & _);
    [by apply Hi|by apply (ti_index _ _ Hi)|].
  unfold insert_at_lowest_free_index. rewrite Er. rewrite El in Hc. set_solver.
Qed.

Lemma remove_tearing idx ip s live r s' w :
  table_inv (clients s) live -> remove_client idx ip s = Some (r, s') ->
  tearing w (clients s) -> tearing w (clients s').
Proof.
  intros Hi. unfold remove_client, M_bind, deref, modify, M_ret, gets.
  assert (forall c, state c = CONNECTION_STATE_TEARINGDOWN ->
    (manage_remove_client c).1 = Some c) as Hm.
  { intros c E. unfold manage_remove_client. by rewrite E. }
  destruct idx as [idx|]; [|destruct ip as [ip|]]; [| |by intros [= _ <-]].
  - pose proof (remove_index_omap (s32 (u32 idx)) (clients s) (ti_sorted _ _ Hi)) as Hr.
    destruct (remove_index _ _) as [[l' w']|]; [|done]. destruct Hr as [-> _].
    intros [= _ <-]. apply omap_tearing. auto.
  - intros [= _ <-]. apply (omap_tearing (fun c => strcmp ip (address c) =? 0)). auto.
Qed.

Lemma due_not_tearing i l live c :
  table_inv l live -> timer_due i l -> c ∈ l -> has_index i c = true ->
  state c <> CONNECTION_STATE_TEARINGDOWN.
Proof. intros Hi Hd Hc E%Z.eqb_eq. by erewrite due_disconnected by done. Qed.

Lemma timer_tearing i out s live w :
  table_inv (clients s) live -> timer_due i (clients s) ->
  match out with
  | Connecting v => (v ∉ live) /\ not_reused i v (clients s)
  | Refused v => v ∉ live
  | Refused_early => True
  end ->
  tearing w (clients s) -> tearing w (clients (utimer_reconnect_cb i out s)).
Proof.
  intros Hi Hd Hout Ht.
  assert (forall f, tearing w (update_first (has_index i) f (clients s))) as Hu.
  { intros f. rewrite update_first_omap by (apply Hi || apply unique_has_index).
    apply omap_tearing; [|done]. intros c Hc E _ Hst. by destruct (due_not_tearing i _ _ c Hi Hd Hc E). }
  destruct out as [v| |v].
  - destruct Hout. simpl. rewrite update_then_state by done. apply Hu.
  - apply Hu.
  - destruct (timer_refused_clients i v s live Hi Hd Hout) as (c0 & Hc0 & Hst0 & _ & ->).
    destruct Ht as (c & Hc & Hw & Hst). exists c. split; [|done]. apply list_elem_of_omap. exists c. split; [done|].
    unfold on, has_index. rewrite (proj2 (Z.eqb_neq i (index c))); simpl.
    + rewrite (proj2 (Z.eqb_neq (index c0) (index c))); [done|]. intros E.
      assert (c = c0) as -> by (eapply index_inj; [by apply Hi|done..]). congruence.
    + intros E. by rewrite (due_disconnected i _ _ c Hi Hd Hc) in Hst.
Qed.

(** What becomes of it when socket [v] is reported gone. *)
Lemma gone_tearing g v w l live :
  table_inv l live ->
  (forall c, state c = CONNECTION_STATE_TEARINGDOWN -> g c = None) ->
  tearing w l -> w ∈ live ->
  (tearing w (omap (on (has_wsi v) g) l) /\ w ∈ live ∖ {[v]}) \/
  ((w ∉ live ∖ {[v]}) /\ forall c, c ∈ omap (on (has_wsi v) g) l -> wsi c <> Some w).
Proof.
  intros Hi Hg (c & Hc & Hw & Hst) Hlive. destruct (decide (v = w)) as [->|Hne].
  - right. split; [set_solver|]. intros c' (c0 & Hc0 & E)%list_elem_of_omap.
    unfold on in E. destruct (has_wsi w c0) eqn:Ew.
    + apply bool_decide_eq_true in Ew.
      assert (c0 = c) as -> by (eapply index_inj; [by apply Hi|done..|by eapply ti_wsi]).
      by rewrite Hg in E.
    + injection E as <-. by apply bool_decide_eq_false in Ew.
  - left. split; [|set_solver]. apply omap_tearing; [|by exists c].
    intros x _ E%bool_decide_eq_true. congruence.
Qed.

Lemma step_tearing s live o s' live' w :
  table_inv (clients s) live -> step (s, live) o (s', live') -> tidy s o ->
  tearing w (clients s) -> w ∈ live ->
  (tearing w (clients s') /\ w ∈ live') \/
  ((w ∉ live') /\ forall c, c ∈ clients s' -> wsi c <> Some w).
Proof using inet_pton_length.
  intros Hi Hstep Htidy Ht Hw. inversion Hstep; subst; try (left; split; [|set_solver]).
  - by eapply create_tearing.
  - destruct (add_client_cases ip prt s) as [->|[prt' ->]]; [done|by eapply create_tearing].
  - destruct Ht as (c & Hc & _ & Hst). match goal with H : forall c, _ |- _ => by rewrite H in Hst end.
  - by eapply remove_tearing.
  - eapply (timer_tearing i (Connecting _)); [done..| |done]. split; [done|by apply Htidy].
  - by eapply (timer_tearing i (Refused _)).
  - by eapply (timer_tearing i Refused_early).
  - unfold proxy_established. destruct Ht as (c & Hc & Hwc & Hst).
    destruct (wsubus_client_should_destroy (Some w0) s) eqn:E; [by exists c|]. cbn [snd].
    erewrite set_state_clients by done. apply omap_tearing; [|by exists c].
    intros x Hx Ex%bool_decide_eq_true _ Hst'.
    erewrite should_destroy_spec in E by done. by rewrite bool_decide_eq_true_2 in E.
  - erewrite proxy_closed_clients by done. apply gone_tearing; try done.
    unfold closed_client. by intros x ->.
  - erewrite proxy_connection_error_clients by done. apply gone_tearing; try done.
    unfold failed_client. by intros x ->.
Qed.
End steps.
