(* ===== verification/ClientProps.v ===== *)
(** * Properties of the table of remote buses

    The theorems about wsubus_client.c (WsubusClient.v) and its use by the
    connection callbacks of ws_ubusproxy.c (ClientTable.v), each with a run of
    the definitions where it has hypotheses. *)

From stdpp Require Import base list strings numbers sorting sets gmap.
From S2P Require Import Prelude CStrings Avl Patterns Libs WsubusClient ClientTable.

(** Two addresses, for the concrete runs. *)
Definition two_hosts (af : address_family) (addr : string) : Z :=
  match af with
  | AF_INET => if decide (addr = "10.0.0.2") then 1 else if decide (addr = "10.0.0.3") then 1 else 0
  | AF_INET6 => 0
  end.

Lemma two_hosts_length af addr :
  two_hosts af addr <> 0 -> (String.length addr < MAX_IP_LEN)%nat.
Proof.
  destruct af; simpl; [|done]. unfold MAX_IP_LEN.
  repeat case_decide; subst; simpl; lia || done.
Qed.

(** The table with one client, and with the same client connecting on socket 1. *)
Definition one_client : clvh :=
  (wsubus_client_create two_hosts (Some "10.0.0.2") 443 (Some "/") CLIENT_FROM_UBUS clvh_init).2.
Definition one_connecting : clvh := utimer_reconnect_cb 0 (Connecting 1%nat) one_client.

Lemma one_connecting_reachable : tidy_reachable two_hosts (one_connecting, {[ 1%nat ]}).
Proof.
  replace ({[ 1%nat ]} : gset lws) with ({[ 1%nat ]} ∪ ∅ : gset lws) by set_solver.
  eapply tidy_step; [eapply tidy_step; [by apply (tidy_init _ clvh_init)|apply step_create|done]| |].
  - apply step_timer_connecting; [|set_solver].
    eexists. split; [apply elem_of_cons; left; reflexivity|]. done.
  - intros i w [= <- <-] c Hc. vm_compute in Hc. by apply list_elem_of_singleton in Hc as ->.
Qed.

(** C38: object patterns.  After any non-empty patterns are added in any order,
    no addition fails, and a name is proxied exactly if no pattern was given
    or one of the given ones covers it: the additions that are muted by a
    broader pattern and the patterns that are dropped for a broader one never
    change the answer. *)
Theorem path_patterns_match `{AvlTree} (ps : list string) (name : string) :
  Forall (fun p => short p /\ p <> "") ps ->
  short name -> name <> "" -> wildcard name = false ->
  exists tree, path_patterns_added ps = Some tree /\
    (wsubus_client_match_pattern tree name = true <->
     ps = [] \/ exists p, p ∈ ps /\ covers p name).
Proof.
  intros Hps Hn Hne Hw.
  destruct (path_patterns_from_spec ps [] pats_wf_nil Hps) as (t & Ht & Hwf & Hin & Hcov).
  exists t. split; [done|]. rewrite match_pattern_covers by done. split.
  - intros [->|(p & Hp & Hc)].
    + left. apply elem_of_nil_inv. intros q Hq.
      destruct (Hcov q (or_introl Hq)) as (q' & ?%elem_of_nil & _). done.
    + right. exists p. split; [|done]. apply Hin in Hp as [?|?%elem_of_nil]; done.
  - intros [->|(p & Hp & Hc)].
    + left. apply elem_of_nil_inv. by intros q [Hq%elem_of_nil|Hq%elem_of_nil]%Hin.
    + right. destruct (Hcov p (or_introl Hp)) as (q & Hq & Hb). exists q. split; [done|by apply Hb].
Qed.

Lemma path_patterns_match_witness :
  exists tree, path_patterns_added (H := list_avl) ["router"; "network.*"; "network.wan"; "r*"] = Some tree /\
    (wsubus_client_match_pattern (H := list_avl) tree "router.x" = true <->
     ["router"; "network.*"; "network.wan"; "r*"] = [] \/
     exists p, p ∈ ["router"; "network.*"; "network.wan"; "r*"] /\ covers p "router.x").
Proof.
  apply (path_patterns_match (H := list_avl)); [|done..].
  repeat constructor; done.
Defined.

(** The index of a new client is the lowest one that no client has, and
    the list with the new client is still sorted by index without gaps being
    moved: the other clients keep their index and order. *)
Theorem lowest_free_index (l : list client_connection_info) (live : gset lws)
    (c : client_connection_info) :
  table_inv l live ->
  exists k l1 l2, l = l1 ++ l2 /\
    insert_at_lowest_free_index c l = l1 ++ set_index k c :: l2 /\
    0 <= k /\ (forall x, x ∈ l -> index x <> k) /\
    (forall j, 0 <= j < k -> exists x, x ∈ l /\ index x = j) /\
    StronglySorted by_index (l1 ++ set_index k c :: l2).
Proof.
  intros Hi. destruct (insert_at_spec 0 c l) as (k & l1 & l2 & -> & Er & Hk & Hl1 & Hl2);
    [by apply Hi|by apply (ti_index _ _ Hi)|].
  assert (forall x, x ∈ l1 -> index x < k) as H1 by (intros x Hx; apply Hl1; eauto).
  exists k, l1, l2. split_and!; [done..| | |].
  - intros x [Hx%H1|Hx%Hl2]%elem_of_app; lia.
  - intros j (x & Hx & <-)%Hl1. exists x. rewrite elem_of_app. auto.
  - pose proof (ti_sorted _ _ Hi) as Hs. apply Forall_StronglySorted_app.
    + eapply StronglySorted_sub; [|done]. by apply sublist_inserts_r.
    + constructor; [eapply StronglySorted_sub; [|done]; by apply sublist_inserts_l|].
      by apply Forall_forall.
    + intros a b Ha [->|Hb]%elem_of_cons; [by apply H1|]. by eapply StronglySorted_app_cross.
Qed.

Lemma lowest_free_index_witness :
  exists k l1 l2, clients one_connecting = l1 ++ l2 /\
    insert_at_lowest_free_index (Client 0 None 0 None "10.0.0.3" "/" 443 None None
      CLIENT_FROM_UBUS CONNECTION_STATE_DISCONNECTED) (clients one_connecting) =
    l1 ++ set_index k (Client 0 None 0 None "10.0.0.3" "/" 443 None None
      CLIENT_FROM_UBUS CONNECTION_STATE_DISCONNECTED) :: l2 /\
    0 <= k /\ (forall x, x ∈ clients one_connecting -> index x <> k) /\
    (forall j, 0 <= j < k -> exists x, x ∈ clients one_connecting /\ index x = j) /\
    StronglySorted by_index (l1 ++ set_index k (Client 0 None 0 None "10.0.0.3" "/" 443 None None
      CLIENT_FROM_UBUS CONNECTION_STATE_DISCONNECTED) :: l2).
Proof.
  apply (lowest_free_index (clients one_connecting) {[ 1%nat ]}).
  apply (tidy_inv two_hosts two_hosts_length _ _ one_connecting_reachable).
Defined.

(** C2: the table of remote buses.  Whatever the order of additions, removals,
    timers and socket events, and whatever addresses the sockets get, the
    indexes of the clients are distinct, not negative and ascending.  As long
    as no socket that is opened has the address of a closed one that another
    client of the table still names, also: no two clients that are wanted have
    the same address; no two clients share a socket; a timer is pending only
    for a disconnected client; a client that is connecting, connected or
    tearing down owns an open socket, and every open socket belongs to one of
    these.  This is exact: from such a state every step keeps all of this if
    and only if it does not open a socket with such an address. *)
Theorem client_table_invariant (inet_pton : address_family -> string -> Z) (s : clvh)
    (live : gset lws) :
  (forall af addr, inet_pton af addr <> 0 -> (String.length addr < MAX_IP_LEN)%nat) ->
  (reachable inet_pton (s, live) ->
     StronglySorted by_index (clients s) /\ forall c, c ∈ clients s -> 0 <= index c) /\
  (tidy_reachable inet_pton (s, live) -> table_inv (clients s) live /\
     forall o s' live', step inet_pton (s, live) o (s', live') ->
       (table_inv (clients s') live' <-> tidy s o)).
Proof.
  intros Hp. split; [intros Hr; by destruct (reachable_indexed inet_pton Hp s live Hr)|].
  intros Hr. pose proof (tidy_inv inet_pton Hp s live Hr) as Hi. split; [done|].
  intros o s' live' Hstep. split; [|by eapply step_inv].
  intros Hi' i w ->. inversion Hstep; subst. by eapply reused_breaks.
Qed.

(** Client 0 connected on socket 1, which was then closed; client 1 is added. *)
Definition stale_socket : clvh :=
  (wsubus_client_create two_hosts (Some "10.0.0.3") 443 (Some "/") CLIENT_FROM_UBUS
     (proxy_closed 1%nat (proxy_established 1%nat one_connecting).2)).2.

Lemma stale_socket_reachable : tidy_reachable two_hosts (stale_socket, {[ 1%nat ]} ∖ {[ 1%nat ]}).
Proof.
  assert (tidy_reachable two_hosts ((proxy_established 1%nat one_connecting).2, {[ 1%nat ]})) as H1.
  { eapply tidy_step; [apply one_connecting_reachable|apply step_established; set_solver|done]. }
  assert (tidy_reachable two_hosts
    (proxy_closed 1%nat (proxy_established 1%nat one_connecting).2, {[ 1%nat ]} ∖ {[ 1%nat ]})) as H2.
  { eapply tidy_step; [exact H1|apply step_closed; set_solver|done]. }
  eapply tidy_step; [exact H2|apply step_create|done].
Qed.

Lemma stale_socket_reused :
  step two_hosts (stale_socket, {[ 1%nat ]} ∖ {[ 1%nat ]}) (Some (1, 1%nat))
    (utimer_reconnect_cb 1 (Connecting 1%nat) stale_socket, {[ 1%nat ]} ∪ {[ 1%nat ]} ∖ {[ 1%nat ]}).
Proof.
  apply step_timer_connecting; [|set_solver].
  assert (clients stale_socket =
    [Client 0 (Some 1%nat) 0 (Some 2000) "10.0.0.2" "/" 443 None None CLIENT_FROM_UBUS CONNECTION_STATE_DISCONNECTED;
     Client 1 None 0 (Some 100) "10.0.0.3" "/" 443 None None CLIENT_FROM_UBUS CONNECTION_STATE_DISCONNECTED]) as E.
  { vm_compute. reflexivity. }
  unfold timer_due. rewrite E. eexists. split; [right; left|]. done.
Qed.

Lemma client_table_invariant_witness :
  table_inv (clients one_connecting) {[ 1%nat ]} /\
  (table_inv (clients (utimer_reconnect_cb 1 (Connecting 1%nat) stale_socket)) ({[ 1%nat ]} ∪ {[ 1%nat ]} ∖ {[ 1%nat ]}) <->
   tidy stale_socket (Some (1, 1%nat))).
Proof.
  split.
  - destruct (client_table_invariant two_hosts one_connecting {[ 1%nat ]} two_hosts_length) as [_ Hi].
    by apply Hi, one_connecting_reachable.
  - destruct (client_table_invariant two_hosts stale_socket ({[ 1%nat ]} ∖ {[ 1%nat ]}) two_hosts_length) as [_ Hi].
    destruct (Hi stale_socket_reachable) as [_ Hex]. exact (Hex _ _ _ stale_socket_reused).
Defined.

(** A removal is final.  A client that was removed while its socket was
    open never goes back to another state: every step either keeps it tearing
    down with its socket open, or closes the socket and takes the client out
    of the table, so it is never reconnected; unless an opened socket has the
    address of a closed one that another client still names. *)
Theorem teardown_is_final (inet_pton : address_family -> string -> Z) (s s' : clvh)
    (live live' : gset lws) (o : option (Z * lws)) (w : lws) :
  (forall af addr, inet_pton af addr <> 0 -> (String.length addr < MAX_IP_LEN)%nat) ->
  tidy_reachable inet_pton (s, live) -> step inet_pton (s, live) o (s', live') -> tidy s o ->
  tearing w (clients s) ->
  (tearing w (clients s') /\ w ∈ live') \/
  ((w ∉ live') /\ forall c, c ∈ clients s' -> wsi c <> Some w).
Proof.
  intros Hp Hr Hs Hty Ht. pose proof (tidy_inv _ Hp _ _ Hr) as Hi.
  eapply step_tearing; try done. destruct Ht as (c & Hc & Hw & Hst).
  destruct (ti_ok _ _ Hi c Hc) as [_ Hok]. rewrite Hst in Hok.
  destruct Hok as (v & ? & ?). congruence.
Qed.

(** The same client after the method "remove" was called for its index. *)
Definition one_tearing : clvh :=
  match remove_client (Some 0) None one_connecting with Some (_, s) => s | None => clvh_init end.

Lemma teardown_is_final_witness :
  (tearing 1%nat (clients (proxy_closed 1%nat one_tearing)) /\ 1%nat ∈ ({[ 1%nat ]} ∖ {[ 1%nat ]} : gset lws)) \/
  ((1%nat ∉ ({[ 1%nat ]} ∖ {[ 1%nat ]} : gset lws)) /\
   forall c, c ∈ clients (proxy_closed 1%nat one_tearing) -> wsi c <> Some 1%nat).
Proof.
  apply (teardown_is_final two_hosts one_tearing _ {[ 1%nat ]} _ None).
  - apply two_hosts_length.
  - eapply tidy_step; [apply one_connecting_reachable|eapply (step_remove _ _ _ (Some 0) None); reflexivity|done].
  - apply step_closed. set_solver.
  - done.
  - eexists. split; [apply elem_of_cons; left; reflexivity|]. done.
Defined.

(** A failed connection attempt is retried later and later.  When the
    timer of a client fires and the connection is refused, the client is
    disconnected without a socket, its count of attempts is one more and its
    timer is set to that count times the retry timeout, in the [int] that
    holds it; nothing else of it changes. *)
Theorem refused_backs_off (inet_pton : address_family -> string -> Z) (s : clvh)
    (live : gset lws) (c : client_connection_info) (w : lws) :
  (forall af addr, inet_pton af addr <> 0 -> (String.length addr < MAX_IP_LEN)%nat) ->
  tidy_reachable inet_pton (s, live) -> c ∈ clients s -> timer c <> None ->
  w ∉ live -> not_reused (index c) w (clients s) ->
  0 <= reconnect_count c -> 0 < retry_timeout s ->
  (reconnect_count c + 1) * retry_timeout s < 2 ^ 31 ->
  Client (index c) None (reconnect_count c + 1)
    (Some ((reconnect_count c + 1) * retry_timeout s)) (address c) (path c) (port c)
    (vhost c) (context c) (type c) CONNECTION_STATE_DISCONNECTED
  ∈ clients (utimer_reconnect_cb (index c) (Refused w) s).
Proof.
  intros Hp Hr Hc Ht Hw Hf Hn Hrt Hlt. pose proof (tidy_inv _ Hp _ _ Hr) as Hi.
  assert (timer_due (index c) (clients s)) as Hd by (by exists c).
  pose proof (due_disconnected _ _ _ c Hi Hd Hc eq_refl) as Hst.
  assert (reconnect_count c + 1 < 2 ^ 31) by nia.
  simpl. rewrite update_first_twice by done.
  erewrite proxy_connection_error_clients by (by eapply refused_socket_inv). simpl.
  rewrite update_first_omap by (apply Hi || apply unique_has_index).
  apply list_elem_of_omap. exists (set_wsi (Some w) (set_timer None c)). split.
  - apply list_elem_of_omap. exists c. split; [done|]. unfold on, has_index. by rewrite Z.eqb_refl.
  - unfold on, has_wsi. rewrite bool_decide_eq_true_2 by done. unfold failed_client. simpl.
    rewrite Hst, (s32_small (reconnect_count c + 1)) by lia. by rewrite s32_small by nia.
Qed.

Lemma refused_backs_off_witness :
  Client 0 None 1 (Some 2000) "10.0.0.2" "/" 443 None None CLIENT_FROM_UBUS
    CONNECTION_STATE_DISCONNECTED
  ∈ clients (utimer_reconnect_cb 0 (Refused 5%nat) one_client).
Proof.
  apply (refused_backs_off two_hosts one_client ∅ (Client 0 None 0 (Some 100) "10.0.0.2" "/" 443
    None None CLIENT_FROM_UBUS CONNECTION_STATE_DISCONNECTED) 5%nat); try done.
  - apply two_hosts_length.
  - eapply tidy_step; [by apply (tidy_init _ clvh_init)|apply step_create|done].
  - apply elem_of_cons. left. reflexivity.
  - intros c Hc. vm_compute in Hc. by apply list_elem_of_singleton in Hc as ->.
Defined.

(** The method "remove" with an index comes back exactly if a client has
    that index: for another index the client looked up is NULL, and its state
    is read before it is tested. *)
Theorem remove_unknown_index (s : clvh) (idx : Z) (ip : option string) :
  remove_client (Some idx) ip s = None <->
  forall c, c ∈ clients s -> index c <> s32 (u32 idx).
Proof.
  assert (remove_client (Some idx) ip s = None <->
    remove_index (s32 (u32 idx)) (clients s) = None) as ->.
  { unfold remove_client, M_bind, deref. by destruct (remove_index _ _) as [[]|]. }
  induction (clients s) as [|c l IH]; simpl; [by split; [intros _ ? ?%elem_of_nil|]|].
  setoid_rewrite elem_of_cons. destruct (has_index _ c) eqn:E.
  - apply Z.eqb_eq in E. destruct (manage_remove_client c). split; [done|].
    intros Hno. by destruct (Hno c (or_introl eq_refl)).
  - apply Z.eqb_neq in E. destruct (remove_index _ l) as [[]|].
    + split; [done|]. intros Hno. assert (Some (l0, o) = None); [|done].
      apply IH. auto.
    + split; [|done]. intros _ x [->|Hx]; [done|]. by apply IH.
Qed.

(** A closed socket stays in the table.  [wsubus_client_reconnect] keeps
    the pointer of the closed socket, so when libwebsockets gives the same
    address to the next socket, made for client 1, the state of client 0 is
    changed instead: client 0 counts as connecting with no socket of its own,
    and client 1 stays disconnected. *)
Theorem stale_socket_confuses :
  (fun c => (index c, wsi c, state c)) <$>
    clients (utimer_reconnect_cb 1 (Connecting 1%nat) stale_socket) =
  [(0, Some 1%nat, CONNECTION_STATE_CONNECTING); (1, Some 1%nat, CONNECTION_STATE_DISCONNECTED)].
Proof. reflexivity. Qed.
