(* ===== verification/Rpc.v ===== *)
(** * JSON-RPC: requests and responses

    util_jsonrpc.c builds the requests and responses, rpc.c and the parse
    functions of rpc_call.c, rpc_list.c and rpc_sub.c take requests apart.
    JSON and blobmsg trees are those of Libs.v; the text of a JSON tree is what
    json-c and libubox make of it.  Memory exhaustion is not modelled.  The
    build options are the ones of CMakeLists.txt with ubus and without
    D-Bus, [WSD_USER_BLACKLIST_OLD] on. *)

From stdpp Require Import base list strings numbers sets.
From S2P Require Import Prelude CStrings Libs.

(** ** util_jsonrpc.h: error codes *)

Definition JSONRPC_ERRORCODE__OK : Z := 0.
Definition JSONRPC_ERRORCODE__PARSE_ERROR : Z := -32700.
Definition JSONRPC_ERRORCODE__INVALID_REQUEST : Z := -32600.
Definition JSONRPC_ERRORCODE__METHOD_NOT_FOUND : Z := -32601.
Definition JSONRPC_ERRORCODE__INVALID_PARAMS : Z := -32602.
Definition JSONRPC_ERRORCODE__INTERNAL_ERROR : Z := -32603.
Definition JSONRPC_ERRORCODE__INPUT_FORMAT_ERROR : Z := -32604.
Definition JSONRPC_ERRORCODE__OUTPUT_FORMAT_ERROR : Z := -32605.
Definition JSONRPC_ERRORCODE__OTHER : Z := -32050.

Definition UBUS_DEFAULT_SID : string := "00000000000000000000000000000000".

(** ** Responses *)

Definition error_message (error_code : Z) : string :=
  if error_code =? JSONRPC_ERRORCODE__PARSE_ERROR then "Parse error"
  else if error_code =? JSONRPC_ERRORCODE__INTERNAL_ERROR then "Internal error"
  else if error_code =? JSONRPC_ERRORCODE__INVALID_REQUEST then "Invalid Request"
  else if error_code =? JSONRPC_ERRORCODE__INVALID_PARAMS then "Invalid params"
  else if error_code =? JSONRPC_ERRORCODE__METHOD_NOT_FOUND then "Method not found"
  else if error_code =? JSONRPC_ERRORCODE__INPUT_FORMAT_ERROR then "Invalid Input Format"
  else if error_code =? JSONRPC_ERRORCODE__OUTPUT_FORMAT_ERROR then "Invalid Output Format"
  else "Other error".

(** The "id" field: the attribute of the request, or null. *)
Definition resp_id (id : option attr) : attr := default ("id", BUnspec) id.

(** The blob of the response; its text is below.  The sources only pass
    containers as [ret_data]. *)
Definition resp_error_blob (id : option attr) (error_code : Z) (error_data : option attr)
  : list attr :=
  [("jsonrpc", BString "2.0"); resp_id id;
   ("error", BTable (
     [("code", BInt32 (u32 error_code)); ("message", BString (error_message error_code))] ++
     match error_data with
     | Some d => if strcmp "data" (blobmsg_name d) =? 0 then [d] else []
     | None => []
     end))].

Definition resp_ubus_blob (id : option attr) (ubus_rc : Z) (ret_data : option attr) : list attr :=
  [("jsonrpc", BString "2.0"); resp_id id;
   ("result", BArray (
     [("", BInt32 (u32 ubus_rc))] ++
     match ret_data with
     | Some (_, BArray l) => [("", BArray l)]
     | Some d => [("", BTable (blob_children d.2))]
     | None => []
     end))].

Section text.
Context `{LibUbox}.

Definition jsonrpc__resp_error (id : option attr) (error_code : Z) (error_data : option attr)
  : string := blobmsg_format_json (resp_error_blob id error_code error_data).

Definition jsonrpc__resp_ubus (id : option attr) (ubus_rc : Z) (ret_data : option attr) : string :=
  blobmsg_format_json (resp_ubus_blob id ubus_rc ret_data).
End text.

(** ** Requests *)

(** [None]: the value is not an array, or the string is NULL, which
    [json_object_new_string] does not take. *)
Definition custom_json_object_array_add_string (array : json) (val : option string)
  : option json :=
  match array, val with
  | JArray l, Some v => Some (JArray (l ++ [JString v]))
  | _, _ => None
  end.

Definition json_object_array_add (array : json) (v : json) : option json :=
  match array with JArray l => Some (JArray (l ++ [v])) | _ => None end.

(** The JSON tree [jsonrpc__req_to_string] prints. *)
Definition jsonrpc__req (id : Z) (sid : option string) (jsonrpc_method : string)
    (obj method : option string) (arg : option json) (pattern : option string) : option json :=
  ps ← custom_json_object_array_add_string (JArray []) (Some (default UBUS_DEFAULT_SID sid));
  ps ← (if strcmp jsonrpc_method "call" =? 0 then
          ps ← custom_json_object_array_add_string ps obj;
          ps ← custom_json_object_array_add_string ps method;
          json_object_array_add ps (default (JObject []) arg)
        else custom_json_object_array_add_string ps pattern);
  Some (JObject [("jsonrpc", JString "2.0"); ("id", JInt id);
                 ("method", JString jsonrpc_method); ("params", ps)]).

Definition jsonrpc__req_to_string `{JsonC} (id : Z) (sid : option string) (jsonrpc_method : string)
    (obj method : option string) (arg : option json) (pattern : option string) : option string :=
  json_object_to_json_string <$> jsonrpc__req id sid jsonrpc_method obj method arg pattern.

Definition jsonrpc__req_ubuslist (id : Z) (sid : option string) (pattern : string) : option json :=
  jsonrpc__req id sid "list" None None None (Some pattern).

Definition jsonrpc__req_ubuslisten (id : Z) (sid : option string) (pattern : string) : option json :=
  jsonrpc__req id sid "subscribe" None None None (Some pattern).

Definition jsonrpc__req_ubuscall (id : Z) (sid : option string) (obj method : string)
    (arg : option json) : option json :=
  jsonrpc__req id sid "call" (Some obj) (Some method) arg None.

(** ** rpc.c: the generic part of a request *)

Record jsonrpc_blob_req := Req {
  req_id : option attr;
  req_version : option string;
  req_method : option string;
  req_params : option attr;
}.

(** [struct ubusrpc_blob] with the handler the table gives it. *)
Inductive handler :=
  | ubusrpc_handle_call | ubusrpc_handle_list | ubusrpc_handle_sub
  | ubusrpc_handle_sub_list | ubusrpc_handle_unsub.

Inductive rpc_args :=
  | CallArgs (object method : string) (params_buf : list attr)
  | ListArgs (pattern : option string)
  | SubArgs (pattern : option string).

Record ubusrpc_blob := UbusRpc {
  rpc_sid : option string;
  rpc_args_of : rpc_args;
  rpc_handler : option handler;
}.

#[export] Instance handler_eq_dec : EqDecision handler.
Proof. solve_decision. Defined.

Section parse.
Context `{LibUbox}.

Definition rpc_policy : list blobmsg_policy :=
  [Policy "jsonrpc" BLOBMSG_TYPE_STRING; Policy "id" BLOBMSG_TYPE_UNSPEC;
   Policy "method" BLOBMSG_TYPE_STRING; Policy "params" BLOBMSG_TYPE_ARRAY].

(** [tb[i]] after a parse. *)
Definition tb_get (tb : list (option attr)) (i : nat) : option attr := default None (tb !! i).

Definition jsonrpc_blob_req_parse (blob : list attr) : Z * jsonrpc_blob_req :=
  let tb := blobmsg_parse rpc_policy blob in
  let failed := Req (tb_get tb 1) None None None in
  match tb_get tb 0, tb_get tb 2, tb_get tb 3 with
  | None, _, _ => (-1, failed)
  | _, None, _ => (-2, failed)
  | _, _, None => (-3, failed)
  | Some v, Some m, Some p =>
      let version := blobmsg_get_string v in
      if negb (strcmp "2.0" version =? 0) then (-4, failed)
      else (0, Req (tb_get tb 1) (Some version) (Some (blobmsg_get_string m)) (Some p))
  end.

(** ** The parameters of each method *)

(** The loop over [tb]: the last missing position decides the code. *)
Fixpoint missing_from (i : Z) (tb : list (option attr)) (ret : Z) : Z :=
  match tb with
  | [] => ret
  | a :: tb' => missing_from (i + 1) tb' (match a with None => - i - 1 | Some _ => ret end)
  end.

Definition call_policy : list blobmsg_type :=
  [BLOBMSG_TYPE_STRING; BLOBMSG_TYPE_STRING; BLOBMSG_TYPE_STRING; BLOBMSG_TYPE_UNSPEC].

Definition ubusrpc_blob_call_parse_ (blob : attr) : Z * option ubusrpc_blob :=
  let tb := blobmsg_parse_array call_policy (blobmsg_attrs blob) in
  let ret := missing_from 0 tb 0 in
  if negb (ret =? 0) then (ret, None)
  else match tb with
  | [Some sid; Some object; Some method; Some params] =>
      if existsb (fun cur => strcmp "_owsd_listen" (blobmsg_name cur) =? 0) (blobmsg_attrs params)
      then (-1, None)
      else (0, Some (UbusRpc (Some (blobmsg_get_string sid))
                 (CallArgs (blobmsg_get_string object) (blobmsg_get_string method)
                    (blobmsg_attrs params)) None))
  | _ => (ret, None)
  end.

Definition ubusrpc_blob_call_parse (blob : attr) : option ubusrpc_blob :=
  (ubusrpc_blob_call_parse_ blob).2.

Definition ubusrpc_blob_list_parse_ (blob : attr) : Z * option ubusrpc_blob :=
  if negb (bool_decide (blobmsg_type_of blob = BLOBMSG_TYPE_ARRAY)) then
    (0, Some (UbusRpc None (ListArgs None) None))
  else
    let tb := blobmsg_parse_array [BLOBMSG_TYPE_UNSPEC; BLOBMSG_TYPE_STRING] (blobmsg_attrs blob) in
    match tb_get tb 1 with
    | None => (-2, None)
    | Some p =>
        let sid := match tb_get tb 0 with
                   | Some a => blobmsg_get_string a | None => UBUS_DEFAULT_SID end in
        (0, Some (UbusRpc (Some sid) (ListArgs (Some (blobmsg_get_string p))) None))
    end.

Definition ubusrpc_blob_list_parse (blob : attr) : option ubusrpc_blob :=
  (ubusrpc_blob_list_parse_ blob).2.

Definition ubusrpc_blob_sub_parse_ (blob : attr) : Z * option ubusrpc_blob :=
  let tb := blobmsg_parse_array [BLOBMSG_TYPE_STRING; BLOBMSG_TYPE_STRING] (blobmsg_attrs blob) in
  match tb_get tb 0, tb_get tb 1 with
  | None, _ => (-1, None)
  | _, None => (-2, None)
  | Some s, Some p =>
      (0, Some (UbusRpc (Some (blobmsg_get_string s)) (SubArgs (Some (blobmsg_get_string p))) None))
  end.

Definition ubusrpc_blob_sub_parse (blob : attr) : option ubusrpc_blob :=
  (ubusrpc_blob_sub_parse_ blob).2.

Definition ubusrpc_blob_sub_list_parse_ (blob : attr) : Z * option ubusrpc_blob :=
  let tb := blobmsg_parse_array [BLOBMSG_TYPE_STRING] (blobmsg_attrs blob) in
  match tb_get tb 0 with
  | None => (2, None)
  | Some s => (0, Some (UbusRpc (Some (blobmsg_get_string s)) (SubArgs None) None))
  end.

Definition ubusrpc_blob_sub_list_parse (blob : attr) : option ubusrpc_blob :=
  (ubusrpc_blob_sub_list_parse_ blob).2.

(** [supported_methods] of [ubusrpc_blob_parse]. *)
Definition supported_methods : list (string * (attr -> option ubusrpc_blob) * handler) :=
  [("call", ubusrpc_blob_call_parse, ubusrpc_handle_call);
   ("list", ubusrpc_blob_list_parse, ubusrpc_handle_list);
   ("subscribe", ubusrpc_blob_sub_parse, ubusrpc_handle_sub);
   ("subscribe-list", ubusrpc_blob_sub_list_parse, ubusrpc_handle_sub_list);
   ("unsubscribe", ubusrpc_blob_sub_parse, ubusrpc_handle_unsub)].

Fixpoint ubusrpc_blob_parse_in (methods : list (string * (attr -> option ubusrpc_blob) * handler))
    (method : string) (params_blob : attr) : Z * option ubusrpc_blob :=
  match methods with
  | [] => (JSONRPC_ERRORCODE__METHOD_NOT_FOUND, None)
  | (name, parse_func, handle_func) :: rest =>
      if strcmp name method =? 0 then
        match parse_func params_blob with
        | Some r => (JSONRPC_ERRORCODE__OK, Some (UbusRpc (rpc_sid r) (rpc_args_of r) (Some handle_func)))
        | None => (JSONRPC_ERRORCODE__INVALID_PARAMS, None)
        end
      else ubusrpc_blob_parse_in rest method params_blob
  end.

Definition ubusrpc_blob_parse (method : string) (params_blob : attr) : Z * option ubusrpc_blob :=
  ubusrpc_blob_parse_in supported_methods method params_blob.
End parse.

(** ** util_ubus_blob.h *)

(** [None] is the NULL pointer. *)
Definition blobmsg_type_from_str (c : option string) : blobmsg_type :=
  match c with
  | None => BLOBMSG_TYPE_LAST
  | Some s =>
      if starts_with "a" s then BLOBMSG_TYPE_ARRAY
      else if starts_with "o" s then BLOBMSG_TYPE_TABLE
      else if starts_with "s" s then BLOBMSG_TYPE_STRING
      else if starts_with "n" s then BLOBMSG_TYPE_INT32
      else if starts_with "b" s then BLOBMSG_TYPE_INT8
      else BLOBMSG_TYPE_UNSPEC
  end.

(** [None]: the assertion on the range of the table fails; [Some None]: a hole
    of the table, a NULL string. *)
Definition blobmsg_type_to_str (t : blobmsg_type) : option (option string) :=
  match t with
  | BLOBMSG_TYPE_ARRAY => Some (Some "array")
  | BLOBMSG_TYPE_TABLE => Some (Some "object")
  | BLOBMSG_TYPE_STRING => Some (Some "string")
  | BLOBMSG_TYPE_INT32 | BLOBMSG_TYPE_INT16 => Some (Some "number")
  | BLOBMSG_TYPE_INT8 => Some (Some "boolean")
  | BLOBMSG_TYPE_UNSPEC | BLOBMSG_TYPE_INT64 => Some None
  | BLOBMSG_TYPE_DOUBLE | BLOBMSG_TYPE_LAST => None
  end.

(** ** Lemmas *)

Section facts.
Context `{LibUbox}.

Lemma tb_get_parse ps l i p a :
  ps !! i = Some p -> a ∈ l -> a.1 = pol_name p -> type_ok (pol_type p) a ->
  (forall b, b ∈ l -> b.1 = pol_name p -> b = a) ->
  tb_get (blobmsg_parse ps l) i = Some a.
Proof. intros. unfold tb_get. by erewrite parse_complete. Qed.

(** What [tb[i]] can be. *)
Lemma tb_get_sound ps l i a :
  tb_get (blobmsg_parse ps l) i = Some a ->
  exists p, ps !! i = Some p /\ a ∈ l /\ a.1 = pol_name p /\ type_ok (pol_type p) a.
Proof.
  unfold tb_get. destruct (blobmsg_parse ps l !! i) as [[b|]|] eqn:E; simpl; try done.
  intros [= ->]. by eapply parse_sound.
Qed.

Lemma req_parse_ok i m l :
  jsonrpc_blob_req_parse
    [("jsonrpc", BString "2.0"); ("id", i); ("method", BString m); ("params", BArray l)] =
  (0, Req (Some ("id", i)) (Some "2.0") (Some m) (Some ("params", BArray l))).
Proof.
  unfold jsonrpc_blob_req_parse.
  set (fields := [("jsonrpc", BString "2.0"); ("id", i); ("method", BString m); ("params", BArray l)]).
  assert (forall b, b ∈ fields -> b = ("jsonrpc", BString "2.0") \/ b = ("id", i) \/
    b = ("method", BString m) \/ b = ("params", BArray l)) as Hin by (subst fields; set_solver).
  assert (forall n p a, rpc_policy !! n = Some p -> a ∈ fields -> a.1 = pol_name p ->
    type_ok (pol_type p) a -> tb_get (blobmsg_parse rpc_policy fields) n = Some a) as Hget.
  { intros n p a Hp Ha Hna Hta. eapply tb_get_parse; try done.
    intros b Hb Hnb. rewrite <- Hna in Hnb. apply Hin in Ha, Hb.
    destruct Ha as [->|[->|[->| ->]]], Hb as [->|[->|[->| ->]]]; done. }
  rewrite (Hget 0%nat _ ("jsonrpc", BString "2.0") eq_refl),
    (Hget 1%nat _ ("id", i) eq_refl), (Hget 2%nat _ ("method", BString m) eq_refl),
    (Hget 3%nat _ ("params", BArray l) eq_refl);
    try done; try (by right); try (by left); try (subst fields; set_solver).
  by rewrite !get_string_attr.
Qed.

Lemma parse_array_all ts l :
  Forall2 type_ok ts l -> blobmsg_parse_array ts l = Some <$> l.
Proof.
  intros Hl. rewrite parse_array_exact.
  - by rewrite (Forall2_length _ _ _ Hl), firstn_all.
  - by rewrite (Forall2_length _ _ _ Hl), firstn_all.
Qed.
End facts.

(** ** Properties *)

(** The parameters of a call, as the remote owsd parses them. *)
Lemma call_params_parse `{JsonBlob} (sid obj method : string) (args : list (string * json)) :
  Forall (fun kv => kv.1 <> "_owsd_listen") args ->
  ubusrpc_blob_parse "call" ("params", BArray ((fun j => ("", json_blob j)) <$>
    [JString sid; JString obj; JString method; JObject args])) =
  (JSONRPC_ERRORCODE__OK, Some (UbusRpc (Some sid)
     (CallArgs obj method ((fun kv => (kv.1, json_blob kv.2)) <$> args)) (Some ubusrpc_handle_call))).
Proof.
  intros Hargs.
  unfold ubusrpc_blob_parse, supported_methods. cbn [ubusrpc_blob_parse_in].
  rewrite strcmp_refl, Z.eqb_refl. unfold ubusrpc_blob_call_parse, ubusrpc_blob_call_parse_.
  rewrite attrs_array. cbn [fmap list_fmap map].
  rewrite parse_array_all; cycle 1.
  { rewrite !json_blob_string. repeat constructor; by right || by left. }
  cbn [fmap list_fmap map missing_from Z.eqb negb].
  rewrite !json_blob_string, json_blob_object, attrs_table, !get_string_attr.
  destruct (existsb _ _) eqn:E; [|done]. exfalso.
  apply existsb_exists in E as (x & Hx & E). apply list_elem_of_In, list_elem_of_fmap in Hx as (kv & -> & Hkv).
  rewrite Forall_forall in Hargs. apply (Hargs kv Hkv). symmetry. by apply strcmp_eq, Z.eqb_eq.
Qed.

(** A call owsd sends to a remote bus is the call the remote owsd parses.
    For every id, session, object, method and argument object without the
    reserved "_owsd_listen", the request [jsonrpc__req_ubuscall] builds passes
    [jsonrpc_blob_req_parse] and [ubusrpc_blob_parse], which give back the id,
    the session (the default one for NULL), the object, the method and the
    arguments, with the handler of calls. *)
Theorem call_request_roundtrip `{JsonBlob} (id : Z) (sid : option string)
    (obj method : string) (args : list (string * json)) :
  - 2 ^ 31 <= id < 2 ^ 31 -> Forall (fun kv => kv.1 <> "_owsd_listen") args ->
  exists req params,
    jsonrpc__req_ubuscall id sid obj method (Some (JObject args)) = Some req /\
    jsonrpc_blob_req_parse (blobmsg_add_object req) =
      (0, Req (Some ("id", BInt32 (u32 id))) (Some "2.0") (Some "call") (Some params)) /\
    ubusrpc_blob_parse "call" params =
      (JSONRPC_ERRORCODE__OK, Some (UbusRpc (Some (default UBUS_DEFAULT_SID sid))
         (CallArgs obj method ((fun kv => (kv.1, json_blob kv.2)) <$> args))
         (Some ubusrpc_handle_call))).
Proof.
  intros Hid Hargs. eexists _, _. split; [reflexivity|]. split.
  { rewrite add_object_object. cbn.
    rewrite !json_blob_string, json_blob_int, json_blob_array by done. apply req_parse_ok. }
  by apply call_params_parse.
Qed.

Lemma call_request_roundtrip_witness :
  exists req params,
    jsonrpc__req_ubuscall 7 None "system" "info" (Some (JObject [("v", JInt 1)])) = Some req /\
    jsonrpc_blob_req_parse (H := ref_libubox) (blobmsg_add_object (LibUbox := ref_libubox) req) =
      (0, Req (Some ("id", BInt32 (u32 7))) (Some "2.0") (Some "call") (Some params)) /\
    ubusrpc_blob_parse (H := ref_libubox) "call" params =
      (JSONRPC_ERRORCODE__OK, Some (UbusRpc (Some (default UBUS_DEFAULT_SID None))
         (CallArgs "system" "info" [("v", ref_json_blob (JInt 1))]) (Some ubusrpc_handle_call))).
Proof.
  apply (call_request_roundtrip (H1 := ref_json_blob_inst) 7 None "system" "info" [("v", JInt 1)]).
  - lia.
  - by repeat constructor.
Defined.

(** The "list" and "subscribe" requests of the proxy are parsed back
    likewise, to the pattern they were built with. *)
Theorem pattern_request_roundtrip `{JsonBlob} (id : Z) (sid : option string) (pattern : string) :
  - 2 ^ 31 <= id < 2 ^ 31 ->
  (exists req params,
    jsonrpc__req_ubuslist id sid pattern = Some req /\
    jsonrpc_blob_req_parse (blobmsg_add_object req) =
      (0, Req (Some ("id", BInt32 (u32 id))) (Some "2.0") (Some "list") (Some params)) /\
    ubusrpc_blob_parse "list" params =
      (JSONRPC_ERRORCODE__OK, Some (UbusRpc (Some (default UBUS_DEFAULT_SID sid))
         (ListArgs (Some pattern)) (Some ubusrpc_handle_list)))) /\
  (exists req params,
    jsonrpc__req_ubuslisten id sid pattern = Some req /\
    jsonrpc_blob_req_parse (blobmsg_add_object req) =
      (0, Req (Some ("id", BInt32 (u32 id))) (Some "2.0") (Some "subscribe") (Some params)) /\
    ubusrpc_blob_parse "subscribe" params =
      (JSONRPC_ERRORCODE__OK, Some (UbusRpc (Some (default UBUS_DEFAULT_SID sid))
         (SubArgs (Some pattern)) (Some ubusrpc_handle_sub)))).
Proof.
  intros Hid. split; eexists _, _; (split; [reflexivity|]).
  all: split; [rewrite add_object_object; cbn;
    rewrite !json_blob_string, json_blob_int, json_blob_array by done; apply req_parse_ok|].
  - unfold ubusrpc_blob_parse, supported_methods, ubusrpc_blob_list_parse, ubusrpc_blob_list_parse_.
    cbn -[blobmsg_parse_array blobmsg_attrs blobmsg_get_string tb_get]. rewrite attrs_array, parse_array_all.
    + cbn. by rewrite !json_blob_string, !get_string_attr.
    + cbn. rewrite !json_blob_string. repeat constructor; by right || by left.
  - unfold ubusrpc_blob_parse, supported_methods, ubusrpc_blob_sub_parse, ubusrpc_blob_sub_parse_.
    cbn -[blobmsg_parse_array blobmsg_attrs blobmsg_get_string tb_get]. rewrite attrs_array, parse_array_all.
    + cbn. by rewrite !json_blob_string, !get_string_attr.
    + cbn. rewrite !json_blob_string. repeat constructor; by right || by left.
Qed.

Lemma pattern_request_roundtrip_witness :
  (exists req params,
    jsonrpc__req_ubuslist 2 (Some "abc") "*" = Some req /\
    jsonrpc_blob_req_parse (H := ref_libubox) (blobmsg_add_object (LibUbox := ref_libubox) req) =
      (0, Req (Some ("id", BInt32 (u32 2))) (Some "2.0") (Some "list") (Some params)) /\
    ubusrpc_blob_parse (H := ref_libubox) "list" params =
      (JSONRPC_ERRORCODE__OK, Some (UbusRpc (Some (default UBUS_DEFAULT_SID (Some "abc")))
         (ListArgs (Some "*")) (Some ubusrpc_handle_list)))) /\
  (exists req params,
    jsonrpc__req_ubuslisten 2 (Some "abc") "*" = Some req /\
    jsonrpc_blob_req_parse (H := ref_libubox) (blobmsg_add_object (LibUbox := ref_libubox) req) =
      (0, Req (Some ("id", BInt32 (u32 2))) (Some "2.0") (Some "subscribe") (Some params)) /\
    ubusrpc_blob_parse (H := ref_libubox) "subscribe" params =
      (JSONRPC_ERRORCODE__OK, Some (UbusRpc (Some (default UBUS_DEFAULT_SID (Some "abc")))
         (SubArgs (Some "*")) (Some ubusrpc_handle_sub)))).
Proof. apply (pattern_request_roundtrip (H1 := ref_json_blob_inst) 2 (Some "abc") "*"). lia. Defined.

(** [jsonrpc_blob_req_parse] accepts only a message with a "jsonrpc" field
    that is the string 2.0, a string "method" and an array "params", and then
    returns these; whatever it returns, the id is the "id" field of the message
    if it found one, so that an error can be answered with it. *)
Theorem req_parse_accepts `{LibUbox} (blob : list attr) :
  let '(rc, r) := jsonrpc_blob_req_parse blob in
  (forall a, req_id r = Some a -> a ∈ blob /\ a.1 = "id") /\
  if decide (rc = 0) then
    exists v m p, v ∈ blob /\ v.1 = "jsonrpc" /\ blobmsg_type_of v = BLOBMSG_TYPE_STRING /\
      blobmsg_get_string v = "2.0" /\ m ∈ blob /\ m.1 = "method" /\
      blobmsg_type_of m = BLOBMSG_TYPE_STRING /\ p ∈ blob /\ p.1 = "params" /\
      blobmsg_type_of p = BLOBMSG_TYPE_ARRAY /\
      req_method r = Some (blobmsg_get_string m) /\ req_params r = Some p
  else -4 <= rc < 0 /\ req_method r = None /\ req_params r = None.
Proof.
  unfold jsonrpc_blob_req_parse. set (tb := blobmsg_parse rpc_policy blob).
  assert (forall a, tb_get tb 1 = Some a -> a ∈ blob /\ a.1 = "id") as Hid.
  { intros a (p & [= <-] & ? & ? & _)%tb_get_sound. done. }
  destruct (tb_get tb 0) as [v|] eqn:E0; [|done].
  destruct (tb_get tb 2) as [m|] eqn:E2; [|done].
  destruct (tb_get tb 3) as [p|] eqn:E3; [|done].
  apply tb_get_sound in E0 as (p0 & [= <-] & ? & ? & [|]); [done|].
  apply tb_get_sound in E2 as (p2 & [= <-] & ? & ? & [|]); [done|].
  apply tb_get_sound in E3 as (p3 & [= <-] & ? & ? & [|]); [done|].
  destruct (Z.eqb_spec (strcmp "2.0" (blobmsg_get_string v)) 0) as [Ev|Ev]; simpl; [|done].
  apply strcmp_eq in Ev. split; [done|]. exists v, m, p. split_and!; done.
Qed.

Lemma parse_in_cases `{LibUbox} methods method params :
  match ubusrpc_blob_parse_in methods method params with
  | (e, Some r) => e = JSONRPC_ERRORCODE__OK /\
      exists f h r0, (method, f, h) ∈ methods /\ f params = Some r0 /\
        r = UbusRpc (rpc_sid r0) (rpc_args_of r0) (Some h)
  | (e, None) =>
      (e = JSONRPC_ERRORCODE__METHOD_NOT_FOUND /\ method ∉ (fun m => m.1.1) <$> methods) \/
      (e = JSONRPC_ERRORCODE__INVALID_PARAMS /\
         exists f h, (method, f, h) ∈ methods /\ f params = None)
  end.
Proof.
  induction methods as [|[[name f] h] ms IH]; simpl; [left; split; [done|set_solver]|].
  destruct (Z.eqb_spec (strcmp name method) 0) as [E|E].
  - apply strcmp_eq in E as ->. destruct (f params) as [r0|] eqn:Ef.
    + split; [done|]. exists f, h, r0. split; [left|done].
    + right. split; [done|]. exists f, h. split; [left|done].
  - assert (name <> method) by (by rewrite <- strcmp_eq).
    destruct (ubusrpc_blob_parse_in ms method params) as [e [r|]].
    + destruct IH as (-> & f' & h' & r0 & ? & ?). split; [done|]. exists f', h', r0. by split; [right|].
    + destruct IH as [[-> Hno]|(-> & f' & h' & ? & ?)].
      * left. split; [done|]. set_solver.
      * right. split; [done|]. exists f', h'. by split; [right|].
Qed.

Lemma call_parse_spec `{LibUbox} blob r :
  ubusrpc_blob_call_parse blob = Some r ->
  exists sid object method params,
    blobmsg_parse_array call_policy (blobmsg_attrs blob) =
      [Some sid; Some object; Some method; Some params] /\
    Forall (fun a => blobmsg_name a <> "_owsd_listen") (blobmsg_attrs params) /\
    r = UbusRpc (Some (blobmsg_get_string sid))
          (CallArgs (blobmsg_get_string object) (blobmsg_get_string method) (blobmsg_attrs params)) None.
Proof.
  unfold ubusrpc_blob_call_parse, ubusrpc_blob_call_parse_.
  destruct (negb _); [done|].
  destruct (blobmsg_parse_array call_policy (blobmsg_attrs blob))
    as [|[sid|] [|[o|] [|[m|] [|[p|] [|??]]]]] eqn:E; try done.
  destruct (existsb _ _) eqn:Ex; [done|]. intros [= <-]. exists sid, o, m, p.
  split_and!; [done| |done]. apply Forall_forall. intros a Ha Hn.
  assert (existsb (fun cur => strcmp "_owsd_listen" (blobmsg_name cur) =? 0) (blobmsg_attrs p) = true);
    [|congruence].
  apply existsb_exists. exists a. split; [by apply list_elem_of_In|]. by rewrite Hn.
Qed.

(** The dispatch of [ubusrpc_blob_parse].  It returns arguments exactly
    with the code OK, and then the handler is the one of the named method;
    without arguments the code says whether the method is unknown or its
    parameters are refused. *)
Theorem rpc_dispatch `{LibUbox} (method : string) (params : attr) :
  match ubusrpc_blob_parse method params with
  | (e, Some r) => e = JSONRPC_ERRORCODE__OK /\
      exists h, rpc_handler r = Some h /\
        (method, h) ∈ [("call", ubusrpc_handle_call); ("list", ubusrpc_handle_list);
          ("subscribe", ubusrpc_handle_sub); ("subscribe-list", ubusrpc_handle_sub_list);
          ("unsubscribe", ubusrpc_handle_unsub)]
  | (e, None) =>
      if decide (method ∈ ["call"; "list"; "subscribe"; "subscribe-list"; "unsubscribe"])
      then e = JSONRPC_ERRORCODE__INVALID_PARAMS
      else e = JSONRPC_ERRORCODE__METHOD_NOT_FOUND
  end.
Proof.
  pose proof (parse_in_cases supported_methods method params) as Hc. unfold ubusrpc_blob_parse.
  destruct (ubusrpc_blob_parse_in supported_methods method params) as [e [r|]].
  - destruct Hc as (-> & f & h & r0 & Hin & _ & ->). split; [done|]. exists h. split; [done|].
    unfold supported_methods in Hin. set_solver.
  - assert ((fun m => m.1.1) <$> supported_methods =
      ["call"; "list"; "subscribe"; "subscribe-list"; "unsubscribe"]) as Hn by done.
    destruct Hc as [[-> Hno]|(-> & f & h & Hin & _)].
    + rewrite Hn in Hno. by rewrite decide_False.
    + rewrite decide_True; [done|]. rewrite <- Hn.
      apply list_elem_of_fmap. by exists (method, f, h).
Qed.

(** No call a client can make reaches a handler with the parameter
    "_owsd_listen", by which owsd itself tells ubus the listening interface. *)
Theorem call_blacklist `{LibUbox} (method : string) (params : attr) (e : Z) (r : ubusrpc_blob)
    (object m : string) (l : list attr) :
  ubusrpc_blob_parse method params = (e, Some r) -> rpc_args_of r = CallArgs object m l ->
  Forall (fun a => blobmsg_name a <> "_owsd_listen") l.
Proof.
  intros Hp Hr. pose proof (parse_in_cases supported_methods method params) as Hc.
  unfold ubusrpc_blob_parse in Hp. rewrite Hp in Hc.
  destruct Hc as (_ & f & h & r0 & Hin & Hf & ->). simpl in Hr.
  unfold supported_methods in Hin. rewrite !elem_of_cons in Hin.
  destruct Hin as [E|[E|[E|[E|[E|[]%elem_of_nil]]]]]; simplify_eq.
  - apply call_parse_spec in Hf as (? & ? & ? & ? & _ & Hall & ->). by simplify_eq/=.
  - unfold ubusrpc_blob_list_parse, ubusrpc_blob_list_parse_ in Hf. repeat case_match; simplify_eq/=.
  - unfold ubusrpc_blob_sub_parse, ubusrpc_blob_sub_parse_ in Hf. repeat case_match; simplify_eq/=.
  - unfold ubusrpc_blob_sub_list_parse, ubusrpc_blob_sub_list_parse_ in Hf. repeat case_match; simplify_eq/=.
  - unfold ubusrpc_blob_sub_parse, ubusrpc_blob_sub_parse_ in Hf. repeat case_match; simplify_eq/=.
Qed.

Lemma call_blacklist_witness :
  Forall (fun a => blobmsg_name a <> "_owsd_listen") [("v", BInt32 1)].
Proof.
  apply (call_blacklist (H := ref_libubox) "call"
    ("params", BArray [("", BString "s"); ("", BString "o"); ("", BString "m"); ("", BTable [("v", BInt32 1)])])
    0 (UbusRpc (Some "s") (CallArgs "o" "m" [("v", BInt32 1)]) (Some ubusrpc_handle_call)) "o" "m").
  - reflexivity.
  - reflexivity.
Defined.
