(* ===== verification/PeerIO.v ===== *)
(** * wsubus.impl.h: the parts of a peer that are data structures

    The slots of the calls proxied to a remote bus (a bit mask and an array),
    the session id buffer, the request limit, the age of a request and the
    write queue with its drain loop.  [lws_write] is a parameter: the results
    of its calls, in order. *)

From stdpp Require Import base list strings numbers sorting sets.
From S2P Require Import Prelude CStrings.

(** ** The proxied calls of a remote bus *)

Definition MAX_PROXIED_CALLS : Z := 20.

(** [ffs] and [__builtin_ctz] of a 32-bit integer: the lowest set bit. *)
Definition bits32 : list Z := seqZ 0 32.

Fixpoint lowest_bit (x : Z) (bits : list Z) : option Z :=
  match bits with
  | [] => None
  | i :: bits' => if Z.testbit x i then Some i else lowest_bit x bits'
  end.

Definition ffs (x : Z) : Z := match lowest_bit x bits32 with Some i => i + 1 | None => 0 end.
Definition ctz (x : Z) : Z := default 32 (lowest_bit x bits32).

(** [waiting_for.call] is a bit field of [MAX_PROXIED_CALLS] bits, promoted to
    [int] by the operators; the result is the index of the slot. *)
Definition wsu_proxied_call_new (call : Z) : option Z * Z :=
  let call_idx := ffs (Z.lnot call) in
  if (call_idx =? 0) || (MAX_PROXIED_CALLS <? call_idx) then (None, call)
  else
    let call_idx := call_idx - 1 in
    (Some call_idx, Z.lor call (Z.shiftl 1 call_idx)).

Definition wsu_proxied_call_free (call : Z) (idx : Z) : Z :=
  if (0 <=? idx) && (idx <? MAX_PROXIED_CALLS) then Z.land call (Z.lnot (Z.shiftl 1 idx))
  else call.

Definition _wsu_lowbit (x : Z) : Z := Z.land x (- x).

(** [wsu_proxied_call_foreach]: the slots it visits, in order.  Each turn
    clears one bit of the mask, so 20 turns are enough. *)
Fixpoint call_foreach (fuel : nat) (mask : Z) : list Z :=
  match fuel with
  | O => []
  | S f =>
      let callbit := _wsu_lowbit mask in
      if callbit =? 0 then []
      else ctz callbit :: call_foreach f (Z.land mask (Z.lnot callbit))
  end.

Definition wsu_proxied_call_foreach (call : Z) : list Z :=
  call_foreach (Z.to_nat MAX_PROXIED_CALLS) call.

(** ** The session id buffer *)

Definition UBUS_SID_MAX_STRLEN : nat := 32.

(** [peer->sid[0] = 0; strncat(peer->sid, sid, sizeof peer->sid - 1)]; a NULL
    [sid] is read through. *)
Definition wsu_sid_update (sid : option string) : option string :=
  match sid with
  | Some sid => Some (strncat "" sid UBUS_SID_MAX_STRLEN)
  | None => None
  end.

(** ** The request limit *)

Definition MAX_ASYNC_REQS : Z := 512.

(** [num_active_ses] is a [size_t], so the division and the comparison are
    unsigned. *)
Definition recalc_req_max (total_req_max num_active_ses : Z) : Z :=
  if num_active_ses =? 0 then MAX_ASYNC_REQS
  else if u64 total_req_max / num_active_ses <? MAX_ASYNC_REQS
  then s32 (u64 total_req_max / num_active_ses) else MAX_ASYNC_REQS.

(** ** The age of a request *)

Record timespec := TimeSpec { tv_sec : Z; tv_nsec : Z }.

Definition NSEC : Z := 1000000000.

(** The two loops of [wsubus_percall_clean_stale]; both differences are of
    nanosecond fields, so a few turns are enough. *)
Fixpoint nsec_down (fuel : nat) (passed nsec : Z) : option (Z * Z) :=
  if NSEC <? nsec then
    match fuel with O => None | S f => nsec_down f (passed + 1) (nsec - NSEC) end
  else Some (passed, nsec).

Fixpoint nsec_up (fuel : nat) (passed nsec : Z) : option (Z * Z) :=
  if nsec <? 0 then
    match fuel with O => None | S f => nsec_up f (passed - 1) (nsec + NSEC) end
  else Some (passed, nsec).

Definition passed_seconds (cur start : timespec) : option Z :=
  let sec := s32 (tv_sec cur - tv_sec start) in
  match nsec_down 2 sec (tv_nsec cur - tv_nsec start) with
  | Some (p, n) => match nsec_up 2 p n with Some (p', _) => Some p' | None => None end
  | None => None
  end.

Definition stale (cur start : timespec) : bool :=
  match passed_seconds cur start with Some p => negb (p <? 10) | None => false end.

(** ** The write queue *)

Definition WSUBUS_MAX_MESSAGE_LEN : Z := Z.shiftl 1 27.

Record wsu_writereq := WriteReq { w_buf : string; w_written : nat }.

(** [wsu_queue_write_str]: NULL is refused with -1; the assertion on the
    length fails with [None]; [on_writable] is what
    [lws_callback_on_writable] returns. *)
Definition wsu_queue_write_str (on_writable : Z) (response_str : option string)
  : M (list wsu_writereq) Z :=
  match response_str with
  | None => M_ret (-1)
  | Some str =>
      assert_ (strlen str <? WSUBUS_MAX_MESSAGE_LEN) ;;;
      modify (fun q => q ++ [WriteReq str 0]) ;;;
      M_ret (if on_writable <? 0 then -3 else 0)
  end.

(** One call of [lws_write] is a pair: its result, and whether lws buffered a
    part. *)

(** The [do ... while] loop on one request: the request with what was written,
    the text given to lws, the results left and the last
    [lws_partial_buffered]; [inl] is an error of [lws_write]. *)
Inductive drain_result :=
  | DrainError (sent : string) (w : wsu_writereq)
  | Drained (sent : string) (w : wsu_writereq) (partial : bool) (rest : list (Z * bool)).

Fixpoint drain_one (w : wsu_writereq) (oracle : list (Z * bool)) : option drain_result :=
  match oracle with
  | [] => None
  | (written, partial) :: rest =>
      if written <? 0 then Some (DrainError "" w)
      else
        let data := str_take (Z.to_nat written) (str_drop (w_written w) (w_buf w)) in
        let w' := WriteReq (w_buf w) (w_written w + Z.to_nat written) in
        if (w_written w' <? String.length (w_buf w'))%nat && negb partial then
          match drain_one w' rest with
          | Some (DrainError sent w'') => Some (DrainError (data +:+ sent) w'')
          | Some (Drained sent w'' p r) => Some (Drained (data +:+ sent) w'' p r)
          | None => None
          end
        else Some (Drained data w' partial rest)
  end.

(** [wsubus_tx_text]: the return value, the text given to lws and the queue
    that is left. *)
Fixpoint wsubus_tx_text (q : list wsu_writereq) (oracle : list (Z * bool))
  : option (Z * string * list wsu_writereq) :=
  match q with
  | [] => Some (0, "", [])
  | w :: q' =>
      match drain_one w oracle with
      | None => None
      | Some (DrainError sent w') => Some (-1, sent, w' :: q')
      | Some (Drained sent w' partial rest) =>
          let keep := if (w_written w' =? String.length (w_buf w'))%nat then [] else [w'] in
          if partial then Some (0, sent, keep ++ q')
          else match wsubus_tx_text q' rest with
               | Some (rc, sent', q'') => Some (rc, sent +:+ sent', keep ++ q'')
               | None => None
               end
      end
  end.

(** ** Lemmas: bits *)

Lemma lowest_bit_spec x bits :
  match lowest_bit x bits with
  | Some i => exists b1 b2, bits = b1 ++ i :: b2 /\ Z.testbit x i = true /\
      Forall (fun j => Z.testbit x j = false) b1
  | None => Forall (fun j => Z.testbit x j = false) bits
  end.
Proof.
  induction bits as [|i bits IH]; simpl; [done|]. destruct (Z.testbit x i) eqn:E.
  - exists [], bits. done.
  - destruct (lowest_bit x bits) as [j|]; [|by constructor].
    destruct IH as (b1 & b2 & -> & ? & ?). exists (i :: b1), b2. split_and!; [done..|by constructor].
Qed.

Lemma bits32_split i b1 b2 : bits32 = b1 ++ i :: b2 -> 0 <= i < 32 /\ forall j, 0 <= j < i -> j ∈ b1.
Proof.
  intros E. assert (StronglySorted Z.lt bits32) as Hs by (vm_compute; repeat constructor).
  assert (forall k, k ∈ bits32 <-> 0 <= k < 32) as Hin by (intros k; apply elem_of_seqZ).
  assert (0 <= i < 32) as Hi by (apply Hin; rewrite E; set_solver). split; [done|].
  intros j Hj. assert (j ∈ b1 ++ i :: b2) as Hj' by (rewrite <- E; apply Hin; lia).
  rewrite elem_of_app, elem_of_cons in Hj'. destruct Hj' as [?|[->|Hj']]; [done|lia|].
  rewrite E in Hs. assert (Z.lt i j); [|lia].
  apply (StronglySorted_app_cross Z.lt (b1 ++ [i]) b2); [by rewrite <- app_assoc| |done].
  set_solver.
Qed.

Lemma lowest32 x :
  match lowest_bit x bits32 with
  | Some i => 0 <= i < 32 /\ Z.testbit x i = true /\ forall j, 0 <= j < i -> Z.testbit x j = false
  | None => forall j, 0 <= j < 32 -> Z.testbit x j = false
  end.
Proof.
  pose proof (lowest_bit_spec x bits32) as Hs. destruct (lowest_bit x bits32) as [i|].
  - destruct Hs as (b1 & b2 & E & Hi & Hf). apply bits32_split in E as [? Hj].
    rewrite Forall_forall in Hf. auto.
  - rewrite Forall_forall in Hs. intros j Hj. apply Hs, elem_of_seqZ. lia.
Qed.

Lemma lowbit_odd y : Z.land (2 * y + 1) (- (2 * y + 1)) = 1.
Proof.
  replace (- (2 * y + 1)) with (2 * Z.lnot y + 1) by (unfold Z.lnot; lia).
  apply Z.bits_inj'. intros k Hk. rewrite Z.land_spec.
  destruct (decide (k = 0)) as [->|].
  - by rewrite !Z.testbit_odd_0.
  - replace k with (Z.succ (k - 1)) by lia.
    rewrite !Z.testbit_odd_succ, Z.lnot_spec, andb_negb_r by lia.
    change 1 with (2 * 0 + 1). by rewrite Z.testbit_odd_succ, Z.bits_0 by lia.
Qed.

(** A number whose lowest set bit is [n]. *)
Lemma low_zeros x n :
  0 <= n -> (forall j, 0 <= j < n -> Z.testbit x j = false) -> x = 2 ^ n * (x / 2 ^ n).
Proof.
  intros Hn Hz. rewrite <- Z.shiftr_div_pow2, Z.mul_comm, <- Z.shiftl_mul_pow2 by done.
  apply Z.bits_inj'. intros k Hk. destruct (decide (k < n)).
  - rewrite Z.shiftl_spec_low by done. apply Hz. lia.
  - rewrite Z.shiftl_spec_high, Z.shiftr_spec by lia. f_equal. lia.
Qed.

Lemma lowbit_spec x n :
  0 <= n -> Z.testbit x n = true -> (forall j, 0 <= j < n -> Z.testbit x j = false) ->
  _wsu_lowbit x = 2 ^ n.
Proof.
  intros Hn Hb Hz. pose proof (low_zeros x n Hn Hz) as Hx.
  set (q := x / 2 ^ n) in *.
  assert (Z.odd q = true) as Hq.
  { subst q. rewrite <- Z.shiftr_div_pow2 by done. rewrite <- Z.bit0_odd, Z.shiftr_spec by lia. done. }
  apply Z.odd_spec in Hq as [y Hy].
  unfold _wsu_lowbit. rewrite Hx.
  replace (- (2 ^ n * q)) with (- q * 2 ^ n) by lia. rewrite (Z.mul_comm (2 ^ n) q).
  rewrite <- !Z.shiftl_mul_pow2, <- Z.shiftl_land by done. rewrite Hy, lowbit_odd.
  by rewrite Z.shiftl_1_l.
Qed.

Definition slots (call : Z) : Prop := 0 <= call < 2 ^ MAX_PROXIED_CALLS.

Lemma slots_high call k : slots call -> MAX_PROXIED_CALLS <= k -> Z.testbit call k = false.
Proof.
  intros [H0 H1] Hk. destruct (decide (call = 0)) as [->|]; [apply Z.bits_0|].
  apply Z.bits_above_log2; [done|].
  assert (Z.log2 call < MAX_PROXIED_CALLS); [|lia]. apply Z.log2_lt_pow2; lia.
Qed.

Lemma slots_bits call :
  0 <= call -> (forall k, MAX_PROXIED_CALLS <= k -> Z.testbit call k = false) -> slots call.
Proof.
  intros H0 Hh. split; [done|].
  destruct (decide (call = 0)) as [->|]; [done|]. apply Z.log2_lt_pow2; [lia|].
  destruct (decide (MAX_PROXIED_CALLS <= Z.log2 call)) as [Hl|]; [|lia].
  apply Hh in Hl. rewrite Z.bit_log2 in Hl by lia. done.
Qed.

Lemma testbit_one_shiftl i k : 0 <= i -> 0 <= k -> Z.testbit (Z.shiftl 1 i) k = bool_decide (k = i).
Proof.
  intros. rewrite Z.shiftl_1_l. case_bool_decide.
  - subst. by apply Z.pow2_bits_true.
  - by apply Z.pow2_bits_false.
Qed.

Lemma set_bit_spec call i :
  slots call -> 0 <= i < MAX_PROXIED_CALLS ->
  slots (Z.lor call (Z.shiftl 1 i)) /\
  forall k, 0 <= k -> Z.testbit (Z.lor call (Z.shiftl 1 i)) k = Z.testbit call k || bool_decide (k = i).
Proof.
  intros Hc Hi.
  assert (forall k, 0 <= k -> Z.testbit (Z.lor call (Z.shiftl 1 i)) k =
    Z.testbit call k || bool_decide (k = i)) as Hb.
  { intros k Hk. by rewrite Z.lor_spec, testbit_one_shiftl by lia. }
  split; [|done]. apply slots_bits.
  - apply Z.lor_nonneg. split; [apply Hc|]. apply Z.shiftl_nonneg. lia.
  - intros k Hk. unfold MAX_PROXIED_CALLS in *.
    rewrite Hb, (slots_high call k), bool_decide_eq_false_2 by (done || lia). done.
Qed.

Lemma clear_bit_spec call i :
  slots call -> 0 <= i < MAX_PROXIED_CALLS ->
  slots (Z.land call (Z.lnot (Z.shiftl 1 i))) /\
  forall k, 0 <= k ->
    Z.testbit (Z.land call (Z.lnot (Z.shiftl 1 i))) k = Z.testbit call k && negb (bool_decide (k = i)).
Proof.
  intros Hc Hi.
  assert (forall k, 0 <= k -> Z.testbit (Z.land call (Z.lnot (Z.shiftl 1 i))) k =
    Z.testbit call k && negb (bool_decide (k = i))) as Hb.
  { intros k Hk. by rewrite Z.land_spec, Z.lnot_spec, testbit_one_shiftl by lia. }
  split; [|done]. apply slots_bits.
  - apply Z.land_nonneg. left. apply Hc.
  - intros k Hk. unfold MAX_PROXIED_CALLS in *. by rewrite Hb, (slots_high call k) by (done || lia).
Qed.

(** The slots in use, in order. *)
Definition used_slots (call : Z) : list Z :=
  filter (fun k => Z.testbit call k = true) (seqZ 0 MAX_PROXIED_CALLS).

Lemma slots_zero call :
  slots call -> (forall j, 0 <= j < 32 -> Z.testbit call j = false) -> call = 0.
Proof.
  intros Hc Hz. apply Z.bits_inj'. intros k Hk. rewrite Z.bits_0.
  destruct (decide (k < 32)); [apply Hz; lia|]. apply slots_high; [done|].
  unfold MAX_PROXIED_CALLS. lia.
Qed.

(** One turn of the loop takes the lowest slot off. *)
Lemma foreach_step f call :
  slots call -> call <> 0 ->
  exists i, 0 <= i < MAX_PROXIED_CALLS /\ Z.testbit call i = true /\
    (forall j, 0 <= j < i -> Z.testbit call j = false) /\
    call_foreach (S f) call = i :: call_foreach f (Z.land call (Z.lnot (Z.shiftl 1 i))).
Proof.
  intros Hc Hne. pose proof (lowest32 call) as Hl.
  destruct (lowest_bit call bits32) as [i|]; [|by apply slots_zero in Hl].
  destruct Hl as (Hi & Hb & Hz). exists i.
  assert (0 <= i < MAX_PROXIED_CALLS) as Hi'.
  { split; [lia|]. destruct (decide (i < MAX_PROXIED_CALLS)); [done|].
    rewrite (slots_high call i) in Hb; [done..|lia]. }
  split_and!; [apply Hi'..|done|done|].
  cbn [call_foreach]. rewrite (lowbit_spec call i) by (done || lia).
  rewrite (proj2 (Z.eqb_neq _ _)) by (apply Z.pow_nonzero; lia).
  rewrite Z.shiftl_1_l. f_equal. unfold ctz.
  pose proof (lowest32 (2 ^ i)) as H2. destruct (lowest_bit (2 ^ i) bits32) as [j|]; simpl.
  - destruct H2 as (Hj & Hbj & _). destruct (decide (i = j)); [done|].
    rewrite Z.pow2_bits_false in Hbj by done. done.
  - specialize (H2 i Hi). by rewrite Z.pow2_bits_true in H2 by lia.
Qed.

Lemma filter_bits_ext (a b : Z) (l : list Z) :
  (forall k, k ∈ l -> Z.testbit a k = Z.testbit b k) ->
  filter (fun k => Z.testbit a k = true) l = filter (fun k => Z.testbit b k = true) l.
Proof.
  induction l as [|k l IH]; [done|]. intros Hl. rewrite !filter_cons, IH.
  - rewrite (Hl k) by (apply elem_of_cons; auto). done.
  - intros j Hj. apply Hl, elem_of_cons. auto.
Qed.

Lemma filter_bits_none (a : Z) (l : list Z) :
  (forall k, k ∈ l -> Z.testbit a k = false) -> filter (fun k => Z.testbit a k = true) l = [].
Proof.
  intros Hl. rewrite (filter_bits_ext a 0) by (intros; by rewrite Hl, Z.bits_0).
  clear. induction l as [|k l IH]; [done|]. rewrite filter_cons, Z.bits_0. by rewrite IH.
Qed.

Lemma foreach_from f call n :
  slots call -> 0 <= n <= MAX_PROXIED_CALLS -> MAX_PROXIED_CALLS - n <= Z.of_nat f ->
  (forall j, 0 <= j < n -> Z.testbit call j = false) ->
  call_foreach f call =
  filter (fun k => Z.testbit call k = true) (seqZ n (MAX_PROXIED_CALLS - n)).
Proof.
  revert call n. induction f as [|f IH]; intros call n Hc Hn Hf Hz.
  { rewrite seqZ_nil by lia. done. }
  destruct (decide (call = 0)) as [->|Hne].
  { rewrite filter_bits_none; [done|]. intros. apply Z.bits_0. }
  destruct (foreach_step f call Hc Hne) as (i & Hi & Hb & Hlow & ->).
  destruct (clear_bit_spec call i Hc Hi) as [Hc' Hbits].
  assert (n <= i) as Hni.
  { destruct (decide (n <= i)); [done|]. rewrite Hz in Hb; [done|lia]. }
  rewrite (IH _ (i + 1)); [|done|lia|lia|].
  - replace (MAX_PROXIED_CALLS - n) with ((i - n) + (MAX_PROXIED_CALLS - i)) by lia.
    rewrite seqZ_app, filter_app by lia. rewrite (filter_bits_none call (seqZ n _)).
    + replace (n + (i - n)) with i by lia. simpl. rewrite (seqZ_cons i) by lia.
      rewrite filter_cons, decide_True by done. f_equal.
      replace (Z.succ i) with (i + 1) by lia.
      replace (Z.pred (MAX_PROXIED_CALLS - i)) with (MAX_PROXIED_CALLS - (i + 1)) by lia.
      apply filter_bits_ext. intros k Hk%elem_of_seqZ.
      rewrite Hbits, bool_decide_eq_false_2 by lia. apply andb_true_r.
    + intros k Hk%elem_of_seqZ. apply Hlow. lia.
  - intros j Hj. rewrite Hbits by lia. destruct (decide (j = i)) as [->|].
    + by rewrite bool_decide_eq_true_2, andb_false_r.
    + by rewrite Hlow by lia.
Qed.

Lemma proxied_call_new_spec call :
  slots call ->
  match wsu_proxied_call_new call with
  | (Some i, call') => 0 <= i < MAX_PROXIED_CALLS /\ Z.testbit call i = false /\
      (forall j, 0 <= j < i -> Z.testbit call j = true) /\ slots call' /\
      (forall k, 0 <= k -> Z.testbit call' k = Z.testbit call k || bool_decide (k = i))
  | (None, call') => call' = call /\
      forall j, 0 <= j < MAX_PROXIED_CALLS -> Z.testbit call j = true
  end.
Proof.
  intros Hc. unfold wsu_proxied_call_new, ffs. pose proof (lowest32 (Z.lnot call)) as Hl.
  unfold MAX_PROXIED_CALLS in *.
  destruct (lowest_bit (Z.lnot call) bits32) as [i|].
  - destruct Hl as (Hi & Hb & Hlow). rewrite Z.lnot_spec in Hb by lia.
    assert (forall j, 0 <= j < i -> Z.testbit call j = true) as Hused.
    { intros j Hj. specialize (Hlow j Hj). rewrite Z.lnot_spec in Hlow by lia.
      by destruct (Z.testbit call j). }
    rewrite (proj2 (Z.eqb_neq (i + 1) 0)) by lia. simpl.
    destruct (Z.ltb_spec 20 (i + 1)) as [Hlt|Hge].
    + split; [done|]. intros j Hj. apply Hused. lia.
    + replace (i + 1 - 1) with i by lia. destruct (set_bit_spec call i Hc) as [? ?].
      { unfold MAX_PROXIED_CALLS. lia. }
      split_and!; try done; try lia. by destruct (Z.testbit call i).
  - exfalso. specialize (Hl 31 ltac:(lia)). rewrite Z.lnot_spec in Hl by lia.
    rewrite (slots_high call 31) in Hl; done.
Qed.

Lemma proxied_call_free_spec call i :
  slots call -> 0 <= i < MAX_PROXIED_CALLS ->
  slots (wsu_proxied_call_free call i) /\
  forall k, 0 <= k -> Z.testbit (wsu_proxied_call_free call i) k =
    Z.testbit call k && negb (bool_decide (k = i)).
Proof.
  intros Hc Hi. unfold wsu_proxied_call_free.
  rewrite (proj2 (Z.leb_le 0 i)), (proj2 (Z.ltb_lt i _)) by lia. by apply clear_bit_spec.
Qed.

Lemma proxied_call_foreach_spec call :
  slots call -> wsu_proxied_call_foreach call = used_slots call.
Proof.
  intros. unfold wsu_proxied_call_foreach, used_slots. rewrite (foreach_from _ call 0); try done; lia.
Qed.

(** ** Properties *)

(** The slots of proxied calls behave as a set of at most 20 indexes.
    [wsu_proxied_call_new] takes the lowest index not in use and fails exactly
    when all 20 are, [wsu_proxied_call_free] gives one back, and
    [wsu_proxied_call_foreach] visits the indexes in use once each, in order,
    although the loop reads nothing but the bit mask. *)
Theorem proxied_calls_set (call : Z) :
  slots call ->
  (match wsu_proxied_call_new call with
   | (Some i, call') => 0 <= i < MAX_PROXIED_CALLS /\ Z.testbit call i = false /\
       (forall j, 0 <= j < i -> Z.testbit call j = true) /\ slots call' /\
       (forall k, 0 <= k -> Z.testbit call' k = Z.testbit call k || bool_decide (k = i))
   | (None, call') => call' = call /\
       forall j, 0 <= j < MAX_PROXIED_CALLS -> Z.testbit call j = true
   end) /\
  (forall i, 0 <= i < MAX_PROXIED_CALLS -> slots (wsu_proxied_call_free call i) /\
     forall k, 0 <= k -> Z.testbit (wsu_proxied_call_free call i) k =
       Z.testbit call k && negb (bool_decide (k = i))) /\
  wsu_proxied_call_foreach call = used_slots call.
Proof.
  intros Hc. split_and!; [by apply proxied_call_new_spec|by intros; apply proxied_call_free_spec|].
  by apply proxied_call_foreach_spec.
Qed.

Lemma proxied_calls_set_witness :
  wsu_proxied_call_new 5 = (Some 1, 7) /\ wsu_proxied_call_foreach 5 = used_slots 5.
Proof.
  split; [reflexivity|]. apply (proxied_calls_set 5). done.
Defined.

(** ** Lemmas: the write queue *)

(** What is still to be written, as one text. *)
Definition w_pending (w : wsu_writereq) : string := str_drop (w_written w) (w_buf w).

Fixpoint pending (q : list wsu_writereq) : string :=
  match q with [] => "" | w :: q' => w_pending w +:+ pending q' end.

Lemma str_take_drop n s : str_take n s +:+ str_drop n s = s.
Proof.
  revert s. induction n as [|n IH]; intros [|c s]; simpl; try done.
  rewrite str_app_cons. by rewrite IH.
Qed.

Lemma str_drop_drop n m s : str_drop (n + m) s = str_drop m (str_drop n s).
Proof.
  revert s. induction n as [|n IH]; intros s; [done|].
  destruct s as [|c s]; simpl; [by destruct m|apply IH].
Qed.

Lemma str_drop_all n s : (String.length s <= n)%nat -> str_drop n s = "".
Proof.
  revert s. induction n as [|n IH]; intros [|c s] Hn; simpl in *; try done; [lia|].
  apply IH. lia.
Qed.

Lemma drain_one_pending w oracle :
  match drain_one w oracle with
  | Some (DrainError sent w') | Some (Drained sent w' _ _) =>
      w_pending w = sent +:+ w_pending w' /\ w_buf w' = w_buf w
  | None => True
  end.
Proof.
  revert w. induction oracle as [|[n p] oracle IH]; intros w; simpl; [done|].
  destruct (n <? 0); [done|].
  set (w' := WriteReq _ _).
  assert (w_pending w = str_take (Z.to_nat n) (str_drop (w_written w) (w_buf w)) +:+ w_pending w') as Hw.
  { unfold w_pending. simpl. by rewrite str_drop_drop, str_take_drop. }
  destruct (_ && _); [|by split].
  specialize (IH w'). destruct (drain_one w' oracle) as [[sent w2|sent w2 p2 r]|]; [| |done].
  - destruct IH as [IH ->]. rewrite Hw, IH, str_app_assoc. done.
  - destruct IH as [IH ->]. rewrite Hw, IH, str_app_assoc. done.
Qed.

Lemma keep_pending w q :
  pending ((if (w_written w =? String.length (w_buf w))%nat then [] else [w]) ++ q) =
  w_pending w +:+ pending q.
Proof.
  destruct (Nat.eqb_spec (w_written w) (String.length (w_buf w))) as [E|]; [|done].
  unfold w_pending. by rewrite str_drop_all by lia.
Qed.

(** A request that was left without a partial write is done. *)
Lemma drain_one_done w oracle sent w' r :
  drain_one w oracle = Some (Drained sent w' false r) -> w_pending w' = "".
Proof.
  revert w sent. induction oracle as [|[n p] oracle IH]; intros w sent; simpl; [done|].
  destruct (n <? 0); [done|]. destruct p; rewrite ?andb_false_r, ?andb_true_r; [done|].
  destruct (Nat.ltb_spec (w_written w + Z.to_nat n) (String.length (w_buf w))).
  - destruct (drain_one _ oracle) as [[|s2 w2 p2 r2]|] eqn:E; try done.
    intros [= <- -> -> ->]. eauto.
  - intros [= <- <- <-]. apply str_drop_all. done.
Qed.

(** The drain loop neither loses, repeats nor reorders text.  Whatever
    [lws_write] answers, also on an error and with partial writes, the text
    handed to libwebsockets followed by what is left in the queue is the text
    that was in the queue. *)
Theorem tx_text_in_order (q : list wsu_writereq) (oracle : list (Z * bool)) :
  match wsubus_tx_text q oracle with
  | Some (rc, sent, q') => pending q = sent +:+ pending q'
  | None => True
  end.
Proof.
  revert oracle. induction q as [|w q IH]; intros oracle; simpl; [done|].
  pose proof (drain_one_pending w oracle) as Hd.
  destruct (drain_one w oracle) as [[sent w'|sent w' p r]|] eqn:E; [| |done]; destruct Hd as [-> _].
  - by rewrite str_app_assoc.
  - destruct p; [by rewrite keep_pending, str_app_assoc|].
    specialize (IH r). destruct (wsubus_tx_text q r) as [[[rc sent'] q'']|]; [|done].
    apply drain_one_done in E. by rewrite keep_pending, IH, E, !str_app_assoc.
Qed.

Lemma str_drop_length n s : String.length (str_drop n s) = (String.length s - n)%nat.
Proof.
  revert s. induction n as [|n IH]; intros s; [by rewrite Nat.sub_0_r|].
  destruct s; simpl; [done|apply IH].
Qed.

(** The same loop comes back. *)
Lemma drain_one_returns w oracle :
  Forall (fun r => r.1 <> 0) oracle -> (String.length (w_pending w) < length oracle)%nat ->
  match drain_one w oracle with
  | Some (Drained _ w' false r) =>
      (length oracle <= length r + S (String.length (w_pending w)))%nat /\
      Forall (fun r => r.1 <> 0) r
  | Some _ => True
  | None => False
  end.
Proof.
  revert w. induction oracle as [|[n p] oracle IH]; intros w; simpl; [lia|].
  intros [Hn Hor]%Forall_cons Hl. simpl in Hn. destruct (Z.ltb_spec n 0) as [|Hn0]; [done|].
  set (w' := WriteReq _ _).
  assert (String.length (w_pending w') = String.length (w_pending w) - Z.to_nat n)%nat as Hw'.
  { unfold w_pending. simpl. rewrite !str_drop_length. lia. }
  destruct p; rewrite ?andb_false_r, ?andb_true_r; [done|].
  destruct (Nat.ltb_spec (w_written w + Z.to_nat n) (String.length (w_buf w))) as [Hlt|Hge].
  - assert (0 < String.length (w_pending w))%nat as Hpos.
    { unfold w_pending. rewrite str_drop_length. lia. }
    specialize (IH w' Hor ltac:(lia)). revert IH.
    destruct (drain_one w' oracle) as [[|? ? [] ?]|]; try done. intros [? ?]. simpl in *. split; [lia|done].
  - split; [lia|done].
Qed.

(** The drain loop comes back.  If every call of [lws_write] makes progress
    or fails, it is called at most once per byte and once per message of the
    queue. *)
Theorem tx_text_returns (q : list wsu_writereq) (oracle : list (Z * bool)) :
  Forall (fun r => r.1 <> 0) oracle ->
  (String.length (pending q) + length q <= length oracle)%nat ->
  is_Some (wsubus_tx_text q oracle).
Proof.
  revert oracle. induction q as [|w q IH]; intros oracle Hor Hl; simpl in *; [eauto|].
  rewrite str_app_length in Hl.
  pose proof (drain_one_returns w oracle Hor ltac:(lia)) as Hd.
  destruct (drain_one w oracle) as [[|sent w' [] r]|]; eauto; [|done].
  destruct Hd as [Hr Hor']. destruct (IH r Hor' ltac:(lia)) as [[[rc s] q'] ->]. eauto.
Qed.

Lemma tx_text_returns_witness :
  is_Some (wsubus_tx_text [WriteReq "abc" 0; WriteReq "d" 0] [(2, false); (1, false); (1, false);
    (1, false); (1, false); (1, false)]).
Proof.
  apply (tx_text_returns [WriteReq "abc" 0; WriteReq "d" 0]).
  - repeat constructor; done.
  - simpl. lia.
Defined.

(** ** Ages and limits *)

(** A request is stale exactly when at least ten seconds of the monotonic
    clock have passed since it was made: the two loops that normalise the
    difference of the nanosecond fields compute the elapsed whole seconds. *)
Theorem stale_iff_ten_seconds (cur start : timespec) :
  0 <= tv_nsec cur < NSEC -> 0 <= tv_nsec start < NSEC ->
  - 2 ^ 31 <= tv_sec cur - tv_sec start < 2 ^ 31 ->
  stale cur start = true <->
  10 * NSEC <= (tv_sec cur * NSEC + tv_nsec cur) - (tv_sec start * NSEC + tv_nsec start).
Proof.
  intros Hc Hs Hd. unfold stale, passed_seconds, NSEC in *. rewrite s32_small by lia.
  cbn [nsec_down]. unfold NSEC. rewrite (proj2 (Z.ltb_ge 1000000000 _)) by lia.
  cbn [nsec_up]. destruct (Z.ltb_spec (tv_nsec cur - tv_nsec start) 0).
  - unfold NSEC. rewrite (proj2 (Z.ltb_ge (_ + _) 0)) by lia. rewrite negb_true_iff, Z.ltb_ge. lia.
  - rewrite negb_true_iff, Z.ltb_ge. lia.
Qed.

Lemma stale_iff_ten_seconds_witness :
  stale (TimeSpec 110 0) (TimeSpec 100 1) = true <->
  10 * NSEC <= (110 * NSEC + 0) - (100 * NSEC + 1).
Proof. apply (stale_iff_ten_seconds (TimeSpec 110 0) (TimeSpec 100 1)); simpl; unfold NSEC; lia. Defined.

(** The limit of requests in flight per session never exceeds 512, and
    with it the sessions together stay within the configured total. *)
Theorem req_max_bounds (total_req_max num_active_ses : Z) :
  0 <= total_req_max < 2 ^ 31 -> 0 < num_active_ses ->
  0 <= recalc_req_max total_req_max num_active_ses <= MAX_ASYNC_REQS /\
  num_active_ses * recalc_req_max total_req_max num_active_ses <= total_req_max.
Proof.
  intros Ht Hn. unfold recalc_req_max. rewrite (proj2 (Z.eqb_neq _ _)) by lia.
  rewrite u64_small by lia. pose proof (Z.mul_div_le total_req_max num_active_ses Hn).
  pose proof (Z.div_pos total_req_max num_active_ses (proj1 Ht) Hn).
  unfold MAX_ASYNC_REQS. destruct (Z.ltb_spec (total_req_max / num_active_ses) 512); [|nia].
  rewrite s32_small by lia. nia.
Qed.

Lemma req_max_bounds_witness :
  0 <= recalc_req_max 1000 3 <= MAX_ASYNC_REQS /\ 3 * recalc_req_max 1000 3 <= 1000.
Proof. apply (req_max_bounds 1000 3); lia. Defined.
