(* ===== verification/AccessCheck.v ===== *)
(** * access_check.c: who may call what

    [wsubus_access_check_] decides a call or an event on the spot (by the TLS
    certificate of the peer, or by the users of the virtual host), or asks the
    "session" object of rpcd.  What libwebsockets knows of the connection is
    the record [conn]; whether ubus finds the session object and takes the
    request are two parameters. *)

From stdpp Require Import base list strings numbers sets.
From S2P Require Import Prelude CStrings Avl Patterns Libs UbusxAcl Rpc.

Local Arguments strcmp : simpl never.

(** The connection: [lws_is_ssl], the verification state of the peer
    certificate ([None] when there is none), and [struct vh_context]. *)
Record conn := Conn {
  is_ssl : bool;
  peer_cert : option bool;
  vh_users : list string;
  vh_name : string;
}.

Definition SID_EXTENDED_PREFIX : string := "X-".

(** [strstr(sid, "X-") == sid]: the first occurrence is at the start. *)
Definition wsu_sid_extended (sid : string) : option string :=
  match strstr sid SID_EXTENDED_PREFIX with
  | Some t => if decide (t = sid) then Some (str_drop (String.length SID_EXTENDED_PREFIX) sid) else None
  | None => None
  end.

Inductive wsu_ext_result := EXT_CHECK_NEXT | EXT_CHECK_ALLOW | EXT_CHECK_DENY.

#[export] Instance wsu_ext_result_eq_dec : EqDecision wsu_ext_result.
Proof. solve_decision. Defined.

Definition wsu_ext_check_interface (c : conn) : wsu_ext_result := EXT_CHECK_NEXT.

(** The [ctx] pointer: NULL, the context of a call, or that of an event with
    its message. *)
Inductive check_ctx := CtxNull | CtxCall | CtxEvent (msg : list attr).

(** How the check goes on: the callback is scheduled with a result, the
    session object was sent the query, or the check failed. *)
Inductive check_started :=
  | CheckDeferred (result : bool)
  | CheckAsked (query : list attr)
  | CheckFailed.

Section access.
Context `{AvlTree, JsonC, LibUbox}.

(** The loop over the arguments of a "session login". *)
Fixpoint restrict_login (users : list string) (attrs : list attr) : wsu_ext_result :=
  match attrs with
  | [] => EXT_CHECK_NEXT
  | cur :: rest =>
      if (strcmp "username" (blobmsg_name cur) =? 0) && negb (bool_decide (users = [])) then
        if existsb (fun s => strcmp s (blobmsg_get_string cur) =? 0) users
        then EXT_CHECK_ALLOW else EXT_CHECK_DENY
      else restrict_login users rest
  end.

Definition wsu_ext_restrict_interface (c : conn) (object method : string)
    (args : option (list attr)) : wsu_ext_result :=
  if (strcmp object "session" =? 0) && (strcmp method "login" =? 0)
  then restrict_login (vh_users c) (default [] args)
  else EXT_CHECK_NEXT.

Definition wsu_ext_check_tls (acl : list string) (c : conn) (object : string) : wsu_ext_result :=
  if negb (is_ssl c) then EXT_CHECK_NEXT
  else match peer_cert c with
  | None => EXT_CHECK_DENY
  | Some verified =>
      if negb verified then EXT_CHECK_DENY
      else if negb (ubusx_acl__allow_object acl object) then EXT_CHECK_DENY
      else EXT_CHECK_ALLOW
  end.

(** [wsubus_access_check_via_session]; [args] is the buffer of the arguments,
    which gets the session id when the query is built. *)
Definition wsubus_access_check_via_session (lookup_ok invoke_ok : bool)
    (sid : string) (scope : option string) (object : string) (method : option string)
    (args : option (list attr)) : check_started * option (list attr) :=
  if existsb (fun cur => strcmp "ubus_rpc_session" (blobmsg_name cur) =? 0) (default [] args)
  then (CheckFailed, args)
  else if negb lookup_ok then (CheckFailed, args)
  else
    let args' := (fun l => l ++ [("ubus_rpc_session", BString sid)]) <$> args in
    let query :=
      [("ubus_rpc_session", BString sid); ("object", BString object)] ++
      option_list ((fun m => ("function", BString m)) <$> method) ++
      option_list ((fun s => ("scope", BString s)) <$> scope) ++
      option_list ((fun l => ("params", BTable l)) <$> args') in
    (if invoke_ok then CheckAsked query else CheckFailed, args').

(** The object the TLS check is about: for an "ubus.object.*" event it is the
    path of the message, a string inside a JSON tree that is freed after the
    check ([true]).  [None]: the context is not that of an event but is read as
    one. *)
Definition tls_object (object : string) (ctx : check_ctx) : option (string * bool) :=
  match ctx, strstr object "ubus.object." with
  | CtxNull, _ | _, None => Some (object, false)
  | CtxCall, Some _ => None
  | CtxEvent msg, Some _ =>
      match json_get (json_tokener_parse (blobmsg_format_json msg)) "path" with
      | JNull => Some (object, false)
      | path => Some (default object (json_object_get_string path), true)
      end
  end.

(** From the first [if (res != EXT_CHECK_NEXT)] on; [freed] says that [object]
    points to freed memory, so that reading it does not come back. *)
Definition check_decide (lookup_ok invoke_ok : bool) (c : conn) (sid : string)
    (scope : option string) (object method : string) (args : option (list attr))
    (res : wsu_ext_result) (freed : bool) : option (check_started * option (list attr)) :=
  if negb (bool_decide (res = EXT_CHECK_NEXT))
  then Some (CheckDeferred (bool_decide (res = EXT_CHECK_ALLOW)), args)
  else if freed then None
  else
    let res := wsu_ext_restrict_interface c object method args in
    if negb (bool_decide (res = EXT_CHECK_NEXT))
    then Some (CheckDeferred (bool_decide (res = EXT_CHECK_ALLOW)), args)
    else Some (wsubus_access_check_via_session lookup_ok invoke_ok sid scope object
                 (Some method) args).

Definition wsubus_access_check_ (acl : list string) (lookup_ok invoke_ok : bool) (c : conn)
    (sid : string) (scope : option string) (object method : string)
    (args : option (list attr)) (ctx : check_ctx)
  : option (check_started * option (list attr)) :=
  let decide_for := check_decide lookup_ok invoke_ok c sid scope in
  match wsu_sid_extended sid with
  | Some esid =>
      if strcmp "mgmt-interface" esid =? 0
      then decide_for object method args (wsu_ext_check_interface c) false
      else if strcmp "tls-certificate" esid =? 0 then
        match tls_object object ctx with
        | None => None
        | Some (object, freed) => decide_for object method args (wsu_ext_check_tls acl c object) freed
        end
      else decide_for object method args EXT_CHECK_NEXT false
  | None => decide_for object method args EXT_CHECK_NEXT false
  end.

Definition wsubus_access_check__call (acl : list string) (lookup_ok invoke_ok : bool) (c : conn)
    (sid object method : string) (args : list attr) : option (check_started * option (list attr)) :=
  wsubus_access_check_ acl lookup_ok invoke_ok c sid None object method (Some args) CtxCall.

Definition wsubus_access_check__event (acl : list string) (lookup_ok invoke_ok : bool) (c : conn)
    (sid event : string) (msg : list attr) : option (check_started * option (list attr)) :=
  wsubus_access_check_ acl lookup_ok invoke_ok c sid (Some "owsd") event "read" None (CtxEvent msg).

(** [wsubus_access_check__on_ret] on the reply of the session object. *)
Fixpoint access_result (msg : list attr) : bool :=
  match msg with
  | [] => false
  | pos :: rest =>
      if strcmp "access" (blobmsg_name pos) =? 0 then
        match pos.2 with BInt8 z => negb (z =? 0) | _ => access_result rest end
      else access_result rest
  end.

(** What [wsubus_access_check__cb] passes on: [reply] is the data the request
    returned, if any, before it completed with [status]. *)
Definition wsubus_access_check__cb (reply : option (list attr)) (status : Z) : bool :=
  match reply with Some msg => access_result msg | None => false end && (status =? UBUS_STATUS_OK).
End access.

(** ** Lemmas *)

Lemma strstr_start s p : (exists t, strstr s p = Some t /\ t = s) <-> starts_with p s = true.
Proof.
  destruct s as [|c s].
  - destruct p as [|x p]; simpl; split; try done; [eauto|]. by intros (? & ? & ?).
  - split.
    + intros (t & Ht & ->). simpl in Ht. destruct (starts_with p (String c s)) eqn:E; [done|].
      exfalso. assert (forall u v, strstr u p = Some v -> (String.length v <= String.length u)%nat) as Hlen.
      { clear. induction u as [|d u IH]; intros v; simpl.
        - destruct (starts_with p ""); [by intros [= <-]|done].
        - destruct (starts_with p (String d u)); [by intros [= <-]|]. intros Hv%IH. lia. }
      apply Hlen in Ht. simpl in Ht. lia.
    + intros E. exists (String c s). simpl. by rewrite E.
Qed.

Lemma sid_extended_spec sid esid :
  wsu_sid_extended sid = Some esid <-> sid = SID_EXTENDED_PREFIX +:+ esid.
Proof.
  unfold wsu_sid_extended. pose proof (strstr_start sid SID_EXTENDED_PREFIX) as Hs. split.
  - destruct (strstr sid SID_EXTENDED_PREFIX) as [t|]; [|done]. case_decide as Et; [|done].
    intros [= <-].
    assert (starts_with SID_EXTENDED_PREFIX sid = true) as Hp by (apply Hs; eauto).
    apply starts_with_spec in Hp as [u ->]. done.
  - intros ->. destruct (proj2 Hs) as (t & -> & ->).
    { apply starts_with_spec. eauto. }
    by rewrite decide_True by done.
Qed.

Section facts.
Context `{AvlTree, JsonC, LibUbox}.

Lemma restrict_login_allow users attrs :
  restrict_login users attrs = EXT_CHECK_ALLOW ->
  exists a, a ∈ attrs /\ blobmsg_name a = "username" /\ blobmsg_get_string a ∈ users.
Proof.
  induction attrs as [|cur rest IH]; simpl; [done|].
  destruct (Z.eqb_spec (strcmp "username" (blobmsg_name cur)) 0) as [En|]; simpl.
  - destruct (negb _) eqn:Eu.
    + destruct (existsb _ _) eqn:Ex; [|done]. intros _. exists cur. split; [left|].
      apply strcmp_eq in En. split; [done|]. apply existsb_exists in Ex as (x & Hx & E).
      apply Z.eqb_eq, strcmp_eq in E as <-. by apply list_elem_of_In.
    + intros (a & Ha & ?)%IH. exists a. split; [by right|done].
  - intros (a & Ha & ?)%IH. exists a. split; [by right|done].
Qed.

Lemma check_tls_allow acl c object :
  wsu_ext_check_tls acl c object = EXT_CHECK_ALLOW <->
  is_ssl c = true /\ peer_cert c = Some true /\ ubusx_acl__allow_object acl object = true.
Proof.
  unfold wsu_ext_check_tls. destruct (is_ssl c), (peer_cert c) as [[]|],
    (ubusx_acl__allow_object acl object); simpl; naive_solver.
Qed.

(** What the second half of the check allows by itself. *)
Lemma check_decide_allow lookup_ok invoke_ok c sid scope object method args res freed a' :
  check_decide lookup_ok invoke_ok c sid scope object method args res freed =
    Some (CheckDeferred true, a') ->
  res = EXT_CHECK_ALLOW \/
  (res = EXT_CHECK_NEXT /\ object = "session" /\ method = "login" /\
   exists a, a ∈ default [] args /\ blobmsg_name a = "username" /\ blobmsg_get_string a ∈ vh_users c).
Proof.
  unfold check_decide. destruct res; simpl; [|by left|done]. destruct freed; [done|].
  unfold wsu_ext_restrict_interface.
  destruct (Z.eqb_spec (strcmp object "session") 0) as [Eo|]; simpl;
    [destruct (Z.eqb_spec (strcmp method "login") 0) as [Em|]; simpl|].
  - apply strcmp_eq in Eo as ->. apply strcmp_eq in Em as ->.
    destruct (restrict_login _ _) eqn:E; simpl; try done.
    + unfold wsubus_access_check_via_session. repeat case_match; done.
    + intros _. right. split_and!; try done. by apply restrict_login_allow.
  - unfold wsubus_access_check_via_session. repeat case_match; done.
  - unfold wsubus_access_check_via_session. repeat case_match; done.
Qed.

(** A freed name decides only through the TLS check. *)
Lemma check_decide_freed lookup_ok invoke_ok c sid scope object method args res a' :
  check_decide lookup_ok invoke_ok c sid scope object method args res true =
    Some (CheckDeferred true, a') -> res = EXT_CHECK_ALLOW.
Proof. by destruct res. Qed.

Lemma tls_object_kept object ctx o : tls_object object ctx = Some (o, false) -> o = object.
Proof. unfold tls_object. repeat case_match; congruence. Qed.

(** The check of a TLS peer, given the name it is about. *)
Lemma tls_check_decides acl lookup_ok invoke_ok c scope object method args ctx o freed :
  is_ssl c = true -> tls_object object ctx = Some (o, freed) ->
  wsubus_access_check_ acl lookup_ok invoke_ok c "X-tls-certificate" scope object method args ctx =
  Some (CheckDeferred (bool_decide (peer_cert c = Some true) && ubusx_acl__allow_object acl o), args).
Proof.
  intros Hs Ho. unfold wsubus_access_check_.
  change (wsu_sid_extended "X-tls-certificate") with (Some "tls-certificate"). simpl.
  rewrite Ho. unfold check_decide, wsu_ext_check_tls. rewrite Hs. simpl.
  destruct (peer_cert c) as [[]|]; simpl; try done.
  by destruct (ubusx_acl__allow_object acl o).
Qed.

Lemma event_object event msg : exists freed,
  tls_object event (CtxEvent msg) = Some
    (match strstr event "ubus.object.",
           json_get (json_tokener_parse (blobmsg_format_json msg)) "path" with
     | None, _ | Some _, JNull => event
     | Some _, path => default event (json_object_get_string path)
     end, freed).
Proof. unfold tls_object. repeat case_match; eauto. Qed.

Lemma via_session_asked lookup_ok invoke_ok sid scope object method args q a' :
  wsubus_access_check_via_session lookup_ok invoke_ok sid scope object method args =
    (CheckAsked q, a') ->
  Forall (fun a => blobmsg_name a <> "ubus_rpc_session") (default [] args) /\
  a' = (fun l => l ++ [("ubus_rpc_session", BString sid)]) <$> args /\
  exists rest, q = ("ubus_rpc_session", BString sid) :: ("object", BString object) :: rest.
Proof.
  unfold wsubus_access_check_via_session. destruct (existsb _ _) eqn:Ex; [done|].
  destruct lookup_ok; [|done]. destruct invoke_ok; simpl; [|done]. intros [= <- <-].
  split; [|eauto]. apply Forall_forall. intros a Ha Hn.
  assert (existsb (fun cur => strcmp "ubus_rpc_session" (blobmsg_name cur) =? 0) (default [] args) = true);
    [|congruence].
  apply existsb_exists. exists a. split; [by apply list_elem_of_In|]. by rewrite Hn.
Qed.
End facts.

(** ** Properties *)

(** C8: what is allowed without asking the session object.  A check that is
    decided positively on the spot is either for the session id
    "X-tls-certificate" on a TLS connection whose peer certificate verified
    and the access list allows the object, or it is a call of "login" on the
    object "session" with a user name the virtual host allows. *)
Theorem local_allow_sound `{AvlTree, JsonC, LibUbox} (acl : list string) (lookup_ok invoke_ok : bool)
    (c : conn) (sid : string) (scope : option string) (object method : string)
    (args : option (list attr)) (ctx : check_ctx) (a' : option (list attr)) :
  wsubus_access_check_ acl lookup_ok invoke_ok c sid scope object method args ctx =
    Some (CheckDeferred true, a') ->
  (sid = "X-tls-certificate" /\ is_ssl c = true /\ peer_cert c = Some true /\
   exists o freed, tls_object object ctx = Some (o, freed) /\ ubusx_acl__allow_object acl o = true) \/
  (object = "session" /\ method = "login" /\
   exists a, a ∈ default [] args /\ blobmsg_name a = "username" /\ blobmsg_get_string a ∈ vh_users c).
Proof.
  unfold wsubus_access_check_, wsu_ext_check_interface.
  destruct (wsu_sid_extended sid) as [esid|] eqn:Es; cycle 1.
  { intros [?|(_ & ? & ? & ?)]%check_decide_allow; [done|by right]. }
  destruct (strcmp "mgmt-interface" esid =? 0).
  { intros [?|(_ & ? & ? & ?)]%check_decide_allow; [done|by right]. }
  destruct (Z.eqb_spec (strcmp "tls-certificate" esid) 0) as [Et|]; cycle 1.
  { intros [?|(_ & ? & ? & ?)]%check_decide_allow; [done|by right]. }
  apply strcmp_eq in Et as <-. apply sid_extended_spec in Es as ->.
  destruct (tls_object object ctx) as [[o freed]|] eqn:Eo; [|done].
  destruct freed; [intros Htls%check_decide_freed|intros [Htls|(_ & ? & ? & ?)]%check_decide_allow].
  - left. apply check_tls_allow in Htls as (? & ? & ?). split_and!; try done. eauto.
  - left. apply check_tls_allow in Htls as (? & ? & ?). split_and!; try done. eauto.
  - right. by apply tls_object_kept in Eo as ->.
Qed.

Lemma local_allow_sound_witness :
  ("abc" = "X-tls-certificate" /\
   is_ssl (Conn false None ["admin"] "lan") = true /\
   peer_cert (Conn false None ["admin"] "lan") = Some true /\
   exists o freed, tls_object (H0 := ref_jsonc) (H1 := ref_libubox) "session" CtxCall = Some (o, freed) /\
     ubusx_acl__allow_object (H := list_avl) [] o = true) \/
  ("session" = "session" /\ "login" = "login" /\
   exists a, a ∈ default [] (Some [("username", BString "admin")]) /\ blobmsg_name a = "username" /\
     blobmsg_get_string (LibUbox := ref_libubox) a ∈ vh_users (Conn false None ["admin"] "lan")).
Proof.
  apply (local_allow_sound (H := list_avl) (H0 := ref_jsonc) (H1 := ref_libubox) [] true true
    (Conn false None ["admin"] "lan") "abc" None "session" "login" (Some [("username", BString "admin")])
    CtxCall (Some [("username", BString "admin")])).
  reflexivity.
Defined.

(** C9: a TLS peer is judged by its certificate and the access list alone.  On
    a TLS connection, a call for the session id "X-tls-certificate" is decided
    on the spot, without asking the session object, unless the name of its
    object contains "ubus.object.": then the context of the call is read as
    that of an event, which does not come back.  An event is always decided on
    the spot, about the path in its message if its type contains
    "ubus.object." and the message has one, and about its type otherwise.  The
    decision is positive exactly if the certificate verified and the access
    list is empty or has a pattern that fits the name. *)
Theorem tls_session_decided `{AvlTree, JsonC, LibUbox} (acl : list string) (lookup_ok invoke_ok : bool)
    (c : conn) (object method : string) (args msg : list attr) :
  acl_reachable acl -> is_ssl c = true -> short object ->
  (strstr object "ubus.object." = None -> exists b,
     wsubus_access_check__call acl lookup_ok invoke_ok c "X-tls-certificate" object method args =
       Some (CheckDeferred b, Some args) /\
     (b = true <-> peer_cert c = Some true /\ (acl = [] \/ exists p, p ∈ acl /\ pattern_fits p object))) /\
  (is_Some (strstr object "ubus.object.") ->
     wsubus_access_check__call acl lookup_ok invoke_ok c "X-tls-certificate" object method args = None) /\
  (forall name, name = match strstr object "ubus.object.",
                             json_get (json_tokener_parse (blobmsg_format_json msg)) "path" with
                       | None, _ | Some _, JNull => object
                       | Some _, path => default object (json_object_get_string path)
                       end -> short name -> exists b,
     wsubus_access_check__event acl lookup_ok invoke_ok c "X-tls-certificate" object msg =
       Some (CheckDeferred b, None) /\
     (b = true <-> peer_cert c = Some true /\ (acl = [] \/ exists p, p ∈ acl /\ pattern_fits p name))).
Proof.
  intros Hr Hs Ho. split_and!.
  - intros Hn. exists (bool_decide (peer_cert c = Some true) && ubusx_acl__allow_object acl object).
    split; [by apply (tls_check_decides acl lookup_ok invoke_ok c) with (freed := false); simpl; rewrite ?Hn|].
    rewrite andb_true_iff, bool_decide_eq_true, allow_object_fits by eauto with owsd. done.
  - intros [t Ht]. unfold wsubus_access_check__call, wsubus_access_check_.
    change (wsu_sid_extended "X-tls-certificate") with (Some "tls-certificate"). simpl. by rewrite Ht.
  - intros name Hname Hsn. exists (bool_decide (peer_cert c = Some true) && ubusx_acl__allow_object acl name).
    split; [|rewrite andb_true_iff, bool_decide_eq_true, allow_object_fits by eauto with owsd; done].
    destruct (event_object object msg) as [freed Hf]. rewrite <- Hname in Hf.
    by apply (tls_check_decides acl lookup_ok invoke_ok c) with (freed := freed).
Qed.

Lemma tls_session_decided_witness :
  exists b, wsubus_access_check__call (H := list_avl) (H0 := ref_jsonc) (H1 := ref_libubox)
    (ubusx_acl__add_objects (H := list_avl) [] (Some "network wifi*")) true true
    (Conn true (Some true) [] "lan") "X-tls-certificate" "wifi.radio" "dump" [] =
      Some (CheckDeferred b, Some []) /\
  (b = true <-> peer_cert (Conn true (Some true) [] "lan") = Some true /\
    (ubusx_acl__add_objects (H := list_avl) [] (Some "network wifi*") = [] \/
     exists p, p ∈ ubusx_acl__add_objects (H := list_avl) [] (Some "network wifi*") /\
       pattern_fits p "wifi.radio")).
Proof.
  apply (tls_session_decided (H := list_avl) (H0 := ref_jsonc) (H1 := ref_libubox)) with (msg := []).
  - apply acl_add; [apply acl_init|done].
  - reflexivity.
  - done.
  - reflexivity.
Defined.

(** C10: a call that goes to the session object carries exactly the session id
    that is checked.  The arguments of the client have no "ubus_rpc_session"
    field; the buffer that will be sent with the call has this field with the
    id of the request appended, and the query names the same id and the
    object of the call. *)
Theorem session_id_not_forged `{AvlTree, JsonC, LibUbox} (acl : list string)
    (lookup_ok invoke_ok : bool) (c : conn) (sid object method : string) (args : list attr)
    (q : list attr) (a' : option (list attr)) :
  wsubus_access_check__call acl lookup_ok invoke_ok c sid object method args =
    Some (CheckAsked q, a') ->
  Forall (fun a => blobmsg_name a <> "ubus_rpc_session") args /\
  a' = Some (args ++ [("ubus_rpc_session", BString sid)]) /\
  exists rest, q = ("ubus_rpc_session", BString sid) :: ("object", BString object) :: rest.
Proof.
  unfold wsubus_access_check__call, wsubus_access_check_.
  assert (forall o res, (o = object) ->
    check_decide lookup_ok invoke_ok c sid None o method (Some args) res false = Some (CheckAsked q, a') ->
    Forall (fun a => blobmsg_name a <> "ubus_rpc_session") args /\
    a' = Some (args ++ [("ubus_rpc_session", BString sid)]) /\
    exists rest, q = ("ubus_rpc_session", BString sid) :: ("object", BString object) :: rest) as Hd.
  { intros o res ->. unfold check_decide. destruct (negb _); [done|]. destruct (negb _); [done|].
    intros [= Hv]. by apply via_session_asked in Hv as (? & ? & ?). }
  destruct (wsu_sid_extended sid) as [esid|]; [|by apply Hd].
  destruct (strcmp "mgmt-interface" esid =? 0); [by apply Hd|].
  destruct (strcmp "tls-certificate" esid =? 0); [|by apply Hd].
  simpl. destruct (strstr object "ubus.object."); [done|by apply Hd].
Qed.

Lemma session_id_not_forged_witness :
  Forall (fun a => blobmsg_name a <> "ubus_rpc_session") [("v", BInt32 1)] /\
  Some [("v", BInt32 1); ("ubus_rpc_session", BString "abc")] =
    Some ([("v", BInt32 1)] ++ [("ubus_rpc_session", BString "abc")]) /\
  exists rest, [("ubus_rpc_session", BString "abc"); ("object", BString "network");
      ("function", BString "dump");
      ("params", BTable [("v", BInt32 1); ("ubus_rpc_session", BString "abc")])] =
    ("ubus_rpc_session", BString "abc") :: ("object", BString "network") :: rest.
Proof.
  apply (session_id_not_forged (H := list_avl) (H0 := ref_jsonc) (H1 := ref_libubox) [] true true
    (Conn false None [] "lan") "abc" "network" "dump").
  reflexivity.
Defined.

(** A client on a plain connection may subscribe with the session id
    "X-tls-certificate".  When an "ubus.object.*" event with a path then comes
    in, the check reads the path after the JSON tree that holds it was freed;
    and a TLS peer that calls an object with such a name has its call context
    read as that of an event. *)
Theorem tls_check_dangling `{AvlTree, JsonC, LibUbox} (acl : list string) (lookup_ok invoke_ok : bool)
    (c : conn) (event path : string) (msg args : list attr) (method : string) :
  is_Some (strstr event "ubus.object.") ->
  json_get (json_tokener_parse (blobmsg_format_json msg)) "path" = JString path ->
  (is_ssl c = false ->
   wsubus_access_check__event acl lookup_ok invoke_ok c "X-tls-certificate" event msg = None) /\
  wsubus_access_check__call acl lookup_ok invoke_ok c "X-tls-certificate" event method args = None.
Proof.
  intros [t Ht] Hp.
  unfold wsubus_access_check__event, wsubus_access_check__call, wsubus_access_check_.
  change (wsu_sid_extended "X-tls-certificate") with (Some "tls-certificate").
  change (strcmp "mgmt-interface" "tls-certificate" =? 0) with false.
  change (strcmp "tls-certificate" "tls-certificate" =? 0) with true.
  cbn [tls_object]. rewrite Ht. split; [|done]. intros Hs. rewrite Hp.
  unfold check_decide, wsu_ext_check_tls. by rewrite Hs.
Qed.

Lemma tls_check_dangling_witness :
  (is_ssl (Conn false None [] "lan") = false ->
   wsubus_access_check__event (H := list_avl) (H0 := ref_jsonc_with (fun _ => JObject [("path", JString "wifi")]))
     (H1 := ref_libubox) [] true true (Conn false None [] "lan") "X-tls-certificate"
     "ubus.object.add" [("path", BString "wifi")] = None) /\
  wsubus_access_check__call (H := list_avl) (H0 := ref_jsonc_with (fun _ => JObject [("path", JString "wifi")]))
     (H1 := ref_libubox) [] true true (Conn false None [] "lan") "X-tls-certificate"
     "ubus.object.add" "m" [] = None.
Proof.
  apply (tls_check_dangling (H := list_avl) (H0 := ref_jsonc_with (fun _ => JObject [("path", JString "wifi")]))
    (H1 := ref_libubox)) with (path := "wifi").
  - eexists. reflexivity.
  - reflexivity.
Defined.
