(* ===== verification/AccessReq.v ===== *)
(** * access_check.c: the handle of a pending access check

    An access check is answered later in any case: by the session object of ubus,
    or by a timer of uloop when the decision was made on the spot.  The handle is
    the memory both of them point to; the owner of the check frees it in its
    callback, when the check could not be started, and when it cancels the check.
    The heap of handles, the timers and the requests in ubus are the state here;
    reading a handle that was freed does not come back.  AccessCheck.v has the
    decisions and Session.v and DBusSession.v the owners, for which a check is
    pending or not; here it is shown that the handles are this. *)

From stdpp Require Import base list strings numbers sets gmap.
From S2P Require Import Prelude CStrings Avl Patterns Libs UbusxAcl Rpc PeerIO AccessCheck.

Set Default Proof Using "Type".

(** ** The handle *)

Inductive req_tag := REQ_TAG_UBUS | REQ_TAG_DEFER.

#[export] Instance req_tag_eq_dec : EqDecision req_tag.
Proof. solve_decision. Defined.

(** [struct wsubus_access_check_req]; [rq_ctx] stands for the callback and its
    context. *)
Record access_req := AccessReq { rq_result : bool; rq_ctx : nat; rq_tag : req_tag }.

(** The handles, the timers that are set, the requests in ubus, and the callbacks
    made: handle, context and result. *)
Record checker := Checker {
  ck_reqs : gmap nat access_req;
  ck_timers : gset nat;
  ck_ubus : gset nat;
  ck_fired : list (nat * nat * bool);
  ck_next : nat;
}.

Definition checker_init : checker := Checker ∅ ∅ ∅ [] 0.

Definition set_reqs m c := Checker m (ck_timers c) (ck_ubus c) (ck_fired c) (ck_next c).
Definition set_timers t c := Checker (ck_reqs c) t (ck_ubus c) (ck_fired c) (ck_next c).
Definition set_ubus u c := Checker (ck_reqs c) (ck_timers c) u (ck_fired c) (ck_next c).

(** The memory is zero: the first tag is that of ubus. *)
Definition wsubus_access_check_new : M checker nat :=
  fun c => Some (ck_next c, Checker (<[ck_next c := AccessReq false 0 REQ_TAG_UBUS]> (ck_reqs c))
                              (ck_timers c) (ck_ubus c) (ck_fired c) (S (ck_next c))).

Definition wsubus_access_check_free (p : nat) : M checker unit :=
  let* _ := deref (fun c => ck_reqs c !! p) in
  modify (fun c => set_reqs (delete p (ck_reqs c)) c).

(** Writing fields of a handle. *)
Definition with_req (p : nat) (f : access_req -> access_req) : M checker unit :=
  let* r := deref (fun c => ck_reqs c !! p) in
  modify (fun c => set_reqs (<[p := f r]> (ck_reqs c)) c).

(** The callback of the owner, which frees the handle. *)
Definition owner_cb (p ctx : nat) (allow : bool) : M checker unit :=
  modify (fun c => Checker (ck_reqs c) (ck_timers c) (ck_ubus c) (ck_fired c ++ [(p, ctx, allow)]) (ck_next c)) ;;;
  wsubus_access_check_free p.

Definition access_check__on_ret (p : nat) (msg : list attr) : M checker unit :=
  with_req p (fun r => AccessReq (access_result msg) (rq_ctx r) (rq_tag r)).

(** libubus takes a request off its list before it completes it. *)
Definition access_check__cb (p : nat) (status : Z) : M checker unit :=
  modify (fun c => set_ubus (ck_ubus c ∖ {[p]}) c) ;;;
  let* r := deref (fun c => ck_reqs c !! p) in
  owner_cb p (rq_ctx r) (rq_result r && (status =? UBUS_STATUS_OK)).

(** uloop takes a timer off its list before it calls back. *)
Definition deferral_cb (p : nat) : M checker unit :=
  modify (fun c => set_timers (ck_timers c ∖ {[p]}) c) ;;;
  let* r := deref (fun c => ck_reqs c !! p) in
  assert_ (bool_decide (rq_tag r = REQ_TAG_DEFER)) ;;;
  owner_cb p (rq_ctx r) (rq_result r).

Definition defer_callback (p : nat) (result : bool) : M checker Z :=
  with_req p (fun r => AccessReq result (rq_ctx r) REQ_TAG_DEFER) ;;;
  modify (fun c => set_timers (ck_timers c ∪ {[p]}) c) ;;;
  M_ret 0.

(** [wsubus_access_check_] after its decision. *)
Definition access_check_start (p ctx : nat) (d : check_started) : M checker Z :=
  with_req p (fun r => AccessReq (rq_result r) ctx (rq_tag r)) ;;;
  match d with
  | CheckDeferred result => defer_callback p result
  | CheckAsked _ =>
      with_req p (fun r => AccessReq (rq_result r) (rq_ctx r) REQ_TAG_UBUS) ;;;
      modify (fun c => set_ubus (ck_ubus c ∪ {[p]}) c) ;;;
      M_ret 0
  | CheckFailed => M_ret (-1)
  end.

(** [uloop_timeout_cancel] and [ubus_abort_request] are for what is pending. *)
Definition wsubus_access_check__cancel (p : nat) : M checker unit :=
  let* r := deref (fun c => ck_reqs c !! p) in
  match rq_tag r with
  | REQ_TAG_DEFER => modify (fun c => set_timers (ck_timers c ∖ {[p]}) c)
  | REQ_TAG_UBUS => modify (fun c => set_ubus (ck_ubus c ∖ {[p]}) c)
  end.

(** ** What happens to the handles *)

Inductive check_event :=
  | CkStart (ctx : nat) (d : check_started)
  | CkReply (p : nat) (msg : list attr)
  | CkComplete (p : nat) (status : Z)
  | CkTimer (p : nat)
  | CkCancel (p : nat).

(** The owners start a check and cancel it this way. *)
Definition check_step (ev : check_event) : M checker unit :=
  match ev with
  | CkStart ctx d =>
      let* p := wsubus_access_check_new in
      let* ret := access_check_start p ctx d in
      when negb (ret =? 0) do wsubus_access_check_free p
  | CkReply p msg => access_check__on_ret p msg
  | CkComplete p status => access_check__cb p status
  | CkTimer p => deferral_cb p
  | CkCancel p => wsubus_access_check__cancel p ;;; wsubus_access_check_free p
  end.

Definition check_enabled (c : checker) (ev : check_event) : Prop :=
  match ev with
  | CkStart _ _ => True
  | CkReply p _ | CkComplete p _ => p ∈ ck_ubus c
  | CkTimer p => p ∈ ck_timers c
  | CkCancel p => is_Some (ck_reqs c !! p)
  end.

(** ** What is promised *)

(** A pending check is decided or waits for rpcd, which has said something. *)
Inductive verdict := Known (allow : bool) | Waiting (last : option (list attr)).

Record pending_checks := Pending {
  pd_checks : gmap nat (nat * verdict);
  pd_fired : list (nat * nat * bool);
  pd_next : nat;
}.

Definition fire (p : nat) (decide_ : verdict -> bool) (s : pending_checks) : pending_checks :=
  match pd_checks s !! p with
  | Some (ctx, v) => Pending (delete p (pd_checks s)) (pd_fired s ++ [(p, ctx, decide_ v)]) (pd_next s)
  | None => s
  end.

(** A check is started under a new number and called back once with its verdict,
    which is the one of AccessCheck.v, unless it is cancelled. *)
Definition spec_step (s : pending_checks) (ev : check_event) : pending_checks :=
  match ev with
  | CkStart ctx (CheckDeferred allow) =>
      Pending (<[pd_next s := (ctx, Known allow)]> (pd_checks s)) (pd_fired s) (S (pd_next s))
  | CkStart ctx (CheckAsked _) =>
      Pending (<[pd_next s := (ctx, Waiting None)]> (pd_checks s)) (pd_fired s) (S (pd_next s))
  | CkStart ctx CheckFailed => Pending (pd_checks s) (pd_fired s) (S (pd_next s))
  | CkReply p msg => Pending (alter (fun x => (x.1, Waiting (Some msg))) p (pd_checks s)) (pd_fired s) (pd_next s)
  | CkComplete p status =>
      fire p (fun v => match v with Waiting last => wsubus_access_check__cb last status | Known b => b end) s
  | CkTimer p => fire p (fun v => match v with Known b => b | Waiting _ => false end) s
  | CkCancel p => Pending (delete p (pd_checks s)) (pd_fired s) (pd_next s)
  end.

Definition spec_run (evs : list check_event) : pending_checks := fold_left spec_step evs (Pending ∅ [] 0).

(** ** The handles are that *)

Definition req_of (x : nat * verdict) : access_req :=
  match x.2 with
  | Known allow => AccessReq allow x.1 REQ_TAG_DEFER
  | Waiting last => AccessReq (match last with Some msg => access_result msg | None => false end) x.1 REQ_TAG_UBUS
  end.

Definition numbers (l : list (nat * nat * bool)) : list nat := (fun x => x.1.1) <$> l.

Record refines (c : checker) (s : pending_checks) : Prop := {
  rf_reqs : ck_reqs c = req_of <$> pd_checks s;
  rf_timers : forall p, p ∈ ck_timers c <-> exists ctx b, pd_checks s !! p = Some (ctx, Known b);
  rf_ubus : forall p, p ∈ ck_ubus c <-> exists ctx last, pd_checks s !! p = Some (ctx, Waiting last);
  rf_fired : ck_fired c = pd_fired s;
  rf_next : ck_next c = pd_next s;
  rf_fresh : forall p, is_Some (pd_checks s !! p) -> (p < pd_next s)%nat;
  rf_once : NoDup (numbers (pd_fired s));
  rf_done : forall p, p ∈ numbers (pd_fired s) -> (p < pd_next s)%nat /\ pd_checks s !! p = None;
}.

Lemma refines_init : refines checker_init (Pending ∅ [] 0).
Proof.
  split; simpl; try done.
  - intros p. split; [set_solver|]. by intros (? & ? & ?).
  - intros p. split; [set_solver|]. by intros (? & ? & ?).
  - by intros p [].
  - constructor.
  - intros p ?%elem_of_nil. done.
Qed.

(** A check that ends: it leaves the heap and the list it was in. *)
Lemma refines_end c s p ctx v fired :
  refines c s -> pd_checks s !! p = Some (ctx, v) ->
  (fired = [] \/ exists allow, fired = [(p, ctx, allow)]) ->
  refines (Checker (delete p (ck_reqs c)) (ck_timers c ∖ {[p]}) (ck_ubus c ∖ {[p]}) (ck_fired c ++ fired) (ck_next c))
    (Pending (delete p (pd_checks s)) (pd_fired s ++ fired) (pd_next s)).
Proof.
  intros [] Hp Hf. split; simpl.
  - by rewrite rf_reqs0, fmap_delete.
  - intros q. rewrite elem_of_difference, rf_timers0, not_elem_of_singleton. setoid_rewrite lookup_delete_Some. naive_solver.
  - intros q. rewrite elem_of_difference, rf_ubus0, not_elem_of_singleton. setoid_rewrite lookup_delete_Some. naive_solver.
  - by rewrite rf_fired0.
  - done.
  - intros q [? ?]%lookup_delete_is_Some. auto.
  - unfold numbers. rewrite fmap_app. destruct Hf as [->|[allow ->]]; simpl; [by rewrite app_nil_r|].
    apply NoDup_app. split_and!; [done| |apply NoDup_singleton]. intros q Hq%rf_done0 ->%list_elem_of_singleton.
    destruct Hq. congruence.
  - unfold numbers. rewrite fmap_app. intros q [Hq|Hq]%elem_of_app.
    + destruct (rf_done0 q Hq). split; [done|]. rewrite lookup_delete_None. auto.
    + destruct Hf as [->|[allow ->]]; simpl in Hq; [by apply elem_of_nil in Hq|].
      apply list_elem_of_singleton in Hq as ->. rewrite lookup_delete_eq. eauto.
Qed.

(** A check that is pending from now on. *)
Lemma refines_start c s x :
  refines c s ->
  refines (Checker (<[ck_next c := req_of x]> (ck_reqs c))
      (match x.2 with Known _ => ck_timers c ∪ {[ck_next c]} | _ => ck_timers c end)
      (match x.2 with Waiting _ => ck_ubus c ∪ {[ck_next c]} | _ => ck_ubus c end) (ck_fired c) (S (ck_next c)))
    (Pending (<[pd_next s := x]> (pd_checks s)) (pd_fired s) (S (pd_next s))).
Proof.
  intros []. rewrite rf_next0.
  assert (pd_checks s !! pd_next s = None) as Hnew.
  { apply eq_None_not_Some. intros ?%rf_fresh0. lia. }
  split; simpl.
  - by rewrite rf_reqs0, fmap_insert.
  - intros q. setoid_rewrite lookup_insert_Some. destruct x as [ctx [b|last]]; simpl.
    + rewrite elem_of_union, elem_of_singleton, rf_timers0. destruct (decide (q = pd_next s)) as [->|]; naive_solver.
    + rewrite rf_timers0. destruct (decide (q = pd_next s)) as [->|]; naive_solver.
  - intros q. setoid_rewrite lookup_insert_Some. destruct x as [ctx [b|last]]; simpl.
    + rewrite rf_ubus0. destruct (decide (q = pd_next s)) as [->|]; naive_solver.
    + rewrite elem_of_union, elem_of_singleton, rf_ubus0. destruct (decide (q = pd_next s)) as [->|]; naive_solver.
  - done.
  - done.
  - intros q [<-|[_ ?%rf_fresh0]]%lookup_insert_is_Some; lia.
  - done.
  - intros q Hq. destruct (rf_done0 q Hq). split; [lia|]. rewrite lookup_insert_ne; [done|lia].
Qed.

Local Ltac run_check := unfold check_step, access_check_start, defer_callback, wsubus_access_check_new,
  access_check__on_ret, access_check__cb, deferral_cb, owner_cb, wsubus_access_check__cancel, with_req,
  wsubus_access_check_free, M_bind, modify, deref, assert_, M_ret; simpl.

(** A number that is not used. *)
Lemma refines_skip c s :
  refines c s ->
  refines (Checker (ck_reqs c) (ck_timers c) (ck_ubus c) (ck_fired c) (S (ck_next c)))
    (Pending (pd_checks s) (pd_fired s) (S (pd_next s))).
Proof.
  intros []. split; simpl; try done; [lia| |].
  - intros p ?%rf_fresh0. lia.
  - intros p Hp. destruct (rf_done0 p Hp). auto with lia.
Qed.

Lemma check_start_refines c s ctx d :
  refines c s -> exists c', check_step (CkStart ctx d) c = Some (tt, c') /\ refines c' (spec_step s (CkStart ctx d)).
Proof.
  intros Hr. assert (ck_reqs c !! ck_next c = None) as Hnew.
  { rewrite (rf_reqs _ _ Hr), lookup_fmap, (rf_next _ _ Hr). apply fmap_None, eq_None_not_Some.
    intros ?%(rf_fresh _ _ Hr). lia. }
  run_check. rewrite lookup_insert_eq. simpl. destruct d as [allow|query|]; simpl; rewrite lookup_insert_eq; simpl.
  - rewrite !insert_insert_eq. eexists. split; [done|]. by apply (refines_start c s (ctx, Known allow)).
  - rewrite !insert_insert_eq. eexists. split; [done|]. by apply (refines_start c s (ctx, Waiting None)).
  - rewrite insert_insert_eq, delete_insert_id by done. eexists. split; [done|]. exact (refines_skip c s Hr).
Qed.

(** A verdict that changes. *)
Lemma refines_reply c s p ctx last msg :
  refines c s -> pd_checks s !! p = Some (ctx, Waiting last) ->
  refines (set_reqs (<[p := req_of (ctx, Waiting (Some msg))]> (ck_reqs c)) c) (spec_step s (CkReply p msg)).
Proof.
  intros [] Hp. simpl. replace (alter _ p (pd_checks s)) with (<[p := (ctx, Waiting (Some msg))]> (pd_checks s)).
  2:{ apply map_eq. intros q. destruct (decide (q = p)) as [->|].
      - by rewrite lookup_insert_eq, lookup_alter_eq, Hp.
      - by rewrite lookup_insert_ne, lookup_alter_ne. }
  split; simpl; try done.
  - by rewrite rf_reqs0, fmap_insert.
  - intros q. rewrite rf_timers0. setoid_rewrite lookup_insert_Some. naive_solver.
  - intros q. rewrite rf_ubus0. setoid_rewrite lookup_insert_Some.
    destruct (decide (p = q)) as [->|]; naive_solver.
  - intros q [<-|[_ ?]]%lookup_insert_is_Some; eauto.
  - intros q Hq. destruct (rf_done0 q Hq). split; [done|]. rewrite lookup_insert_ne; [done|]. congruence.
Qed.

(** A check is in one list only. *)
Lemma waiting_no_timer c s p ctx last :
  refines c s -> pd_checks s !! p = Some (ctx, Waiting last) -> ck_timers c ∖ {[p]} = ck_timers c.
Proof.
  intros Hr Hp. assert (p ∉ ck_timers c); [|set_solver]. intros (? & ? & ?)%(rf_timers _ _ Hr). congruence.
Qed.

Lemma known_no_request c s p ctx allow :
  refines c s -> pd_checks s !! p = Some (ctx, Known allow) -> ck_ubus c ∖ {[p]} = ck_ubus c.
Proof.
  intros Hr Hp. assert (p ∉ ck_ubus c); [|set_solver]. intros (? & ? & ?)%(rf_ubus _ _ Hr). congruence.
Qed.

Lemma check_step_refines c s ev :
  refines c s -> check_enabled c ev ->
  exists c', check_step ev c = Some (tt, c') /\ refines c' (spec_step s ev).
Proof.
  intros Hr Hen. assert (forall p x, pd_checks s !! p = Some x -> ck_reqs c !! p = Some (req_of x)) as Hreq.
  { intros p x Hp. by rewrite (rf_reqs _ _ Hr), lookup_fmap, Hp. }
  destruct ev as [ctx d|p msg|p status|p|p]; simpl in Hen.
  - by apply check_start_refines.
  - apply (rf_ubus _ _ Hr) in Hen as (ctx & last & Hp). run_check. rewrite (Hreq p _ Hp).
    eexists. split; [done|]. by apply (refines_reply c s p ctx last msg).
  - apply (rf_ubus _ _ Hr) in Hen as (ctx & last & Hp). run_check. rewrite (Hreq p _ Hp). simpl. rewrite ?(Hreq p _ Hp).
    eexists. split; [done|]. simpl. unfold fire. rewrite Hp.
    pose proof (refines_end c s p ctx _ [(p, ctx, wsubus_access_check__cb last status)] Hr Hp) as He.
    rewrite (waiting_no_timer c s p ctx last Hr Hp) in He. apply He. eauto.
  - apply (rf_timers _ _ Hr) in Hen as (ctx & b & Hp). run_check. rewrite (Hreq p _ Hp). simpl. rewrite ?(Hreq p _ Hp).
    eexists. split; [done|]. simpl. unfold fire. rewrite Hp.
    pose proof (refines_end c s p ctx _ [(p, ctx, b)] Hr Hp) as He.
    rewrite (known_no_request c s p ctx b Hr Hp) in He. apply He. eauto.
  - rewrite (rf_reqs _ _ Hr), lookup_fmap in Hen. apply fmap_is_Some in Hen as [[ctx v] Hp].
    pose proof (refines_end c s p ctx v [] Hr Hp (or_introl eq_refl)) as He. rewrite !app_nil_r in He.
    run_check. rewrite (Hreq p _ Hp). destruct v as [b|last]; simpl; rewrite ?(Hreq p _ Hp); (eexists; split; [done|]).
    + by rewrite (known_no_request c s p ctx b Hr Hp) in He.
    + by rewrite (waiting_no_timer c s p ctx last Hr Hp) in He.
Qed.

(** A run of events, each of which can happen when it does. *)
Inductive check_runs : list check_event -> checker -> Prop :=
  | runs_none : check_runs [] checker_init
  | runs_next evs ev c c' :
      check_runs evs c -> check_enabled c ev -> check_step ev c = Some (tt, c') -> check_runs (evs ++ [ev]) c'.

Lemma check_runs_refine evs c : check_runs evs c -> refines c (spec_run evs).
Proof.
  induction 1 as [|evs ev c c' Hr IH Hen Hstep]; [apply refines_init|].
  destruct (check_step_refines c (spec_run evs) ev IH Hen) as (c2 & Hs & Hr2). simplify_eq.
  unfold spec_run. by rewrite fold_left_app.
Qed.

(** C18: every access check that is started is called back once, unless it is
    cancelled.  After any run of starts, replies, completions, timers and
    cancellations, what can happen next comes back: no handle is used after it was
    freed and the assertion on the tag holds.  The callbacks made are those of the
    specification, with the decision made on the spot or else what rpcd replied
    last and the status of the request; no check is called back twice; and the
    checks on the heap, the timers and the requests in ubus are exactly the checks
    that are pending, so that a check that was cancelled, called back or could not
    be started has no callback left and no memory. *)
Theorem access_check_called_back (evs : list check_event) (c : checker) :
  check_runs evs c ->
  (forall ev, check_enabled c ev -> exists c', check_step ev c = Some (tt, c')) /\
  ck_fired c = pd_fired (spec_run evs) /\ NoDup (numbers (ck_fired c)) /\
  (forall p, is_Some (ck_reqs c !! p) <-> is_Some (pd_checks (spec_run evs) !! p)) /\
  (forall p, p ∈ ck_timers c <-> exists ctx b, pd_checks (spec_run evs) !! p = Some (ctx, Known b)) /\
  (forall p, p ∈ ck_ubus c <-> exists ctx last, pd_checks (spec_run evs) !! p = Some (ctx, Waiting last)).
Proof.
  intros Hr%check_runs_refine. split.
  - intros ev Hen. destruct (check_step_refines c _ ev Hr Hen) as (c' & ? & _). eauto.
  - destruct Hr. split_and!; try done; [by rewrite rf_fired0|].
    intros p. by rewrite rf_reqs0, lookup_fmap, fmap_is_Some.
Qed.

(** Two checks, one decided on the spot and one by rpcd, answered in the other
    order. *)
Definition two_checks : list check_event :=
  [CkStart 10 (CheckDeferred true); CkStart 11 (CheckAsked []); CkReply 1 [("access", BInt8 1)];
   CkComplete 1 0; CkTimer 0].

Definition after_check (ev : check_event) (c : checker) : checker :=
  match check_step ev c with Some (_, c') => c' | None => c end.

Definition checks_after (n : nat) : checker := fold_left (fun c ev => after_check ev c) (take n two_checks) checker_init.

Lemma two_checks_run : check_runs two_checks (checks_after 5).
Proof.
  eapply (runs_next (take 4 two_checks) _ (checks_after 4)); [|cbn; apply (bool_decide_unpack _); by vm_compute|by vm_compute].
  eapply (runs_next (take 3 two_checks) _ (checks_after 3)); [|cbn; apply (bool_decide_unpack _); by vm_compute|by vm_compute].
  eapply (runs_next (take 2 two_checks) _ (checks_after 2)); [|cbn; apply (bool_decide_unpack _); by vm_compute|by vm_compute].
  eapply (runs_next (take 1 two_checks) _ (checks_after 1)); [|done|by vm_compute].
  eapply (runs_next (take 0 two_checks) _ (checks_after 0)); [apply runs_none|done|by vm_compute].
Qed.

Lemma access_check_called_back_witness :
  ck_fired (checks_after 5) = [(1, 11, true); (0, 10, true)]%nat /\ NoDup (numbers (ck_fired (checks_after 5))).
Proof.
  destruct (access_check_called_back two_checks (checks_after 5) two_checks_run) as (_ & Hf & Hn & _).
  split; [|exact Hn]. rewrite Hf. vm_compute. reflexivity.
Defined.
