(* ===== verification/Session.v ===== *)
(** * A client session: calls, subscriptions and events

    The life of one WebSocket client: wsubus.c takes its messages, rpc_call_ubus.h
    checks and makes calls, rpc_list_ubus.h lists objects, rpc_sub.c keeps
    subscriptions and passes events on, wsubus.impl.h cleans up.  The C code
    keeps contexts on the heap that are linked in two queues of the session
    and are the argument of callbacks; here the heap is three maps from
    pointers, and reading a pointer that is not in them does not come back.

    What ubus and libwebsockets answer is the record [env]: it is a parameter
    of every step, so a theorem holds for all answers.  Memory exhaustion is
    not modelled; the build is the one with ubus, without D-Bus and without
    JSON validation. *)

From stdpp Require Import base list strings numbers sets gmap.
From S2P Require Import Prelude CStrings Avl Patterns Libs UbusxAcl Rpc PeerIO AccessCheck.

Local Arguments strcmp : simpl never.

(** [struct wsubus_percall_ctx]: [cc_check] and [cc_invoke] say that
    [access_check.req] and [invoke_req] are not NULL. *)
Record call_ctx := CallCtx {
  cc_id : option attr;
  cc_sid : string;
  cc_object : string;
  cc_method : string;
  cc_params : list attr;
  cc_retbuf : list attr;
  cc_invoke : bool;
  cc_check : bool;
  cc_start : timespec;
}.

(** [struct ws_sub_info_ubus] and [struct wsubus_ev_notif]. *)
Record sub_info := SubInfo { si_pattern : string; si_sid : string }.
Record ev_notif := Notif { n_type : string; n_msg : list attr; n_info : nat }.

(** [struct wsu_client_session] with the heap objects of the client.  [checks]
    are the contexts for which an access check is pending, in ubus or in a
    timer: for these the callback of the check will be called.  [listen_list]
    is the part of the static list that belongs to this client. *)
Record session := Session {
  rpc_q_len : Z;
  peer_sid : string;
  rpc_call_q : list nat;
  access_check_q : list nat;
  calls : gmap nat call_ctx;
  subs : gmap nat sub_info;
  notifs : gmap nat ev_notif;
  checks : gset nat;
  listen_list : list nat;
  write_q : list wsu_writereq;
  next_ptr : nat;
}.

(** The session after [wsu_peer_init]. *)
Definition session_init : session := Session 0 "" [] [] ∅ ∅ ∅ ∅ [] [] 0.

Definition set_q_len n s := Session n (peer_sid s) (rpc_call_q s) (access_check_q s) (calls s)
  (subs s) (notifs s) (checks s) (listen_list s) (write_q s) (next_ptr s).
Definition set_sid i s := Session (rpc_q_len s) i (rpc_call_q s) (access_check_q s) (calls s)
  (subs s) (notifs s) (checks s) (listen_list s) (write_q s) (next_ptr s).
Definition set_call_q q s := Session (rpc_q_len s) (peer_sid s) q (access_check_q s) (calls s)
  (subs s) (notifs s) (checks s) (listen_list s) (write_q s) (next_ptr s).
Definition set_acq q s := Session (rpc_q_len s) (peer_sid s) (rpc_call_q s) q (calls s)
  (subs s) (notifs s) (checks s) (listen_list s) (write_q s) (next_ptr s).
Definition set_calls m s := Session (rpc_q_len s) (peer_sid s) (rpc_call_q s) (access_check_q s) m
  (subs s) (notifs s) (checks s) (listen_list s) (write_q s) (next_ptr s).
Definition set_subs m s := Session (rpc_q_len s) (peer_sid s) (rpc_call_q s) (access_check_q s)
  (calls s) m (notifs s) (checks s) (listen_list s) (write_q s) (next_ptr s).
Definition set_notifs m s := Session (rpc_q_len s) (peer_sid s) (rpc_call_q s) (access_check_q s)
  (calls s) (subs s) m (checks s) (listen_list s) (write_q s) (next_ptr s).
Definition set_checks k s := Session (rpc_q_len s) (peer_sid s) (rpc_call_q s) (access_check_q s)
  (calls s) (subs s) (notifs s) k (listen_list s) (write_q s) (next_ptr s).
Definition set_listen l s := Session (rpc_q_len s) (peer_sid s) (rpc_call_q s) (access_check_q s)
  (calls s) (subs s) (notifs s) (checks s) l (write_q s) (next_ptr s).
Definition set_write_q q s := Session (rpc_q_len s) (peer_sid s) (rpc_call_q s) (access_check_q s)
  (calls s) (subs s) (notifs s) (checks s) (listen_list s) q (next_ptr s).
Definition set_next n s := Session (rpc_q_len s) (peer_sid s) (rpc_call_q s) (access_check_q s)
  (calls s) (subs s) (notifs s) (checks s) (listen_list s) (write_q s) n.

(** What the libraries answer during one step. *)
Record env := Env {
  e_acl : list string;
  e_conn : conn;
  e_req_max : Z;
  e_now : timespec;
  (** [ubus_lookup_id] of "session", and [ubus_invoke_async] of "access" *)
  e_session : bool;
  e_access : bool;
  (** [ubus_lookup_id] and [ubus_invoke_async] of the object of a call *)
  e_lookup : Z;
  e_invoke : Z;
  (** [ubus_register_event_handler] *)
  e_register : Z;
  (** [ubus_lookup]: its code and the objects it reports *)
  e_objects : list (string * option (list attr));
  e_lookup_list : Z;
  e_on_writable : Z;
}.

Definition list_del (p : nat) (q : list nat) : list nat := filter (fun x => x <> p) q.

Section session.
Context `{AvlTree, JsonC, LibUbox}.
Variable e : env.

Definition queue_str (str : string) : M session unit :=
  fun s => match wsu_queue_write_str (e_on_writable e) (Some str) (write_q s) with
           | Some (_, q) => Some (tt, set_write_q q s)
           | None => None
           end.

Definition dec_q_len : M session unit := modify (fun s => set_q_len (u32 (rpc_q_len s - 1)) s).

Definition alloc : M session nat :=
  fun s => Some (next_ptr s, set_next (S (next_ptr s)) s).

(** ** rpc_call_ubus.h *)

Definition wsubus_percall_ctx_destroy (p : nat) : M session unit :=
  let* _ := deref (fun s => calls s !! p) in
  dec_q_len ;;;
  modify (fun s => set_calls (delete p (calls s)) s).

Definition wsubus_percall_ctx_create (id : option attr) (r : ubusrpc_blob) : M session nat :=
  let* p := alloc in
  let c := match rpc_args_of r with
           | CallArgs object method params =>
               CallCtx id (default "" (rpc_sid r)) object method params [] false false (e_now e)
           | _ => CallCtx id (default "" (rpc_sid r)) "" "" [] [] false false (e_now e)
           end in
  modify (fun s => set_calls (<[p := c]> (calls s)) s) ;;;
  M_ret p.

(** Writing a field of a context. *)
Definition with_call (p : nat) (f : call_ctx -> call_ctx) : M session unit :=
  let* c := deref (fun s => calls s !! p) in
  modify (fun s => set_calls (<[p := f c]> (calls s)) s).

Definition cc_set_check b c := CallCtx (cc_id c) (cc_sid c) (cc_object c) (cc_method c) (cc_params c)
  (cc_retbuf c) (cc_invoke c) b (cc_start c).
Definition cc_set_invoke b c := CallCtx (cc_id c) (cc_sid c) (cc_object c) (cc_method c) (cc_params c)
  (cc_retbuf c) b (cc_check c) (cc_start c).
Definition cc_set_params ps c := CallCtx (cc_id c) (cc_sid c) (cc_object c) (cc_method c) ps
  (cc_retbuf c) (cc_invoke c) (cc_check c) (cc_start c).
Definition cc_add_ret a c := CallCtx (cc_id c) (cc_sid c) (cc_object c) (cc_method c) (cc_params c)
  (cc_retbuf c ++ [a]) (cc_invoke c) (cc_check c) (cc_start c).

(** The first field of [retbuf], if any, is the data of the answer. *)
Definition wsubus_call_on_completed (p : nat) (status : Z) : M session unit :=
  let* c := deref (fun s => calls s !! p) in
  assert_ (cc_invoke c) ;;;
  queue_str (jsonrpc__resp_ubus (cc_id c) status (head (cc_retbuf c))) ;;;
  with_call p (cc_set_invoke false) ;;;
  modify (fun s => set_call_q (list_del p (rpc_call_q s)) s) ;;;
  wsubus_percall_ctx_destroy p.

Definition wsubus_call_on_retdata (p : nat) (msg : option attr) : M session unit :=
  match msg with
  | Some a => with_call p (cc_add_ret ("", a.2))
  | None => M_ret tt
  end.

Definition wsubus_call_do_call (p : nat) : M session Z :=
  let* c := deref (fun s => calls s !! p) in
  if negb (e_lookup e =? UBUS_STATUS_OK) then M_ret (e_lookup e)
  else
    (when strcmp (cc_sid c) UBUS_DEFAULT_SID =? 0 do
       with_call p (cc_set_params (cc_params c ++ [("_owsd_listen", BString (vh_name (e_conn e)))]))) ;;;
    if negb (e_invoke e =? UBUS_STATUS_OK) then M_ret (e_invoke e)
    else with_call p (cc_set_invoke true) ;;; M_ret UBUS_STATUS_OK.

(** The callback of the access check: the pending request is gone. *)
Definition wsubus_access_on_completed (p : nat) (allow : bool) : M session unit :=
  modify (fun s => set_checks (checks s ∖ {[p]}) s) ;;;
  let* c := deref (fun s => calls s !! p) in
  assert_ (cc_check c) ;;;
  with_call p (cc_set_check false) ;;;
  modify (fun s => set_acq (list_del p (access_check_q s)) s) ;;;
  let* ret := if allow then wsubus_call_do_call p else M_ret UBUS_STATUS_PERMISSION_DENIED in
  when negb (ret =? UBUS_STATUS_OK) do
    (queue_str (jsonrpc__resp_ubus (cc_id c) UBUS_STATUS_PERMISSION_DENIED None) ;;;
     modify (fun s => set_call_q (list_del p (rpc_call_q s)) s) ;;;
     wsubus_percall_ctx_destroy p).

Definition wsubus_call_do_check_then_do_call (p : nat) : M session Z :=
  modify (fun s => set_acq (access_check_q s ++ [p]) s) ;;;
  let* c := deref (fun s => calls s !! p) in
  with_call p (cc_set_check true) ;;;
  let* r := deref (fun _ => wsubus_access_check__call (e_acl e) (e_session e) (e_access e) (e_conn e)
                              (cc_sid c) (cc_object c) (cc_method c) (cc_params c)) in
  match r with
  | (CheckFailed, args) =>
      modify (fun s => set_acq (list_del p (access_check_q s)) s) ;;;
      M_ret UBUS_STATUS_UNKNOWN_ERROR
  | (_, args) =>
      modify (fun s => set_checks (checks s ∪ {[p]}) s) ;;;
      with_call p (fun c => cc_set_params (default (cc_params c) args) c) ;;;
      M_ret 0
  end.

Definition handle_call_ubus (r : ubusrpc_blob) (id : option attr) : M session Z :=
  let* p := wsubus_percall_ctx_create id r in
  modify (fun s => set_call_q (rpc_call_q s ++ [p]) s) ;;;
  let* ret := wsubus_call_do_check_then_do_call p in
  (when negb (ret =? UBUS_STATUS_OK) do
     (modify (fun s => set_call_q (list_del p (rpc_call_q s)) s) ;;;
      wsubus_percall_ctx_destroy p ;;;
      queue_str (jsonrpc__resp_ubus id UBUS_STATUS_PERMISSION_DENIED None))) ;;;
  M_ret 0.

(** ** rpc_list_ubus.h *)

(** [blobmsg_type_to_str] of a number: the array has 8 entries. *)
Definition type_str (t : Z) : option (option string) :=
  if t <? 0 then None
  else [BLOBMSG_TYPE_UNSPEC; BLOBMSG_TYPE_ARRAY; BLOBMSG_TYPE_TABLE; BLOBMSG_TYPE_STRING;
        BLOBMSG_TYPE_INT64; BLOBMSG_TYPE_INT32; BLOBMSG_TYPE_INT16; BLOBMSG_TYPE_INT8]
         !! Z.to_nat t ≫= blobmsg_type_to_str.

(** The arguments of a method, with the names of their types. *)
Fixpoint list_args (args : list attr) : option (list attr) :=
  match args with
  | [] => Some []
  | (name, BInt32 t) :: rest =>
      match type_str t, list_args rest with
      | Some ty, Some l => Some ((name, BString (default "unknown" ty)) :: l)
      | _, _ => None
      end
  | _ :: rest => list_args rest
  end.

Fixpoint list_methods (path : string) (signature : list attr) : option (list attr) :=
  match signature with
  | [] => Some []
  | cur_method :: rest =>
      if negb (ubusx_acl__allow_method path (blobmsg_name cur_method))
      then list_methods path rest
      else match list_args (blobmsg_attrs cur_method), list_methods path rest with
           | Some args, Some l => Some ((blobmsg_name cur_method, BTable args) :: l)
           | _, _ => None
           end
  end.

(** The fields one object adds to the result. *)
Definition ubus_lookup_cb (acl : list string) (sid : string) (obj : string * option (list attr))
  : option (list attr) :=
  if (strncmp sid "X-tls-certificate" (String.length "X-tls-certificate") =? 0)
     && negb (ubusx_acl__allow_object acl obj.1)
  then Some []
  else match obj.2 with
  | None => Some [(obj.1, BTable [])]
  | Some signature => (fun ms => [(obj.1, BTable ms)]) <$> list_methods obj.1 signature
  end.

Fixpoint list_objects (acl : list string) (sid : string) (objs : list (string * option (list attr)))
  : option (list attr) :=
  match objs with
  | [] => Some []
  | o :: rest =>
      match ubus_lookup_cb acl sid o, list_objects acl sid rest with
      | Some a, Some l => Some (a ++ l)
      | _, _ => None
      end
  end.

(** With [output] set, as in a build without D-Bus. *)
Definition handle_list_ubus (id : option attr) : M session Z :=
  let* l := deref (fun s => list_objects (e_acl e) (peer_sid s) (e_objects e)) in
  queue_str (if negb (e_lookup_list e =? 0) then jsonrpc__resp_ubus id (e_lookup_list e) None
             else jsonrpc__resp_ubus id 0 (Some ("", BTable l))) ;;;
  dec_q_len ;;;
  M_ret 0.

(** The request of rpc_list.c copies the id with [blob_memdup], which reads it:
    without an id this is a read through NULL. *)
Definition ubusrpc_handle_list_ (id : option attr) : M session Z :=
  let* _ := deref (fun _ => id) in
  handle_list_ubus id.

(** ** rpc_sub.c *)

(** [wsubus_unsub_elem]: the element leaves [listen_list] and is freed. *)
Definition wsubus_unsub_elem (p : nat) : M session unit :=
  let* _ := deref (fun s => subs s !! p) in
  modify (fun s => set_listen (list_del p (listen_list s)) s) ;;;
  modify (fun s => set_subs (delete p (subs s)) s).

Definition ubusrpc_handle_sub_ (r : ubusrpc_blob) (id : option attr) : M session Z :=
  let ret := e_register e in
  (when ret =? 0 do
     (let* p := alloc in
      let pattern := match rpc_args_of r with SubArgs (Some p) => p | _ => "" end in
      modify (fun s => set_subs (<[p := SubInfo pattern (default "" (rpc_sid r))]> (subs s)) s) ;;;
      modify (fun s => set_listen (listen_list s ++ [p]) s) ;;;
      modify (fun s => set_call_q (rpc_call_q s ++ [p]) s))) ;;;
  queue_str (jsonrpc__resp_ubus id ret None) ;;;
  dec_q_len ;;;
  M_ret 0.

(** The fields of [blobmsg_add_sub_info]. *)
Definition blobmsg_add_sub_info (name : string) (i : sub_info) : attr :=
  (name, BTable [("pattern", BString (si_pattern i)); ("ubus_rpc_session", BString (si_sid i))]).

(** The entries of the listening list: its elements are read through. *)
Fixpoint sub_list_from (m : gmap nat sub_info) (l : list nat) : option (list attr) :=
  match l with
  | [] => Some []
  | p :: rest =>
      match m !! p, sub_list_from m rest with
      | Some i, Some l' => Some (blobmsg_add_sub_info "" i :: l')
      | _, _ => None
      end
  end.

Definition ubusrpc_handle_sub_list_ (id : option attr) : M session Z :=
  let* l := deref (fun s => sub_list_from (subs s) (listen_list s)) in
  queue_str (jsonrpc__resp_ubus id 0 (Some ("", BArray l))) ;;;
  dec_q_len ;;;
  M_ret 0.

(** The loop of [ubusrpc_handle_unsub]; the result says that one matched. *)
Fixpoint unsub_matching (pattern : string) (l : list nat) : M session bool :=
  match l with
  | [] => M_ret false
  | p :: rest =>
      let* i := deref (fun s => subs s !! p) in
      let* b :=
        if strcmp pattern (si_pattern i) =? 0 then
          modify (fun s => set_call_q (list_del p (rpc_call_q s)) s) ;;;
          wsubus_unsub_elem p ;;;
          M_ret true
        else M_ret false in
      let* b' := unsub_matching pattern rest in
      M_ret (b || b')
  end.

Definition ubusrpc_handle_unsub_ (r : ubusrpc_blob) (id : option attr) : M session Z :=
  let pattern := match rpc_args_of r with SubArgs (Some p) => p | _ => "" end in
  let* l := gets listen_list in
  let* found := unsub_matching pattern l in
  queue_str (jsonrpc__resp_ubus id (if found then 0 else 5) None) ;;;
  dec_q_len ;;;
  M_ret 0.

Definition wsubus_ev_destroy_ctx (t : nat) : M session unit :=
  let* _ := deref (fun s => notifs s !! t) in
  modify (fun s => set_notifs (delete t (notifs s)) s).

(** The notification of an event to the client. *)
Definition event_blob (n : ev_notif) (i : sub_info) : list attr :=
  [("jsonrpc", BString "2.0"); ("method", BString "event");
   ("params", BTable [("type", BString (n_type n)); ("data", BTable (n_msg n));
                      blobmsg_add_sub_info "subscription" i])].

Definition wsubus_ev_check_cb (t : nat) (access : bool) : M session unit :=
  modify (fun s => set_checks (checks s ∖ {[t]}) s) ;;;
  let* n := deref (fun s => notifs s !! t) in
  (when access do
     (let* i := deref (fun s => subs s !! n_info n) in
      queue_str (blobmsg_format_json (event_blob n i)))) ;;;
  modify (fun s => set_acq (list_del t (access_check_q s)) s) ;;;
  wsubus_ev_destroy_ctx t.

(** ubus calls the handler of subscription [p] with an event. *)
Definition wsubus_sub_cb (p : nat) (type : string) (msg : list attr) : M session unit :=
  let* i := deref (fun s => subs s !! p) in
  let* t := alloc in
  modify (fun s => set_notifs (<[t := Notif type msg p]> (notifs s)) s) ;;;
  modify (fun s => set_acq (access_check_q s ++ [t]) s) ;;;
  let* r := deref (fun _ => wsubus_access_check__event (e_acl e) (e_session e) (e_access e)
                              (e_conn e) (si_sid i) type msg) in
  match r.1 with
  | CheckFailed =>
      modify (fun s => set_acq (list_del t (access_check_q s)) s) ;;;
      wsubus_ev_destroy_ctx t
  | _ => modify (fun s => set_checks (checks s ∪ {[t]}) s)
  end.

(** ** wsubus.c: one message *)

Definition run_handler (h : handler) (r : ubusrpc_blob) (id : option attr) : M session Z :=
  match h with
  | ubusrpc_handle_call => handle_call_ubus r id
  | ubusrpc_handle_list => ubusrpc_handle_list_ id
  | ubusrpc_handle_sub => ubusrpc_handle_sub_ r id
  | ubusrpc_handle_sub_list => ubusrpc_handle_sub_list_ id
  | ubusrpc_handle_unsub => ubusrpc_handle_unsub_ r id
  end.

Definition wsu_on_msg_from_client (blob : list attr) : M session unit :=
  let* len := gets rpc_q_len in
  if u32 (e_req_max e) <? len then M_ret tt
  else
    let '(rc, req) := jsonrpc_blob_req_parse blob in
    if negb (rc =? 0) then
      queue_str (jsonrpc__resp_error (req_id req) JSONRPC_ERRORCODE__INVALID_REQUEST None)
    else match req_method req, req_params req with
    | Some method, Some params =>
        match ubusrpc_blob_parse method params with
        | (err, None) => queue_str (jsonrpc__resp_error (req_id req) err None)
        | (_, Some r) =>
            let* sid := deref (fun _ => wsu_sid_update (rpc_sid r)) in
            modify (set_sid sid) ;;;
            let* h := deref (fun _ => rpc_handler r) in
            let* ret := run_handler h r (req_id req) in
            if negb (ret =? 0)
            then queue_str (jsonrpc__resp_error (req_id req) JSONRPC_ERRORCODE__OTHER None)
            else modify (fun s => set_q_len (u32 (rpc_q_len s + 1)) s)
        end
    | _, _ => abort
    end.

(** A complete text message: [parsed] is the JSON value, when the parser took
    all of it. *)
Definition wsubus_rx_json (parsed : option json) : M session unit :=
  match parsed with
  | Some (JObject l) => wsu_on_msg_from_client (blobmsg_add_object (JObject l))
  | _ => queue_str (jsonrpc__resp_error None JSONRPC_ERRORCODE__PARSE_ERROR None)
  end.

(** ** wsubus.impl.h: the end of requests and of the session *)

(** [cancel_and_destroy] of an element of [rpc_call_q]. *)
Definition cancel_and_destroy (p : nat) : M session unit :=
  let* s := get in
  match calls s !! p with
  | Some _ => wsubus_percall_ctx_destroy p
  | None => wsubus_unsub_elem p
  end.

(** Only calls can be stale; the elements of the queue are visited in order. *)
Definition clean_stale_one (p : nat) : M session unit :=
  let* s := get in
  match calls s !! p with
  | None => let* _ := deref (fun s => subs s !! p) in M_ret tt
  | Some c =>
      when stale (e_now e) (cc_start c) do
        (modify (fun s => set_call_q (list_del p (rpc_call_q s)) s) ;;;
         wsubus_percall_ctx_destroy p)
  end.

Definition wsubus_percall_clean_stale : M session unit :=
  let* q := gets rpc_call_q in
  forM_ q clean_stale_one.

(** An access check in progress is cancelled; the context is read for it. *)
Definition cancel_check (p : nat) : M session unit :=
  modify (fun s => set_acq (list_del p (access_check_q s)) s) ;;;
  let* s := get in
  match calls s !! p, notifs s !! p with
  | Some _, _ => modify (fun s => set_checks (checks s ∖ {[p]}) s)
  | None, Some _ =>
      modify (fun s => set_checks (checks s ∖ {[p]}) s) ;;;
      wsubus_ev_destroy_ctx p
  | None, None => abort
  end.

Definition wsu_peer_deinit : M session unit :=
  modify (set_write_q []) ;;;
  let* a := gets access_check_q in
  forM_ a cancel_check ;;;
  let* q := gets rpc_call_q in
  forM_ q (fun p => modify (fun s => set_call_q (list_del p (rpc_call_q s)) s) ;;; cancel_and_destroy p).
End session.
