(* ===== verification/SessionInv.v ===== *)
(** * The invariant of a client session

    Which contexts are on the heap, which queue links them and which callbacks
    are pending, for the session of Session.v; and that every operation keeps
    this.  Every lemma also says that the operation comes back, that is, that
    no freed context is read. *)

From stdpp Require Import base list strings numbers sets gmap.
From S2P Require Import Prelude CStrings Avl Patterns Libs UbusxAcl Rpc PeerIO AccessCheck Session.

Set Default Proof Using "Type".
Local Arguments strcmp : simpl never.

(** Unfold the monad along a run. *)
Ltac run := unfold with_call, dec_q_len, alloc, M_bind, modify, deref, gets, get, assert_, M_ret; simpl.

(** [rpc_q_len] counts the calls on the heap, up to the [d] that the message
    being handled is ahead. *)
Record sinv (d : Z) (s : session) : Prop := {
  si_call_q : forall p, p ∈ rpc_call_q s <-> is_Some (calls s !! p) \/ is_Some (subs s !! p);
  si_call_q_nodup : NoDup (rpc_call_q s);
  si_acq : forall p, p ∈ access_check_q s <->
    (exists c, calls s !! p = Some c /\ cc_check c = true) \/ is_Some (notifs s !! p);
  si_acq_nodup : NoDup (access_check_q s);
  si_checks : forall p, p ∈ checks s <-> p ∈ access_check_q s;
  si_listen : forall p, p ∈ listen_list s <-> is_Some (subs s !! p);
  si_listen_nodup : NoDup (listen_list s);
  si_notif : forall t n, notifs s !! t = Some n -> is_Some (subs s !! n_info n);
  si_waits : forall p c, calls s !! p = Some c -> cc_invoke c = negb (cc_check c);
  si_len : rpc_q_len s = u32 (Z.of_nat (size (calls s)) + d);
  si_call_fresh : forall p, is_Some (calls s !! p) -> (p < next_ptr s)%nat /\
    subs s !! p = None /\ notifs s !! p = None;
  si_sub_fresh : forall p, is_Some (subs s !! p) -> (p < next_ptr s)%nat;
  si_notif_fresh : forall p, is_Some (notifs s !! p) -> (p < next_ptr s)%nat;
}.

Lemma sinv_init : sinv 0 session_init.
Proof.
  split; simpl; try (by constructor); intros; rewrite ?lookup_empty in *; try done;
    try (by destruct H); set_solver by naive_solver.
Qed.

Lemma elem_of_list_del p x q : x ∈ list_del p q <-> x <> p /\ x ∈ q.
Proof. unfold list_del. by rewrite list_elem_of_filter. Qed.

Lemma list_del_snoc p q : p ∉ q -> list_del p (q ++ [p]) = q.
Proof.
  intros Hp. unfold list_del. rewrite filter_app, filter_cons, decide_False by auto.
  rewrite filter_nil, app_nil_r. induction q as [|x q IH]; [done|].
  rewrite filter_cons, decide_True by set_solver. f_equal. apply IH. set_solver.
Qed.

Lemma list_del_nodup p q : NoDup q -> NoDup (list_del p q).
Proof. apply NoDup_filter. Qed.

Lemma NoDup_snoc (p : nat) q : NoDup q -> p ∉ q -> NoDup (q ++ [p]).
Proof. intros Hq Hp. apply NoDup_app. split_and!; [done|set_solver|apply NoDup_singleton]. Qed.

(** The count after a context is gone. *)
Lemma size_delete_call (m : gmap nat call_ctx) p c :
  m !! p = Some c -> Z.of_nat (size (delete p m)) = Z.of_nat (size m) - 1.
Proof.
  intros Hp. rewrite map_size_delete, Hp. simpl.
  assert (size m <> 0)%nat; [|lia]. intros E%map_size_empty_inv. subst. done.
Qed.

Section ops.
Context `{AvlTree, JsonC, LibUbox}.
Variable e : env.

(** No text is as long as the limit of a message. *)
Definition texts_fit : Prop :=
  forall l, strlen (blobmsg_format_json l) < WSUBUS_MAX_MESSAGE_LEN.

Definition queued (str : string) (s : session) : session :=
  set_write_q (write_q s ++ [WriteReq str 0]) s.

Lemma queue_str_run (Hfit : texts_fit) l s :
  queue_str e (blobmsg_format_json l) s = Some (tt, queued (blobmsg_format_json l) s).
Proof.
  unfold queue_str, wsu_queue_write_str, assert_, M_bind, modify, M_ret.
  rewrite (proj2 (Z.ltb_lt _ _)) by apply Hfit. done.
Qed.

Lemma sinv_queued d str s : sinv d s -> sinv d (queued str s).
Proof. by destruct 1. Qed.

(** A call leaves the heap and the queue. *)
Definition remove_call (p : nat) (s : session) : session :=
  set_calls (delete p (calls s)) (set_q_len (u32 (rpc_q_len s - 1))
    (set_call_q (list_del p (rpc_call_q s)) s)).

Lemma sinv_remove_call d s p c :
  sinv d s -> calls s !! p = Some c -> p ∉ access_check_q s -> sinv d (remove_call p s).
Proof.
  intros Hi Hp Hacq. pose proof Hi as [].
  assert (subs s !! p = None) as Hsub by (apply si_call_fresh0; eauto).
  assert (forall x, is_Some (delete p (calls s) !! x) <-> x <> p /\ is_Some (calls s !! x)) as Hdel.
  { intros x. rewrite lookup_delete_is_Some. naive_solver. }
  split; simpl; try done.
  - intros x. rewrite elem_of_list_del, Hdel, si_call_q0. split; [tauto|].
    intros [?|Hx]; [tauto|]. split; [|by right]. intros ->. rewrite Hsub in Hx. by destruct Hx.
  - by apply list_del_nodup.
  - intros x. rewrite si_acq0. split; (intros [(c' & Hc & ?)|?]; [left|by right]).
    + exists c'. rewrite lookup_delete_ne; [done|]. intros ->. apply Hacq, si_acq0. eauto.
    + apply lookup_delete_Some in Hc as [? ?]. eauto.
  - intros x c' [? ?]%lookup_delete_Some. eauto.
  - rewrite si_len0, (size_delete_call _ _ _ Hp). unfold u32.
    rewrite Zminus_mod_idemp_l. f_equal. lia.
  - intros x [? ?]%Hdel. auto.
Qed.

Lemma ctx_destroy_run s p c :
  calls s !! p = Some c ->
  (modify (fun s => set_call_q (list_del p (rpc_call_q s)) s) ;;; wsubus_percall_ctx_destroy p) s =
  Some (tt, remove_call p s).
Proof. intros Hp. unfold wsubus_percall_ctx_destroy. run. by rewrite Hp. Qed.

(** ** Calls *)

Lemma sinv_call_set d s p c c' :
  sinv d s -> calls s !! p = Some c -> cc_check c' = cc_check c -> cc_invoke c' = cc_invoke c ->
  sinv d (set_calls (<[p := c']> (calls s)) s).
Proof.
  intros Hi Hp Hck Hiv. pose proof Hi as [].
  assert (forall x, is_Some (<[p := c']> (calls s) !! x) <-> is_Some (calls s !! x)) as Hins.
  { intros x. rewrite lookup_insert_is_Some. destruct (decide (p = x)) as [->|]; naive_solver. }
  split; simpl; try done.
  - intros x. by rewrite Hins.
  - intros x. rewrite si_acq0. destruct (decide (p = x)) as [->|].
    + rewrite lookup_insert_eq. naive_solver congruence.
    + by rewrite lookup_insert_ne.
  - intros x cx Hx. destruct (decide (p = x)) as [->|].
    + rewrite lookup_insert_eq in Hx. simplify_eq. rewrite Hck, Hiv. by eapply si_waits0.
    + rewrite lookup_insert_ne in Hx by done. by eapply si_waits0.
  - by rewrite map_size_insert_Some by eauto.
  - intros x Hx%Hins. auto.
Qed.

Lemma on_retdata_ok d s p c msg :
  sinv d s -> calls s !! p = Some c ->
  exists s', wsubus_call_on_retdata p msg s = Some (tt, s') /\ sinv d s' /\
    write_q s' = write_q s /\ (exists c', calls s' = <[p := c']> (calls s) /\
      cc_id c' = cc_id c /\ cc_invoke c' = cc_invoke c).
Proof.
  intros Hi Hp. destruct msg as [a|]; simpl.
  - unfold wsubus_call_on_retdata. run. rewrite Hp. eexists. split; [done|].
    split; [by eapply sinv_call_set|]. split; [done|]. eexists. split_and!; done.
  - exists s. split_and!; try done. exists c. rewrite insert_id by done. done.
Qed.

Lemma invoked_not_checked d s p c :
  sinv d s -> calls s !! p = Some c -> cc_invoke c = true -> p ∉ access_check_q s.
Proof.
  intros [] Hp Hc [(c' & Hc' & Hk)|Hn]%si_acq0.
  - simplify_eq. rewrite (si_waits0 _ _ Hp), Hk in Hc. done.
  - destruct (si_call_fresh0 p ltac:(eauto)) as (_ & _ & E). rewrite E in Hn. by destruct Hn.
Qed.

Lemma on_completed_ok (Hfit : texts_fit) d s p c status :
  sinv d s -> calls s !! p = Some c -> cc_invoke c = true ->
  exists s', wsubus_call_on_completed e p status s = Some (tt, s') /\ sinv d s' /\
    write_q s' = write_q s ++ [WriteReq (jsonrpc__resp_ubus (cc_id c) status (head (cc_retbuf c))) 0] /\
    calls s' = delete p (calls s) /\ access_check_q s' = access_check_q s.
Proof.
  intros Hi Hp Hiv. unfold wsubus_call_on_completed, wsubus_percall_ctx_destroy, jsonrpc__resp_ubus.
  run. rewrite Hp, Hiv. rewrite (queue_str_run Hfit). simpl. rewrite Hp. simpl.
  rewrite lookup_insert_eq. eexists. split; [done|].
  simpl. rewrite delete_insert_eq. split; [|done].
  apply (sinv_remove_call d (queued _ s) p c); [by apply sinv_queued|done|].
  by apply (invoked_not_checked d s p c).
Qed.

(** The callback of the access check took the check away: the call waits for
    nothing. *)
Definition unchecked (p : nat) (c : call_ctx) (s : session) : session :=
  set_acq (list_del p (access_check_q s))
    (set_calls (<[p := cc_set_check false c]> (calls s)) (set_checks (checks s ∖ {[p]}) s)).

(** Denied: the call is answered and removed. *)
Lemma sinv_unchecked_remove d s p c :
  sinv d s -> calls s !! p = Some c -> sinv d (remove_call p (unchecked p c s)).
Proof.
  intros Hi Hp. pose proof Hi as [].
  assert (subs s !! p = None /\ notifs s !! p = None) as [Hsub Hno] by (apply si_call_fresh0; eauto).
  assert (forall x, is_Some (delete p (calls s) !! x) <-> x <> p /\ is_Some (calls s !! x)) as Hdel.
  { intros x. rewrite lookup_delete_is_Some. naive_solver. }
  split; simpl; rewrite ?delete_insert_eq; try done.
  - intros x. rewrite elem_of_list_del, Hdel, si_call_q0. split; [tauto|].
    intros [?|Hx]; [tauto|]. split; [|by right]. intros ->. rewrite Hsub in Hx. by destruct Hx.
  - by apply list_del_nodup.
  - intros x. rewrite elem_of_list_del, si_acq0. split.
    + intros [Hne [(c' & Hc & ?)|?]]; [left|by right]. exists c'. by rewrite lookup_delete_ne.
    + intros [(c' & [? ?]%lookup_delete_Some & ?)|Hx]; [by eauto|].
      split; [|by right]. intros ->. rewrite Hno in Hx. by destruct Hx.
  - by apply list_del_nodup.
  - intros x. rewrite elem_of_list_del, elem_of_difference, si_checks0. set_solver.
  - intros x c' [? ?]%lookup_delete_Some. eauto.
  - rewrite si_len0, (size_delete_call _ _ _ Hp). unfold u32.
    rewrite Zminus_mod_idemp_l. f_equal. lia.
  - intros x [? ?]%Hdel. auto.
Qed.

(** Allowed and invoked: the call waits for its answer. *)
Lemma sinv_unchecked_invoke d s p c ps :
  sinv d s -> calls s !! p = Some c ->
  sinv d (set_acq (list_del p (access_check_q s))
    (set_calls (<[p := cc_set_invoke true (cc_set_params ps (cc_set_check false c))]> (calls s))
      (set_checks (checks s ∖ {[p]}) s))).
Proof.
  intros Hi Hp. pose proof Hi as [].
  assert (notifs s !! p = None) as Hno by (apply si_call_fresh0; eauto).
  set (c' := cc_set_invoke _ _).
  assert (forall x, is_Some (<[p := c']> (calls s) !! x) <-> is_Some (calls s !! x)) as Hins.
  { intros x. rewrite lookup_insert_is_Some. destruct (decide (p = x)) as [->|]; naive_solver. }
  split; simpl; try done.
  - intros x. by rewrite Hins.
  - intros x. rewrite elem_of_list_del, si_acq0. destruct (decide (p = x)) as [->|Hne].
    + rewrite lookup_insert_eq. split; [by intros [? _]|]. intros [(? & [= <-] & ?)|Hx]; [done|].
      rewrite Hno in Hx. by destruct Hx.
    + rewrite lookup_insert_ne by done. naive_solver.
  - by apply list_del_nodup.
  - intros x. rewrite elem_of_list_del, elem_of_difference, si_checks0. set_solver.
  - intros x cx Hx. destruct (decide (p = x)) as [->|].
    + rewrite lookup_insert_eq in Hx. by simplify_eq.
    + rewrite lookup_insert_ne in Hx by done. by eapply si_waits0.
  - by rewrite map_size_insert_Some by eauto.
  - intros x Hx%Hins. auto.
Qed.

(** The denial, from a state that differs from the unchecked one in the context. *)
Lemma access_denied_ok (Hfit : texts_fit) d s p c c0 :
  sinv d s -> calls s !! p = Some c ->
  exists s',
    (queue_str e (jsonrpc__resp_ubus (cc_id c) UBUS_STATUS_PERMISSION_DENIED None) ;;;
     modify (fun s => set_call_q (list_del p (rpc_call_q s)) s) ;;;
     wsubus_percall_ctx_destroy p) (set_calls (<[p := c0]> (calls s)) (unchecked p c s)) = Some (tt, s') /\
    sinv d s' /\ write_q s' = write_q s ++
      [WriteReq (jsonrpc__resp_ubus (cc_id c) UBUS_STATUS_PERMISSION_DENIED None) 0] /\
    calls s' = delete p (calls s).
Proof.
  intros Hi Hp. unfold jsonrpc__resp_ubus, M_bind at 1. rewrite (queue_str_run Hfit).
  erewrite ctx_destroy_run by (simpl; apply lookup_insert_eq).
  eexists. split; [done|]. split; [|by simpl; rewrite delete_insert_eq].
  pose proof (sinv_queued d (blobmsg_format_json (resp_ubus_blob (cc_id c)
    UBUS_STATUS_PERMISSION_DENIED None)) _ (sinv_unchecked_remove d s p c Hi Hp)) as Hq.
  unfold remove_call, queued, unchecked in *. simpl in *.
  rewrite delete_insert_eq in *. exact Hq.
Qed.

Lemma access_on_completed_ok (Hfit : texts_fit) d s p c allow :
  sinv d s -> calls s !! p = Some c -> cc_check c = true ->
  exists s', wsubus_access_on_completed e p allow s = Some (tt, s') /\ sinv d s' /\
    if allow && (e_lookup e =? UBUS_STATUS_OK) && (e_invoke e =? UBUS_STATUS_OK)
    then write_q s' = write_q s /\ exists c', calls s' = <[p := c']> (calls s) /\
      cc_invoke c' = true /\ cc_id c' = cc_id c
    else write_q s' = write_q s ++
        [WriteReq (jsonrpc__resp_ubus (cc_id c) UBUS_STATUS_PERMISSION_DENIED None) 0] /\
      calls s' = delete p (calls s).
Proof.
  intros Hi Hp Hck.
  pose proof (fun c0 => access_denied_ok Hfit d s p c c0 Hi Hp) as Hdeny.
  unfold wsubus_access_on_completed, M_bind at 1, modify at 1. unfold M_bind at 1, deref at 1. simpl.
  rewrite Hp. unfold M_bind at 1, assert_ at 1. rewrite Hck.
  unfold M_bind at 1, with_call at 1, M_bind at 1, deref at 1. simpl. rewrite Hp.
  unfold modify at 1 2, M_bind at 1. fold (unchecked p c s).
  change (set_acq (list_del p (access_check_q s)) _) with (unchecked p c s).
  destruct allow; simpl; cycle 1.
  { unfold M_bind at 1, M_ret at 1. simpl. destruct (Hdeny (cc_set_check false c)) as (s' & Hr & ?).
    exists s'. split; [|done]. rewrite <- Hr. f_equal. }
  unfold M_bind at 1, wsubus_call_do_call, M_bind at 1, deref at 1. simpl. rewrite lookup_insert_eq.
  destruct (e_lookup e =? UBUS_STATUS_OK) eqn:El; simpl; cycle 1.
  { unfold M_ret at 1. rewrite El. destruct (Hdeny (cc_set_check false c)) as (s' & Hr & ?).
    exists s'. split; [|done]. rewrite <- Hr. f_equal. }
  set (ps := if strcmp (cc_sid c) UBUS_DEFAULT_SID =? 0 then
    cc_params c ++ [("_owsd_listen", BString (vh_name (e_conn e)))] else cc_params c).
  set (s1 := set_calls (<[p := cc_set_params ps (cc_set_check false c)]> (calls s)) (unchecked p c s)).
  assert (forall (A : Type) (k : M session A),
    ((when strcmp (cc_sid c) UBUS_DEFAULT_SID =? 0 do
       with_call p (cc_set_params (cc_params c ++ [("_owsd_listen", BString (vh_name (e_conn e)))]))) ;;; k)
      (unchecked p c s) = k s1) as Hwhen.
  { intros A k. unfold M_bind at 1. subst ps s1. destruct (strcmp (cc_sid c) UBUS_DEFAULT_SID =? 0).
    - run. rewrite lookup_insert_eq. unfold unchecked. simpl. by rewrite insert_insert_eq.
    - done. }
  rewrite Hwhen. destruct (e_invoke e =? UBUS_STATUS_OK) eqn:Eiv; simpl; cycle 1.
  { unfold M_ret at 1. rewrite Eiv. destruct (Hdeny (cc_set_params ps (cc_set_check false c))) as (s' & Hr & ?).
    exists s'. split; [|done]. rewrite <- Hr. f_equal. }
  run. subst s1. simpl. rewrite lookup_insert_eq. simpl. eexists. split; [done|].
  rewrite !insert_insert_eq. split; [|split; [done|]].
  - pose proof (sinv_unchecked_invoke d s p c ps Hi Hp) as Hv. unfold unchecked in *. simpl in *.
    by rewrite ?insert_insert_eq.
  - eexists. split; [simpl; by rewrite ?insert_insert_eq|done].
Qed.

(** A new call whose check is pending. *)
Lemma sinv_new_call d s c :
  sinv d s -> cc_check c = true -> cc_invoke c = false ->
  let p := next_ptr s in
  sinv (d - 1) (set_checks (checks s ∪ {[p]}) (set_acq (access_check_q s ++ [p])
    (set_call_q (rpc_call_q s ++ [p]) (set_calls (<[p := c]> (calls s)) (set_next (S p) s))))).
Proof.
  intros Hi Hck Hiv p. pose proof Hi as [].
  assert (calls s !! p = None) as Hc.
  { apply eq_None_not_Some. intros [? _]%si_call_fresh0. subst p. lia. }
  assert (subs s !! p = None) as Hs.
  { apply eq_None_not_Some. intros ?%si_sub_fresh0. subst p. lia. }
  assert (notifs s !! p = None) as Hn.
  { apply eq_None_not_Some. intros ?%si_notif_fresh0. subst p. lia. }
  assert (p ∉ rpc_call_q s) as Hq.
  { rewrite si_call_q0, Hc, Hs. by intros [[]|[]]. }
  assert (p ∉ access_check_q s) as Hq2.
  { rewrite si_acq0, Hc, Hn. by intros [(? & ? & _)|[]]. }
  assert (forall x, is_Some (<[p := c]> (calls s) !! x) <-> x = p \/ is_Some (calls s !! x)) as Hins.
  { intros x. rewrite lookup_insert_is_Some. destruct (decide (p = x)) as [->|]; naive_solver. }
  split; simpl; try done.
  - intros x. rewrite elem_of_app, list_elem_of_singleton, Hins, si_call_q0. tauto.
  - by apply NoDup_snoc.
  - intros x. rewrite elem_of_app, list_elem_of_singleton, si_acq0.
    destruct (decide (p = x)) as [<-|Hne].
    + rewrite lookup_insert_eq. split; [|by right]. intros _. left. eauto.
    + rewrite lookup_insert_ne by done. split; [|tauto]. by intros [?| ->].
  - by apply NoDup_snoc.
  - intros x. rewrite elem_of_app, list_elem_of_singleton, elem_of_union, elem_of_singleton, si_checks0. tauto.
  - intros x cx Hx. destruct (decide (p = x)) as [->|].
    + rewrite lookup_insert_eq in Hx. simplify_eq. by rewrite Hck, Hiv.
    + rewrite lookup_insert_ne in Hx by done. by eapply si_waits0.
  - rewrite map_size_insert_None by done. rewrite si_len0. f_equal. lia.
  - intros x [->|Hx]%Hins; [auto with lia|]. destruct (si_call_fresh0 x Hx) as (? & ? & ?). auto with lia.
  - intros x ?%si_sub_fresh0. lia.
  - intros x ?%si_notif_fresh0. lia.
Qed.

Lemma sinv_dec d s n : sinv d s -> sinv (d - 1) (set_next (n + next_ptr s) (set_q_len (u32 (rpc_q_len s - 1)) s)).
Proof.
  intros []. split; simpl; try done.
  - rewrite si_len0. unfold u32. rewrite Zminus_mod_idemp_l. f_equal. lia.
  - intros p ?%si_call_fresh0. intuition lia.
  - intros p ?%si_sub_fresh0. lia.
  - intros p ?%si_notif_fresh0. lia.
Qed.

Lemma next_not_linked d s : sinv d s ->
  (next_ptr s ∉ rpc_call_q s) /\ (next_ptr s ∉ access_check_q s) /\ calls s !! next_ptr s = None.
Proof.
  intros []. assert (calls s !! next_ptr s = None) as Hc.
  { apply eq_None_not_Some. intros [? _]%si_call_fresh0. lia. }
  split_and!; [| |done].
  - rewrite si_call_q0, Hc. intros [[]|?%si_sub_fresh0]; [done|lia].
  - rewrite si_acq0, Hc. intros [(? & ? & _)|?%si_notif_fresh0]; [done|lia].
Qed.

Lemma handle_call_ok (Hfit : texts_fit) d s r id :
  sinv d s ->
  (forall object method params, rpc_args_of r = CallArgs object method params ->
    is_Some (wsubus_access_check__call (e_acl e) (e_session e) (e_access e) (e_conn e)
      (default "" (rpc_sid r)) object method params)) ->
  (exists object method params, rpc_args_of r = CallArgs object method params) ->
  exists s', handle_call_ubus e r id s = Some (0, s') /\ sinv (d - 1) s' /\
    ((write_q s' = write_q s /\ exists c, calls s' = <[next_ptr s := c]> (calls s) /\
        cc_id c = id /\ cc_invoke c = false) \/
     (write_q s' = write_q s ++ [WriteReq (jsonrpc__resp_ubus id UBUS_STATUS_PERMISSION_DENIED None) 0] /\
      calls s' = calls s)).
Proof.
  intros Hi Hcheck (o & m & ps & Er). specialize (Hcheck _ _ _ Er) as [[res args] Hcheck].
  destruct (next_not_linked d s Hi) as (Hq & Hacq & Hnew).
  unfold handle_call_ubus, wsubus_percall_ctx_create. rewrite Er.
  set (c := CallCtx id (default "" (rpc_sid r)) o m ps [] false false (e_now e)).
  unfold M_bind at 1 2, alloc. unfold M_bind at 1, modify at 1, M_ret at 1.
  unfold M_bind at 1, modify at 1. unfold M_bind at 1, wsubus_call_do_check_then_do_call.
  unfold M_bind at 1, modify at 1. unfold M_bind at 1, deref at 1. simpl.
  rewrite lookup_insert_eq. unfold M_bind at 1, with_call at 1, M_bind at 1, deref at 1. simpl.
  rewrite lookup_insert_eq. unfold modify at 1. unfold M_bind at 1, deref at 1. simpl.
  rewrite Hcheck. rewrite insert_insert_eq.
  assert (forall args', sinv (d - 1) (set_checks (checks s ∪ {[next_ptr s]})
    (set_acq (access_check_q s ++ [next_ptr s]) (set_call_q (rpc_call_q s ++ [next_ptr s])
      (set_calls (<[next_ptr s := cc_set_params args' (cc_set_check true c)]> (calls s))
        (set_next (S (next_ptr s)) s)))))) as Hpend.
  { intros args'. by apply sinv_new_call. }
  destruct res; run; rewrite ?lookup_insert_eq; run.
  - rewrite insert_insert_eq. eexists. split; [done|]. split; [exact (Hpend (default ps args))|].
    left. split; [done|]. eexists. split_and!; done.
  - rewrite insert_insert_eq. eexists. split; [done|]. split; [exact (Hpend (default ps args))|].
    left. split; [done|]. eexists. split_and!; done.
  - unfold wsubus_percall_ctx_destroy, jsonrpc__resp_ubus. run. rewrite lookup_insert_eq. run.
    rewrite (queue_str_run Hfit). rewrite delete_insert_id by done. rewrite !list_del_snoc by done.
    eexists. split; [done|]. split; [|by right].
    exact (sinv_queued _ _ _ (sinv_dec d s 1 Hi)).
Qed.

(** ** The synchronous requests *)

Lemma handle_list_ok (Hfit : texts_fit) d s id :
  sinv d s -> is_Some (list_objects (e_acl e) (peer_sid s) (e_objects e)) ->
  is_Some id ->
  exists s' l, ubusrpc_handle_list_ e id s = Some (0, s') /\ sinv (d - 1) s' /\
    write_q s' = write_q s ++ [WriteReq (blobmsg_format_json l) 0] /\ calls s' = calls s.
Proof.
  intros Hi [l Hl] [i ->]. unfold ubusrpc_handle_list_, handle_list_ubus. run. rewrite Hl.
  set (id := Some i).
  set (blob := if e_lookup_list e =? 0 then resp_ubus_blob id 0 (Some ("", BTable l))
               else resp_ubus_blob id (e_lookup_list e) None).
  assert ((if negb (e_lookup_list e =? 0) then jsonrpc__resp_ubus id (e_lookup_list e) None
           else jsonrpc__resp_ubus id 0 (Some ("", BTable l))) = blobmsg_format_json blob) as ->.
  { subst blob. by destruct (e_lookup_list e =? 0). }
  rewrite (queue_str_run Hfit). eexists _, blob. split; [done|]. split; [|done].
  exact (sinv_queued _ _ _ (sinv_dec d s 0 Hi)).
Qed.

(** A new subscription. *)
Lemma sinv_new_sub d s i :
  sinv d s ->
  let p := next_ptr s in
  sinv d (set_call_q (rpc_call_q s ++ [p]) (set_listen (listen_list s ++ [p])
    (set_subs (<[p := i]> (subs s)) (set_next (S p) s)))).
Proof.
  intros Hi p. destruct (next_not_linked d s Hi) as (Hq & Hacq & Hnew). pose proof Hi as [].
  assert (subs s !! p = None) as Hs.
  { apply eq_None_not_Some. intros ?%si_sub_fresh0. subst p. lia. }
  assert (forall x, is_Some (<[p := i]> (subs s) !! x) <-> x = p \/ is_Some (subs s !! x)) as Hins.
  { intros x. rewrite lookup_insert_is_Some. destruct (decide (p = x)) as [->|]; naive_solver. }
  split; simpl; try done.
  - intros x. rewrite elem_of_app, list_elem_of_singleton, Hins, si_call_q0. tauto.
  - by apply NoDup_snoc.
  - intros x. rewrite elem_of_app, list_elem_of_singleton, Hins, si_listen0. tauto.
  - apply NoDup_snoc; [done|]. rewrite si_listen0, Hs. by intros [].
  - intros t n Hn. apply Hins. right. eauto.
  - intros x Hx. destruct (si_call_fresh0 x Hx) as (? & ? & ?). split_and!; [lia| |done].
    rewrite lookup_insert_ne; [done|]. intros <-. subst p. lia.
  - intros x [->|?%si_sub_fresh0]%Hins; [subst p|]; lia.
  - intros x ?%si_notif_fresh0. lia.
Qed.

Lemma handle_sub_ok (Hfit : texts_fit) d s r id :
  sinv d s ->
  exists s', ubusrpc_handle_sub_ e r id s = Some (0, s') /\ sinv (d - 1) s' /\
    write_q s' = write_q s ++ [WriteReq (jsonrpc__resp_ubus id (e_register e) None) 0] /\
    calls s' = calls s.
Proof.
  intros Hi. unfold ubusrpc_handle_sub_, jsonrpc__resp_ubus. unfold M_bind at 1.
  destruct (e_register e =? 0).
  - run. rewrite (queue_str_run Hfit). eexists. split; [done|]. split; [|done].
    exact (sinv_queued _ _ _ (sinv_dec _ _ 0 (sinv_new_sub d s _ Hi))).
  - run. rewrite (queue_str_run Hfit). eexists. split; [done|]. split; [|done].
    exact (sinv_queued _ _ _ (sinv_dec d s 0 Hi)).
Qed.

Lemma sub_list_from_some m l :
  (forall p, p ∈ l -> is_Some (m !! p)) -> is_Some (sub_list_from m l).
Proof.
  induction l as [|p l IH]; simpl; [eauto|]. intros Hl.
  destruct (Hl p) as [i ->]; [left|]. destruct IH as [l' ->]; [|eauto].
  intros x Hx. apply Hl. by right.
Qed.

Lemma handle_sub_list_ok (Hfit : texts_fit) d s id :
  sinv d s ->
  exists s' l, ubusrpc_handle_sub_list_ e id s = Some (0, s') /\ sinv (d - 1) s' /\
    sub_list_from (subs s) (listen_list s) = Some l /\
    write_q s' = write_q s ++ [WriteReq (jsonrpc__resp_ubus id 0 (Some ("", BArray l))) 0] /\
    calls s' = calls s.
Proof.
  intros Hi. unfold ubusrpc_handle_sub_list_, jsonrpc__resp_ubus. run.
  destruct (sub_list_from_some (subs s) (listen_list s)) as [l ->].
  { intros p. apply (si_listen d s Hi). }
  rewrite (queue_str_run Hfit). eexists _, l. split; [done|]. split; [|done].
  exact (sinv_queued _ _ _ (sinv_dec d s 0 Hi)).
Qed.

Definition remove_sub (p : nat) (s : session) : session :=
  set_subs (delete p (subs s)) (set_listen (list_del p (listen_list s))
    (set_call_q (list_del p (rpc_call_q s)) s)).

Lemma sinv_remove_sub d s p :
  sinv d s -> is_Some (subs s !! p) -> (forall t n, notifs s !! t = Some n -> n_info n <> p) ->
  sinv d (remove_sub p s).
Proof.
  intros Hi Hp Hnot. pose proof Hi as [].
  assert (calls s !! p = None) as Hc.
  { apply eq_None_not_Some. intros (_ & E & _)%si_call_fresh0. rewrite E in Hp. by destruct Hp. }
  assert (forall x, is_Some (delete p (subs s) !! x) <-> x <> p /\ is_Some (subs s !! x)) as Hdel.
  { intros x. rewrite lookup_delete_is_Some. naive_solver. }
  split; simpl; try done.
  - intros x. rewrite elem_of_list_del, Hdel, si_call_q0. split; [tauto|].
    intros [Hx|?]; [|tauto]. split; [|by left]. intros ->. rewrite Hc in Hx. by destruct Hx.
  - by apply list_del_nodup.
  - intros x. rewrite elem_of_list_del, Hdel, si_listen0. done.
  - by apply list_del_nodup.
  - intros t n Hn. apply Hdel. split; [by eapply Hnot|eauto].
  - intros x Hx. destruct (si_call_fresh0 x Hx) as (? & E & ?). split_and!; try done.
    by rewrite lookup_delete_None; auto.
  - intros x [_ ?]%Hdel. auto.
Qed.

(** The subscriptions with a pattern. *)
Definition has_pattern (pattern : string) (s : session) (p : nat) : Prop :=
  exists i, subs s !! p = Some i /\ si_pattern i = pattern.

(** No event in the air belongs to a subscription with the pattern. *)
Definition no_event_for (pattern : string) (s : session) : Prop :=
  forall t n, notifs s !! t = Some n -> ~ has_pattern pattern s (n_info n).

Lemma unsub_matching_ok d s pattern l :
  NoDup l -> (forall p, p ∈ l -> is_Some (subs s !! p)) ->
  exists b s', unsub_matching pattern l s = Some (b, s') /\
    write_q s' = write_q s /\ calls s' = calls s /\ notifs s' = notifs s /\
    (b = true <-> exists p, p ∈ l /\ has_pattern pattern s p) /\
    (forall p, is_Some (subs s' !! p) <->
      is_Some (subs s !! p) /\ ~ (p ∈ l /\ has_pattern pattern s p)) /\
    (sinv d s -> no_event_for pattern s -> sinv d s').
Proof.
  revert s. induction l as [|p l IH]; intros s Hnd Hl; simpl.
  { exists false, s. split_and!; try done.
    - split; [done|]. by intros (? & ?%elem_of_nil & _).
    - intros p. split; [|by intros [? _]]. intros ?. split; [done|]. by intros [?%elem_of_nil _]. }
  apply NoDup_cons in Hnd as [Hpl Hnd].
  destruct (Hl p) as [i Hp]; [left|]. unfold M_bind at 1, deref at 1. rewrite Hp.
  assert (strcmp pattern (si_pattern i) = 0 <-> has_pattern pattern s p) as Hpat.
  { rewrite strcmp_eq. unfold has_pattern. naive_solver. }
  destruct (Z.eqb_spec (strcmp pattern (si_pattern i)) 0) as [E|E].
  - apply Hpat in E. unfold wsubus_unsub_elem. run. rewrite Hp.
    match goal with |- context [unsub_matching pattern l ?x] => change x with (remove_sub p s) end.
    assert (forall x, x <> p -> has_pattern pattern (remove_sub p s) x <-> has_pattern pattern s x) as Hsame.
    { intros x Hx. unfold has_pattern. simpl. by rewrite lookup_delete_ne by auto. }
    destruct (IH (remove_sub p s) Hnd) as (b & s' & Hr & Hw & Hcalls & Hno & Hb & Hsubs & Hinv).
    + intros x Hx. simpl. rewrite lookup_delete_ne by (intros ->; done). apply Hl. by right.
    + rewrite Hr. exists true, s'. split_and!; try done.
      * split; [|done]. intros _. exists p. split; [left|done].
      * intros x. rewrite Hsubs. simpl. rewrite lookup_delete_is_Some, elem_of_cons.
        destruct (decide (x = p)) as [->|Hne]; [|rewrite Hsame by done]; naive_solver.
      * intros Hi Hnot. apply Hinv.
        { apply sinv_remove_sub; [done|by eauto|]. intros t n Hn Ex. apply (Hnot t n Hn). by rewrite Ex. }
        intros t n Hn Hx. apply (Hnot t n Hn). apply Hsame; [|done]. intros Ex.
        destruct Hx as (? & Hx & _). simpl in Hx. rewrite Ex, lookup_delete_eq in Hx. done.
  - rewrite Hpat in E. run. destruct (IH s Hnd) as (b & s' & Hr & Hw & Hcalls & Hno & Hb & Hsubs & Hinv).
    + intros x Hx. apply Hl. by right.
    + rewrite Hr. exists b, s'. split_and!; try done.
      * rewrite Hb. setoid_rewrite elem_of_cons. naive_solver.
      * intros x. rewrite Hsubs, elem_of_cons. naive_solver.
Qed.

(** The request always comes back; the bookkeeping stays if no event is in
    the air for a subscription it removes. *)
Lemma handle_unsub_ok (Hfit : texts_fit) d s r id pattern :
  sinv d s -> rpc_args_of r = SubArgs (Some pattern) ->
  exists s' (found : bool), ubusrpc_handle_unsub_ e r id s = Some (0, s') /\
    write_q s' = write_q s ++ [WriteReq (jsonrpc__resp_ubus id (if found then 0 else 5) None) 0] /\
    calls s' = calls s /\ notifs s' = notifs s /\ (found = true <-> exists p, has_pattern pattern s p) /\
    (forall p, is_Some (subs s' !! p) <-> is_Some (subs s !! p) /\ ~ has_pattern pattern s p) /\
    (no_event_for pattern s -> sinv (d - 1) s').
Proof.
  intros Hi Er. unfold ubusrpc_handle_unsub_, jsonrpc__resp_ubus. rewrite Er. run.
  assert (forall p, has_pattern pattern s p -> p ∈ listen_list s) as Hin.
  { intros p (i & Hp & _). apply (si_listen d s Hi). eauto. }
  destruct (unsub_matching_ok d s pattern (listen_list s) (si_listen_nodup d s Hi))
    as (b & s1 & -> & Hw & Hc & Hno & Hb & Hsubs & Hinv).
  { intros p. apply (si_listen d s Hi). }
  rewrite (queue_str_run Hfit). eexists _, b. split; [done|]. split_and!.
  - simpl. by rewrite Hw.
  - done.
  - done.
  - rewrite Hb. naive_solver.
  - intros p. simpl. rewrite Hsubs. naive_solver.
  - intros Hnot. exact (sinv_queued _ _ _ (sinv_dec d s1 0 (Hinv Hi Hnot))).
Qed.

(** ** Events *)

Lemma sinv_next d s : sinv d s -> sinv d (set_next (S (next_ptr s)) s).
Proof.
  intros []. split; simpl; try done.
  - intros p ?%si_call_fresh0. intuition lia.
  - intros p ?%si_sub_fresh0. lia.
  - intros p ?%si_notif_fresh0. lia.
Qed.

Lemma sinv_new_notif d s n :
  sinv d s -> is_Some (subs s !! n_info n) ->
  let t := next_ptr s in
  sinv d (set_checks (checks s ∪ {[t]}) (set_acq (access_check_q s ++ [t])
    (set_notifs (<[t := n]> (notifs s)) (set_next (S t) s)))).
Proof.
  intros Hi Hn t. destruct (next_not_linked d s Hi) as (Hq & Hacq & Hnew). pose proof Hi as [].
  assert (forall x, is_Some (<[t := n]> (notifs s) !! x) <-> x = t \/ is_Some (notifs s !! x)) as Hins.
  { intros x. rewrite lookup_insert_is_Some. destruct (decide (t = x)) as [->|]; naive_solver. }
  split; simpl; try done.
  - intros x. rewrite elem_of_app, list_elem_of_singleton, Hins, si_acq0. tauto.
  - by apply NoDup_snoc.
  - intros x. rewrite elem_of_app, list_elem_of_singleton, elem_of_union, elem_of_singleton, si_checks0. tauto.
  - intros x m Hm. destruct (decide (t = x)) as [->|].
    + rewrite lookup_insert_eq in Hm. by simplify_eq.
    + rewrite lookup_insert_ne in Hm by done. eauto.
  - intros x Hx. destruct (si_call_fresh0 x Hx) as (? & ? & ?). split_and!; [lia|done|].
    rewrite lookup_insert_ne; [done|]. intros <-. subst t. lia.
  - intros x ?%si_sub_fresh0. lia.
  - intros x [->|?%si_notif_fresh0]%Hins; [subst t|]; lia.
Qed.

Lemma sub_cb_ok d s p i type msg :
  sinv d s -> subs s !! p = Some i ->
  is_Some (wsubus_access_check__event (e_acl e) (e_session e) (e_access e) (e_conn e) (si_sid i) type msg) ->
  exists s', wsubus_sub_cb e p type msg s = Some (tt, s') /\ sinv d s' /\
    write_q s' = write_q s /\ calls s' = calls s.
Proof.
  intros Hi Hp [[res args] Hr]. destruct (next_not_linked d s Hi) as (Hq & Hacq & _).
  assert (notifs s !! next_ptr s = None) as Hno.
  { apply eq_None_not_Some. intros ?%(si_notif_fresh d s Hi). lia. }
  pose proof (sinv_new_notif d s (Notif type msg p) Hi ltac:(simpl; eauto)) as Hnew.
  unfold wsubus_sub_cb. run. rewrite Hp, Hr. destruct res; run.
  - eexists. split; [done|]. split; [exact Hnew|done].
  - eexists. split; [done|]. split; [exact Hnew|done].
  - unfold wsubus_ev_destroy_ctx. run. rewrite lookup_insert_eq. eexists. split; [done|].
    split; [|done]. simpl. rewrite list_del_snoc, delete_insert_id by done. exact (sinv_next d s Hi).
Qed.

Definition remove_notif (t : nat) (s : session) : session :=
  set_notifs (delete t (notifs s)) (set_acq (list_del t (access_check_q s))
    (set_checks (checks s ∖ {[t]}) s)).

Lemma sinv_remove_notif d s t : sinv d s -> is_Some (notifs s !! t) -> sinv d (remove_notif t s).
Proof.
  intros Hi Ht. pose proof Hi as [].
  assert (calls s !! t = None) as Hc.
  { apply eq_None_not_Some. intros (_ & _ & E)%si_call_fresh0. rewrite E in Ht. by destruct Ht. }
  assert (forall x, is_Some (delete t (notifs s) !! x) <-> x <> t /\ is_Some (notifs s !! x)) as Hdel.
  { intros x. rewrite lookup_delete_is_Some. naive_solver. }
  split; simpl; try done.
  - intros x. rewrite elem_of_list_del, Hdel, si_acq0. split; [tauto|].
    intros [(c & Hx & ?)|?]; [|tauto]. split; [congruence|eauto].
  - by apply list_del_nodup.
  - intros x. rewrite elem_of_list_del, elem_of_difference, si_checks0. set_solver.
  - intros x m [? ?]%lookup_delete_Some. eauto.
  - intros x Hx. destruct (si_call_fresh0 x Hx) as (? & ? & ?). split_and!; try done.
    rewrite lookup_delete_None. auto.
  - intros x [_ ?]%Hdel. auto.
Qed.

Lemma ev_check_cb_ok (Hfit : texts_fit) d s t n access :
  sinv d s -> notifs s !! t = Some n ->
  exists s' i, wsubus_ev_check_cb e t access s = Some (tt, s') /\ sinv d s' /\
    subs s !! n_info n = Some i /\ calls s' = calls s /\
    write_q s' = write_q s ++
      (if (access : bool) then [WriteReq (blobmsg_format_json (event_blob n i)) 0] else []).
Proof.
  intros Hi Ht. destruct (si_notif d s Hi t n Ht) as [i Hs].
  pose proof (sinv_remove_notif d s t Hi ltac:(eauto)) as Hrem.
  unfold wsubus_ev_check_cb, wsubus_ev_destroy_ctx. run. rewrite Ht. destruct access; run.
  - rewrite Hs, (queue_str_run Hfit). run. rewrite Ht. eexists _, i. split; [done|].
    split_and!; try done. exact (sinv_queued _ _ _ Hrem).
  - rewrite Ht. eexists _, i. split; [done|]. split_and!; try done. simpl. by rewrite app_nil_r.
Qed.

(** ** The end of requests *)

(** No call that waits for its access check is stale. *)
Definition no_stale_check (s : session) : Prop :=
  forall p c, calls s !! p = Some c -> stale (e_now e) (cc_start c) = true -> cc_check c = false.

(** The cleaner always comes back; the bookkeeping stays if no call it removes
    waits for its access check. *)
Lemma clean_stale_loop d s l :
  NoDup l -> (forall p, p ∈ l -> is_Some (calls s !! p) \/ is_Some (subs s !! p)) ->
  exists s', forM_ l (clean_stale_one e) s = Some (tt, s') /\ write_q s' = write_q s /\
    (forall p c, calls s' !! p = Some c <->
      calls s !! p = Some c /\ ~ (p ∈ l /\ stale (e_now e) (cc_start c) = true)) /\
    subs s' = subs s /\ notifs s' = notifs s /\ access_check_q s' = access_check_q s /\
    (sinv d s -> no_stale_check s -> sinv d s').
Proof.
  revert s. induction l as [|p l IH]; intros s Hnd Hl; simpl.
  { exists s. split_and!; try done. intros p c. set_solver. }
  apply NoDup_cons in Hnd as [Hpl Hnd]. unfold M_bind at 1, clean_stale_one at 1, M_bind at 1, get.
  assert (forall x, x ∈ l -> is_Some (calls s !! x) \/ is_Some (subs s !! x)) as Hl' by set_solver.
  destruct (calls s !! p) as [c|] eqn:Ec; cycle 1.
  { destruct (Hl p) as [Hp|[i Hp]]; [left|rewrite Ec in Hp; by destruct Hp|]. run. rewrite Hp.
    destruct (IH s Hnd Hl') as (s' & Hr & Hw & Hc & Hs & Hno & Ha & Hinv).
    exists s'. split_and!; try done. intros x cx. rewrite Hc, elem_of_cons. intuition congruence. }
  destruct (stale (e_now e) (cc_start c)) eqn:Es; cycle 1.
  { run. destruct (IH s Hnd Hl') as (s' & Hr & Hw & Hc & Hs & Hno & Ha & Hinv).
    exists s'. split_and!; try done. intros x cx. rewrite Hc, elem_of_cons. intuition congruence. }
  rewrite (ctx_destroy_run s p c Ec).
  destruct (IH (remove_call p s) Hnd) as (s' & Hr & Hw & Hc & Hs & Hno & Ha & Hinv).
  { intros x Hx. simpl. rewrite lookup_delete_ne by (intros ->; done). auto. }
  exists s'. split_and!; try done.
  - intros x cx. rewrite Hc. simpl.
    rewrite lookup_delete_Some, elem_of_cons. destruct (decide (x = p)) as [->|Hne].
    + split; [by intros [[? _] _]|]. intros [Hx Hn]. rewrite Ec in Hx. simplify_eq.
      destruct Hn. auto.
    + intuition congruence.
  - intros Hi Hst. apply Hinv.
    + apply (sinv_remove_call d s p c); [done..|]. rewrite (si_acq d s Hi).
      intros [(c' & ? & ?)|Hn]; [simplify_eq; rewrite (Hst p c) in *; done|].
      destruct (si_call_fresh d s Hi p) as (_ & _ & E); [eauto|]. rewrite E in Hn. by destruct Hn.
    + intros x cx Hx. simpl in Hx. apply lookup_delete_Some in Hx as [_ Hx]. eauto.
Qed.

(** The loop over the access checks, when all contexts it reads are there. *)
Lemma cancel_checks_loop l s :
  NoDup l -> (forall p, p ∈ l -> is_Some (calls s !! p) \/ is_Some (notifs s !! p)) ->
  exists s', forM_ l cancel_check s = Some (tt, s') /\
    calls s' = calls s /\ subs s' = subs s /\ rpc_call_q s' = rpc_call_q s /\
    listen_list s' = listen_list s /\ write_q s' = write_q s /\
    (forall p, p ∈ access_check_q s' <-> p ∈ access_check_q s /\ p ∉ l) /\
    (forall p, p ∈ checks s' <-> p ∈ checks s /\ p ∉ l) /\
    (forall p, is_Some (notifs s' !! p) -> is_Some (notifs s !! p) /\
       (p ∉ l \/ is_Some (calls s !! p))).
Proof.
  revert s. induction l as [|p l IH]; intros s Hnd Hl.
  { exists s. split_and!; try done; set_solver. }
  apply NoDup_cons in Hnd as [Hpl Hnd]. cbn [forM_]. unfold M_bind at 1, cancel_check at 1. run.
  set (s1 := set_checks (checks s ∖ {[p]}) (set_acq (list_del p (access_check_q s)) s)).
  destruct (calls s !! p) as [c|] eqn:Ec.
  - destruct (IH s1 Hnd) as (s' & Hr & ? & ? & ? & ? & ? & Ha & Hk & Hn).
    { intros x Hx. apply Hl. by right. }
    exists s'. split; [done|]. split_and!; try done.
    + intros x. rewrite Ha. simpl. rewrite elem_of_list_del. set_solver.
    + intros x. rewrite Hk. simpl. set_solver.
    + intros x Hx. destruct (Hn x Hx) as [? [?|?]]; split; auto.
      destruct (decide (x = p)) as [->|]; [right; eauto|left; set_solver].
  - destruct (Hl p) as [[]|[n En]]; [left|congruence|]. rewrite En.
    unfold wsubus_ev_destroy_ctx. run. rewrite En. run.
    destruct (IH (set_notifs (delete p (notifs s)) s1) Hnd) as (s' & Hr & ? & ? & ? & ? & ? & Ha & Hk & Hn).
    { intros x Hx. simpl. rewrite lookup_delete_ne by (intros ->; done). apply Hl. by right. }
    exists s'. split; [done|]. split_and!; try done.
    + intros x. rewrite Ha. simpl. rewrite elem_of_list_del. set_solver.
    + intros x. rewrite Hk. simpl. set_solver.
    + intros x Hx. destruct (Hn x Hx) as [Hx1 Hx2]. simpl in Hx1, Hx2.
      apply lookup_delete_is_Some in Hx1 as [Hne ?]. split; [done|].
      destruct Hx2; [left; set_solver|by right].
Qed.

(** A check that outlived its context is read through. *)
Lemma cancel_checks_freed l s p :
  p ∈ l -> calls s !! p = None -> notifs s !! p = None -> forM_ l cancel_check s = None.
Proof.
  revert s. induction l as [|x l IH]; intros s Hp Hc Hn; [by apply elem_of_nil in Hp|].
  cbn [forM_]. unfold M_bind at 1, cancel_check at 1. run.
  apply elem_of_cons in Hp as [<-|Hp]; [by rewrite Hc, Hn|].
  destruct (calls s !! x) as [c|] eqn:Ec; [by apply IH|].
  destruct (notifs s !! x) as [n|] eqn:En; [|done].
  unfold wsubus_ev_destroy_ctx. run. rewrite En. apply IH; [done|done|]. simpl.
  rewrite lookup_delete_None. auto.
Qed.

Lemma destroy_loop l s :
  NoDup l -> (forall p, p ∈ l -> is_Some (calls s !! p) \/ is_Some (subs s !! p)) ->
  exists s', forM_ l (fun p => modify (fun s => set_call_q (list_del p (rpc_call_q s)) s) ;;;
      cancel_and_destroy p) s = Some (tt, s') /\
    checks s' = checks s /\ access_check_q s' = access_check_q s /\ notifs s' = notifs s /\
    write_q s' = write_q s /\
    (forall p, p ∈ rpc_call_q s' <-> p ∈ rpc_call_q s /\ p ∉ l) /\
    (forall p, is_Some (calls s' !! p) -> is_Some (calls s !! p) /\ p ∉ l) /\
    (forall p, is_Some (subs s' !! p) -> is_Some (subs s !! p) /\
       (p ∉ l \/ is_Some (calls s !! p))).
Proof.
  revert s. induction l as [|p l IH]; intros s Hnd Hl.
  { exists s. split_and!; try done; set_solver. }
  apply NoDup_cons in Hnd as [Hpl Hnd]. cbn [forM_]. unfold M_bind at 1, cancel_and_destroy at 1. run.
  destruct (calls s !! p) as [c|] eqn:Ec.
  - unfold wsubus_percall_ctx_destroy. run. rewrite Ec. run.
    destruct (IH (remove_call p s) Hnd) as (s' & Hr & ? & ? & ? & ? & Hq & Hc & Hs).
    { intros x Hx. simpl. rewrite lookup_delete_ne by (intros ->; done). apply Hl. by right. }
    exists s'. split; [done|]. split_and!; try done.
    + intros x. rewrite Hq. simpl. rewrite elem_of_list_del. set_solver.
    + intros x Hx. destruct (Hc x Hx) as [Hx1 ?]. simpl in Hx1.
      apply lookup_delete_is_Some in Hx1 as [? ?]. split; [done|set_solver].
    + intros x Hx. destruct (Hs x Hx) as [? Hx2]. split; [done|]. simpl in Hx2.
      destruct (decide (x = p)) as [->|]; [right; eauto|].
      rewrite lookup_delete_ne in Hx2 by done. destruct Hx2; [left; set_solver|by right].
  - destruct (Hl p) as [[]|[i Ei]]; [left|congruence|].
    unfold wsubus_unsub_elem. run. rewrite Ei. run.
    destruct (IH (remove_sub p s) Hnd) as (s' & Hr & ? & ? & ? & ? & Hq & Hc & Hs).
    { intros x Hx. simpl. rewrite lookup_delete_ne by (intros ->; done). apply Hl. by right. }
    exists s'. split; [done|]. split_and!; try done.
    + intros x. rewrite Hq. simpl. rewrite elem_of_list_del. set_solver.
    + intros x Hx. destruct (Hc x Hx) as [Hx1 ?]. simpl in Hx1. split; [done|].
      intros [->|?]%elem_of_cons; [|done]. rewrite Ec in Hx1. by destruct Hx1.
    + intros x Hx. destruct (Hs x Hx) as [Hx1 Hx2]. simpl in Hx1, Hx2.
      apply lookup_delete_is_Some in Hx1 as [? ?]. split; [done|].
      destruct Hx2; [left; set_solver|by right].
Qed.

Lemma no_elements (m : list nat) : (forall p, p ∉ m) -> m = [].
Proof. intros Hm. by apply elem_of_nil_inv. Qed.

(** Everything the session had is gone. *)
Lemma deinit_ok d s :
  sinv d s ->
  exists s', wsu_peer_deinit s = Some (tt, s') /\ calls s' = ∅ /\ subs s' = ∅ /\ notifs s' = ∅ /\
    checks s' = ∅ /\ access_check_q s' = [] /\ rpc_call_q s' = [] /\ write_q s' = [].
Proof.
  intros Hi. pose proof Hi as []. unfold wsu_peer_deinit. run.
  destruct (cancel_checks_loop (access_check_q s) (set_write_q [] s) si_acq_nodup0)
    as (s1 & Hr & Hc & Hs & Hq & Hli & Hw & Ha & Hk & Hn).
  { intros p [(c & Hp & _)|Hp]%si_acq0; [left; eauto|by right]. }
  rewrite Hr. rewrite Hq. simpl.
  destruct (destroy_loop (rpc_call_q s) s1 si_call_q_nodup0)
    as (s2 & Hr2 & Hk2 & Ha2 & Hn2 & Hw2 & Hq2 & Hc2 & Hs2).
  { intros p Hp. rewrite Hc, Hs. by apply si_call_q0. }
  exists s2. split; [done|].
  assert (forall p, is_Some (notifs s !! p) -> calls s !! p = None) as Hdisj.
  { intros p Hp. apply eq_None_not_Some. intros (_ & _ & E)%si_call_fresh0. rewrite E in Hp. by destruct Hp. }
  split_and!.
  - apply map_empty. intros p. apply eq_None_not_Some. intros [Hp Hnp]%Hc2. rewrite Hc in Hp. simpl in Hp.
    apply Hnp, si_call_q0. by left.
  - apply map_empty. intros p. apply eq_None_not_Some. intros [Hp Hor]%Hs2. rewrite Hs in Hp. rewrite Hc in Hor.
    simpl in *. destruct Hor as [Hor|Hor]; [apply Hor, si_call_q0; by right|].
    destruct (si_call_fresh0 p Hor) as (_ & E & _). rewrite E in Hp. by destruct Hp.
  - apply map_empty. intros p. apply eq_None_not_Some. rewrite Hn2. intros [Hp Hor]%Hn. simpl in *.
    destruct Hor as [Hor|Hor]; [apply Hor, si_acq0; by right|]. rewrite Hdisj in Hor by done. by destruct Hor.
  - rewrite Hk2. apply set_eq. intros p. rewrite Hk. simpl. rewrite si_checks0. set_solver.
  - rewrite Ha2. apply no_elements. intros p. rewrite Ha. simpl. tauto.
  - apply no_elements. intros p. rewrite Hq2, Hq. simpl. tauto.
  - by rewrite Hw2, Hw.
Qed.
End ops.
