(* ===== verification/SessionProps.v ===== *)
(** * Properties of a client session

    The operations of Session.v as a state machine: messages of the client,
    callbacks of ubus and of timers, and the end of the connection, in any
    order.  A callback is enabled when it is pending.  [safe] names the steps
    that neither crash nor leave a freed context linked: C1 shows that these
    are exactly the steps that come back and keep the bookkeeping, so the
    reachable states [sreach] are those reached through such steps.  What the
    others do is stated by C6, C7 and by theorems of their own below. *)

From stdpp Require Import base list strings numbers sets gmap.
From S2P Require Import Prelude CStrings Avl Patterns Libs UbusxAcl Rpc PeerIO AccessCheck Session SessionInv.

Local Arguments strcmp : simpl never.
Local Arguments strncmp : simpl never.
Local Arguments starts_with : simpl never.

Inductive sevent :=
  | EvMessage (blob : list attr)
  | EvCallChecked (p : nat) (allow : bool)
  | EvNotifChecked (t : nat) (access : bool)
  | EvReturned (p : nat) (msg : option attr)
  | EvCompleted (p : nat) (status : Z)
  | EvBusEvent (p : nat) (type : string) (msg : list attr)
  | EvCleanStale
  | EvClosed.

Definition enabled (s : session) (ev : sevent) : Prop :=
  match ev with
  | EvCallChecked p _ => p ∈ checks s /\ notifs s !! p = None
  | EvNotifChecked t _ => t ∈ checks s /\ is_Some (notifs s !! t)
  | EvReturned p _ | EvCompleted p _ => exists c, calls s !! p = Some c /\ cc_invoke c = true
  | EvBusEvent p _ _ => is_Some (subs s !! p)
  | EvMessage _ | EvCleanStale | EvClosed => True
  end.

Section steps.
Context `{AvlTree, JsonC, LibUbox}.

Definition sstep (e : env) (ev : sevent) : M session unit :=
  match ev with
  | EvMessage blob => wsu_on_msg_from_client e blob
  | EvCallChecked p allow => wsubus_access_on_completed e p allow
  | EvNotifChecked t access => wsubus_ev_check_cb e t access
  | EvReturned p msg => wsubus_call_on_retdata p msg
  | EvCompleted p status => wsubus_call_on_completed e p status
  | EvBusEvent p type msg => wsubus_sub_cb e p type msg
  | EvCleanStale => wsubus_percall_clean_stale e
  | EvClosed => wsu_peer_deinit
  end.

(** The request a message passes to a handler, with its id: it is within the
    limit of the client and parses. *)
Definition admitted (e : env) (s : session) (blob : list attr) : option (option attr * ubusrpc_blob) :=
  if u32 (e_req_max e) <? rpc_q_len s then None
  else
    let '(rc, req) := jsonrpc_blob_req_parse blob in
    if negb (rc =? 0) then None
    else match req_method req, req_params req with
    | Some method, Some params =>
        match ubusrpc_blob_parse method params with
        | (_, Some r) => Some (req_id req, r)
        | (_, None) => None
        end
    | _, _ => None
    end.

(** The handler comes back: the access check of a call does, a listing has an
    id and only argument types [blobmsg_type_to_str] knows. *)
Definition request_returns (e : env) (id : option attr) (r : ubusrpc_blob) : Prop :=
  match rpc_handler r, rpc_args_of r with
  | Some ubusrpc_handle_call, CallArgs o m ps =>
      is_Some (wsubus_access_check__call (e_acl e) (e_session e) (e_access e) (e_conn e)
        (default "" (rpc_sid r)) o m ps)
  | Some ubusrpc_handle_list, _ =>
      is_Some id /\ forall sid, wsu_sid_update (rpc_sid r) = Some sid ->
        is_Some (list_objects (e_acl e) sid (e_objects e))
  | _, _ => True
  end.

(** It removes no subscription with an event in the air. *)
Definition request_keeps (s : session) (r : ubusrpc_blob) : Prop :=
  match rpc_handler r, rpc_args_of r with
  | Some ubusrpc_handle_unsub, SubArgs (Some pattern) => no_event_for pattern s
  | _, _ => True
  end.

Definition message_returns (e : env) (s : session) (blob : list attr) : Prop :=
  forall id r, admitted e s blob = Some (id, r) -> request_returns e id r.

Definition message_keeps (e : env) (s : session) (blob : list attr) : Prop :=
  forall id r, admitted e s blob = Some (id, r) -> request_keeps s r.

Definition safe (e : env) (s : session) (ev : sevent) : Prop :=
  match ev with
  | EvMessage blob => message_returns e s blob /\ message_keeps e s blob
  | EvBusEvent p type msg => forall i, subs s !! p = Some i ->
      is_Some (wsubus_access_check__event (e_acl e) (e_session e) (e_access e) (e_conn e)
        (si_sid i) type msg)
  | EvCleanStale => no_stale_check e s
  | _ => True
  end.

Inductive sreach : session -> Prop :=
  | sreach_init : sreach session_init
  | sreach_step s e ev s' : sreach s -> enabled s ev -> safe e s ev -> ev <> EvClosed ->
      sstep e ev s = Some (tt, s') -> sreach s'.

(** The arguments that go with each handler. *)
Lemma parse_shape method params err r :
  blobmsg_type_of params = BLOBMSG_TYPE_ARRAY ->
  ubusrpc_blob_parse method params = (err, Some r) ->
  exists sid h, rpc_sid r = Some sid /\ rpc_handler r = Some h /\
    match h with
    | ubusrpc_handle_call => exists o m ps, rpc_args_of r = CallArgs o m ps
    | ubusrpc_handle_list => True
    | ubusrpc_handle_sub | ubusrpc_handle_unsub => exists p, rpc_args_of r = SubArgs (Some p)
    | ubusrpc_handle_sub_list => True
    end.
Proof.
  intros Ht Hp. pose proof (parse_in_cases supported_methods method params) as Hc.
  unfold ubusrpc_blob_parse in Hp. rewrite Hp in Hc.
  destruct Hc as (_ & f & h & r0 & Hin & Hf & ->). exists (default "" (rpc_sid r0)), h.
  unfold supported_methods in Hin. rewrite !elem_of_cons in Hin.
  destruct Hin as [E|[E|[E|[E|[E|[]%elem_of_nil]]]]]; simplify_eq; simpl.
  - apply call_parse_spec in Hf as (? & ? & ? & ? & _ & _ & ->). eauto 10.
  - unfold ubusrpc_blob_list_parse, ubusrpc_blob_list_parse_ in Hf.
    rewrite bool_decide_eq_true_2 in Hf by done. simpl in Hf. repeat case_match; simplify_eq/=; eauto.
  - unfold ubusrpc_blob_sub_parse, ubusrpc_blob_sub_parse_ in Hf. repeat case_match; simplify_eq/=; eauto 10.
  - unfold ubusrpc_blob_sub_list_parse, ubusrpc_blob_sub_list_parse_ in Hf.
    repeat case_match; simplify_eq/=; eauto 10.
  - unfold ubusrpc_blob_sub_parse, ubusrpc_blob_sub_parse_ in Hf. repeat case_match; simplify_eq/=; eauto 10.
Qed.

(** What a message does to the calls and to the client. *)
Definition answered (s s' : session) (id : option attr) : Prop :=
  (exists l, write_q s' = write_q s ++ [WriteReq (blobmsg_format_json l) 0] /\ calls s' = calls s) \/
  (write_q s' = write_q s /\ exists c, calls s' = <[next_ptr s := c]> (calls s) /\
     calls s !! next_ptr s = None /\ cc_id c = id /\ cc_invoke c = false).

Lemma sinv_sid d sid s : sinv d s -> sinv d (set_sid sid s).
Proof. by destruct 1. Qed.

Lemma sinv_inc s : sinv (-1) s -> sinv 0 (set_q_len (u32 (rpc_q_len s + 1)) s).
Proof.
  intros Hi. pose proof (si_len _ _ Hi) as Hlen. destruct Hi. split; simpl; try done. rewrite Hlen.
  unfold u32. rewrite Zplus_mod_idemp_l. f_equal. lia.
Qed.

(** The events in the air belong to subscriptions on the heap. *)
Definition events_owned (s : session) : Prop :=
  forall t n, notifs s !! t = Some n -> is_Some (subs s !! n_info n).

Section message.
Variable e : env.
Hypothesis Hfit : texts_fit.

Lemma handle_call_none s r id o m ps :
  rpc_args_of r = CallArgs o m ps ->
  wsubus_access_check__call (e_acl e) (e_session e) (e_access e) (e_conn e)
    (default "" (rpc_sid r)) o m ps = None ->
  handle_call_ubus e r id s = None.
Proof.
  intros Ea Ec. unfold handle_call_ubus, wsubus_percall_ctx_create, wsubus_call_do_check_then_do_call.
  rewrite Ea. run. rewrite lookup_insert_eq. simpl. rewrite lookup_insert_eq. simpl. by rewrite Ec.
Qed.

Lemma run_handler_ok s r h id sid :
  sinv 0 s -> rpc_sid r = Some sid -> rpc_handler r = Some h ->
  wsu_sid_update (rpc_sid r) = Some (peer_sid s) ->
  match h with
  | ubusrpc_handle_call => exists o m ps, rpc_args_of r = CallArgs o m ps
  | ubusrpc_handle_list => True
  | ubusrpc_handle_sub | ubusrpc_handle_unsub => exists p, rpc_args_of r = SubArgs (Some p)
  | ubusrpc_handle_sub_list => True
  end ->
  (run_handler e h r id s = None /\ ~ request_returns e id r) \/
  (exists s', run_handler e h r id s = Some (0, s') /\ request_returns e id r /\ answered s s' id /\
    (request_keeps s r -> sinv (-1) s') /\ (events_owned s' -> request_keeps s r)).
Proof using Hfit.
  intros Hi Hsid Hh Hpeer Hargs. unfold request_returns, request_keeps, answered. rewrite Hh.
  destruct h; simpl.
  - destruct Hargs as (o & m & ps & Ea). rewrite Ea.
    destruct (wsubus_access_check__call (e_acl e) (e_session e) (e_access e) (e_conn e)
      (default "" (rpc_sid r)) o m ps) as [x|] eqn:Ec; cycle 1.
    { left. split; [|by intros []]. by apply (handle_call_none s r id o m ps). }
    destruct (handle_call_ok e Hfit 0 s r id Hi) as (s' & Hr & Hi' & Hres).
    { intros o' m' ps' E. rewrite Ea in E. simplify_eq. rewrite Ec. eauto. }
    { eauto. }
    right. exists s'. split_and!; try done.
    destruct Hres as [(? & c & ? & ? & ?)|[? ?]]; [right|left; by eexists].
    split; [done|]. exists c. split_and!; try done. by eapply next_not_linked.
  - assert (forall x, wsu_sid_update (rpc_sid r) = Some x -> x = peer_sid s) as Hp by congruence.
    destruct id as [i|]; [|left; split; [done|]; by intros [[] _]].
    destruct (list_objects (e_acl e) (peer_sid s) (e_objects e)) as [l|] eqn:El; cycle 1.
    { left. split; [unfold ubusrpc_handle_list_, handle_list_ubus; run; by rewrite El|].
      intros [_ Hall]. destruct (Hall _ Hpeer). congruence. }
    destruct (handle_list_ok e Hfit 0 s (Some i) Hi) as (s' & l' & Hr & Hi' & ? & ?); [eauto..|].
    right. exists s'. split; [done|]. split; [|split; [left; by exists l'|done]].
    split; [eauto|]. intros x Hx. rewrite (Hp x Hx). eauto.
  - destruct (handle_sub_ok e Hfit 0 s r id Hi) as (s' & Hr & Hi' & ? & ?).
    right. exists s'. split_and!; try done. left. by eexists.
  - destruct (handle_sub_list_ok e Hfit 0 s id Hi) as (s' & l & Hr & Hi' & _ & ? & ?).
    right. exists s'. split_and!; try done. left. by eexists.
  - destruct Hargs as (pat & Ea). rewrite Ea.
    destruct (handle_unsub_ok e Hfit 0 s r id pat Hi Ea) as (s' & f & Hr & ? & ? & Hno & _ & Hsubs & Hi').
    right. exists s'. split_and!; try done; [left; by eexists|].
    intros Hown t n Hn Hpat. rewrite <- Hno in Hn. apply (Hsubs (n_info n)); [|done]. by eapply Hown.
Qed.

Lemma on_msg_ok s blob :
  sinv 0 s ->
  match wsu_on_msg_from_client e blob s with
  | None => ~ message_returns e s blob
  | Some (_, s') => message_returns e s blob /\
      (if u32 (e_req_max e) <? rpc_q_len s then s' = s
       else answered s s' (req_id (jsonrpc_blob_req_parse blob).2)) /\
      (sinv 0 s' <-> message_keeps e s blob)
  end.
Proof using Hfit.
  intros Hi. unfold wsu_on_msg_from_client, message_returns, message_keeps, admitted, M_bind at 1, gets.
  destruct (u32 (e_req_max e) <? rpc_q_len s); [by split_and!|].
  assert (forall l, exists s', queue_str e (blobmsg_format_json l) s = Some (tt, s') /\ sinv 0 s' /\
    forall id, answered s s' id) as Hq.
  { intros l. exists (queued (blobmsg_format_json l) s). rewrite queue_str_run by done.
    split_and!; [done|by apply sinv_queued|]. intros id. left. by exists l. }
  pose proof (tb_get_sound rpc_policy blob 3) as Hparams.
  destruct (jsonrpc_blob_req_parse blob) as [rc req] eqn:Ep.
  destruct (Z.eqb_spec rc 0) as [->|]; simpl; cycle 1.
  { destruct (Hq (resp_error_blob (req_id req) JSONRPC_ERRORCODE__INVALID_REQUEST None)) as (s' & Hrun & ? & ?).
    unfold jsonrpc__resp_error. rewrite Hrun. by split_and!. }
  assert (exists m p, req_method req = Some m /\ req_params req = Some p /\
    blobmsg_type_of p = BLOBMSG_TYPE_ARRAY) as (m & p & Em & Eparam & Et).
  { unfold jsonrpc_blob_req_parse in Ep. repeat case_match; simplify_eq. simpl.
    destruct (Hparams _ ltac:(done)) as (? & [= <-] & _ & _ & [|?]); [done|]. eauto. }
  rewrite Em, Eparam. destruct (ubusrpc_blob_parse m p) as [err [r|]] eqn:Er; cycle 1.
  { destruct (Hq (resp_error_blob (req_id req) err None)) as (s' & Hrun & ? & ?).
    unfold jsonrpc__resp_error. rewrite Hrun. by split_and!. }
  destruct (parse_shape m p err r Et Er) as (sid & h & Hsid & Hh & Hargs).
  unfold M_bind at 1, deref at 1. rewrite Hsid. cbn [wsu_sid_update].
  unfold M_bind at 1, modify at 1. unfold M_bind at 1, deref at 1. rewrite Hh.
  destruct (run_handler_ok (set_sid (strncat "" sid UBUS_SID_MAX_STRLEN) s) r h (req_id req) sid)
    as [[Hr Hno]|(s' & Hr & Hret & Hans & Hkeep & Hown)]; try done.
  { by apply sinv_sid. }
  { by rewrite Hsid. }
  { unfold M_bind at 1. rewrite Hr. intros Hall. by apply Hno, Hall. }
  unfold M_bind at 1. rewrite Hr. simpl. split; [by intros ? ? [= <- <-]|]. split; [exact Hans|].
  split.
  - intros Hi' ? ? [= <- <-]. apply Hown. exact (si_notif _ _ Hi').
  - intros Hall. apply sinv_inc, Hkeep. by eapply Hall.
Qed.
End message.

(** A pending check of a call. *)
Lemma call_checked d s p :
  sinv d s -> p ∈ checks s -> notifs s !! p = None ->
  exists c, calls s !! p = Some c /\ cc_check c = true.
Proof.
  intros Hi Hk Hn. apply (si_checks d s Hi), (si_acq d s Hi) in Hk as [?|Hx]; [done|].
  rewrite Hn in Hx. by destruct Hx.
Qed.

Lemma clean_stale_ok e d s :
  sinv d s ->
  exists s', wsubus_percall_clean_stale e s = Some (tt, s') /\ write_q s' = write_q s /\
    (forall p c, calls s' !! p = Some c <->
      calls s !! p = Some c /\ stale (e_now e) (cc_start c) = false) /\
    notifs s' = notifs s /\ access_check_q s' = access_check_q s /\
    (no_stale_check e s -> sinv d s').
Proof.
  intros Hi. destruct (clean_stale_loop e d s (rpc_call_q s) (si_call_q_nodup d s Hi))
    as (s' & Hr & Hw & Hc & _ & Hno & Ha & Hinv); [intros p; apply (si_call_q d s Hi)|].
  exists s'. split_and!; try done; [|auto]. intros p c. rewrite Hc.
  assert (calls s !! p = Some c -> p ∈ rpc_call_q s) by (intros; apply (si_call_q d s Hi); eauto).
  destruct (stale (e_now e) (cc_start c)); naive_solver.
Qed.

(** A stale call that waits for its check leaves the check behind. *)
Lemma stale_check_left e d s s' p c :
  sinv d s -> wsubus_percall_clean_stale e s = Some (tt, s') ->
  calls s !! p = Some c -> stale (e_now e) (cc_start c) = true -> cc_check c = true ->
  p ∈ access_check_q s' /\ calls s' !! p = None /\ notifs s' !! p = None.
Proof.
  intros Hi Hr Hp Hst Hck. destruct (clean_stale_ok e d s Hi) as (s2 & Hr2 & _ & Hc & Hno & Ha & _).
  simplify_eq. rewrite Ha, Hno. split_and!.
  - apply (si_acq d s Hi). eauto.
  - apply eq_None_not_Some. intros [c' Hp']. apply Hc in Hp' as [? ?]. congruence.
  - apply (si_call_fresh d s Hi). eauto.
Qed.

Lemma sstep_inv e s ev :
  texts_fit -> sinv 0 s -> enabled s ev -> safe e s ev -> ev <> EvClosed ->
  exists s', sstep e ev s = Some (tt, s') /\ sinv 0 s'.
Proof.
  intros Hfit Hi Hen Hsafe Hne. destruct ev; simpl in *; try done.
  - destruct Hsafe as [Hret Hkeep].
    pose proof (on_msg_ok e Hfit s blob Hi) as Hm.
    destruct (wsu_on_msg_from_client e blob s) as [[[] s']|]; [|done]. destruct Hm as (_ & _ & _ & ?). eauto.
  - destruct Hen as [Hk Hn]. destruct (call_checked 0 s p Hi Hk Hn) as (c & Hp & Hc).
    destruct (access_on_completed_ok e Hfit 0 s p c allow Hi Hp Hc) as (s' & ? & ? & _). eauto.
  - destruct Hen as [_ [n Hn]].
    destruct (ev_check_cb_ok e Hfit 0 s t n access Hi Hn) as (s' & i & ? & ? & _). eauto.
  - destruct Hen as (c & Hp & _).
    destruct (on_retdata_ok 0 s p c msg Hi Hp) as (s' & ? & ? & _). eauto.
  - destruct Hen as (c & Hp & Hc).
    destruct (on_completed_ok e Hfit 0 s p c status Hi Hp Hc) as (s' & ? & ? & _). eauto.
  - destruct Hen as [i Hp].
    destruct (sub_cb_ok e 0 s p i type msg Hi Hp) as (s' & ? & ? & _); eauto.
  - destruct (clean_stale_ok e 0 s Hi) as (s' & ? & _ & _ & _ & _ & ?). eauto.
Qed.

(** The steps that are not safe crash, or leave a freed context linked. *)
Lemma unsafe_step e s s' ev :
  texts_fit -> sinv 0 s -> sstep e ev s = Some (tt, s') -> sinv 0 s' -> safe e s ev.
Proof.
  intros Hfit Hi Hstep Hi'. destruct ev; simpl in *; try done.
  - pose proof (on_msg_ok e Hfit s blob Hi) as Hm. rewrite Hstep in Hm. destruct Hm as (? & _ & ? & _). auto.
  - intros i Hp. unfold wsubus_sub_cb in Hstep. revert Hstep. run. rewrite Hp.
    destruct (wsubus_access_check__event _ _ _ _ _ _ _); [eauto|done].
  - intros p c Hp Hst. destruct (cc_check c) eqn:Hck; [|done].
    destruct (stale_check_left e 0 s s' p c Hi Hstep Hp Hst Hck) as (Ha & Hc & Hn).
    apply (si_acq 0 s' Hi') in Ha as [(? & ? & _)|[? ?]]; congruence.
Qed.

Lemma sreach_inv s : texts_fit -> sreach s -> sinv 0 s.
Proof.
  intros Hfit. induction 1 as [|s e ev s' Hr IH Hen Hsafe Hne Hstep]; [apply sinv_init|].
  destruct (sstep_inv e s ev Hfit IH Hen Hsafe Hne) as (s2 & Hr2 & Hi2). by simplify_eq.
Qed.
End steps.

(** ** Properties *)

Section examples.
Context `{AvlTree, JsonC, LibUbox}.

(** An environment in which everything works, on a plain connection. *)
Definition quiet_env : env :=
  Env [] (Conn false None [] "lan") 512 (TimeSpec 0 0) true true 0 0 0 [] 0 0.
End examples.

(** A call of "network dump" with session "abc", and a subscription to "*". *)
Definition call_msg : list attr :=
  [("jsonrpc", BString "2.0"); ("id", BInt32 1); ("method", BString "call");
   ("params", BArray [("", BString "abc"); ("", BString "network"); ("", BString "dump"); ("", BTable [])])].
Definition sub_msg : list attr :=
  [("jsonrpc", BString "2.0"); ("id", BInt32 2); ("method", BString "subscribe");
   ("params", BArray [("", BString "abc"); ("", BString "*")])].

(** The state after a step of the reference libraries, for the concrete runs. *)
Definition ref_step (ev : sevent) (s : session) : session :=
  match sstep (H := list_avl) (H0 := ref_jsonc) (H1 := ref_libubox) quiet_env ev s with
  | Some (_, s') => s' | None => s end.

Lemma sub_msg_safe s :
  safe (H := list_avl) (H0 := ref_jsonc) (H1 := ref_libubox) quiet_env s (EvMessage sub_msg).
Proof.
  split; intros id r Er; unfold admitted in Er; destruct (_ <? _); try discriminate;
    vm_compute in Er; injection Er as <- <-; exact I.
Qed.

Lemma ref_fit : texts_fit (H1 := ref_libubox).
Proof. intros l. reflexivity. Qed.

(** C1: which steps of a session keep its bookkeeping.  In every state reached
    by steps that kept it, a message of the client or a pending callback comes
    back and keeps the bookkeeping exactly if it is [safe], that is, unless it
    is one of these: a call or a bus event whose access check does not come
    back; a listing without an id, or one with an argument type the table of
    names does not have (the daemon crashes in these cases); an unsubscribe
    while the check of an event of such a subscription is pending; or the
    cleaner while a stale call waits for its access check (a freed context
    stays linked).  The bookkeeping: the call queue links exactly the calls
    and subscriptions on the heap, the check queue and the pending checks are
    exactly the calls and events that wait for a check, every call waits for
    exactly one callback, every event's subscription exists, and [rpc_q_len]
    counts the calls. *)
Theorem session_steps_safe `{AvlTree, JsonC, LibUbox} (s : session) (e : env) (ev : sevent) :
  texts_fit -> sreach s -> enabled s ev -> ev <> EvClosed ->
  (safe e s ev <-> exists s', sstep e ev s = Some (tt, s') /\ sinv 0 s').
Proof.
  intros Hfit Hr Hen Hne. pose proof (sreach_inv s Hfit Hr) as Hi. split.
  - intros. by apply sstep_inv.
  - intros (s' & Hstep & Hi'). by apply (unsafe_step e s s').
Qed.

Lemma session_steps_safe_witness :
  safe (H := list_avl) (H0 := ref_jsonc) (H1 := ref_libubox) quiet_env session_init (EvMessage sub_msg) <->
  exists s', sstep (H := list_avl) (H0 := ref_jsonc) (H1 := ref_libubox) quiet_env
    (EvMessage sub_msg) session_init = Some (tt, s') /\ sinv 0 s'.
Proof.
  apply (session_steps_safe (H := list_avl) (H0 := ref_jsonc) (H1 := ref_libubox)
    session_init quiet_env (EvMessage sub_msg)).
  - apply ref_fit.
  - apply sreach_init.
  - done.
  - done.
Defined.

(** C7: closing the connection leaves nothing behind, unless a check outlived
    its call.  In every state reached by steps that kept the bookkeeping
    (exactly the safe ones, by C1), [wsu_peer_deinit] comes back and no call,
    subscription, event, pending check or queued text of the client remains.
    But if the cleaner runs in such a state while a stale call waits for its
    access check, it comes back and closing the connection then reads the
    freed call. *)
Theorem session_close_frees_all `{AvlTree, JsonC, LibUbox} (s : session) (e : env) :
  texts_fit -> sreach s ->
  (exists s', sstep e EvClosed s = Some (tt, s') /\ calls s' = ∅ /\ subs s' = ∅ /\ notifs s' = ∅ /\
    checks s' = ∅ /\ access_check_q s' = [] /\ rpc_call_q s' = [] /\ write_q s' = []) /\
  (forall p c, calls s !! p = Some c -> stale (e_now e) (cc_start c) = true -> cc_check c = true ->
    exists s1, sstep e EvCleanStale s = Some (tt, s1) /\ sstep e EvClosed s1 = None).
Proof.
  intros Hfit Hr. pose proof (sreach_inv s Hfit Hr) as Hi. split; [by eapply deinit_ok|].
  intros p c Hp Hst Hck. destruct (clean_stale_ok e 0 s Hi) as (s1 & Hs1 & _).
  exists s1. split; [done|]. destruct (stale_check_left e 0 s s1 p c Hi Hs1 Hp Hst Hck) as (Ha & Hc & Hn).
  simpl. unfold wsu_peer_deinit. run. by rewrite (cancel_checks_freed (access_check_q s1) _ p).
Qed.

(** The session with the call waiting for its access check. *)
Definition one_call : session := ref_step (EvMessage call_msg) session_init.

Lemma one_call_reach : sreach (H := list_avl) (H0 := ref_jsonc) (H1 := ref_libubox) one_call.
Proof.
  apply (sreach_step session_init quiet_env (EvMessage call_msg)); [apply sreach_init|done| |done|].
  - split; intros id r Er; vm_compute in Er; injection Er as <- <-; [vm_compute; eauto|exact I].
  - vm_compute. reflexivity.
Qed.

Lemma session_close_frees_all_witness :
  let e := Env [] (Conn false None [] "lan") 512 (TimeSpec 11 0) true true 0 0 0 [] 0 0 in
  (exists s', sstep (H := list_avl) (H0 := ref_jsonc) (H1 := ref_libubox) e EvClosed
      one_call = Some (tt, s') /\
    calls s' = ∅ /\ subs s' = ∅ /\ notifs s' = ∅ /\
    checks s' = ∅ /\ access_check_q s' = [] /\ rpc_call_q s' = [] /\ write_q s' = []) /\
  (exists s1, sstep (H := list_avl) (H0 := ref_jsonc) (H1 := ref_libubox) e EvCleanStale one_call =
      Some (tt, s1) /\
    sstep (H := list_avl) (H0 := ref_jsonc) (H1 := ref_libubox) e EvClosed s1 = None).
Proof.
  intros e. destruct (session_close_frees_all (H := list_avl) (H0 := ref_jsonc) (H1 := ref_libubox)
    one_call e ref_fit one_call_reach) as [Hok Hbad].
  split; [exact Hok|]. apply (Hbad 0%nat (CallCtx (Some ("id", BInt32 1)) "abc" "network" "dump"
    [("ubus_rpc_session", BString "abc")] [] false true (TimeSpec 0 0))); vm_compute; reflexivity.
Defined.

(** C6: what every message of the client leads to.  In every state reached by
    steps that kept the bookkeeping (C1), a message over the limit changes nothing at all; any other one either puts exactly one text in the
    write queue, or puts none and adds exactly one call that carries the id of
    the request and waits for its access check.  The exceptions are exactly
    the requests that crash the daemon: a call whose access check does not
    come back, and a listing without an id or with an argument type the table
    of names does not have. *)
Theorem message_answered `{AvlTree, JsonC, LibUbox} (s : session) (e : env) (blob : list attr) :
  texts_fit -> sreach s ->
  match sstep e (EvMessage blob) s with
  | None => ~ message_returns e s blob
  | Some (_, s') => message_returns e s blob /\
      if u32 (e_req_max e) <? rpc_q_len s then s' = s
      else answered s s' (req_id (jsonrpc_blob_req_parse blob).2)
  end.
Proof.
  intros Hfit Hr. pose proof (on_msg_ok e Hfit s blob (sreach_inv s Hfit Hr)) as Hm. simpl.
  destruct (wsu_on_msg_from_client e blob s) as [[[] s']|]; [|done]. by destruct Hm as (? & ? & _).
Qed.

Lemma message_answered_witness :
  match sstep (H := list_avl) (H0 := ref_jsonc) (H1 := ref_libubox) quiet_env (EvMessage sub_msg) one_call with
  | None => ~ message_returns (H := list_avl) (H0 := ref_jsonc) (H1 := ref_libubox) quiet_env one_call sub_msg
  | Some (_, s') =>
      message_returns (H := list_avl) (H0 := ref_jsonc) (H1 := ref_libubox) quiet_env one_call sub_msg /\
      if u32 (e_req_max quiet_env) <? rpc_q_len one_call then s' = one_call
      else answered (H1 := ref_libubox) one_call s'
        (req_id (jsonrpc_blob_req_parse (H := ref_libubox) sub_msg).2)
  end.
Proof.
  apply (message_answered (H := list_avl) (H0 := ref_jsonc) (H1 := ref_libubox)).
  - apply ref_fit.
  - apply one_call_reach.
Defined.

(** A message a safe step handles. *)
Lemma safe_message `{AvlTree, JsonC, LibUbox} s e blob s' :
  texts_fit -> sinv 0 s -> wsu_on_msg_from_client e blob s = Some (tt, s') ->
  if u32 (e_req_max e) <? rpc_q_len s then s' = s
  else answered s s' (req_id (jsonrpc_blob_req_parse blob).2).
Proof. intros Hfit Hi Hr. pose proof (on_msg_ok e Hfit s blob Hi) as Hm. rewrite Hr in Hm. by destruct Hm as (_ & ? & _). Qed.

(** How one step treats a call that is on the heap. *)
Lemma step_call_kept `{AvlTree, JsonC, LibUbox} s e ev s' p c :
  texts_fit -> sinv 0 s -> enabled s ev -> safe e s ev -> ev <> EvClosed -> ev <> EvCleanStale ->
  sstep e ev s = Some (tt, s') -> calls s !! p = Some c ->
  (exists c', calls s' !! p = Some c' /\ cc_id c' = cc_id c /\
     (cc_invoke c' = true -> cc_invoke c = true \/ ev = EvCallChecked p true)) \/
  (calls s' !! p = None /\ exists rc data,
     write_q s' = write_q s ++ [WriteReq (jsonrpc__resp_ubus (cc_id c) rc data) 0]).
Proof.
  intros Hfit Hi Hen Hsafe Hne Hne2 Hstep Hp.
  assert (calls s' = calls s -> (exists c', calls s' !! p = Some c' /\ cc_id c' = cc_id c /\
    (cc_invoke c' = true -> cc_invoke c = true \/ ev = EvCallChecked p true))) as Hsame.
  { intros ->. eauto. }
  destruct ev as [blob|q allow|t access|q msg|q status|q type msg| |]; simpl in *; try done.
  - pose proof (safe_message s e blob s' Hfit Hi Hstep) as Hans. left.
    destruct (u32 (e_req_max e) <? rpc_q_len s); [subst; auto|].
    destruct Hans as [(l & _ & Hc)|(_ & c' & Hc & Hn & _)]; [auto|].
    rewrite Hc, lookup_insert_ne by congruence. eauto.
  - destruct Hen as [Hk Hn]. destruct (call_checked 0 s q Hi Hk Hn) as (cq & Hq & Hck).
    destruct (access_on_completed_ok e Hfit 0 s q cq allow Hi Hq Hck) as (s2 & Hr & _ & Hres). simplify_eq.
    destruct (decide (q = p)) as [->|Hqp].
    + simplify_eq. destruct (allow && _ && _) eqn:Ea.
      * destruct Hres as (_ & c' & -> & _ & Hid). left. exists c'. rewrite lookup_insert_eq.
        split_and!; [done..|]. intros _. right. by destruct allow.
      * destruct Hres as [Hw ->]. right. rewrite lookup_delete_eq. eauto.
    + left. destruct (allow && _ && _).
      * destruct Hres as (_ & c' & -> & _). rewrite lookup_insert_ne by done. eauto.
      * destruct Hres as [_ ->]. rewrite lookup_delete_ne by done. eauto.
  - destruct Hen as [_ [n Hn]].
    destruct (ev_check_cb_ok e Hfit 0 s t n access Hi Hn) as (s2 & i & Hr & _ & _ & Hc & _).
    simplify_eq. auto.
  - destruct Hen as (cq & Hq & Hiv).
    destruct (on_retdata_ok 0 s q cq msg Hi Hq) as (s2 & Hr & _ & _ & c' & Hc & Hid & Hiv').
    simplify_eq. left. rewrite Hc. destruct (decide (q = p)) as [->|].
    + simplify_eq. rewrite lookup_insert_eq. exists c'. auto.
    + rewrite lookup_insert_ne by done. eauto.
  - destruct Hen as (cq & Hq & Hiv).
    destruct (on_completed_ok e Hfit 0 s q cq status Hi Hq Hiv) as (s2 & Hr & _ & Hw & Hc & _).
    simplify_eq. rewrite Hc. destruct (decide (q = p)) as [->|].
    + simplify_eq. right. rewrite lookup_delete_eq. eauto.
    + left. rewrite lookup_delete_ne by done. eauto.
  - destruct Hen as [i Hs]. destruct (sub_cb_ok e 0 s q i type msg Hi Hs) as (s2 & Hr & _ & _ & Hc); [auto|].
    simplify_eq. auto.
Qed.

(** C5: a call is answered exactly when it ends.  Whatever happens to a session
    (the stale cleaner and the end of the connection apart), a call on the heap
    either stays there with its id, or leaves it in a step that appends exactly
    one text to the write queue: the response with the id of the call. *)
Theorem call_answered_once `{AvlTree, JsonC, LibUbox} (s s' : session) (e : env) (ev : sevent)
    (p : nat) (c : call_ctx) :
  texts_fit -> sreach s -> enabled s ev -> safe e s ev -> ev <> EvClosed -> ev <> EvCleanStale ->
  sstep e ev s = Some (tt, s') -> calls s !! p = Some c ->
  (exists c', calls s' !! p = Some c' /\ cc_id c' = cc_id c) \/
  (calls s' !! p = None /\ exists rc data,
     write_q s' = write_q s ++ [WriteReq (jsonrpc__resp_ubus (cc_id c) rc data) 0]).
Proof.
  intros Hfit Hr Hen Hsafe Hne Hne2 Hstep Hp.
  destruct (step_call_kept s e ev s' p c Hfit (sreach_inv s Hfit Hr) Hen Hsafe Hne Hne2 Hstep Hp)
    as [(c' & ? & ? & _)|?]; eauto.
Qed.

Lemma call_answered_once_witness :
  (exists c', calls (ref_step (EvCallChecked 0 false) one_call) !! 0%nat = Some c' /\
     cc_id c' = Some ("id", BInt32 1)) \/
  (calls (ref_step (EvCallChecked 0 false) one_call) !! 0%nat = None /\ exists rc data,
     write_q (ref_step (EvCallChecked 0 false) one_call) = write_q one_call ++
       [WriteReq (jsonrpc__resp_ubus (H := ref_libubox) (Some ("id", BInt32 1)) rc data) 0]).
Proof.
  apply (call_answered_once (H := list_avl) (H0 := ref_jsonc) (H1 := ref_libubox) one_call _ quiet_env
    (EvCallChecked 0 false) 0%nat (CallCtx (Some ("id", BInt32 1)) "abc" "network" "dump"
      [("ubus_rpc_session", BString "abc")] [] false true (TimeSpec 0 0))).
  - apply ref_fit.
  - apply one_call_reach.
  - vm_compute. split; reflexivity.
  - exact I.
  - done.
  - done.
  - vm_compute. reflexivity.
  - vm_compute. reflexivity.
Defined.

(** A call that appears in a step has not been invoked. *)
Lemma step_call_new `{AvlTree, JsonC, LibUbox} s e ev s' p c' :
  texts_fit -> sinv 0 s -> enabled s ev -> safe e s ev -> ev <> EvClosed -> ev <> EvCleanStale ->
  sstep e ev s = Some (tt, s') -> calls s !! p = None -> calls s' !! p = Some c' ->
  cc_invoke c' = false.
Proof.
  intros Hfit Hi Hen Hsafe Hne Hne2 Hstep Hp Hp'.
  destruct ev as [blob|q allow|t access|q msg|q status|q type msg| |]; simpl in *; try done.
  - pose proof (safe_message s e blob s' Hfit Hi Hstep) as Hans.
    destruct (u32 (e_req_max e) <? rpc_q_len s); [by simplify_eq|].
    destruct Hans as [(l & _ & Hc)|(_ & cn & Hc & Hn & _ & ?)]; rewrite Hc in Hp'; [by simplify_eq|].
    apply lookup_insert_Some in Hp' as [[_ <-]|[_ ?]]; [done|by simplify_eq].
  - destruct Hen as [Hk Hn]. destruct (call_checked 0 s q Hi Hk Hn) as (cq & Hq & Hck).
    destruct (access_on_completed_ok e Hfit 0 s q cq allow Hi Hq Hck) as (s2 & Hr & _ & Hres). simplify_eq.
    destruct (allow && _ && _); [destruct Hres as (_ & c2 & Hc & _)|destruct Hres as [_ Hc]];
      rewrite Hc in Hp'.
    + apply lookup_insert_Some in Hp' as [[-> _]|[_ ?]]; by simplify_eq.
    + apply lookup_delete_Some in Hp' as [_ ?]. by simplify_eq.
  - destruct Hen as [_ [n Hn]].
    destruct (ev_check_cb_ok e Hfit 0 s t n access Hi Hn) as (s2 & i & Hr & _ & _ & Hc & _). congruence.
  - destruct Hen as (cq & Hq & Hiv).
    destruct (on_retdata_ok 0 s q cq msg Hi Hq) as (s2 & Hr & _ & _ & c2 & Hc & _). simplify_eq.
    rewrite Hc in Hp'. apply lookup_insert_Some in Hp' as [[-> _]|[_ ?]]; by simplify_eq.
  - destruct Hen as (cq & Hq & Hiv).
    destruct (on_completed_ok e Hfit 0 s q cq status Hi Hq Hiv) as (s2 & Hr & _ & _ & Hc & _). simplify_eq.
    rewrite Hc in Hp'. apply lookup_delete_Some in Hp' as [_ ?]. by simplify_eq.
  - destruct Hen as [i Hs]. destruct (sub_cb_ok e 0 s q i type msg Hi Hs) as (s2 & Hr & _ & _ & Hc); [auto|].
    congruence.
Qed.

(** C4: a call is invoked on ubus only after its own access check allowed it:
    the one step that leaves a call with an invocation it did not have before
    is the callback of the access check of this call with a positive result. *)
Theorem invoked_only_if_allowed `{AvlTree, JsonC, LibUbox} (s s' : session) (e : env) (ev : sevent)
    (p : nat) (c' : call_ctx) :
  texts_fit -> sreach s -> enabled s ev -> safe e s ev -> ev <> EvClosed ->
  sstep e ev s = Some (tt, s') -> calls s' !! p = Some c' -> cc_invoke c' = true ->
  (exists c, calls s !! p = Some c /\ cc_invoke c = true) \/ ev = EvCallChecked p true.
Proof.
  intros Hfit Hr Hen Hsafe Hne Hstep Hp' Hiv. pose proof (sreach_inv s Hfit Hr) as Hi.
  assert (ev = EvCleanStale \/ ev <> EvCleanStale) as [->|Hne2] by (destruct ev; auto).
  - destruct (clean_stale_ok e 0 s Hi) as (s2 & Hr2 & _ & Hc & _). simpl in Hstep. simplify_eq.
    apply Hc in Hp' as [? _]. eauto.
  - destruct (calls s !! p) as [c|] eqn:Hp.
    + destruct (step_call_kept s e ev s' p c Hfit Hi Hen Hsafe Hne Hne2 Hstep Hp)
        as [(c2 & Hc2 & _ & Hinv)|[Hno _]]; [|congruence].
      rewrite Hc2 in Hp'. simplify_eq. destruct (Hinv Hiv); eauto.
    + rewrite (step_call_new s e ev s' p c' Hfit Hi Hen Hsafe Hne Hne2 Hstep Hp Hp') in Hiv. done.
Qed.

Lemma invoked_only_if_allowed_witness :
  (exists c, calls one_call !! 0%nat = Some c /\ cc_invoke c = true) \/
  EvCallChecked 0 true = EvCallChecked 0 true.
Proof.
  apply (invoked_only_if_allowed (H := list_avl) (H0 := ref_jsonc) (H1 := ref_libubox) one_call
    (ref_step (EvCallChecked 0 true) one_call) quiet_env (EvCallChecked 0 true) 0%nat
    (CallCtx (Some ("id", BInt32 1)) "abc" "network" "dump"
      [("ubus_rpc_session", BString "abc")] [] true false (TimeSpec 0 0))).
  - apply ref_fit.
  - apply one_call_reach.
  - vm_compute. split; reflexivity.
  - exact I.
  - done.
  - vm_compute. reflexivity.
  - vm_compute. reflexivity.
  - reflexivity.
Defined.

(** An unanswered access check outlives its call.  When the only request of
    a session is a call that has waited ten seconds for its access check, the
    cleaner frees the call but neither cancels nor unlinks the check: the
    callback of the check is still pending and then reads the freed call, and
    so does the end of the connection. *)
Theorem stale_check_reads_freed `{AvlTree, JsonC, LibUbox} (s : session) (e : env) (p : nat)
    (c : call_ctx) (allow : bool) :
  sinv 0 s -> rpc_call_q s = [p] -> calls s !! p = Some c -> cc_check c = true ->
  stale (e_now e) (cc_start c) = true ->
  exists s', sstep e EvCleanStale s = Some (tt, s') /\ enabled s' (EvCallChecked p allow) /\
    sstep e (EvCallChecked p allow) s' = None.
Proof.
  intros Hi Hq Hp Hck Hst. simpl. unfold wsubus_percall_clean_stale. run. rewrite Hq.
  cbn [forM_]. unfold M_bind at 1, clean_stale_one at 1, M_bind at 1, get. rewrite Hp, Hst.
  rewrite (ctx_destroy_run s p c Hp). eexists. split; [done|]. split.
  - split; [|apply (si_call_fresh 0 s Hi); eauto].
    apply (si_checks 0 s Hi), (si_acq 0 s Hi). eauto.
  - unfold wsubus_access_on_completed. run. by rewrite lookup_delete_eq.
Qed.

Lemma stale_check_reads_freed_witness :
  let e := Env [] (Conn false None [] "lan") 512 (TimeSpec 11 0) true true 0 0 0 [] 0 0 in
  exists s', sstep (H := list_avl) (H0 := ref_jsonc) (H1 := ref_libubox) e EvCleanStale one_call =
      Some (tt, s') /\ enabled s' (EvCallChecked 0 true) /\
    sstep (H := list_avl) (H0 := ref_jsonc) (H1 := ref_libubox) e (EvCallChecked 0 true) s' = None.
Proof.
  intros e. apply (stale_check_reads_freed (H := list_avl) (H0 := ref_jsonc) (H1 := ref_libubox) one_call e
    0%nat (CallCtx (Some ("id", BInt32 1)) "abc" "network" "dump"
      [("ubus_rpc_session", BString "abc")] [] false true (TimeSpec 0 0)) true).
  - apply (sreach_inv (H := list_avl) (H0 := ref_jsonc) (H1 := ref_libubox) _ ref_fit one_call_reach).
  - vm_compute. reflexivity.
  - vm_compute. reflexivity.
  - reflexivity.
  - reflexivity.
Defined.

(** An event in the air outlives its subscription.  When the only
    subscription of a session is removed while the access check of one of its
    events is pending, the subscription is freed and the event still points to
    it: when the check allows the event, the freed subscription is read. *)
Theorem unsubscribe_event_reads_freed `{AvlTree, JsonC, LibUbox} (s : session) (e : env) (p t : nat)
    (i : sub_info) (n : ev_notif) (r : ubusrpc_blob) (id : option attr) :
  texts_fit -> sinv 0 s -> listen_list s = [p] -> subs s !! p = Some i ->
  notifs s !! t = Some n -> n_info n = p -> rpc_args_of r = SubArgs (Some (si_pattern i)) ->
  exists s', ubusrpc_handle_unsub_ e r id s = Some (0, s') /\ enabled s' (EvNotifChecked t true) /\
    sstep e (EvNotifChecked t true) s' = None.
Proof.
  intros Hfit Hi Hl Hp Hn Hni Hr. unfold ubusrpc_handle_unsub_, jsonrpc__resp_ubus. rewrite Hr. run.
  rewrite Hl. unfold unsub_matching, wsubus_unsub_elem. run. rewrite Hp, strcmp_refl. run. rewrite Hp.
  rewrite queue_str_run by done. eexists. split; [done|]. split.
  - split; [|simpl; eauto]. simpl. apply (si_checks 0 s Hi), (si_acq 0 s Hi). eauto.
  - simpl. unfold wsubus_ev_check_cb. run. rewrite Hn, Hni. run. by rewrite lookup_delete_eq.
Qed.

Definition one_event : session :=
  ref_step (EvBusEvent 0 "wifi.up" []) (ref_step (EvMessage sub_msg) session_init).

Lemma unsubscribe_event_reads_freed_witness :
  exists s', ubusrpc_handle_unsub_ (H1 := ref_libubox) quiet_env
      (UbusRpc (Some "abc") (SubArgs (Some "*")) None) None one_event = Some (0, s') /\
    enabled s' (EvNotifChecked 1 true) /\
    sstep (H := list_avl) (H0 := ref_jsonc) (H1 := ref_libubox) quiet_env (EvNotifChecked 1 true) s' = None.
Proof.
  apply (unsubscribe_event_reads_freed (H := list_avl) (H0 := ref_jsonc) (H1 := ref_libubox) one_event
    quiet_env 0%nat 1%nat (SubInfo "*" "abc") (Notif "wifi.up" [] 0)).
  - apply ref_fit.
  - apply (sreach_inv (H := list_avl) (H0 := ref_jsonc) (H1 := ref_libubox) _ ref_fit).
    apply (sreach_step (ref_step (EvMessage sub_msg) session_init) quiet_env (EvBusEvent 0 "wifi.up" []));
      [|vm_compute; eauto| |done|vm_compute; reflexivity].
    + apply (sreach_step session_init quiet_env (EvMessage sub_msg));
        [apply sreach_init|done|apply sub_msg_safe|done|vm_compute; reflexivity].
    + intros i Hi. vm_compute in Hi. injection Hi as <-. vm_compute. eauto.
  - vm_compute. reflexivity.
  - vm_compute. reflexivity.
  - vm_compute. reflexivity.
  - reflexivity.
  - reflexivity.
Defined.

(** A listing shows a TLS peer only what the access list allows.  If the
    listing comes back, it has one entry per reported object in order, leaving
    out, for a session id that starts with "X-tls-certificate", the objects the
    access list does not allow. *)
Theorem list_shows_allowed `{AvlTree, JsonC, LibUbox} (acl : list string) (sid : string)
    (objs : list (string * option (list attr))) (l : list attr) :
  list_objects acl sid objs = Some l ->
  l.*1 = filter (fun o => starts_with "X-tls-certificate" sid = false \/
    ubusx_acl__allow_object acl o = true) objs.*1.
Proof.
  revert l. induction objs as [|[path sig] objs IH]; intros l; simpl; [by intros [= <-]|].
  destruct (ubus_lookup_cb acl sid (path, sig)) as [a|] eqn:Ea; [|done].
  destruct (list_objects acl sid objs) as [l'|]; [|done]. intros [= <-].
  rewrite fmap_app, filter_cons, (IH l') by done.
  unfold ubus_lookup_cb in Ea. cbn [fst snd] in Ea.
  pose proof (strncmp_prefix_r sid "X-tls-certificate") as Hs.
  destruct (Z.eqb_spec (strncmp sid "X-tls-certificate" (String.length "X-tls-certificate")) 0) as [E|E].
  - rewrite Hs in E. destruct (ubusx_acl__allow_object acl path) eqn:Eacl; simpl in Ea.
    + rewrite decide_True by auto. destruct sig as [sg|]; [|by simplify_eq].
      destruct (list_methods path sg); by simplify_eq/=.
    + injection Ea as <-. rewrite decide_False; [done|]. intros [E2|E2]; [by rewrite E in E2|congruence].
  - rewrite decide_True; [|left; apply not_true_is_false; by rewrite <- Hs].
    simpl in Ea. destruct sig as [sg|]; [|by simplify_eq].
    destruct (list_methods path sg); by simplify_eq/=.
Qed.

Lemma list_shows_allowed_witness :
  ([("network", BTable [])] : list attr).*1 =
  filter (fun o => starts_with "X-tls-certificate" "X-tls-certificate" = false \/
    ubusx_acl__allow_object (H := list_avl) ["network"] o = true) ["network"; "wifi"].
Proof.
  apply (list_shows_allowed (H := list_avl) (H0 := ref_jsonc) (H1 := ref_libubox) ["network"]
    "X-tls-certificate" [("network", None); ("wifi", None)]).
  reflexivity.
Defined.

(** An object with a floating-point argument stops the daemon: when ubus
    reports an object whose method has an argument of a type the table of names
    does not have, such as double, the assertion on the table fails for every
    client that lists it. *)
Theorem list_double_aborts `{AvlTree, JsonC, LibUbox} (s : session) (e : env) (id : option attr)
    (path method arg : string) (t : Z) :
  8 <= t -> starts_with "X-tls-certificate" (peer_sid s) = false ->
  e_objects e = [(path, Some [(method, BTable [(arg, BInt32 t)])])] ->
  handle_list_ubus e id s = None.
Proof.
  intros Ht Hsid Ho. unfold handle_list_ubus. run. rewrite Ho. simpl.
  unfold ubus_lookup_cb. cbn [fst snd].
  destruct (Z.eqb_spec (strncmp (peer_sid s) "X-tls-certificate" (String.length "X-tls-certificate")) 0) as [E|E].
  { apply strncmp_prefix_r in E. congruence. }
  cbn [andb list_methods]. rewrite attrs_table. cbn [list_args ubusx_acl__allow_method negb].
  assert (type_str t = None) as ->; [|done].
  unfold type_str. rewrite (proj2 (Z.ltb_ge t 0)) by lia.
  rewrite lookup_ge_None_2; [done|]. simpl. lia.
Qed.

Lemma list_double_aborts_witness :
  handle_list_ubus (H := list_avl) (H1 := ref_libubox)
    (Env [] (Conn false None [] "lan") 512 (TimeSpec 0 0) true true 0 0 0
       [("sensor", Some [("set", BTable [("level", BInt32 8)])])] 0 0) None session_init = None.
Proof.
  apply (list_double_aborts (H := list_avl) (H0 := ref_jsonc) (H1 := ref_libubox) session_init _ None
    "sensor" "set" "level" 8); [lia|done|done].
Defined.
