(* ===== verification/Validation.v ===== *)
(** * JSON validation of calls (util_json_validation.c and its hooks)

    In a build with [OWSD_JSON_VALIDATION] the arguments of a call are shown to a
    schema validator before the request is parsed, and the data of the answer
    before it is sent.  The validator is a library: it is a parameter, a function
    of the JSON value, the names of object and method and the direction.  The
    message handler of wsubus.c and [wsubus_call_on_completed] of rpc_call_ubus.h
    are those of Session with these hooks. *)

From stdpp Require Import base list strings numbers sets gmap.
From S2P Require Import Prelude CStrings Avl Patterns Libs UbusxAcl Rpc PeerIO AccessCheck Session SessionInv SessionProps.

Local Arguments strcmp : simpl never.
Local Arguments strncmp : simpl never.
Set Default Proof Using "Type".

Inductive schema_call_t := SCHEMA_INPUT_CALL | SCHEMA_OUTPUT_CALL.

Section validation.
Context `{AvlTree, JsonC, LibUbox}.
(** [schema_validator_validate_jobj]: zero means that the value is not valid. *)
Variable schema_validator_validate_jobj : json -> string -> string -> schema_call_t -> Z.

Definition validate_json_object (in_ : json) (object method : string) (type : schema_call_t) : Z :=
  schema_validator_validate_jobj in_ object method type.

(** [None] is [strncmp] of a NULL method. *)
Definition validate_json_call_string (j_str : string) : option bool :=
  let in_ := json_tokener_parse j_str in
  if is_null in_ then Some true
  else match json_object_object_get_ex in_ "method" with
  | None => Some true
  | Some type =>
      match json_object_get_string type with
      | None => None
      | Some t =>
          if negb (strncmp t "call" 5 =? 0) then Some true
          else match json_object_object_get_ex in_ "params" with
          | None => Some true
          | Some params =>
              let object := json_object_array_get_idx params 1 in
              if is_null object then Some true
              else match json_object_get_string object with
              | None => Some true
              | Some obj_str =>
                  let method := json_object_array_get_idx params 2 in
                  if is_null method then Some true
                  else
                    let args := json_object_array_get_idx params 3 in
                    m ← json_object_get_string method;
                    Some (negb (schema_validator_validate_jobj args obj_str m SCHEMA_INPUT_CALL =? 0))
              end
          end
      end
  end.

Variable e : env.

Definition on_msg_validated (blob : list attr) : M session unit :=
  let* len := gets rpc_q_len in
  if u32 (e_req_max e) <? len then M_ret tt
  else
    let '(rc, req) := jsonrpc_blob_req_parse blob in
    if negb (rc =? 0) then
      queue_str e (jsonrpc__resp_error (req_id req) JSONRPC_ERRORCODE__INVALID_REQUEST None)
    else
      let* valid := deref (fun _ => validate_json_call_string (blobmsg_format_json blob)) in
      if negb valid then
        queue_str e (jsonrpc__resp_error (req_id req) JSONRPC_ERRORCODE__INPUT_FORMAT_ERROR None)
      else match req_method req, req_params req with
      | Some method, Some params =>
          match ubusrpc_blob_parse method params with
          | (err, None) => queue_str e (jsonrpc__resp_error (req_id req) err None)
          | (_, Some r) =>
              let* sid := deref (fun _ => wsu_sid_update (rpc_sid r)) in
              modify (set_sid sid) ;;;
              let* h := deref (fun _ => rpc_handler r) in
              let* ret := run_handler e h r (req_id req) in
              if negb (ret =? 0)
              then queue_str e (jsonrpc__resp_error (req_id req) JSONRPC_ERRORCODE__OTHER None)
              else modify (fun s => set_q_len (u32 (rpc_q_len s + 1)) s)
          end
      | _, _ => abort
      end.

(** The text of the answer to call [c]: data that is not valid is replaced. *)
Definition validated_response (c : call_ctx) (status : Z) : string :=
  let answer := jsonrpc__resp_ubus (cc_id c) status (head (cc_retbuf c)) in
  match head (cc_retbuf c) with
  | None => answer
  | Some data =>
      let obj := json_tokener_parse (blobmsg_format_json (blobmsg_attrs data)) in
      if negb (is_null obj) && (validate_json_object obj (cc_object c) (cc_method c) SCHEMA_OUTPUT_CALL =? 0)
      then jsonrpc__resp_error (cc_id c) JSONRPC_ERRORCODE__OUTPUT_FORMAT_ERROR None
      else answer
  end.

Definition on_completed_validated (p : nat) (status : Z) : M session unit :=
  let* c := deref (fun s => calls s !! p) in
  assert_ (cc_invoke c) ;;;
  queue_str e (validated_response c status) ;;;
  with_call p (cc_set_invoke false) ;;;
  modify (fun s => set_call_q (list_del p (rpc_call_q s)) s) ;;;
  wsubus_percall_ctx_destroy p.

(** ** Facts *)

(** The field of a message that the parser of requests took is the one json-c
    finds in the text. *)
Lemma field_json blob n i a p :
  NoDup (blob.*1) -> rpc_policy !! i = Some p -> pol_name p = n ->
  tb_get (blobmsg_parse rpc_policy blob) i = Some a ->
  json_object_object_get_ex (blob_json (BTable blob)) n = Some (blob_json a.2).
Proof.
  intros Hnd Hp Hn Ha. apply tb_get_sound in Ha as (p' & Hp' & Hin & Hname & _).
  rewrite Hp in Hp'. injection Hp' as <-. rewrite Hn in Hname. cbn [blob_json]. rewrite get_ex_object.
  clear Hp. induction blob as [|b blob IH]; [set_solver|]. apply NoDup_cons in Hnd as [Hb Hnd].
  rewrite fmap_cons. cbn [assoc]. apply elem_of_cons in Hin as [->|Hin].
  - by rewrite decide_True.
  - rewrite decide_False; [by apply IH|]. cbn. intros E. apply Hb. rewrite <- E, <- Hname. by apply list_elem_of_fmap_2.
Qed.

(** What [jsonrpc_blob_req_parse] leaves of a request. *)
Lemma req_parsed blob req :
  jsonrpc_blob_req_parse blob = (0, req) ->
  exists v m p, tb_get (blobmsg_parse rpc_policy blob) 0 = Some v /\
    tb_get (blobmsg_parse rpc_policy blob) 2 = Some m /\ tb_get (blobmsg_parse rpc_policy blob) 3 = Some p /\
    req_method req = Some (blobmsg_get_string m) /\ req_params req = Some p /\
    blobmsg_type_of m = BLOBMSG_TYPE_STRING.
Proof.
  unfold jsonrpc_blob_req_parse.
  destruct (tb_get _ 0) as [v|] eqn:Ev; [|by intros [=]].
  destruct (tb_get _ 2) as [m|] eqn:Em; [|by intros [=]].
  destruct (tb_get _ 3) as [p|] eqn:Ep; [|by intros [=]].
  destruct (negb _); [by intros [=]|]. intros [= <-]. exists v, m, p. split_and!; try done.
  apply tb_get_sound in Em as (pol & [= <-] & _ & _ & [?|?]); done.
Qed.

Lemma string_attr a : blobmsg_type_of a = BLOBMSG_TYPE_STRING -> exists s, a.2 = BString s /\ blobmsg_get_string a = s.
Proof. destruct a as [n []]; try done. intros _. eexists. split; [done|]. apply get_string_attr. Qed.

(** A call in the shape the documentation of the protocol gives. *)
Definition call_params (l : list attr) (sid object method : string) (args : attr) : Prop :=
  exists n1 n2 n3 rest, l = (n1, BString sid) :: (n2, BString object) :: (n3, BString method) :: args :: rest.

Lemma validate_call blob req n l sid object method args :
  NoDup (blob.*1) -> prints_as blob -> jsonrpc_blob_req_parse blob = (0, req) ->
  req_method req = Some "call" -> req_params req = Some (n, BArray l) -> call_params l sid object method args ->
  validate_json_call_string (blobmsg_format_json blob) =
  Some (negb (schema_validator_validate_jobj (blob_json args.2) object method SCHEMA_INPUT_CALL =? 0)).
Proof.
  intros Hnd Hpr Hreq Hm Hps (n1 & n2 & n3 & rest & ->).
  destruct (req_parsed _ _ Hreq) as (v & m & p & _ & Em & Ep & Hrm & Hrp & Ht).
  rewrite Hrp in Hps. injection Hps as ->. rewrite Hrm in Hm. injection Hm as Hm.
  destruct (string_attr _ Ht) as (s & Es & Egs). rewrite Egs in Hm. subst s.
  unfold validate_json_call_string. cbv zeta. unfold prints_as in Hpr. rewrite !Hpr.
  change (is_null (blob_json (BTable blob))) with false. cbn iota.
  rewrite (field_json blob "method" 2 m _ Hnd eq_refl eq_refl Em), Es.
  change (blob_json (BString "call")) with (JString "call").
  rewrite get_string_string. rewrite (strncmp_eqb "call" "call" 5) by (cbn; lia). rewrite bool_decide_eq_true_2 by done.
  cbn [negb]. rewrite (field_json blob "params" 3 _ _ Hnd eq_refl eq_refl Ep). cbn [snd blob_json].
  rewrite !get_idx_array. cbn. by rewrite !get_string_string.
Qed.

Lemma validate_other blob req :
  NoDup (blob.*1) -> prints_as blob -> jsonrpc_blob_req_parse blob = (0, req) -> req_method req <> Some "call" ->
  validate_json_call_string (blobmsg_format_json blob) = Some true.
Proof.
  intros Hnd Hpr Hreq Hm. destruct (req_parsed _ _ Hreq) as (v & m & p & _ & Em & _ & Hrm & _ & Ht).
  destruct (string_attr _ Ht) as (s & Es & Egs). rewrite Hrm, Egs in Hm.
  unfold validate_json_call_string. cbv zeta. unfold prints_as in Hpr. rewrite !Hpr.
  change (is_null (blob_json (BTable blob))) with false. cbn iota.
  rewrite (field_json blob "method" 2 m _ Hnd eq_refl eq_refl Em), Es.
  change (blob_json (BString s)) with (JString s). rewrite get_string_string.
  rewrite strncmp_eqb by (cbn; lia). rewrite bool_decide_eq_false_2 by congruence. done.
Qed.

(** With its verdict given, the validated handler is the plain one or an error. *)
Lemma on_msg_verdict blob req verdict s :
  texts_fit -> jsonrpc_blob_req_parse blob = (0, req) -> rpc_q_len s <= u32 (e_req_max e) ->
  validate_json_call_string (blobmsg_format_json blob) = Some verdict ->
  on_msg_validated blob s =
  if verdict then wsu_on_msg_from_client e blob s
  else Some (tt, queued (jsonrpc__resp_error (req_id req) JSONRPC_ERRORCODE__INPUT_FORMAT_ERROR None) s).
Proof.
  intros Hfit Hreq Hlen Hv. unfold on_msg_validated, wsu_on_msg_from_client, gets, M_bind at 1 4.
  cbn. rewrite (proj2 (Z.ltb_ge _ _)) by done. rewrite Hreq. cbn [Z.eqb negb]. unfold M_bind at 1, deref at 1.
  rewrite Hv. destruct verdict; [done|]. cbn [negb]. unfold jsonrpc__resp_error. by apply queue_str_run.
Qed.
End validation.

Lemma call_params_parsed `{LibUbox} n l sid object method args err r :
  call_params l sid object method args -> ubusrpc_blob_parse "call" (n, BArray l) = (err, Some r) ->
  rpc_args_of r = CallArgs object method (blobmsg_attrs args).
Proof.
  intros (n1 & n2 & n3 & rest & ->). unfold ubusrpc_blob_parse. cbn [ubusrpc_blob_parse_in supported_methods].
  change (strcmp "call" "call" =? 0) with true. cbn iota.
  unfold ubusrpc_blob_call_parse, ubusrpc_blob_call_parse_. rewrite attrs_array, parse_array_exact.
  - cbn. rewrite !get_string_attr. by destruct (existsb _ _); [intros [=]|intros [= _ <-]].
  - cbn. repeat constructor; by right.
Qed.

(** ** Theorems *)

(** C22: In a build with JSON validation, a call in the documented form is handed on exactly as
    without validation if the validator accepts its arguments for its object and method, and
    otherwise only answered with "Invalid Input Format"; the object, method and arguments the
    validator has seen are those of the call that is made.  Messages that are no calls are
    not affected. *)
Theorem validation_guards_calls `{AvlTree, JsonC, LibUbox}
    (validator : json -> string -> string -> schema_call_t -> Z) (e : env) (s : session)
    (blob : list attr) (req : jsonrpc_blob_req) :
  texts_fit -> NoDup (blob.*1) -> prints_as blob -> jsonrpc_blob_req_parse blob = (0, req) ->
  rpc_q_len s <= u32 (e_req_max e) ->
  (req_method req <> Some "call" -> on_msg_validated validator e blob s = wsu_on_msg_from_client e blob s) /\
  forall n l sid object method args,
    req_method req = Some "call" -> req_params req = Some (n, BArray l) -> call_params l sid object method args ->
    on_msg_validated validator e blob s =
      (if validator (blob_json args.2) object method SCHEMA_INPUT_CALL =? 0
       then Some (tt, queued (jsonrpc__resp_error (req_id req) JSONRPC_ERRORCODE__INPUT_FORMAT_ERROR None) s)
       else wsu_on_msg_from_client e blob s) /\
    forall err r, ubusrpc_blob_parse "call" (n, BArray l) = (err, Some r) ->
      rpc_args_of r = CallArgs object method (blobmsg_attrs args).
Proof.
  intros Hfit Hnd Hpr Hreq Hlen. split.
  - intros Hm. by rewrite (on_msg_verdict _ _ _ req true) by eauto using validate_other.
  - intros n l sid object method args Hm Hps Hcall. split; [|intros err r; by eapply call_params_parsed].
    rewrite (on_msg_verdict _ _ _ req _ _ Hfit Hreq Hlen (validate_call _ _ _ _ _ _ _ _ _ Hnd Hpr Hreq Hm Hps Hcall)).
    by destruct (validator _ _ _ _ =? 0).
Qed.

(** ** A parser of arrays that passes over what it does not want

    The parser of libubox goes on to the next element of an array when one is not
    of the wanted type; the validator counts elements. *)

Fixpoint skip_parse_array (ts : list blobmsg_type) (l : list attr) : list (option attr) :=
  match l with
  | [] => replicate (length ts) None
  | a :: l' =>
      match ts with
      | [] => []
      | t :: ts' => if decide (type_ok t a) then Some a :: skip_parse_array ts' l' else skip_parse_array ts l'
      end
  end.

Lemma skip_length ts l : length (skip_parse_array ts l) = length ts.
Proof.
  revert ts. induction l as [|a l IH]; intros ts; simpl; [apply length_replicate|].
  destruct ts; [done|]. case_decide; simpl; by rewrite IH.
Qed.

Lemma skip_sound ts l i a :
  skip_parse_array ts l !! i = Some (Some a) -> exists t, ts !! i = Some t /\ a ∈ l /\ type_ok t a.
Proof.
  revert ts i. induction l as [|b l IH]; intros ts i; simpl; [by intros [? ?]%lookup_replicate|].
  destruct ts as [|t ts]; [done|]. case_decide.
  - destruct i as [|i]; simpl.
    + intros [= ->]. exists t. split_and!; [done|set_solver|done].
    + intros (t' & ? & ? & ?)%IH. exists t'. split_and!; [done|set_solver|done].
  - intros (t' & ? & ? & ?)%IH. exists t'. split_and!; [done|set_solver|done].
Qed.

Lemma skip_exact ts l :
  Forall2 type_ok ts (take (length ts) l) -> skip_parse_array ts l = Some <$> take (length ts) l.
Proof.
  revert l. induction ts as [|t ts IH]; intros l; simpl; [by destruct l|].
  destruct l as [|a l]; simpl; [by intros ?%Forall2_cons_nil_inv|].
  intros [? ?]%Forall2_cons. rewrite decide_True by done. by rewrite IH.
Qed.

Lemma skip_short ts l : (length l < length ts)%nat -> None ∈ skip_parse_array ts l.
Proof.
  revert ts. induction l as [|a l IH]; intros ts; simpl.
  - destruct ts; simpl; [lia|]. intros _. left.
  - destruct ts as [|t ts]; simpl; [lia|]. intros Hlt. case_decide; [right|]; apply IH; simpl; lia.
Qed.

Program Definition skip_libubox : LibUbox := {|
  blobmsg_parse := ref_parse;
  blobmsg_parse_array := skip_parse_array;
  blobmsg_get_string := ref_attr_string;
  blobmsg_get_u32 := ref_attr_number;
  blobmsg_get_u16 := ref_attr_number;
  blobmsg_get_u8 := ref_attr_number;
  blobmsg_attrs := fun a => blob_children a.2;
  blobmsg_add_object := ref_add_object;
  blobmsg_format_json := fun _ => "";
|}.
Next Obligation. apply (@parse_length ref_libubox). Qed.
Next Obligation. apply (@parse_sound ref_libubox). Qed.
Next Obligation. apply (@parse_complete ref_libubox). Qed.
Next Obligation. apply skip_length. Qed.
Next Obligation. apply skip_sound. Qed.
Next Obligation. apply skip_exact. Qed.
Next Obligation. apply skip_short. Qed.
Next Obligation. done. Qed.
Next Obligation. done. Qed.
Next Obligation. done. Qed.
Next Obligation. done. Qed.
Next Obligation. done. Qed.
Next Obligation. done. Qed.

(** ** Concrete calls *)

Definition dump_msg : list attr :=
  [("jsonrpc", BString "2.0"); ("id", BInt32 1); ("method", BString "call");
   ("params", BArray [("", BString "abc"); ("", BString "network"); ("", BString "dump"); ("", BTable [])])].

(** The same call with a number before its parameters. *)
Definition shifted_msg : list attr :=
  [("jsonrpc", BString "2.0"); ("id", BInt32 1); ("method", BString "call");
   ("params", BArray [("", BInt32 0); ("", BString "abc"); ("", BString "network"); ("", BString "dump"); ("", BTable [])])].

Definition json_of (msg : list attr) : JsonC := ref_jsonc_with (fun _ => blob_json (BTable msg)).

(** A validator that refuses every call of the object "network". *)
Definition no_network (in_ : json) (object method : string) (type : schema_call_t) : Z :=
  if decide (object = "network") then 0 else 1.

Lemma validation_guards_calls_witness :
  on_msg_validated (H := list_avl) (H0 := json_of dump_msg) (H1 := ref_libubox) no_network quiet_env dump_msg session_init =
  Some (tt, queued "" session_init).
Proof.
  destruct (validation_guards_calls (H := list_avl) (H0 := json_of dump_msg) (H1 := ref_libubox) no_network quiet_env
    session_init dump_msg (Req (Some ("id", BInt32 1)) (Some "2.0") (Some "call")
      (Some ("params", BArray [("", BString "abc"); ("", BString "network"); ("", BString "dump"); ("", BTable [])]))))
    as [_ Hcall].
  - intros l. vm_compute. reflexivity.
  - cbn. repeat (constructor; [set_solver|]). constructor.
  - vm_compute. reflexivity.
  - vm_compute. reflexivity.
  - vm_compute. discriminate.
  - destruct (Hcall "params" [("", BString "abc"); ("", BString "network"); ("", BString "dump"); ("", BTable [])]
      "abc" "network" "dump" ("", BTable []) eq_refl eq_refl) as [Hrun _].
    + by exists "", "", "", [].
    + rewrite Hrun. reflexivity.
Defined.

(** Validation can be passed by: with a parser of arrays that passes over elements of another
    type, as that of libubox, a call with a number before its parameters is shown to the
    validator with the session id as its object, while the call that is then made is on the
    object after it, here one the validator refuses. *)
Theorem validation_passed_by :
  validate_json_call_string (H0 := json_of shifted_msg) no_network "" = Some true /\
  exists s c,
    on_msg_validated (H := list_avl) (H0 := json_of shifted_msg) (H1 := skip_libubox) no_network quiet_env
      shifted_msg session_init = Some (tt, s) /\
    calls s !! 0%nat = Some c /\ cc_object c = "network" /\ cc_method c = "dump" /\
    no_network (JObject []) (cc_object c) (cc_method c) SCHEMA_INPUT_CALL = 0.
Proof.
  split; [vm_compute; reflexivity|]. eexists. eexists. split; [vm_compute; reflexivity|].
  vm_compute. repeat split; reflexivity.
Qed.
