(* ===== verification/UbusProxy.v ===== *)
(** * ws_ubusproxy.c and local_stub.c: the proxy of a remote bus

    owsd connected as a client to a remote owsd: the handshake (login, listen,
    list), the stub objects it registers on the local bus for the objects of
    the remote one, the calls it forwards and the events it replays.  What the
    proxy does on the local bus is the list [r_out] of the state.  The tree of
    stubs is the list of its nodes in key order; [avl_for_element_range_safe]
    of libubox walks the linked list of the nodes, so the position after the
    last node is the list head, which is no stub: reading it as one does not
    come back.  A new stub gets any address that is not in use. *)

From Stdlib Require Import Ascii.
From stdpp Require Import base list strings numbers sorting sets gmap.
From S2P Require Import Prelude CStrings Avl Patterns Libs WsubusClient Rpc PeerIO.

Local Arguments strcmp : simpl never.

(** ** Signatures *)

(** The methods of an object: names, and the names and types of arguments. *)
Definition signature : Type := list (string * list (string * blobmsg_type)).

(** [struct wsu_local_stub]: the pointer and the copied signature. *)
Record stub := Stub { st_ptr : nat; st_sig : signature }.

(** What happens on the local bus; a request is a number. *)
Inductive bus_action :=
  | AddObject (name : string) (sig : signature)
  | RemoveObject (key : string)
  | SendReply (ureq : nat) (data : list attr)
  | CompleteDeferred (ureq : nat) (status : Z)
  | SendEvent (name : string) (data : list attr).

(** [struct wsu_remote_bus] with the parts of its peer.  [r_calloc] is the
    address [calloc] gives for the next stub when those of the set are in use:
    any other one, that of a stub that was freed included. *)
Record remote := Remote {
  call_id : Z;
  w_login : bool;
  w_listen : bool;
  w_call : Z;
  w_list_id : Z;
  r_calls : list (Z * nat);
  r_tree : list string;
  r_nodes : gmap string stub;
  r_sid : string;
  r_write : list wsu_writereq;
  r_calloc : gset nat -> nat;
  r_out : list bus_action;
}.

Definition set_call_id z r := Remote z (w_login r) (w_listen r) (w_call r) (w_list_id r) (r_calls r)
  (r_tree r) (r_nodes r) (r_sid r) (r_write r) (r_calloc r) (r_out r).
Definition set_login b r := Remote (call_id r) b (w_listen r) (w_call r) (w_list_id r) (r_calls r)
  (r_tree r) (r_nodes r) (r_sid r) (r_write r) (r_calloc r) (r_out r).
Definition set_listening b r := Remote (call_id r) (w_login r) b (w_call r) (w_list_id r) (r_calls r)
  (r_tree r) (r_nodes r) (r_sid r) (r_write r) (r_calloc r) (r_out r).
Definition set_call_mask m r := Remote (call_id r) (w_login r) (w_listen r) m (w_list_id r) (r_calls r)
  (r_tree r) (r_nodes r) (r_sid r) (r_write r) (r_calloc r) (r_out r).
Definition set_list_id z r := Remote (call_id r) (w_login r) (w_listen r) (w_call r) z (r_calls r)
  (r_tree r) (r_nodes r) (r_sid r) (r_write r) (r_calloc r) (r_out r).
Definition set_r_calls l r := Remote (call_id r) (w_login r) (w_listen r) (w_call r) (w_list_id r) l
  (r_tree r) (r_nodes r) (r_sid r) (r_write r) (r_calloc r) (r_out r).
Definition set_stubs l m r := Remote (call_id r) (w_login r) (w_listen r) (w_call r) (w_list_id r)
  (r_calls r) l m (r_sid r) (r_write r) (r_calloc r) (r_out r).
Definition set_r_sid z r := Remote (call_id r) (w_login r) (w_listen r) (w_call r) (w_list_id r)
  (r_calls r) (r_tree r) (r_nodes r) z (r_write r) (r_calloc r) (r_out r).
Definition set_r_write q r := Remote (call_id r) (w_login r) (w_listen r) (w_call r) (w_list_id r)
  (r_calls r) (r_tree r) (r_nodes r) (r_sid r) q (r_calloc r) (r_out r).
Definition set_calloc f r := Remote (call_id r) (w_login r) (w_listen r) (w_call r) (w_list_id r)
  (r_calls r) (r_tree r) (r_nodes r) (r_sid r) (r_write r) f (r_out r).
Definition emit a r := Remote (call_id r) (w_login r) (w_listen r) (w_call r) (w_list_id r)
  (r_calls r) (r_tree r) (r_nodes r) (r_sid r) (r_write r) (r_calloc r) (r_out r ++ [a]).

(** ** Names *)

Section names.
(** [lws_get_peer_simple]: the text of the peer's address. *)
Variable peer : string.

Definition proxied_name_size (name : string) : nat := String.length name + 50 + 2.

Definition proxied_name_fill (name : string) : string :=
  let sz := proxied_name_size name in
  let n := str_take (sz - 1) peer in
  let n := if strncmp n "::ffff:" 7 =? 0 then str_drop 7 n else n in
  let n := strncat n "/" (sz - String.length n) in
  strncat n name (sz - String.length n).

(** What follows the first slash ([strchr(name, '/') + 1]); [None] without
    one: the NULL pointer plus one is read. *)
Definition local_name (proxied : string) : option string :=
  match strchr proxied "/"%char with Some (String _ rest) => Some rest | _ => None end.
End names.

(** The conversion [%<n>s] of [sscanf]: white space is skipped, then at most
    [n] other bytes are taken; [None] at the end of the text. *)
Fixpoint take_word (n : nat) (s : string) : string * string :=
  match n, s with
  | S n', String c s' =>
      if is_delim whitespace c then (EmptyString, s)
      else let '(w, r) := take_word n' s' in (String c w, r)
  | _, _ => (EmptyString, s)
  end.

Definition scan_word (n : nat) (s : string) : option (string * string) :=
  match skip_delims whitespace s with
  | EmptyString => None
  | s' => Some (take_word n s')
  end.

(** [sscanf(line, "%*s %18s %15s", mac, ip)] after both were cleared: the
    address read, and the text of the second one if the result is 2. *)
Definition scan_lease (line : string) : string * option string :=
  match scan_word (String.length line) line with
  | None => ("", None)
  | Some (_, r) =>
      match scan_word 18 r with
      | None => ("", None)
      | Some (mac, r) => (mac, fst <$> scan_word 15 r)
      end
  end.

(** The loop of [get_mac_by_ip] over the lines [fgets] returns: a file that
    ends without a match leaves what the last line had. *)
Fixpoint get_mac_by_ip (leases : list string) (ipaddr mac : string) : string :=
  match leases with
  | [] => mac
  | line :: rest =>
      match scan_lease line with
      | (m, None) => get_mac_by_ip rest ipaddr m
      | (m, Some ip) => if strcmp ipaddr ip =? 0 then m else get_mac_by_ip rest ipaddr m
      end
  end.

(** [proxied_name_mac_prefix]: [mac_prefix] is [ubusx_prefix], [leases] the
    file if it could be opened; [snprintf] cuts at [size]. *)
Definition proxied_name_mac_prefix (mac_prefix : bool)
    (leases : option (list string)) (name : string) (size : nat) : string :=
  if negb mac_prefix then name
  else if (String.length name <? 3)%nat || (size <=? 21)%nat then name
  else match strchr name "/"%char, leases with
  | Some (String _ objname), Some l =>
      let mac := get_mac_by_ip l (before_chr name "/"%char) "" in
      str_take (size - 1) (mac +:+ "/" +:+ objname)
  | _, _ => name
  end.

(** ** The walk along the stubs *)

(** The walk along the nodes: no position, a node, or the list head. *)
Inductive cursor := CurNull | CurAt (k : string) | CurEnd.

Fixpoint next_of (tree : list string) (k : string) : cursor :=
  match tree with
  | [] => CurEnd
  | x :: tree' =>
      if decide (x = k) then match tree' with [] => CurEnd | y :: _ => CurAt y end
      else next_of tree' k
  end.

(** The key before a position. *)
Fixpoint key_before (tree : list string) (k : string) (prev : option string) : option string :=
  match tree with
  | [] => prev
  | x :: tree' => if decide (x = k) then prev else key_before tree' k (Some x)
  end.

Definition prev_key (tree : list string) (c : cursor) : option string :=
  match c with
  | CurNull => None
  | CurAt k => key_before tree k None
  | CurEnd => last tree
  end.

(** The pointer of the node before a position. *)
Definition prev_ptr (r : remote) (c : cursor) : option nat :=
  prev_key (r_tree r) c ≫= (fun k => st_ptr <$> r_nodes r !! k).

(** [avl_for_element_range_safe(cur, last, cur, avl, next)] with its body: each
    turn moves on by one node, so one more than their number is enough. *)
Fixpoint advance (fuel : nat) (r : remote) (last_ptr : option nat) (obj_name : string)
    (cur : cursor) (cmp_result : Z) : option (cursor * Z) :=
  if bool_decide (prev_ptr r cur = last_ptr /\ last_ptr <> None) then Some (cur, cmp_result)
  else match fuel, cur with
  | S f, CurAt k =>
      let cmp_result := strcmp k obj_name in
      if 0 <=? cmp_result then Some (cur, cmp_result)
      else advance f r last_ptr obj_name (next_of (r_tree r) k) cmp_result
  | _, _ => None
  end.

Section proxy.
Context `{AvlTree, JsonC, LibUbox}.

(** The configuration the proxy reads, and the answers of the libraries. *)
Variable peer : string.
Variable mac_prefix : bool.
Variable leases : option (list string).
Variable paths_tree : list string.

Definition r_queue (str : string) : M remote unit :=
  fun r => match wsu_queue_write_str 0 (Some str) (r_write r) with
           | Some (_, q) => Some (tt, set_r_write q r)
           | None => None
           end.

(** ** local_stub.c *)

(** The arguments of one method; a value that is no object stops json-c. *)
Definition margs_types (margs : json) : option (list (string * blobmsg_type)) :=
  match margs with
  | JObject args => Some ((fun kv => (kv.1, blobmsg_type_from_str (json_object_get_string kv.2))) <$> args)
  | _ => None
  end.

Fixpoint methods_types (ms : list (string * json)) : option signature :=
  match ms with
  | [] => Some []
  | (mname, margs) :: rest =>
      match margs_types margs, methods_types rest with
      | Some a, Some l => Some ((mname, a) :: l)
      | _, _ => None
      end
  end.

Definition signature_of (j : json) : option signature :=
  match j with JObject ms => methods_types ms | _ => None end.

(** The loops of [wsu_local_stub_is_same_signature]. *)
Fixpoint same_args (b : list (string * blobmsg_type)) (margs : list (string * json)) : bool :=
  match b, margs with
  | (bname, btype) :: b', (aname, atype) :: rest =>
      if negb (bool_decide (btype = blobmsg_type_from_str (json_object_get_string atype))) then false
      else if negb (strcmp bname aname =? 0) then false
      else same_args b' rest
  | _, _ => true
  end.

Fixpoint same_methods (m : signature) (ms : list (string * json)) : option bool :=
  match m, ms with
  | (name, policy) :: m', (mname, margs) :: rest =>
      match margs with
      | JObject args =>
          if negb (length policy =? length args)%nat then Some false
          else if negb (strcmp name mname =? 0) then Some false
          else if negb (same_args policy args) then Some false
          else same_methods m' rest
      | _ => None
      end
  | _, _ => Some true
  end.

Definition wsu_local_stub_is_same_signature (st : stub) (sig : json) : option bool :=
  match sig with
  | JObject ms =>
      if negb (length (st_sig st) =? length ms)%nat then Some false
      else same_methods (st_sig st) ms
  | _ => None
  end.

(** The address of a new stub. *)
Definition stub_addr (r : remote) : nat :=
  r_calloc r (list_to_set (st_ptr <$> (map_to_list (r_nodes r)).*2)).

(** A key that is in the tree already stays as it is: the new stub is then on
    the bus only. *)
Definition wsu_local_stub_create (object : string) (sig : json) : M remote unit :=
  let* s := deref (fun _ => signature_of sig) in
  let name := proxied_name_mac_prefix mac_prefix leases (proxied_name_fill peer object)
                (proxied_name_size object) in
  let* key := deref (fun _ => local_name name) in
  modify (fun r =>
    match avl_insert strcmp (r_tree r) key with
    | Some tree' => set_stubs tree' (<[key := Stub (stub_addr r) s]> (r_nodes r)) r
    | None => r
    end) ;;;
  modify (emit (AddObject name s)).

Definition wsu_local_stub_destroy (key : string) : M remote unit :=
  let* _ := deref (fun r => r_nodes r !! key) in
  modify (emit (RemoveObject key)) ;;;
  modify (fun r => set_stubs (avl_delete (r_tree r) key) (delete key (r_nodes r)) r).

(** [wsu_local_stub_handle_call]: a call on the object [name], deferred as
    request [ureq]; [args] is what the JSON text of the arguments parses to.
    The request text is made before the slot is looked for. *)
Definition wsu_local_stub_handle_call (name method : string) (args : option json) (ureq : nat)
  : M remote Z :=
  let* key := deref (fun _ => local_name name) in
  modify (fun r => set_call_id (s32 (call_id r + 1)) r) ;;;
  let* d := deref (fun r => jsonrpc__req_to_string (call_id r) (Some (r_sid r)) "call"
                              (Some key) (Some method) args None) in
  let* m := gets (fun r => wsu_proxied_call_new (w_call r)) in
  match m with
  | (None, _) => M_ret UBUS_STATUS_NOT_SUPPORTED
  | (Some i, mask) =>
      modify (set_call_mask mask) ;;;
      modify (fun r => set_r_calls (<[Z.to_nat i := (call_id r, ureq)]> (r_calls r)) r) ;;;
      r_queue d ;;;
      M_ret 0
  end.

Definition proxied_event (name : string) (data : json) : bus_action :=
  SendEvent (proxied_name_fill peer name)
    (if json_object_is_type data json_type_object then blobmsg_add_object data else []).

(** ** The answer to "list" *)

Definition merge_one (last_ptr : option nat) (obj : string * json) (st : cursor * Z)
  : M remote (cursor * Z) :=
  let '(obj_name, obj_methods) := obj in
  let* st := (match st.1 with
              | CurNull => M_ret st
              | _ => deref (fun r => advance (S (length (r_tree r))) r last_ptr obj_name st.1 st.2)
              end : M remote (cursor * Z)) in
  let create := when wsubus_client_match_pattern paths_tree obj_name do
                  wsu_local_stub_create obj_name obj_methods in
  if negb (st.2 =? 0) then create ;;; M_ret st
  else match st.1 with
  | CurAt k =>
      let* same := deref (fun r => match r_nodes r !! k with
                                   | Some n => wsu_local_stub_is_same_signature n obj_methods
                                   | None => None
                                   end) in
      if same then M_ret st
      else
        let* next := gets (fun r => next_of (r_tree r) k) in
        wsu_local_stub_destroy k ;;;
        create ;;;
        M_ret (next, st.2)
  | _ => abort
  end.

Fixpoint merge_all (last_ptr : option nat) (objs : list (string * json)) (st : cursor * Z)
  : M remote unit :=
  match objs with
  | [] => M_ret tt
  | o :: rest => let* st := merge_one last_ptr o st in merge_all last_ptr rest st
  end.

(** Both loops over the objects of the answer. *)
Definition merge_list (objs : list (string * json)) : M remote unit :=
  let* r := get in
  let last_ptr := prev_ptr r CurEnd in
  let cur := match objs with
             | [] => CurNull
             | (key, _) :: _ =>
                 match avl_find_ge strcmp (r_tree r) key with Some k => CurAt k | None => CurNull end
             end in
  let cmp_result := match objs, cur with (key, _) :: _, CurAt k => strcmp k key | _, _ => 1 end in
  merge_all last_ptr objs (cur, cmp_result).

(** ** The callbacks of the connection *)

(** [++remote->call_id], the text of a request and its queueing. *)
Definition next_call_id : M remote unit := modify (fun r => set_call_id (s32 (call_id r + 1)) r).

Definition queue_request (req : remote -> option json) : M remote unit :=
  let* d := deref (fun r => json_object_to_json_string <$> req r) in
  r_queue d.

Definition send_listen : M remote unit :=
  next_call_id ;;;
  modify (set_listening true) ;;;
  queue_request (fun r => jsonrpc__req_ubuslisten (call_id r) (Some (r_sid r)) "*").

Definition send_list : M remote unit :=
  next_call_id ;;;
  modify (fun r => set_list_id (call_id r) r) ;;;
  queue_request (fun r => jsonrpc__req_ubuslist (call_id r) (Some (r_sid r)) "*").

Definition sid_update (sid : option string) : M remote unit :=
  let* sid := deref (fun _ => wsu_sid_update sid) in
  modify (set_r_sid sid).

(** [LWS_CALLBACK_CLIENT_ESTABLISHED] after the peer was initialised, which
    empties the write queue and the session id; [common_name] is the name in the
    certificate of the peer, if there is one. *)
Definition remote_established (rpcd_integration is_ssl : bool) (common_name : option string)
  : M remote unit :=
  modify (fun r => Remote (call_id r) false false 0 0 (r_calls r) [] ∅ "" [] (r_calloc r) (r_out r)) ;;;
  if rpcd_integration then
    if negb is_ssl then M_ret tt
    else match common_name with
    | None => M_ret tt
    | Some name =>
        next_call_id ;;;
        modify (set_login true) ;;;
        queue_request (fun r => jsonrpc__req_ubuscall (call_id r) None "session" "login"
                                  (Some (JObject [("certificate", JString name)])))
    end
  else
    sid_update (Some "X-tls-certificate") ;;;
    send_listen.

(** The first element of a result is a status; it has to be 0. *)
Definition result_ok (tmp : json) : bool :=
  json_object_is_type tmp json_type_array &&
  (json_object_get_int (json_object_array_get_idx tmp 0) =? 0).

Definition receive_login (tmp : json) : M remote unit :=
  if negb (result_ok tmp) then M_ret tt
  else
    let tmp := json_object_array_get_idx tmp 1 in
    match (if is_null tmp then None else json_object_object_get_ex tmp "ubus_rpc_session") with
    | Some session =>
        if json_object_is_type session json_type_string then
          modify (set_login false) ;;;
          sid_update (json_object_get_string session) ;;;
          send_listen
        else M_ret tt
    | None => M_ret tt
    end.

Definition receive_listen (tmp : json) : M remote unit :=
  if result_ok tmp then modify (set_listening false) ;;; send_list else M_ret tt.

Definition receive_list (tmp : json) : M remote unit :=
  if negb (result_ok tmp) then M_ret tt
  else match json_object_array_get_idx tmp 1 with
  | JObject objs => merge_list objs ;;; modify (set_list_id 0)
  | _ => M_ret tt
  end.

(** The search of [wsu_proxied_call_foreach] for the slot with an id. *)
Fixpoint find_call (id : Z) (calls : list (Z * nat)) (idxs : list Z) : option (Z * nat) :=
  match idxs with
  | [] => None
  | i :: rest =>
      match calls !! Z.to_nat i with
      | Some (jsonrpc_id, ureq) => if jsonrpc_id =? id then Some (i, ureq) else find_call id calls rest
      | None => find_call id calls rest
      end
  end.

Definition answer_request (ureq : nat) (tmp : json) : M remote unit :=
  if json_object_is_type tmp json_type_array then
    let data := json_object_array_get_idx tmp 1 in
    (when json_object_is_type data json_type_object do
       modify (emit (SendReply ureq (blobmsg_add_object data)))) ;;;
    let rc := json_object_array_get_idx tmp 0 in
    when json_object_is_type rc json_type_int do
      modify (emit (CompleteDeferred ureq (json_object_get_int rc)))
  else modify (emit (CompleteDeferred ureq UBUS_STATUS_UNKNOWN_ERROR)).

Definition receive_call (id_jobj tmp : json) : M remote unit :=
  if negb (json_object_is_type id_jobj json_type_int) then M_ret tt
  else
    let id := json_object_get_int id_jobj in
    if id =? 0 then M_ret tt
    else
      let* p := gets (fun r => find_call id (r_calls r) (wsu_proxied_call_foreach (w_call r))) in
      match p with
      | None => M_ret tt
      | Some (i, ureq) =>
          answer_request ureq tmp ;;;
          modify (fun r => set_call_mask (wsu_proxied_call_free (w_call r) i) r)
      end.

(** A notification; [tmp] is the variable of the source, which every
    [json_object_object_get_ex] overwrites, also where the key is missing. *)
Definition receive_method (jobj tmp : json) : M remote unit :=
  let* m := deref (fun _ => json_object_get_string tmp) in
  let params := json_get jobj "params" in
  let type_jobj := json_get params "type" in
  if negb (strcmp "event" m =? 0)
     || negb (json_object_is_type params json_type_object)
     || negb (json_object_is_type type_jobj json_type_string)
  then M_ret tt
  else
    let* type := deref (fun _ => json_object_get_string type_jobj) in
    let added := strcmp "ubus.object.add" type =? 0 in
    let removed := strcmp "ubus.object.remove" type =? 0 in
    let tmp := json_get params "data" in
    let tmp := if added then json_get tmp "path" else tmp in
    if added && json_object_is_type tmp json_type_string then send_list
    else
      let tmp := if removed then json_get tmp "path" else tmp in
      if removed && json_object_is_type tmp json_type_string then
        let* path := deref (fun _ => json_object_get_string tmp) in
        let* cur := gets (fun r => avl_find strcmp (r_tree r) path) in
        match cur with
        | Some key => wsu_local_stub_destroy key
        | None => M_ret tt
        end
      else modify (emit (proxied_event type tmp)).

(** [LWS_CALLBACK_CLIENT_RECEIVE]; [jobj] is what the text parses to. *)
Definition remote_receive (jobj : json) : M remote unit :=
  if is_null jobj then M_ret tt
  else
    let id_jobj := json_get jobj "id" in
    match json_object_object_get_ex jobj "result" with
    | Some tmp =>
        let* r := get in
        if w_login r then receive_login tmp
        else if w_listen r then receive_listen tmp
        else if negb (w_list_id r =? 0) && json_object_is_type id_jobj json_type_int
                && (json_object_get_int id_jobj =? w_list_id r)
        then receive_list tmp
        else if negb (w_call r =? 0) then receive_call id_jobj tmp
        else M_ret tt
    | None =>
        match json_object_object_get_ex jobj "method" with
        | Some tmp => receive_method jobj tmp
        | None => M_ret tt
        end
    end.

(** [wsu_peer_deinit] of a remote bus. *)
Definition remote_deinit : M remote unit :=
  modify (set_r_write []) ;;;
  let* tree := gets r_tree in
  forM_ tree wsu_local_stub_destroy.
End proxy.
