(* ===== verification/ProxyProps.v ===== *)
(** * Theorems on the proxy of a remote bus (UbusProxy.v)

    Names of proxied objects, signatures, the handshake, the calls in progress
    and the walk that merges the answer to "list". *)

From Stdlib Require Import Ascii.
From stdpp Require Import base list strings numbers sorting sets gmap.
From S2P Require Import Prelude CStrings Avl Patterns Libs WsubusClient Rpc PeerIO UbusProxy.

Local Arguments strcmp : simpl never.

Set Default Proof Using "Type".

(** ** Names *)

Lemma chars_drop n s c : c ∈ chars (str_drop n s) -> c ∈ chars s.
Proof.
  revert s. induction n as [|n IH]; intros [|x s]; simpl; try done.
  intros ?%IH. set_solver.
Qed.

Lemma str_drop_le n s : (String.length (str_drop n s) <= String.length s)%nat.
Proof. revert s. induction n as [|n IH]; intros [|x s]; simpl; try done. specialize (IH s). lia. Qed.

Lemma no_slash s : strchr s "/"%char = None -> "/"%char ∉ chars s.
Proof. intros E [x Hx]%strchr_is_Some. congruence. Qed.

Lemma strchr_app a b : "/"%char ∉ chars a ->
  strchr (a +:+ String "/" b) "/"%char = Some (String "/" b).
Proof.
  induction a as [|c a IH]; [done|]. rewrite str_app_cons. cbn [chars strchr].
  rewrite not_elem_of_cons. intros [? ?]. byte_cases; [done|]. by apply IH.
Qed.

Lemma local_name_app a b : "/"%char ∉ chars a -> local_name (a +:+ String "/" b) = Some b.
Proof. intros. unfold local_name. by rewrite strchr_app. Qed.

(** The address without the prefix of a mapped IPv4 address. *)
Definition peer_ip (peer : string) : string :=
  if (strncmp peer "::ffff:" 7 =? 0)%Z then str_drop 7 peer else peer.

Lemma peer_ip_facts peer :
  "/"%char ∉ chars peer ->
  ("/"%char ∉ chars (peer_ip peer)) /\ (String.length (peer_ip peer) <= String.length peer)%nat.
Proof.
  intros Hc. unfold peer_ip. case_match; [|done].
  split; [by intros ?%chars_drop|apply str_drop_le].
Qed.

Lemma proxied_name_eq peer name :
  "/"%char ∉ chars peer -> (String.length peer <= 50)%nat ->
  proxied_name_fill peer name = peer_ip peer +:+ String "/" name.
Proof.
  intros Hc Hl. pose proof (peer_ip_facts peer Hc) as [_ Hip].
  unfold proxied_name_fill, proxied_name_size. cbv zeta.
  rewrite (str_take_ge _ peer) by lia. fold (peer_ip peer).
  unfold strncat. rewrite (str_take_ge _ "/") by (simpl; lia).
  rewrite (str_take_ge _ name) by (rewrite str_app_length; simpl; lia).
  by rewrite str_app_assoc.
Qed.

Lemma take_word_length n s : (String.length (take_word n s).1 <= n)%nat.
Proof.
  revert s. induction n as [|n IH]; intros [|c s]; simpl; try lia.
  destruct (is_delim whitespace c); simpl; [lia|]. specialize (IH s).
  destruct (take_word n s); simpl in *. lia.
Qed.

Lemma scan_word_length n s w r : scan_word n s = Some (w, r) -> (String.length w <= n)%nat.
Proof.
  unfold scan_word. destruct (skip_delims whitespace s) as [|c s']; [done|].
  intros [= E]. pose proof (take_word_length n (String c s')). by rewrite E in *.
Qed.

Lemma scan_lease_length line : (String.length (scan_lease line).1 <= 18)%nat.
Proof.
  unfold scan_lease. destruct (scan_word _ line) as [[w r]|]; simpl; [|lia].
  destruct (scan_word 18 r) as [[m r']|] eqn:E; simpl; [|lia].
  by apply scan_word_length in E.
Qed.

Lemma get_mac_by_ip_from leases ip mac :
  get_mac_by_ip leases ip mac = mac \/
  exists line, line ∈ leases /\ get_mac_by_ip leases ip mac = (scan_lease line).1.
Proof.
  revert mac. induction leases as [|line leases IH]; intros mac; simpl; [auto|]. right.
  destruct (scan_lease line) as [m o] eqn:E.
  assert (get_mac_by_ip leases ip m = m \/
    exists line0, line0 ∈ leases /\ get_mac_by_ip leases ip m = (scan_lease line0).1) as Hm by apply IH.
  assert (exists line0, line0 ∈ line :: leases /\ get_mac_by_ip leases ip m = (scan_lease line0).1) as Hx.
  { destruct Hm as [->|(l & ? & ->)]; [exists line; rewrite E|exists l]; split; try done; set_solver. }
  destruct o as [ip'|]; [|done]. case_match; [|done]. exists line. rewrite E. set_solver.
Qed.

Lemma stub_name_local (peer : string) (mac_prefix : bool) (leases : option (list string))
    (name : string) :
  "/"%char ∉ chars peer -> (String.length peer <= 50)%nat ->
  (forall l line, leases = Some l -> line ∈ l -> "/"%char ∉ chars (scan_lease line).1) ->
  local_name (proxied_name_mac_prefix mac_prefix leases (proxied_name_fill peer name)
                (proxied_name_size name)) = Some name.
Proof.
  intros Hc Hl Hlease. rewrite proxied_name_eq by done.
  destruct (peer_ip_facts peer Hc) as [Hip _].
  unfold proxied_name_mac_prefix. repeat (case_match; try by apply local_name_app).
  rewrite strchr_app in * by done. simplify_eq.
  match goal with |- context [get_mac_by_ip ?l ?i ?m] =>
    destruct (get_mac_by_ip_from l i m) as [->|(line & Hin & ->)] end.
  - rewrite str_take_ge; [apply (local_name_app ""); set_solver|].
    rewrite !str_app_length. unfold proxied_name_size. simpl. lia.
  - pose proof (scan_lease_length line). rewrite str_take_ge; [apply (local_name_app _ _); eauto|].
    rewrite !str_app_length. unfold proxied_name_size. simpl. lia.
Qed.

(** C40: the name of a stub keeps the name of its object: whatever prefix the
    configuration asks for, what follows the first slash of the name on the
    local bus is the name on the remote one, for every address of a peer that
    fits and contains no slash and every lease file whose addresses contain
    none. *)
Theorem proxied_name_roundtrip (peer : string) (mac_prefix : bool) (leases : option (list string))
    (name : string) :
  "/"%char ∉ chars peer -> (String.length peer <= 50)%nat ->
  (forall l line, leases = Some l -> line ∈ l -> "/"%char ∉ chars (scan_lease line).1) ->
  local_name (proxied_name_mac_prefix mac_prefix leases (proxied_name_fill peer name)
                (proxied_name_size name)) = Some name.
Proof. apply stub_name_local. Qed.

Lemma proxied_name_roundtrip_witness :
  local_name (proxied_name_mac_prefix true (Some ["1 00:11:22:33:44:55 10.0.0.7 host *"])
    (proxied_name_fill "::ffff:10.0.0.7" "network.device") (proxied_name_size "network.device"))
  = Some "network.device".
Proof.
  apply (proxied_name_roundtrip "::ffff:10.0.0.7" true (Some ["1 00:11:22:33:44:55 10.0.0.7 host *"])).
  - by apply no_slash.
  - vm_compute. lia.
  - intros l line [= <-] ->%list_elem_of_singleton. by apply no_slash.
Defined.

(** ** Signatures *)

Section signatures.
Context `{JsonC}.

Lemma same_args_spec b margs t :
  length b = length margs -> margs_types (JObject margs) = Some t ->
  same_args b margs = bool_decide (b = t).
Proof.
  simpl. intros Hl [= <-]. revert margs Hl.
  induction b as [|[bn bt] b IH]; intros [|[an at_] margs] Hl; try done.
  cbn [same_args fmap list_fmap fst snd]. simpl in Hl.
  rewrite IH by lia.
  case_bool_decide as E1; simpl.
  - destruct (strcmp bn an =? 0) eqn:E2; simpl.
    + apply Z.eqb_eq, strcmp_eq in E2. subst. apply bool_decide_ext.
      split; [by intros ->|by intros [= ->]].
    + symmetry. apply bool_decide_eq_false. intros [= -> _]. by rewrite strcmp_refl in E2.
  - symmetry. apply bool_decide_eq_false. by intros [= _ ? _].
Qed.

Lemma same_methods_spec m ms s :
  length m = length ms -> methods_types ms = Some s ->
  same_methods m ms = Some (bool_decide (m = s)).
Proof.
  revert ms s. induction m as [|[n pol] m IH]; intros [|[mn margs] ms] s Hl Hs; try done.
  - by simplify_eq/=.
  - cbn [methods_types] in Hs. destruct (margs_types margs) as [a|] eqn:Ea; [|done].
    destruct (methods_types ms) as [l|] eqn:El; [|done]. simplify_eq/=.
    destruct margs as [| | | | | |args]; try done.
    pose proof (fun He => same_args_spec pol args a He Ea) as Hargs. simplify_eq/=.
    destruct (Nat.eqb_spec (length pol) (length args)) as [Hlen|Hlen]; simpl.
    + destruct (strcmp n mn =? 0) eqn:E2; simpl.
      * apply Z.eqb_eq, strcmp_eq in E2. subst. rewrite Hargs by done.
        case_bool_decide; simpl.
        -- erewrite IH by eauto. f_equal. apply bool_decide_ext. subst.
           split; [by intros ->|by intros [= ->]].
        -- f_equal. symmetry. apply bool_decide_eq_false. by intros [= ? _].
      * f_equal. symmetry. apply bool_decide_eq_false. intros [= -> _ _]. by rewrite strcmp_refl in E2.
    + f_equal. symmetry. apply bool_decide_eq_false. intros [= _ -> _].
      by rewrite length_fmap in Hlen.
Qed.

Lemma methods_types_length ms s : methods_types ms = Some s -> length s = length ms.
Proof.
  revert s. induction ms as [|[mn margs] ms IH]; intros s; [by intros [= <-]|]. cbn [methods_types].
  destruct (margs_types margs); [|done]. destruct (methods_types ms); [|done].
  intros [= <-]. simpl. by rewrite (IH s0).
Qed.
End signatures.

(** The comparison of a stub with the signature in an answer to "list"
    decides exactly whether the stub that would be made from the answer has the
    methods the stub has: names, order, argument names and argument types. *)
Theorem same_signature_iff `{JsonC} (st : stub) (sig : json) (s : signature) :
  signature_of sig = Some s ->
  wsu_local_stub_is_same_signature st sig = Some (bool_decide (st_sig st = s)).
Proof.
  intros Hs. destruct sig as [| | | | | |ms]; try done. simpl in *.
  pose proof (methods_types_length _ _ Hs) as Hl.
  destruct (Nat.eqb_spec (length (st_sig st)) (length ms)); simpl.
  - by apply same_methods_spec.
  - f_equal. symmetry. apply bool_decide_eq_false. congruence.
Qed.

(** The answer of a remote bus about one object. *)
Definition ex_sig : json :=
  JObject [("up", JObject [("name", JString "string"); ("timeout", JString "number")]); ("status", JObject [])].

Lemma same_signature_iff_witness :
  wsu_local_stub_is_same_signature (H0 := ref_jsonc)
    (Stub 0 [("up", [("name", BLOBMSG_TYPE_STRING); ("timeout", BLOBMSG_TYPE_INT32)]); ("status", [])]) ex_sig
  = Some true /\
  wsu_local_stub_is_same_signature (H0 := ref_jsonc)
    (Stub 0 [("up", [("name", BLOBMSG_TYPE_STRING); ("timeout", BLOBMSG_TYPE_STRING)]); ("status", [])]) ex_sig
  = Some false.
Proof.
  split.
  - rewrite (same_signature_iff (H := ref_jsonc) _ ex_sig
      [("up", [("name", BLOBMSG_TYPE_STRING); ("timeout", BLOBMSG_TYPE_INT32)]); ("status", [])]); reflexivity.
  - rewrite (same_signature_iff (H := ref_jsonc) _ ex_sig
      [("up", [("name", BLOBMSG_TYPE_STRING); ("timeout", BLOBMSG_TYPE_INT32)]); ("status", [])]); reflexivity.
Defined.

(** ** The handshake *)

Section handshake.
Context `{AvlTree, JsonC, LibUbox}.
Variable peer : string.
Variable mac_prefix : bool.
Variable leases : option (list string).
Variable paths_tree : list string.

(** A text the write queue takes. *)
Definition fits (j : json) : Prop := strlen (json_object_to_json_string j) < WSUBUS_MAX_MESSAGE_LEN.

Lemma r_queue_ok str r :
  strlen str < WSUBUS_MAX_MESSAGE_LEN ->
  r_queue str r = Some (tt, set_r_write (r_write r ++ [WriteReq str 0]) r).
Proof.
  intros Hl. unfold r_queue, wsu_queue_write_str, M_bind, assert_, modify.
  by rewrite (proj2 (Z.ltb_lt _ _)).
Qed.

Lemma queue_request_ok req j r :
  req r = Some j -> fits j ->
  queue_request req r = Some (tt, set_r_write (r_write r ++ [WriteReq (json_object_to_json_string j) 0]) r).
Proof.
  intros Hj Hf. unfold queue_request, M_bind, deref. rewrite Hj. simpl. by apply r_queue_ok.
Qed.

(** The requests of the handshake, as the remote bus sees them. *)
Definition request (id : Z) (method : string) (params : list json) : json :=
  JObject [("jsonrpc", JString "2.0"); ("id", JInt id); ("method", JString method);
           ("params", JArray params)].

Definition login_request (id : Z) (certificate : string) : json :=
  request id "call" [JString UBUS_DEFAULT_SID; JString "session"; JString "login";
                     JObject [("certificate", JString certificate)]].

Definition listen_request (id : Z) (sid : string) : json :=
  request id "subscribe" [JString sid; JString "*"].

Definition list_request (id : Z) (sid : string) : json :=
  request id "list" [JString sid; JString "*"].

(** An answer. *)
Definition reply (id : Z) (result : list json) : json :=
  JObject [("jsonrpc", JString "2.0"); ("id", JInt id); ("result", JArray result)].

Lemma send_listen_ok r :
  fits (listen_request (s32 (call_id r + 1)) (r_sid r)) ->
  send_listen r = Some (tt,
    set_r_write (r_write r ++ [WriteReq (json_object_to_json_string
                   (listen_request (s32 (call_id r + 1)) (r_sid r))) 0])
      (set_listening true (set_call_id (s32 (call_id r + 1)) r))).
Proof.
  intros Hf. unfold send_listen, next_call_id. unfold M_bind at 1 2, modify.
  by erewrite queue_request_ok.
Qed.

Lemma send_list_ok r :
  fits (list_request (s32 (call_id r + 1)) (r_sid r)) ->
  send_list r = Some (tt,
    set_r_write (r_write r ++ [WriteReq (json_object_to_json_string
                   (list_request (s32 (call_id r + 1)) (r_sid r))) 0])
      (set_list_id (s32 (call_id r + 1)) (set_call_id (s32 (call_id r + 1)) r))).
Proof.
  intros Hf. unfold send_list, next_call_id. unfold M_bind at 1 2, modify.
  by erewrite queue_request_ok.
Qed.

Lemma result_ok_zero l : result_ok (JArray (JInt 0 :: l)) = true.
Proof. unfold result_ok. rewrite get_idx_array. simpl. by rewrite get_int_int. Qed.

#[local] Abbreviation receive := (remote_receive peer mac_prefix leases paths_tree).

(** What a result does depends on the state only. *)
Lemma receive_reply id result r :
  receive (reply id result) r =
  (if w_login r then receive_login (JArray result)
   else if w_listen r then receive_listen (JArray result)
   else if negb (w_list_id r =? 0) && (json_object_get_int (JInt id) =? w_list_id r)
   then receive_list peer mac_prefix leases paths_tree (JArray result)
   else if negb (w_call r =? 0) then receive_call (JInt id) (JArray result)
   else M_ret tt) r.
Proof.
  unfold remote_receive, reply. simpl. rewrite json_get_object, get_ex_object. simpl.
  unfold M_bind, get. rewrite andb_true_r. done.
Qed.

(** After the connection: the first request was sent, as the mode asks. *)
Lemma established_ok (rpcd : bool) cn r :
  0 <= call_id r < 2 ^ 31 - 3 ->
  (if rpcd then fits (login_request (call_id r + 1) cn)
   else fits (listen_request (call_id r + 1) "X-tls-certificate")) ->
  remote_established rpcd true (Some cn) r = Some (tt,
    Remote (call_id r + 1) rpcd (negb rpcd) 0 0 (r_calls r) [] ∅
      (if rpcd then "" else "X-tls-certificate")
      [WriteReq (json_object_to_json_string
         (if rpcd then login_request (call_id r + 1) cn
          else listen_request (call_id r + 1) "X-tls-certificate")) 0]
      (r_calloc r) (r_out r)).
Proof.
  intros Hid Hf. unfold remote_established. unfold M_bind at 1, modify at 1.
  assert (s32 (call_id r + 1) = call_id r + 1) as Hs by (apply s32_small; lia).
  destruct rpcd; simpl.
  - unfold next_call_id. unfold M_bind at 1 2, modify.
    erewrite queue_request_ok; [|reflexivity|]; simpl; rewrite Hs; done.
  - unfold M_bind at 1. unfold sid_update, M_bind at 1, deref, modify. simpl.
    rewrite send_listen_ok; simpl; rewrite Hs; done.
Qed.

(** *** The objects of the first answer to "list" *)

Definition stub_name (object : string) : string :=
  proxied_name_mac_prefix mac_prefix leases (proxied_name_fill peer object) (proxied_name_size object).

Definition wanted (objs : list (string * json)) : list (string * json) :=
  filter (fun o => wsubus_client_match_pattern paths_tree o.1 = true) objs.

(** The stubs and the bus after objects were registered. *)
Definition registered (r0 : remote) (objs : list (string * json)) (r : remote) : Prop :=
  r_tree r = objs.*1 /\
  Forall (fun o => exists st, r_nodes r !! o.1 = Some st /\ signature_of o.2 = Some (st_sig st)) objs /\
  exists adds, r_out r = r_out r0 ++ adds /\
    Forall2 (fun o a => exists s, signature_of o.2 = Some s /\ a = AddObject (stub_name o.1) s) objs adds.

(** The parts of the state the stubs do not touch. *)
Definition same_connection (r0 r : remote) : Prop :=
  call_id r = call_id r0 /\ w_login r = w_login r0 /\ w_listen r = w_listen r0 /\
  w_call r = w_call r0 /\ w_list_id r = w_list_id r0 /\ r_calls r = r_calls r0 /\
  r_sid r = r_sid r0 /\ r_write r = r_write r0.

Hypothesis peer_ok : ("/"%char ∉ chars peer) /\ (String.length peer <= 50)%nat.
Hypothesis leases_ok :
  forall l line, leases = Some l -> line ∈ l -> "/"%char ∉ chars (scan_lease line).1.

Lemma create_ok object sig s r :
  signature_of sig = Some s -> Forall (fun k => strcmp k object < 0) (r_tree r) ->
  wsu_local_stub_create peer mac_prefix leases object sig r =
  Some (tt, emit (AddObject (stub_name object) s) (set_stubs (r_tree r ++ [object])
    (<[object := Stub (stub_addr r) s]> (r_nodes r)) r)).
Proof using Type peer_ok leases_ok.
  intros Hs Hlt. unfold wsu_local_stub_create. unfold M_bind at 1, deref at 1. rewrite Hs.
  fold (stub_name object). unfold M_bind, deref, modify.
  unfold stub_name at 1. destruct peer_ok. rewrite stub_name_local by done.
  pose proof (avl_insert_new strcmp (r_tree r) [] object) as Hi. rewrite app_nil_r in Hi.
  rewrite Hi; [done| |constructor]. eapply Forall_impl; [exact Hlt|]. intros k. by rewrite strcmp_gt_lt.
Qed.

Definition name_lt (a b : string * json) : Prop := strcmp a.1 b.1 < 0.

Lemma merge_fresh r0 done_ objs r :
  registered r0 done_ r -> same_connection r0 r ->
  Forall (fun o => is_Some (signature_of o.2)) (wanted objs) ->
  StronglySorted name_lt (done_ ++ wanted objs) ->
  wp (merge_all peer mac_prefix leases paths_tree None objs (CurNull, 1))
     (fun _ r' => registered r0 (done_ ++ wanted objs) r' /\ same_connection r0 r') r.
Proof using Type peer_ok leases_ok.
  revert done_ r. induction objs as [|[name sig] objs IH]; intros done_ r Hr Hc Hsig Hs.
  { unfold wanted in *. rewrite filter_nil, app_nil_r. by apply wp_ret. }
  cbn [merge_all]. apply wp_bind. unfold merge_one, M_bind. unfold wp at 1. simpl.
  unfold wanted in *. rewrite filter_cons in *. simpl in *.
  destruct (decide (wsubus_client_match_pattern paths_tree name = true)) as [E|E].
  2:{ apply not_true_is_false in E. rewrite E. simpl. by apply IH. }
  rewrite E. apply Forall_cons in Hsig as [[s Hsn] Hsig]. simpl in Hsn.
  destruct Hr as (Ht & Hn & adds & Ho & Ha).
  assert (forall o, o ∈ done_ -> strcmp o.1 name < 0) as Hlt.
  { intros o Ho'. apply (StronglySorted_app_cross _ _ _ o (name, sig) Hs Ho'). set_solver. }
  rewrite (create_ok name sig s r Hsn).
  2:{ rewrite Ht. apply Forall_fmap, Forall_forall. intros o Ho'. by apply Hlt. }
  rewrite (cons_middle _ done_), app_assoc in Hs |- *. apply IH; try done. split_and!.
  - simpl. by rewrite Ht, fmap_app.
  - apply Forall_app. split.
    + apply Forall_forall. intros o Ho'. rewrite Forall_forall in Hn.
      specialize (Hlt o Ho'). simpl. rewrite lookup_insert_ne; [by apply Hn|].
      intros ->. rewrite strcmp_refl in Hlt. lia.
    + apply Forall_singleton. exists (Stub (stub_addr r) s). simpl. by rewrite lookup_insert_eq.
  - exists (adds ++ [AddObject (stub_name name) s]). simpl. rewrite Ho, app_assoc. split; [done|].
    apply Forall2_app; [done|]. constructor; [|constructor]. by exists s.
Qed.

Lemma merge_list_fresh objs r :
  r_tree r = [] ->
  Forall (fun o => is_Some (signature_of o.2)) (wanted objs) ->
  StronglySorted name_lt (wanted objs) ->
  wp (merge_list peer mac_prefix leases paths_tree objs)
     (fun _ r' => registered r (wanted objs) r' /\ same_connection r r') r.
Proof using Type peer_ok leases_ok.
  intros Ht Hsig Hs. unfold merge_list. wp_steps.
  assert (prev_ptr r CurEnd = None) as -> by (unfold prev_ptr; by rewrite Ht).
  assert (forall key, avl_find_ge strcmp (r_tree r) key = None) as Hge.
  { intros key. rewrite Ht. by apply (avl_find_ge_split strcmp [] []). }
  replace (match objs with
           | [] => CurNull
           | (key, _) :: _ => match avl_find_ge strcmp (r_tree r) key with
                              | Some k => CurAt k | None => CurNull end
           end) with CurNull by (destruct objs as [|[key ?] ?]; [done|by rewrite Hge]).
  replace (match objs with (key, _) :: _ => 1 | [] => 1 end) with 1 by (by destruct objs as [|[??] ?]).
  apply (merge_fresh r [] objs r); try done.
  split_and!; [done|constructor|]. exists []. by rewrite app_nil_r.
Qed.

Lemma receive_login_ok id sid r :
  w_login r = true -> fits (listen_request (s32 (call_id r + 1)) (str_take 32 sid)) ->
  receive (reply id [JInt 0; JObject [("ubus_rpc_session", JString sid)]]) r = Some (tt,
    set_r_write (r_write r ++ [WriteReq (json_object_to_json_string
                   (listen_request (s32 (call_id r + 1)) (str_take 32 sid))) 0])
      (set_listening true (set_call_id (s32 (call_id r + 1)) (set_r_sid (str_take 32 sid) (set_login false r))))).
Proof.
  intros Hl Hf. rewrite receive_reply, Hl. unfold receive_login. rewrite result_ok_zero. simpl.
  rewrite get_idx_array. simpl. rewrite get_ex_object. simpl. rewrite get_string_string.
  unfold M_bind at 1 2, modify. unfold sid_update, M_bind, deref. simpl. by rewrite send_listen_ok.
Qed.

Lemma receive_listen_ok id r :
  w_login r = false -> w_listen r = true ->
  fits (list_request (s32 (call_id r + 1)) (r_sid r)) ->
  receive (reply id [JInt 0]) r = Some (tt,
    set_r_write (r_write r ++ [WriteReq (json_object_to_json_string
                   (list_request (s32 (call_id r + 1)) (r_sid r))) 0])
      (set_list_id (s32 (call_id r + 1)) (set_call_id (s32 (call_id r + 1)) (set_listening false r)))).
Proof.
  intros Hl Hw Hf. rewrite receive_reply, Hl, Hw. unfold receive_listen. rewrite result_ok_zero.
  unfold M_bind, modify. by rewrite send_list_ok.
Qed.

Lemma receive_list_ok objs r :
  w_login r = false -> w_listen r = false -> w_list_id r <> 0 ->
  - 2 ^ 31 <= w_list_id r < 2 ^ 31 -> r_tree r = [] ->
  Forall (fun o => is_Some (signature_of o.2)) (wanted objs) ->
  StronglySorted name_lt (wanted objs) ->
  wp (receive (reply (w_list_id r) [JInt 0; JObject objs]))
     (fun _ r' => registered r (wanted objs) r' /\ same_connection (set_list_id 0 r) r') r.
Proof using Type peer_ok leases_ok.
  intros Hl Hw Hne Hr Ht Hsig Hs. unfold wp. rewrite receive_reply, Hl, Hw.
  rewrite get_int_int, Z.eqb_refl, (proj2 (Z.eqb_neq _ _)) by done. simpl.
  unfold receive_list. rewrite result_ok_zero. simpl. rewrite get_idx_array. simpl.
  pose proof (merge_list_fresh objs r Ht Hsig Hs) as Hm. unfold wp, M_bind, modify in *.
  destruct (merge_list _ _ _ _ objs r) as [[[] r']|]; [|done].
  destruct Hm as [Hr' (?&?&?&?&?&?&?&?)]. done.
Qed.
End handshake.

(** The requests of a handshake that starts with call id [id]. *)
Definition handshake_requests (rpcd : bool) (id : Z) (cn sid : string) : list json :=
  if rpcd then [login_request (id + 1) cn; listen_request (id + 2) (str_take 32 sid);
                list_request (id + 3) (str_take 32 sid)]
  else [listen_request (id + 1) "X-tls-certificate"; list_request (id + 2) "X-tls-certificate"].

(** C39: the handshake with a remote bus, with a login or with the TLS session:
    when every request is answered with success, the texts sent are exactly the
    requests in order, each with the next id and the session the login gave,
    and the local bus has exactly one new object for each object of the answer
    that a configured pattern covers, with its name and signature. *)
Theorem proxy_handshake `{AvlTree, JsonC, LibUbox} (peer : string) (mac_prefix : bool)
    (leases : option (list string)) (paths_tree : list string) (rpcd : bool) (cn sid : string)
    (objs : list (string * json)) (r : remote) :
  ("/"%char ∉ chars peer) /\ (String.length peer <= 50)%nat ->
  (forall l line, leases = Some l -> line ∈ l -> "/"%char ∉ chars (scan_lease line).1) ->
  0 <= call_id r < 2 ^ 31 - 3 ->
  Forall fits (handshake_requests rpcd (call_id r) cn sid) ->
  Forall (fun o => is_Some (signature_of o.2)) (wanted paths_tree objs) ->
  StronglySorted name_lt (wanted paths_tree objs) ->
  let receive := remote_receive peer mac_prefix leases paths_tree in
  let id := call_id r + (if rpcd then 3 else 2) in
  wp (remote_established rpcd true (Some cn) ;;;
      (when rpcd do receive (reply (id - 2) [JInt 0; JObject [("ubus_rpc_session", JString sid)]])) ;;;
      receive (reply (id - 1) [JInt 0]) ;;;
      receive (reply id [JInt 0; JObject objs]))
     (fun _ r' =>
        registered peer mac_prefix leases r (wanted paths_tree objs) r' /\
        r_write r' = (fun j => WriteReq (json_object_to_json_string j) 0) <$>
                       handshake_requests rpcd (call_id r) cn sid /\
        w_login r' = false /\ w_listen r' = false /\ w_list_id r' = 0 /\ w_call r' = 0 /\
        call_id r' = id) r.
Proof.
  intros Hp Hle Hid Hf Hsig Hs receive id.
  assert (forall n, 0 <= n <= 3 -> s32 (call_id r + n) = call_id r + n) as Hs32
    by (intros; apply s32_small; lia).
  apply wp_bind. unfold wp at 1.
  rewrite established_ok by (destruct rpcd; unfold handshake_requests in Hf; decompose_Forall_hyps; done).
  apply wp_bind. destruct rpcd; unfold handshake_requests in *; decompose_Forall_hyps.
  - unfold wp at 1, receive.
    rewrite receive_login_ok by (simpl; rewrite ?s32_small by lia; rewrite <- ?Z.add_assoc; done).
    apply wp_bind. unfold wp at 1. cbn [call_id set_r_write set_listening set_call_id set_r_sid set_login].
    replace (s32 (call_id r + 1 + 1)) with (call_id r + 2) by (rewrite s32_small; lia).
    rewrite receive_listen_ok by (simpl; rewrite ?s32_small by lia; rewrite <- ?Z.add_assoc; done).
    cbn [call_id set_r_write set_listening set_call_id set_r_sid set_login].
    replace (s32 (call_id r + 2 + 1)) with id by (rewrite s32_small; lia).
    match goal with |- wp _ _ ?r2 => change id with (w_list_id r2) at 1 end.
    eapply wp_mono; [apply receive_list_ok; simpl; try done; lia|].
    intros [] r' [Hr (?&?&?&?&?&?&?&?)]. simpl in *. split_and!; done || congruence.
  - apply wp_ret. apply wp_bind. unfold wp at 1, receive.
    rewrite receive_listen_ok by (simpl; rewrite ?s32_small by lia; rewrite <- ?Z.add_assoc; done).
    cbn [call_id set_r_write set_listening set_call_id set_r_sid set_login].
    replace (s32 (call_id r + 1 + 1)) with id by (rewrite s32_small; lia).
    match goal with |- wp _ _ ?r2 => change id with (w_list_id r2) at 1 end.
    eapply wp_mono; [apply receive_list_ok; simpl; try done; lia|].
    intros [] r' [Hr (?&?&?&?&?&?&?&?)]. simpl in *. split_and!; done || congruence.
Qed.

(** A fresh connection. *)
Definition remote_init : remote :=
  Remote 0 false false 0 0 (replicate (Z.to_nat MAX_PROXIED_CALLS) (0, O)) [] ∅ "" [] fresh [].

Lemma proxy_handshake_witness :
  wp (M_bind (remote_established (H0 := ref_jsonc) true true (Some "gateway"))
     (fun _ => M_bind (remote_receive (H := list_avl) (H0 := ref_jsonc) (H1 := ref_libubox)
                 "::ffff:10.0.0.7" false None ["net*"]
                 (reply 1 [JInt 0; JObject [("ubus_rpc_session", JString "abc")]]))
     (fun _ => M_bind (remote_receive (H := list_avl) (H0 := ref_jsonc) (H1 := ref_libubox)
                 "::ffff:10.0.0.7" false None ["net*"] (reply 2 [JInt 0]))
     (fun _ => remote_receive (H := list_avl) (H0 := ref_jsonc) (H1 := ref_libubox)
                 "::ffff:10.0.0.7" false None ["net*"]
                 (reply 3 [JInt 0; JObject [("net.a", ex_sig); ("net.b", ex_sig); ("system", ex_sig)]])))))
     (fun _ r' => r_tree r' = ["net.a"; "net.b"] /\ length (r_out r') = 2%nat) remote_init.
Proof.
  eapply wp_mono.
  - apply (proxy_handshake (H := list_avl) (H0 := ref_jsonc) (H1 := ref_libubox)
      "::ffff:10.0.0.7" false None ["net*"] true "gateway" "abc"
      [("net.a", ex_sig); ("net.b", ex_sig); ("system", ex_sig)] remote_init).
    + split; [by apply no_slash|simpl; lia].
    + done.
    + simpl; lia.
    + repeat constructor.
    + repeat constructor; eexists; reflexivity.
    + repeat constructor.
  - intros [] r' [(-> & _ & adds & -> & Hadds) _]. split; [reflexivity|].
    apply Forall2_length in Hadds. simpl in *. symmetry. exact Hadds.
Defined.

(** ** The calls in progress *)

Section calls.
Context `{AvlTree, JsonC, LibUbox}.
Variable peer : string.
Variable mac_prefix : bool.
Variable leases : option (list string).
Variable paths_tree : list string.

#[local] Abbreviation receive_ := (remote_receive peer mac_prefix leases paths_tree).

(** What can happen to a connected remote bus: a message, a call on an object
    it registered, text leaving the write queue.  The ids of one connection are
    positive, so fewer than [2 ^ 31] requests are made on it. *)
Inductive remote_step (r : remote) : remote -> Prop :=
  | step_receive jobj r' :
      call_id r < 2 ^ 31 - 1 -> receive_ jobj r = Some (tt, r') -> remote_step r r'
  | step_handle_call name sig method args ureq rc r' :
      call_id r < 2 ^ 31 - 1 -> AddObject name sig ∈ r_out r ->
      wsu_local_stub_handle_call name method args ureq r = Some (rc, r') -> remote_step r r'
  | step_writable q : remote_step r (set_r_write q r)
  (** what the next [calloc] gives was not decided before *)
  | step_calloc f : (forall used, f used ∉ used) -> remote_step r (set_calloc f r).

Inductive remote_reachable : remote -> Prop :=
  | reachable_established rpcd is_ssl cn r :
      remote_established rpcd is_ssl cn remote_init = Some (tt, r) -> remote_reachable r
  | reachable_step r r' : remote_reachable r -> remote_step r r' -> remote_reachable r'.

Definition no_objects (r : remote) : Prop := forall name sig, AddObject name sig ∉ r_out r.

(** Slot [i] waits for the answer with [id] to request [ureq]. *)
Definition in_progress (r : remote) (i : Z) (id : Z) (ureq : nat) : Prop :=
  0 <= i /\ Z.testbit (w_call r) i = true /\ r_calls r !! Z.to_nat i = Some (id, ureq).

Record rinv (r : remote) : Prop := {
  inv_id : 0 <= call_id r < 2 ^ 31;
  inv_slots : slots (w_call r);
  inv_calls : length (r_calls r) = Z.to_nat MAX_PROXIED_CALLS;
  inv_list : 0 <= w_list_id r <= call_id r;
  inv_pending : forall i id u, in_progress r i id u -> 0 < id <= call_id r /\ id <> w_list_id r;
  inv_distinct : forall i j id u v, in_progress r i id u -> in_progress r j id v -> i = j;
  inv_handshake : w_login r = true \/ w_listen r = true -> w_call r = 0 /\ no_objects r;
}.

(** The connection apart from its text, session and stubs. *)
Definition same_view (r0 r : remote) : Prop :=
  call_id r = call_id r0 /\ w_login r = w_login r0 /\ w_listen r = w_listen r0 /\
  w_call r = w_call r0 /\ w_list_id r = w_list_id r0 /\ r_calls r = r_calls r0.

Lemma in_progress_same r0 r i id u : same_view r0 r -> in_progress r i id u <-> in_progress r0 i id u.
Proof. unfold in_progress. by intros (_ & _ & _ & -> & _ & ->). Qed.

Lemma rinv_same r0 r :
  rinv r0 -> same_view r0 r ->
  (w_login r0 = true \/ w_listen r0 = true -> no_objects r0 -> no_objects r) -> rinv r.
Proof.
  intros [] Hv Ho. pose proof Hv as (E1 & E2 & E3 & E4 & E5 & E6).
  constructor; rewrite ?E1, ?E2, ?E3, ?E4, ?E5, ?E6; try done.
  - intros i id u. rewrite in_progress_same by done. eauto.
  - intros i j id u v. rewrite !(in_progress_same r0 r) by done. eauto.
  - intros Hl. specialize (inv_handshake0 Hl) as [? ?]. auto.
Qed.

Lemma r_queue_view d r :
  pwp (r_queue d) (fun _ r' => same_view r r' /\ r_out r' = r_out r) r.
Proof.
  intros [] r'. unfold r_queue. destruct (wsu_queue_write_str _ _ _) as [[? q]|]; [|done].
  intros [= <-]. done.
Qed.

Lemma stub_create_view object sig r :
  pwp (wsu_local_stub_create peer mac_prefix leases object sig) (fun _ r' => same_view r r') r.
Proof.
  unfold wsu_local_stub_create. pwp_steps. by destruct (avl_insert _ _ _).
Qed.

Lemma stub_destroy_view key r :
  pwp (wsu_local_stub_destroy key)
      (fun _ r' => same_view r r' /\ r_out r' = r_out r ++ [RemoveObject key]) r.
Proof. unfold wsu_local_stub_destroy. by pwp_steps. Qed.

Lemma same_view_trans r1 r2 r3 : same_view r1 r2 -> same_view r2 r3 -> same_view r1 r3.
Proof. intros (?&?&?&?&?&?) (?&?&?&?&?&?). unfold same_view. split_and!; congruence. Qed.

Lemma maybe_create_view object sig r :
  pwp (when wsubus_client_match_pattern paths_tree object do
         wsu_local_stub_create peer mac_prefix leases object sig) (fun _ r' => same_view r r') r.
Proof. pwp_steps; [apply stub_create_view|done]. Qed.

Lemma merge_one_view last_ptr obj st r :
  pwp (merge_one peer mac_prefix leases paths_tree last_ptr obj st) (fun _ r' => same_view r r') r.
Proof.
  unfold merge_one. destruct obj as [name sig]. apply pwp_bind.
  eapply (pwp_mono _ (fun _ r' => r' = r)); [by pwp_steps|]. intros st' ? ->.
  destruct (negb _).
  - apply pwp_bind. eapply pwp_mono; [apply maybe_create_view|]. intros [] r' Hv. by pwp_steps.
  - destruct st'.1 as [|k|]; try by pwp_steps. apply pwp_bind, pwp_deref. intros [] _; [by pwp_steps|].
    do 2 apply pwp_bind, pwp_gets || apply pwp_bind. eapply pwp_mono; [apply stub_destroy_view|]. intros [] r1 [Hv1 _].
    pwp_step. eapply pwp_mono; [apply maybe_create_view|]. intros [] r2 Hv2.
    pwp_step. by eapply same_view_trans.
Qed.

Lemma merge_all_view last_ptr objs st r :
  pwp (merge_all peer mac_prefix leases paths_tree last_ptr objs st) (fun _ r' => same_view r r') r.
Proof.
  revert st r. induction objs as [|o objs IH]; intros st r; [by apply pwp_ret|]. cbn [merge_all].
  apply pwp_bind. eapply pwp_mono; [apply merge_one_view|]. intros st' r1 Hv1. simpl.
  eapply pwp_mono; [apply IH|]. intros [] r2 Hv2. by apply (same_view_trans _ r1).
Qed.

Lemma merge_list_view objs r :
  pwp (merge_list peer mac_prefix leases paths_tree objs) (fun _ r' => same_view r r') r.
Proof. unfold merge_list. pwp_step. pwp_step. apply merge_all_view. Qed.

(** *** The operations keep the invariant *)

Lemma rinv_list_request r :
  rinv r -> call_id r < 2 ^ 31 - 1 ->
  rinv (set_list_id (s32 (call_id r + 1)) (set_call_id (s32 (call_id r + 1)) r)).
Proof.
  intros [] Hid. rewrite s32_small by lia. constructor; simpl; try done; try lia.
  intros i id u Hp. specialize (inv_pending0 i id u Hp). lia.
Qed.

Lemma send_list_rinv r :
  rinv r -> call_id r < 2 ^ 31 - 1 -> pwp send_list (fun _ r' => rinv r') r.
Proof.
  intros Hi Hid. unfold send_list, next_call_id, queue_request. pwp_steps.
  eapply pwp_mono; [apply r_queue_view|]. intros [] r' [Hv Ho]. simpl in *.
  eapply rinv_same; [by apply (rinv_list_request r)|exact Hv|].
  unfold no_objects. by rewrite Ho.
Qed.

Lemma send_listen_rinv r :
  rinv r -> call_id r < 2 ^ 31 - 1 -> w_call r = 0 -> no_objects r ->
  pwp send_listen (fun _ r' => rinv r') r.
Proof.
  intros [] Hid Hc Hn. unfold send_listen, next_call_id, queue_request. pwp_steps.
  eapply pwp_mono; [apply r_queue_view|]. intros [] r' [Hv Ho]. simpl in *.
  eapply rinv_same; [|exact Hv|unfold no_objects; by rewrite Ho].
  rewrite s32_small by lia. constructor; simpl; try done; try lia.
  intros i id u Hp. specialize (inv_pending0 i id u Hp). lia.
Qed.

Lemma receive_login_rinv tmp r :
  rinv r -> call_id r < 2 ^ 31 - 1 -> w_login r = true ->
  pwp (receive_login tmp) (fun _ r' => rinv r') r.
Proof.
  intros Hi Hid Hl. destruct (inv_handshake _ Hi (or_introl Hl)) as [Hc Hn].
  unfold receive_login, sid_update. pwp_steps; try done.
  apply send_listen_rinv; try done. destruct Hi. by constructor.
Qed.

Lemma receive_listen_rinv tmp r :
  rinv r -> call_id r < 2 ^ 31 - 1 -> pwp (receive_listen tmp) (fun _ r' => rinv r') r.
Proof.
  intros Hi Hid. unfold receive_listen. pwp_steps; try done.
  apply send_list_rinv; [|done]. destruct Hi. constructor; try done. simpl.
  intros [?|?]; [|done]. by apply inv_handshake0; left.
Qed.

Lemma receive_list_rinv tmp r :
  rinv r -> w_login r = false -> w_listen r = false ->
  pwp (receive_list peer mac_prefix leases paths_tree tmp) (fun _ r' => rinv r') r.
Proof.
  intros Hi Hl Hw. unfold receive_list. pwp_step; [by pwp_steps|].
  destruct (json_object_array_get_idx tmp 1); try by pwp_steps. pwp_step.
  eapply pwp_mono; [apply merge_list_view|]. intros [] r1 Hv. pwp_step.
  assert (rinv r1) as [].
  { apply (rinv_same r); [done..|]. rewrite Hl, Hw. by intros []. }
  constructor; try done; simpl; [lia|]. intros i id u Hp.
  specialize (inv_pending0 i id u Hp). lia.
Qed.

(** *** The answer to a call *)

(** What an answer makes the local bus see. *)
Definition answers (ureq : nat) (tmp : json) : list bus_action :=
  if json_object_is_type tmp json_type_array then
    (if json_object_is_type (json_object_array_get_idx tmp 1) json_type_object
     then [SendReply ureq (blobmsg_add_object (json_object_array_get_idx tmp 1))] else []) ++
    (if json_object_is_type (json_object_array_get_idx tmp 0) json_type_int
     then [CompleteDeferred ureq (json_object_get_int (json_object_array_get_idx tmp 0))] else [])
  else [CompleteDeferred ureq UBUS_STATUS_UNKNOWN_ERROR].

Definition emit_all (l : list bus_action) (r : remote) : remote :=
  Remote (call_id r) (w_login r) (w_listen r) (w_call r) (w_list_id r) (r_calls r)
    (r_tree r) (r_nodes r) (r_sid r) (r_write r) (r_calloc r) (r_out r ++ l).

Lemma answer_request_eq ureq tmp r : answer_request ureq tmp r = Some (tt, emit_all (answers ureq tmp) r).
Proof.
  unfold answer_request, answers, emit_all, M_bind, modify, emit, M_ret.
  destruct (json_object_is_type tmp json_type_array); [|done].
  destruct (json_object_is_type _ json_type_object); destruct (json_object_is_type _ json_type_int);
    destruct r; simpl; by rewrite <- ?app_assoc, ?app_nil_r.
Qed.

Lemma find_call_spec r id :
  rinv r ->
  match find_call id (r_calls r) (wsu_proxied_call_foreach (w_call r)) with
  | Some (i, u) => in_progress r i id u
  | None => forall i u, ~ in_progress r i id u
  end.
Proof.
  intros Hi. rewrite proxied_call_foreach_spec by apply Hi.
  assert (forall k, k ∈ used_slots (w_call r) <-> 0 <= k < MAX_PROXIED_CALLS /\ Z.testbit (w_call r) k = true)
    as Hused.
  { intros k. unfold used_slots. rewrite list_elem_of_filter, elem_of_seqZ. intuition lia. }
  assert (forall l, (forall k, k ∈ l -> k ∈ used_slots (w_call r)) ->
    match find_call id (r_calls r) l with
    | Some (i, u) => in_progress r i id u
    | None => forall i u, i ∈ l -> ~ in_progress r i id u
    end) as Hl.
  { induction l as [|k l IH]; intros Hk; simpl; [set_solver|].
    destruct (proj1 (Hused k)) as [Hr Hb]; [set_solver|]. specialize (IH ltac:(set_solver)).
    destruct (r_calls r !! Z.to_nat k) as [[jid u]|] eqn:E.
    - destruct (Z.eqb_spec jid id) as [->|Hne]; [unfold in_progress; split_and!; done || lia|].
      destruct (find_call id (r_calls r) l) as [[??]|]; [done|].
      intros i u' [->|Hin]%elem_of_cons; [|by apply IH]. intros (_ & _ & E'). congruence.
    - destruct (find_call id (r_calls r) l) as [[??]|]; [done|].
      intros i u' [->|Hin]%elem_of_cons; [|by apply IH]. intros (_ & _ & E'). congruence. }
  specialize (Hl (used_slots (w_call r)) ltac:(done)).
  destruct (find_call _ _ _) as [[??]|]; [done|]. intros i u Hp. apply (Hl i u); [|done].
  apply Hused. destruct Hp as (H0i & Hb & _). split; [|done]. split; [done|].
  destruct (decide (i < MAX_PROXIED_CALLS)); [done|].
  rewrite (slots_high (w_call r) i) in Hb; [done|apply Hi|lia].
Qed.

Lemma in_progress_range r i id u : rinv r -> in_progress r i id u -> 0 <= i < MAX_PROXIED_CALLS.
Proof.
  intros Hi (H0i & _ & E). apply lookup_lt_Some in E. rewrite (inv_calls _ Hi) in E.
  unfold MAX_PROXIED_CALLS in *. lia.
Qed.

(** Freeing slot [i] ends what was in progress there and nothing else. *)
Lemma in_progress_free r i j id u :
  rinv r -> 0 <= i < MAX_PROXIED_CALLS ->
  in_progress (set_call_mask (wsu_proxied_call_free (w_call r) i) r) j id u <->
  in_progress r j id u /\ j <> i.
Proof.
  intros Hr Hi. destruct (proxied_call_free_spec (w_call r) i (inv_slots _ Hr) Hi) as [_ Hb].
  unfold in_progress. simpl. split.
  - intros (? & Hj & ?). rewrite Hb in Hj by done. apply andb_true_iff in Hj as [? Hj].
    apply negb_true_iff, bool_decide_eq_false in Hj. done.
  - intros [(? & Hj & ?) Hne]. rewrite Hb, Hj, bool_decide_eq_false_2 by done. done.
Qed.

Lemma rinv_free r i :
  rinv r -> 0 <= i < MAX_PROXIED_CALLS ->
  rinv (set_call_mask (wsu_proxied_call_free (w_call r) i) r).
Proof.
  intros Hr Hi. pose proof Hr as [].
  constructor; try done.
  - by apply proxied_call_free_spec.
  - intros j id u. rewrite in_progress_free by done. intros [? _]. by eapply inv_pending0.
  - intros j k id u v. rewrite !in_progress_free by done. intros [? _] [? _]. by eapply inv_distinct0.
  - simpl. intros Hl. destruct (inv_handshake0 Hl) as [-> ?]. split; [|done].
    unfold wsu_proxied_call_free. by destruct (_ && _).
Qed.

Lemma answers_no_objects u tmp name sig : AddObject name sig ∉ answers u tmp.
Proof.
  unfold answers. repeat case_match; rewrite ?elem_of_app, ?elem_of_cons, ?elem_of_nil; naive_solver.
Qed.

Lemma rinv_emit_all r l :
  rinv r -> (forall name sig, AddObject name sig ∉ l) -> rinv (emit_all l r).
Proof.
  intros Hr Hl. apply (rinv_same r); [done..|]. intros _ Hn name sig. simpl.
  rewrite elem_of_app. intros [?|?]; [by eapply Hn|by eapply Hl].
Qed.

Lemma receive_call_rinv id_jobj tmp r :
  rinv r -> pwp (receive_call id_jobj tmp) (fun _ r' => rinv r') r.
Proof.
  intros Hr. unfold receive_call. do 2 (pwp_step; [by pwp_steps|]). do 2 pwp_step.
  pose proof (find_call_spec r (json_object_get_int id_jobj) Hr) as Hf.
  destruct (find_call _ _ _) as [[i u]|]; [|by pwp_steps].
  apply pwp_bind. intros [] r1. rewrite answer_request_eq. intros [= <-].
  apply pwp_modify. apply (rinv_free (emit_all _ r)).
  - apply rinv_emit_all; [done|]. intros. apply answers_no_objects.
  - by eapply in_progress_range.
Qed.

Lemma receive_method_rinv jobj tmp r :
  rinv r -> call_id r < 2 ^ 31 - 1 ->
  pwp (receive_method peer jobj tmp) (fun _ r' => rinv r') r.
Proof.
  intros Hr Hid. unfold receive_method. apply pwp_bind, pwp_deref. intros m _.
  pwp_step; [by pwp_steps|]. apply pwp_bind, pwp_deref. intros type _.
  cbv zeta. destruct (_ && _); [by apply send_list_rinv|]. destruct (_ && _).
  - apply pwp_bind, pwp_deref. intros path _. apply pwp_bind, pwp_gets.
    destruct (avl_find _ _ _); [|by pwp_steps].
    eapply pwp_mono; [apply stub_destroy_view|]. intros [] r' [Hv Ho].
    apply (rinv_same r); [done..|]. intros _ Hn name sig. rewrite Ho, elem_of_app, list_elem_of_singleton.
    intros [?|?]; [by eapply Hn|done].
  - apply pwp_modify. apply (rinv_same r); [done..|]. intros _ Hn name sig. simpl.
    rewrite elem_of_app, list_elem_of_singleton. intros [?|?]; [by eapply Hn|done].
Qed.

Lemma receive_rinv jobj r :
  rinv r -> call_id r < 2 ^ 31 - 1 -> pwp (receive_ jobj) (fun _ r' => rinv r') r.
Proof.
  intros Hr Hid. unfold remote_receive. pwp_step; [by pwp_steps|].
  destruct (json_object_object_get_ex jobj "result") as [tmp|].
  - apply pwp_bind, pwp_get. destruct (w_login r) eqn:El; [by apply receive_login_rinv|].
    destruct (w_listen r) eqn:Ew; [by apply receive_listen_rinv|].
    destruct (_ && _); [by apply receive_list_rinv|].
    destruct (negb _); [by apply receive_call_rinv|by pwp_steps].
  - destruct (json_object_object_get_ex jobj "method"); [by apply receive_method_rinv|by pwp_steps].
Qed.

Lemma rinv_new_id r :
  rinv r -> call_id r < 2 ^ 31 - 1 -> rinv (set_call_id (call_id r + 1) r).
Proof.
  intros [] Hid. constructor; simpl; try done; try lia.
  intros i id u Hp. specialize (inv_pending0 i id u Hp). lia.
Qed.

(** Taking the free slot [i] for a new id. *)
Definition take_slot (i mask ureq_id : Z) (ureq : nat) (r : remote) : remote :=
  set_r_calls (<[Z.to_nat i := (ureq_id, ureq)]> (r_calls r)) (set_call_mask mask r).

Lemma in_progress_new r i mask id ureq j jid u :
  rinv r -> wsu_proxied_call_new (w_call r) = (Some i, mask) ->
  in_progress (take_slot i mask id ureq r) j jid u <->
  (j = i /\ jid = id /\ u = ureq) \/ (j <> i /\ in_progress r j jid u).
Proof.
  intros Hr Hn. pose proof (proxied_call_new_spec (w_call r) (inv_slots _ Hr)) as Hs.
  rewrite Hn in Hs. destruct Hs as (Hi & Hf & _ & _ & Hb). unfold in_progress. simpl.
  destruct (decide (j = i)) as [->|Hne].
  - rewrite list_lookup_insert_eq.
    2:{ rewrite (inv_calls _ Hr). unfold MAX_PROXIED_CALLS in *. lia. }
    rewrite Hb, Hf, bool_decide_eq_true_2 by (done || lia). naive_solver lia.
  - split.
    + intros (H0j & Hj & E). rewrite list_lookup_insert_ne in E by lia.
      rewrite Hb, bool_decide_eq_false_2, orb_false_r in Hj by done. auto.
    + intros [(? & _)|(_ & H0j & Hj & E)]; [done|].
      rewrite list_lookup_insert_ne by lia. rewrite Hb, Hj by done. done.
Qed.

Lemma rinv_take_slot r i mask ureq :
  rinv r -> call_id r < 2 ^ 31 - 1 -> wsu_proxied_call_new (w_call r) = (Some i, mask) ->
  ~ (w_login r = true \/ w_listen r = true) ->
  rinv (take_slot i mask (call_id r + 1) ureq (set_call_id (call_id r + 1) r)).
Proof.
  intros Hr Hid Hn Hl.
  pose proof (proxied_call_new_spec (w_call r) (inv_slots _ Hr)) as Hs. rewrite Hn in Hs.
  pose proof (rinv_new_id r Hr Hid) as Hr1. pose proof Hr as []. pose proof Hr1 as [].
  constructor; try done.
  - apply Hs.
  - simpl. by rewrite length_insert.
  - intros j jid u. rewrite (in_progress_new _ _ _ _ _ j jid u Hr1 Hn).
    intros [(-> & -> & ->)|(_ & Hp)]; simpl; [lia|]. by apply inv_pending1 in Hp.
  - intros j k jid u v.
    rewrite (in_progress_new _ _ _ _ _ j jid u Hr1 Hn), (in_progress_new _ _ _ _ _ k jid v Hr1 Hn).
    intros [(-> & E1 & _)|(_ & Hp)] [(-> & E2 & _)|(_ & Hq)]; [done| | |by eapply inv_distinct1].
    + specialize (inv_pending0 _ _ _ Hq). lia.
    + specialize (inv_pending0 _ _ _ Hp). lia.
Qed.

Lemma handle_call_rinv method args ureq name sig r :
  rinv r -> call_id r < 2 ^ 31 - 1 -> AddObject name sig ∈ r_out r ->
  pwp (wsu_local_stub_handle_call name method args ureq) (fun _ r' => rinv r') r.
Proof.
  intros Hr Hid Ho. assert (~ (w_login r = true \/ w_listen r = true)) as Hl.
  { intros [_ Hn]%(inv_handshake _ Hr). by eapply Hn. }
  unfold wsu_local_stub_handle_call. apply pwp_bind, pwp_deref. intros key _. apply pwp_bind, pwp_modify, pwp_bind, pwp_deref. intros d _.
  apply pwp_bind, pwp_gets. simpl. rewrite s32_small by (pose proof (inv_id _ Hr); lia).
  destruct (wsu_proxied_call_new (w_call r)) as [[i|] mask] eqn:Hn.
  - do 2 (pwp_step; pwp_step). pwp_step. eapply pwp_mono; [apply r_queue_view|].
    intros [] r' [Hv Ho']. pwp_step. simpl in *.
    eapply rinv_same; [by apply (rinv_take_slot r i mask ureq)|exact Hv|]. by intros ?%Hl.
  - pwp_step. by apply rinv_new_id.
Qed.

(** A call for which there is a slot. *)
Lemma handle_call_queued name key method args ureq r i mask :
  rinv r -> call_id r < 2 ^ 31 - 1 -> local_name name = Some key ->
  let req := request (call_id r + 1) "call" [JString (r_sid r); JString key; JString method; args] in
  fits req -> wsu_proxied_call_new (w_call r) = (Some i, mask) ->
  wsu_local_stub_handle_call name method (Some args) ureq r =
  Some (0, set_r_write (r_write r ++ [WriteReq (json_object_to_json_string req) 0])
             (take_slot i mask (call_id r + 1) ureq (set_call_id (call_id r + 1) r))).
Proof.
  intros Hr Hid Hk req Hf Hn. pose proof (inv_id _ Hr).
  unfold wsu_local_stub_handle_call, M_bind at 1, deref at 1. rewrite Hk.
  unfold M_bind at 1, modify at 1. rewrite s32_small by lia. unfold M_bind at 1, deref at 1. simpl.
  unfold M_bind at 1, gets. simpl. rewrite Hn.
  unfold M_bind, modify at 1 2. by rewrite r_queue_ok.
Qed.

Lemma rinv_init : rinv remote_init.
Proof.
  constructor; simpl; try done.
  - intros i id u (_ & Hb & _). by rewrite Z.bits_0 in Hb.
  - intros i j id u v (_ & Hb & _). by rewrite Z.bits_0 in Hb.
  - intros _. split; [done|]. intros name sig. apply not_elem_of_nil.
Qed.

Lemma established_rinv rpcd is_ssl cn :
  pwp (remote_established rpcd is_ssl cn) (fun _ r' => rinv r') remote_init.
Proof.
  pose proof rinv_init as Hr. unfold remote_established. apply pwp_bind, pwp_modify.
  change (Remote _ _ _ _ _ _ _ _ _ _ _ _) with remote_init.
  destruct rpcd.
  - pwp_step; [by pwp_steps|]. destruct cn as [name|]; [|by pwp_steps].
    unfold next_call_id, queue_request. pwp_steps.
    eapply pwp_mono; [apply r_queue_view|]. intros [] r' [Hv Ho].
    eapply rinv_same; [|exact Hv|unfold no_objects; by rewrite Ho].
    destruct Hr. constructor; simpl in *; try done; try lia.
    + intros i id u (_ & Hb & _). simpl in Hb. by rewrite Z.bits_0 in Hb.
    + intros _. split; [done|]. intros ? ?. apply not_elem_of_nil.
  - unfold sid_update. apply pwp_bind, pwp_bind, pwp_deref. intros sid _. apply pwp_modify.
    apply send_listen_rinv; [|done..|].
    + apply (rinv_same remote_init); done.
    + intros name sig. apply not_elem_of_nil.
Qed.

Lemma reachable_rinv r : remote_reachable r -> rinv r.
Proof.
  induction 1 as [rpcd is_ssl cn r He|r r' _ IH Hs]; [by eapply established_rinv|].
  destruct Hs as [jobj r' Hid Hs|name sig method args ureq rc r' Hid Ho Hs|q|f _].
  - by eapply receive_rinv.
  - by eapply handle_call_rinv.
  - apply (rinv_same r); done.
  - apply (rinv_same r); done.
Qed.
End calls.

(** A result of any shape for the request with [id]. *)
Definition answer (id : Z) (tmp : json) : json :=
  JObject [("jsonrpc", JString "2.0"); ("id", JInt id); ("result", tmp)].

Section replies.
Context `{AvlTree, JsonC, LibUbox}.
Variable peer : string.
Variable mac_prefix : bool.
Variable leases : option (list string).
Variable paths_tree : list string.

Lemma receive_answer id tmp r :
  w_login r = false -> w_listen r = false -> - 2 ^ 31 <= id < 2 ^ 31 -> id <> w_list_id r ->
  remote_receive peer mac_prefix leases paths_tree (answer id tmp) r =
  (if negb (w_call r =? 0) then receive_call (JInt id) tmp else M_ret tt) r.
Proof.
  intros Hl Hw Hid Hne. unfold remote_receive, answer. simpl. rewrite json_get_object, get_ex_object. simpl.
  unfold M_bind, get. rewrite Hl, Hw, get_int_int by done.
  by rewrite (proj2 (Z.eqb_neq id _)), andb_false_r by done.
Qed.

Lemma receive_call_found r i id ureq tmp :
  rinv r -> in_progress r i id ureq ->
  receive_call (JInt id) tmp r = Some (tt,
    set_call_mask (wsu_proxied_call_free (w_call r) i) (emit_all (answers ureq tmp) r)).
Proof.
  intros Hr Hp. pose proof (inv_pending _ Hr _ _ _ Hp) as [Hid _]. pose proof (inv_id _ Hr).
  unfold receive_call. simpl. rewrite get_int_int by lia.
  rewrite (proj2 (Z.eqb_neq _ _)) by lia. unfold M_bind at 1, gets.
  pose proof (find_call_spec r id Hr) as Hf. destruct (find_call _ _ _) as [[j u]|].
  - assert (j = i) as -> by (by eapply inv_distinct).
    assert (u = ureq) as -> by (destruct Hf as (_ & _ & E1), Hp as (_ & _ & E2); congruence).
    unfold M_bind. by rewrite answer_request_eq.
  - by destruct (Hf i ureq).
Qed.

Lemma receive_call_unknown r id tmp :
  rinv r -> - 2 ^ 31 <= id < 2 ^ 31 -> (forall i u, ~ in_progress r i id u) ->
  receive_call (JInt id) tmp r = Some (tt, r).
Proof.
  intros Hr Hid Hn. unfold receive_call. simpl. rewrite get_int_int by done.
  destruct (id =? 0); [done|]. unfold M_bind, gets.
  pose proof (find_call_spec r id Hr) as Hf. destruct (find_call _ _ _) as [[j u]|]; [|done].
  by destruct (Hn j u).
Qed.

Lemma in_progress_past_handshake r i id u :
  rinv r -> in_progress r i id u -> w_login r = false /\ w_listen r = false /\ w_call r <> 0.
Proof.
  intros Hr (_ & Hb & _). assert (w_call r <> 0) as Hne by (intros E; by rewrite E, Z.bits_0 in Hb).
  pose proof (inv_handshake _ Hr) as Hh.
  destruct (w_login r), (w_listen r); try done; destruct Hh; by auto.
Qed.

(** The answer to a call in progress, from the message on. *)
Lemma receive_in_progress r i id ureq tmp :
  rinv r -> in_progress r i id ureq ->
  remote_receive peer mac_prefix leases paths_tree (answer id tmp) r = Some (tt,
    set_call_mask (wsu_proxied_call_free (w_call r) i) (emit_all (answers ureq tmp) r)).
Proof.
  intros Hr Hp. pose proof (inv_pending _ Hr _ _ _ Hp) as [Hid Hne]. pose proof (inv_id _ Hr).
  destruct (in_progress_past_handshake r i id ureq Hr Hp) as (Hl & Hw & Hc).
  rewrite receive_answer by (done || lia). rewrite (proj2 (Z.eqb_neq _ _)) by done. simpl.
  by apply receive_call_found.
Qed.
End replies.

(** Answers of a remote bus reach the right caller.  In every reachable
    state of a connection, an answer with the id of a call in progress completes
    exactly the request that made the call (with the data and the status of the
    answer), frees its slot and touches no other call and no stub, whatever
    order the answers come in; an answer with an id nobody waits for changes
    nothing. *)
Theorem proxied_reply_resolves `{AvlTree, JsonC, LibUbox} (peer : string) (mac_prefix : bool)
    (leases : option (list string)) (paths_tree : list string) (r : remote) :
  remote_reachable peer mac_prefix leases paths_tree r ->
  (forall i id ureq tmp, in_progress r i id ureq ->
     exists r', remote_receive peer mac_prefix leases paths_tree (answer id tmp) r = Some (tt, r') /\
       r_out r' = r_out r ++ answers ureq tmp /\
       (forall j jid u, in_progress r' j jid u <-> in_progress r j jid u /\ j <> i) /\
       r_tree r' = r_tree r /\ r_nodes r' = r_nodes r /\ r_write r' = r_write r) /\
  (forall id tmp, w_login r = false -> w_listen r = false -> - 2 ^ 31 <= id < 2 ^ 31 ->
     id <> w_list_id r -> (forall i u, ~ in_progress r i id u) ->
     remote_receive peer mac_prefix leases paths_tree (answer id tmp) r = Some (tt, r)).
Proof.
  intros Hr%reachable_rinv. split.
  - intros i id ureq tmp Hp.
    rewrite (receive_in_progress peer mac_prefix leases paths_tree r i id ureq) by done. eexists. split; [done|]. split_and!; try done.
    intros j jid u. rewrite <- in_progress_free; [done|done|by eapply in_progress_range].
  - intros id tmp Hl Hw Hid Hne Hn. rewrite receive_answer by done.
    destruct (negb _); [by apply receive_call_unknown|done].
Qed.

(** A connection after the handshake with one object and two calls on it. *)
Definition after {A} (m : M remote A) (r : remote) : remote :=
  match m r with Some (_, r') => r' | None => r end.

Definition ex_receive (j : json) : M remote unit :=
  remote_receive (H := list_avl) (H0 := ref_jsonc) (H1 := ref_libubox) "10.0.0.7" false None [] j.
Definition ex_call (ureq : nat) : M remote Z :=
  wsu_local_stub_handle_call (H0 := ref_jsonc) "10.0.0.7/net" "up" (Some (JObject [])) ureq.

Definition ex_r1 : remote := after (remote_established (H0 := ref_jsonc) false true None) remote_init.
Definition ex_r2 : remote := after (ex_receive (reply 1 [JInt 0])) ex_r1.
Definition ex_r3 : remote := after (ex_receive (reply 2 [JInt 0; JObject [("net", ex_sig)]])) ex_r2.
Definition ex_r4 : remote := after (ex_call 7) ex_r3.
Definition ex_r5 : remote := after (ex_call 8) ex_r4.

Lemma ex_r3_reachable :
  remote_reachable (H := list_avl) (H0 := ref_jsonc) (H1 := ref_libubox) "10.0.0.7" false None [] ex_r3.
Proof.
  eapply reachable_step; [eapply reachable_step|].
  - eapply (reachable_established _ _ _ _ false true None ex_r1). reflexivity.
  - eapply (step_receive _ _ _ _ _ (reply 1 [JInt 0]) ex_r2); vm_compute; reflexivity.
  - eapply (step_receive _ _ _ _ _ (reply 2 [JInt 0; JObject [("net", ex_sig)]]) ex_r3); vm_compute; reflexivity.
Qed.

Lemma ex_r5_reachable :
  remote_reachable (H := list_avl) (H0 := ref_jsonc) (H1 := ref_libubox) "10.0.0.7" false None [] ex_r5.
Proof.
  eapply reachable_step; [eapply reachable_step; [apply ex_r3_reachable|]|].
  - eapply (step_handle_call _ _ _ _ _ "10.0.0.7/net" _ "up" (Some (JObject [])) 7 0 ex_r4);
      [done|left|vm_compute; reflexivity].
  - eapply (step_handle_call _ _ _ _ _ "10.0.0.7/net" _ "up" (Some (JObject [])) 8 0 ex_r5);
      [done|left|vm_compute; reflexivity].
Qed.

Lemma proxied_reply_resolves_witness :
  in_progress ex_r5 0 3 7 /\ in_progress ex_r5 1 4 8 /\
  exists r', ex_receive (answer 4 (JArray [JInt 0])) ex_r5 = Some (tt, r') /\
    r_out r' = r_out ex_r5 ++ [CompleteDeferred 8 0] /\ in_progress r' 0 3 7 /\ ~ in_progress r' 1 4 8.
Proof.
  assert (in_progress ex_r5 0 3 7) as H7 by (split_and!; [done|vm_compute; reflexivity..]).
  assert (in_progress ex_r5 1 4 8) as H8 by (split_and!; [done|vm_compute; reflexivity..]).
  split; [exact H7|]. split; [exact H8|].
  destruct (proxied_reply_resolves (H := list_avl) (H0 := ref_jsonc) (H1 := ref_libubox)
              "10.0.0.7" false None [] ex_r5 ex_r5_reachable) as [Hf _].
  destruct (Hf 1 4 8%nat (JArray [JInt 0]) H8) as (r' & E & Ho & Hp & _).
  exists r'. split; [exact E|]. split; [exact Ho|]. split.
  - apply Hp. split; [exact H7|lia].
  - intros [_ ?]%Hp. lia.
Defined.

(** A call on a stub is forwarded or refused.  In every reachable state of
    a connection, a call on an object it registered is refused, with nothing
    sent, exactly if 20 calls are in progress; otherwise exactly one request is
    queued, with a fresh id, the session, the object's name on the remote bus,
    the method and the arguments, and the request of the caller is stored with
    that id beside the calls in progress. *)
Theorem stub_call_forwarded `{AvlTree, JsonC, LibUbox} (peer : string) (mac_prefix : bool)
    (leases : option (list string)) (paths_tree : list string) (r : remote)
    (key method name : string) (args : json) (sig : signature) (ureq : nat) :
  remote_reachable peer mac_prefix leases paths_tree r ->
  AddObject name sig ∈ r_out r -> local_name name = Some key -> call_id r < 2 ^ 31 - 1 ->
  let req := request (call_id r + 1) "call" [JString (r_sid r); JString key; JString method; args] in
  fits req ->
  wp (wsu_local_stub_handle_call name method (Some args) ureq) (fun rc r' =>
    (rc = UBUS_STATUS_NOT_SUPPORTED /\ r_write r' = r_write r /\
     (forall j, 0 <= j < MAX_PROXIED_CALLS -> exists id u, in_progress r j id u) /\
     (forall j id u, in_progress r' j id u <-> in_progress r j id u)) \/
    (rc = 0 /\ r_write r' = r_write r ++ [WriteReq (json_object_to_json_string req) 0] /\
     exists i, (forall id u, ~ in_progress r i id u) /\
       forall j id u, in_progress r' j id u <->
         (j = i /\ id = call_id r + 1 /\ u = ureq) \/ in_progress r j id u)) r.
Proof.
  intros Hr%reachable_rinv Ho Hk Hid req Hf. pose proof (inv_id _ Hr).
  pose proof (proxied_call_new_spec (w_call r) (inv_slots _ Hr)) as Hs.
  destruct (wsu_proxied_call_new (w_call r)) as [[i|] mask] eqn:Hn.
  - unfold wp. rewrite (handle_call_queued name key method args ureq r i mask) by done.
    right. simpl. split_and!; [done|done|].
    exists i. destruct Hs as (Hi & Hfree & _).
    assert (forall id u, ~ in_progress r i id u) as Hni by (intros id u (_ & Hb & _); congruence).
    split; [done|]. intros j id u.
    trans (in_progress (take_slot i mask (call_id r + 1) ureq r) j id u); [done|].
    rewrite (in_progress_new r i mask _ _ j id u Hr Hn).
    destruct (decide (j = i)) as [->|]; naive_solver.
  - unfold wsu_local_stub_handle_call. wp_step. eapply wp_deref; [exact Hk|].
    wp_steps. simpl. rewrite s32_small by lia.
    eapply wp_deref; [reflexivity|]. wp_steps. simpl. rewrite Hn.
    apply wp_ret. left. destruct Hs as [_ Hall]. split_and!; try done.
    intros j Hj. destruct (lookup_lt_is_Some_2 (r_calls r) (Z.to_nat j)) as [[id u] E].
    { rewrite (inv_calls _ Hr). unfold MAX_PROXIED_CALLS in *. lia. }
    exists id, u. split_and!; [lia|by apply Hall|done].
Qed.

Lemma stub_call_forwarded_witness :
  wp (ex_call 9) (fun rc r' =>
    rc = UBUS_STATUS_NOT_SUPPORTED \/ exists i, in_progress r' i 5 9) ex_r5.
Proof.
  eapply wp_mono.
  - apply (stub_call_forwarded (H := list_avl) (H0 := ref_jsonc) (H1 := ref_libubox)
      "10.0.0.7" false None [] ex_r5 "net" "up" "10.0.0.7/net" (JObject [])
      [("up", [("name", BLOBMSG_TYPE_STRING); ("timeout", BLOBMSG_TYPE_INT32)]); ("status", [])] 9%nat).
    + apply ex_r5_reachable.
    + left.
    + reflexivity.
    + vm_compute. reflexivity.
    + vm_compute. reflexivity.
  - intros rc r' [(-> & _)|(_ & _ & i & _ & Hp)]; [by left|]. right. exists i. apply Hp.
    left. split_and!; reflexivity.
Defined.

(** ** The walk of the answer to "list" past the last stub *)

Lemma next_of_split l1 k l2 :
  k ∉ l1 -> next_of (l1 ++ k :: l2) k = match l2 with [] => CurEnd | y :: _ => CurAt y end.
Proof.
  induction l1 as [|x l1 IH]; simpl; [by rewrite decide_True|].
  rewrite not_elem_of_cons. intros [? ?]. rewrite decide_False by done. auto.
Qed.

(** The fuel of the walk: one turn per stub from the position on is enough. *)
Lemma advance_fuel r last_ptr name l1 k l2 f f' cmp :
  NoDup (r_tree r) -> r_tree r = l1 ++ k :: l2 -> (length l2 < f)%nat -> (length l2 < f')%nat ->
  advance f r last_ptr name (CurAt k) cmp = advance f' r last_ptr name (CurAt k) cmp.
Proof.
  intros Hnd. revert l1 k f f' cmp. induction l2 as [|y l2 IH]; intros l1 k [|f] [|f'] cmp Ht Hf Hf';
    simpl in Hf, Hf'; try lia; cbn [advance].
  all: assert (k ∉ l1) as Hk
    by (rewrite Ht in Hnd; apply NoDup_app in Hnd as (_ & Hd & _); intros Hin; apply (Hd k Hin); left).
  all: pose proof (fun l => next_of_split l1 k l Hk) as Hnx.
  all: case_bool_decide; [done|]; cbv zeta; case_match; [done|]; rewrite Ht, Hnx.
  - by destruct f, f'.
  - apply (IH (l1 ++ [k])); try lia. by rewrite <- app_assoc.
Qed.

Section walk.
Context `{AvlTree, JsonC, LibUbox}.
Variable peer : string.
Variable mac_prefix : bool.
Variable leases : option (list string).
Variable paths_tree : list string.
Variables (r : remote) (a : string) (st : stub).
Hypothesis tree_a : r_tree r = [a].
Hypothesis node_a : r_nodes r !! a = Some st.

Abbreviation merge := (merge_one peer mac_prefix leases paths_tree (Some (st_ptr st))).

Lemma walk_start : prev_ptr r (CurAt a) = None.
Proof using tree_a. unfold prev_ptr. rewrite tree_a. simpl. by rewrite decide_True. Qed.

Lemma walk_end : prev_ptr r CurEnd = Some (st_ptr st).
Proof using tree_a node_a. unfold prev_ptr. rewrite tree_a. simpl. by rewrite node_a. Qed.

(** The stub itself: the walk stays on it. *)
Lemma merge_unchanged ja :
  wsu_local_stub_is_same_signature st ja = Some true ->
  merge (a, ja) (CurAt a, 0) r = Some ((CurAt a, 0), r).
Proof using tree_a node_a.
  intros Hs. unfold merge_one, M_bind, deref. cbn beta iota delta [fst snd]. rewrite tree_a. cbn [length advance].
  rewrite walk_start, bool_decide_eq_false_2 by naive_solver. rewrite strcmp_refl. simpl.
  rewrite node_a. by rewrite Hs.
Qed.

(** A first object after it: the walk moves to the end of the list, and the new
    stub is inserted before that end. *)
Lemma merge_first_new b jb sb :
  ("/"%char ∉ chars peer) /\ (String.length peer <= 50)%nat ->
  (forall l line, leases = Some l -> line ∈ l -> "/"%char ∉ chars (scan_lease line).1) ->
  strcmp a b < 0 -> wsubus_client_match_pattern paths_tree b = true -> signature_of jb = Some sb ->
  exists r', merge (b, jb) (CurAt a, 0) r = Some ((CurEnd, strcmp a b), r') /\
    prev_ptr r' CurEnd = Some (stub_addr r).
Proof using tree_a node_a.
  intros Hp Hle Hab Hm Hsb.
  eexists. unfold merge_one, M_bind, deref. cbn beta iota delta [fst snd]. rewrite tree_a. cbn [length advance].
  rewrite walk_start, bool_decide_eq_false_2 by naive_solver. cbv zeta.
  rewrite (proj2 (Z.leb_gt _ _)) by done. rewrite tree_a. cbn [next_of]. rewrite decide_True by done.
  rewrite walk_end, bool_decide_eq_true_2 by naive_solver. simpl.
  rewrite (proj2 (Z.eqb_neq _ _)) by lia. simpl. rewrite Hm.
  rewrite (create_ok peer mac_prefix leases Hp Hle b jb sb r Hsb).
  2:{ rewrite tree_a. by repeat constructor. }
  split; [done|]. unfold prev_ptr. simpl. rewrite tree_a. simpl. by rewrite lookup_insert_eq.
Qed.
End walk.

(** From the end of the list, with a stub after the remembered last one, the
    walk does not stop. *)
Lemma merge_past_end `{AvlTree, JsonC} peer mac_prefix leases paths_tree ptr ptr' obj cmp r :
  prev_ptr r CurEnd = Some ptr' -> ptr' <> ptr ->
  merge_one peer mac_prefix leases paths_tree (Some ptr) obj (CurEnd, cmp) r = None.
Proof.
  intros He Hne. destruct obj as [name sig]. unfold merge_one, M_bind, deref. simpl.
  rewrite He, bool_decide_eq_false_2 by naive_solver. done.
Qed.

(** The walk over the stubs runs off their end.  When the answer to "list"
    names the last stub, unchanged, and two more wanted objects after it, the
    second of them makes the walk read the head of the list as a stub: handling
    the answer does not come back. *)
Theorem list_walk_off_the_end `{AvlTree, JsonC} (peer : string) (mac_prefix : bool)
    (leases : option (list string)) (paths_tree : list string) (r : remote) (a b c : string)
    (st : stub) (ja jb jc : json) (sb : signature) (rest : list (string * json)) :
  ("/"%char ∉ chars peer) /\ (String.length peer <= 50)%nat ->
  (forall l line, leases = Some l -> line ∈ l -> "/"%char ∉ chars (scan_lease line).1) ->
  r_tree r = [a] -> r_nodes r !! a = Some st -> st_ptr st <> stub_addr r ->
  wsu_local_stub_is_same_signature st ja = Some true ->
  strcmp a b < 0 ->
  wsubus_client_match_pattern paths_tree b = true -> signature_of jb = Some sb ->
  receive_list peer mac_prefix leases paths_tree
    (JArray [JInt 0; JObject ((a, ja) :: (b, jb) :: (c, jc) :: rest)]) r = None.
Proof.
  intros Hp Hle Ht Hn Hptr Hsame Hab Hm Hsb.
  unfold receive_list. rewrite result_ok_zero. simpl. rewrite get_idx_array. simpl.
  unfold merge_list. unfold M_bind at 1 2, get.
  assert (avl_find_ge strcmp (r_tree r) a = Some a) as ->.
  { rewrite Ht. rewrite (avl_find_ge_split strcmp [] [a]); [done|constructor|].
    repeat constructor. by rewrite strcmp_refl. }
  rewrite (walk_end r a st Ht Hn), strcmp_refl. cbn [merge_all].
  unfold M_bind at 1. rewrite (merge_unchanged peer mac_prefix leases paths_tree r a st Ht Hn) by done.
  destruct (merge_first_new peer mac_prefix leases paths_tree r a st Ht Hn b jb sb Hp Hle Hab Hm Hsb) as (r' & E & He).
  unfold M_bind at 1. rewrite E. unfold M_bind at 1.
  rewrite (merge_past_end peer mac_prefix leases paths_tree _ _ _ _ _ He); [done|]. by apply not_eq_sym.
Qed.

Lemma list_walk_off_the_end_witness :
  receive_list (H := list_avl) (H0 := ref_jsonc) "10.0.0.7" false None []
    (JArray [JInt 0; JObject [("net", ex_sig); ("system", ex_sig); ("wifi", ex_sig)]]) ex_r3 = None.
Proof.
  eapply (list_walk_off_the_end (H := list_avl) (H0 := ref_jsonc) "10.0.0.7" false None []
    ex_r3 "net" "system" "wifi"); try (vm_compute; reflexivity).
  - split; [by apply no_slash|simpl; lia].
  - done.
  - vm_compute. done.
Defined.
