(* ===== verification/ProxyConn.v ===== *)
(** * ws_ubusproxy.c: the callback of the connections to remote buses

    The table of remote buses (WsubusClient.v) and the peers of the connections
    (UbusProxy.v) together, under [ws_ubusproxy_cb]: libwebsockets reports what
    happened to a socket, the callback changes the table and the peer of the
    socket, and its result says whether the socket is kept.  A peer is in the map
    when its role is that of a remote bus; before [wsu_peer_init] the memory that
    libwebsockets gives is zero. *)

From stdpp Require Import base list strings numbers sorting sets gmap.
From S2P Require Import Prelude CStrings Avl Patterns Libs WsubusClient ClientTable ClientProps Rpc.
From S2P Require Import PeerIO UbusProxy ProxyProps.

Local Arguments strcmp : simpl never.
Set Default Proof Using "Type".

(** [px_bus] is what connections that are closed did on the local bus. *)
Record proxies := Proxies {
  px_table : clvh;
  px_peers : gmap lws remote;
  px_bus : list bus_action;
}.

Definition on_table (f : clvh -> clvh) (s : proxies) : proxies := Proxies (f (px_table s)) (px_peers s) (px_bus s).

(** The reasons the callback has a case for. *)
Inductive lws_callback_reason :=
  | LWS_CALLBACK_CLIENT_WRITEABLE (oracle : list (Z * bool))
  | LWS_CALLBACK_CLIENT_CLOSED
  | LWS_CALLBACK_CLOSED
  | LWS_CALLBACK_CLIENT_CONNECTION_ERROR
  | LWS_CALLBACK_WS_PEER_INITIATED_CLOSE
  | LWS_CALLBACK_PROTOCOL_INIT (vhost_port : option Z)
  | LWS_CALLBACK_PROTOCOL_DESTROY
  | LWS_CALLBACK_CLIENT_ESTABLISHED (is_ssl : bool) (common_name : option string)
  | LWS_CALLBACK_CLIENT_RECEIVE (jobj : json)
  | LWS_CALLBACK_OTHER.

Definition CONTEXT_PORT_NO_LISTEN : Z := -1.

Section callback.
Context `{AvlTree, JsonC, LibUbox}.

(** The text of the address of a peer, and the configuration. *)
Variable peer_name : lws -> string.
Variable mac_prefix : bool.
Variable leases : option (list string).

(** [wsi_to_remote]: the role of the peer is asserted. *)
Definition on_remote {A} (w : lws) (m : M remote A) : M proxies A :=
  fun s => match px_peers s !! w with
           | Some r => match m r with
                       | Some (a, r') => Some (a, Proxies (px_table s) (<[w := r']> (px_peers s)) (px_bus s))
                       | None => None
                       end
           | None => None
           end.

(** [wsu_peer_deinit] does nothing for a peer without a role; libwebsockets frees
    the peer after the callback. *)
Definition peer_gone (w : lws) : M proxies unit :=
  fun s => match px_peers s !! w with
           | None => Some (tt, s)
           | Some r => match remote_deinit r with
                       | Some (_, r') => Some (tt, Proxies (px_table s) (delete w (px_peers s)) (px_bus s ++ r_out r'))
                       | None => None
                       end
           end.

(** The write queue as [wsubus_tx_text] leaves it. *)
Definition remote_writable (oracle : list (Z * bool)) : M remote Z :=
  fun r => match wsubus_tx_text (r_write r) oracle with
           | Some (rc, _, q) => Some (rc, set_r_write q r)
           | None => None
           end.

Definition ws_ubusproxy_cb (w : lws) (reason : lws_callback_reason) : M proxies Z :=
  match reason with
  | LWS_CALLBACK_CLIENT_WRITEABLE oracle =>
      let* s := get in
      if wsubus_client_should_destroy (Some w) (px_table s) then M_ret (-1)
      else on_remote w (remote_writable oracle)
  | LWS_CALLBACK_CLIENT_CLOSED | LWS_CALLBACK_CLOSED =>
      peer_gone w ;;;
      modify (on_table (proxy_closed w)) ;;;
      M_ret 0
  | LWS_CALLBACK_CLIENT_CONNECTION_ERROR =>
      modify (on_table (proxy_connection_error w)) ;;;
      M_ret 0
  | LWS_CALLBACK_WS_PEER_INITIATED_CLOSE => M_ret 0
  | LWS_CALLBACK_PROTOCOL_INIT vhost_port =>
      (match vhost_port with
       | Some port => when port =? CONTEXT_PORT_NO_LISTEN do modify (on_table wsubus_client_connect_all)
       | None => M_ret tt
       end) ;;;
      M_ret 0
  | LWS_CALLBACK_PROTOCOL_DESTROY => M_ret 0
  | LWS_CALLBACK_CLIENT_ESTABLISHED is_ssl common_name =>
      let* s := get in
      let '(rc, table) := proxy_established w (px_table s) in
      if negb (rc =? 0) then M_ret rc
      else
        modify (fun s => Proxies table (<[w := remote_init]> (px_peers s)) (px_bus s)) ;;;
        on_remote w (remote_established (rpcd_integration table) is_ssl common_name) ;;;
        M_ret 0
  | LWS_CALLBACK_CLIENT_RECEIVE jobj =>
      let* s := get in
      on_remote w (remote_receive (peer_name w) mac_prefix leases (paths_tree (px_table s)) jobj) ;;;
      M_ret 0
  | LWS_CALLBACK_OTHER => M_ret 0
  end.
End callback.

(** ** The stubs of a connection *)

(** The tree is sorted and has exactly the nodes; no two stubs have one
    address, and [calloc] gives none that is in use. *)
Record stubs_wf (r : remote) : Prop := {
  stubs_sorted : StronglySorted key_lt (r_tree r);
  stubs_nodes : forall k, k ∈ r_tree r <-> is_Some (r_nodes r !! k);
  stubs_calloc : forall used, r_calloc r used ∉ used;
  stubs_distinct : forall k k' st st', r_nodes r !! k = Some st -> r_nodes r !! k' = Some st' ->
    st_ptr st = st_ptr st' -> k = k';
}.

Abbreviation keeps := (preserves stubs_wf).

Section stubs.
Context `{AvlTree, JsonC, LibUbox}.
Variable peer : string.
Variable mac_prefix : bool.
Variable leases : option (list string).
Variable paths_tree : list string.

Lemma stubs_wf_same r0 r :
  stubs_wf r0 -> r_tree r = r_tree r0 -> r_nodes r = r_nodes r0 -> r_calloc r = r_calloc r0 -> stubs_wf r.
Proof. intros [] E1 E2 E3. split; rewrite ?E1, ?E2, ?E3; done. Qed.

Lemma keeps_modify f :
  (forall r, r_tree (f r) = r_tree r /\ r_nodes (f r) = r_nodes r /\ r_calloc (f r) = r_calloc r) -> keeps (modify f).
Proof. intros Hf. apply preserves_modify. intros r Hr. destruct (Hf r) as (?&?&?). by eapply stubs_wf_same. Qed.

Lemma keeps_calloc f : (forall used, f used ∉ used) -> keeps (modify (set_calloc f)).
Proof. intros Hf. apply preserves_modify. intros r []. by split. Qed.

Lemma keeps_r_queue d : keeps (r_queue d).
Proof.
  intros r Hr [] r'. unfold r_queue. destruct (wsu_queue_write_str _ _ _) as [[? q]|]; [|done].
  intros [= <-]. by eapply stubs_wf_same.
Qed.

Lemma stub_addr_new r k st : stubs_wf r -> r_nodes r !! k = Some st -> st_ptr st <> stub_addr r.
Proof.
  intros Hr Hk E. apply (stubs_calloc r Hr (list_to_set (st_ptr <$> (map_to_list (r_nodes r)).*2))).
  fold (stub_addr r). rewrite <- E. apply elem_of_list_to_set, list_elem_of_fmap_2.
  apply (list_elem_of_fmap_2 snd _ (k, st)). by apply elem_of_map_to_list.
Qed.

(** A stub at a new address. *)
Lemma stubs_wf_insert key s r :
  stubs_wf r ->
  stubs_wf match avl_insert strcmp (r_tree r) key with
           | Some tree' => set_stubs tree' (<[key := Stub (stub_addr r) s]> (r_nodes r)) r
           | None => r
           end.
Proof.
  intros Hr. pose proof (fun k st => stub_addr_new r k st Hr) as Hnew. destruct Hr as [Hs Hn Ho Hd].
  pose proof (avl_insert_sorted (r_tree r) key Hs) as Hi.
  destruct (avl_insert strcmp (r_tree r) key) as [t|]; [|done].
  destruct Hi as (Hk & Hs' & l1 & l2 & El & ->). split; simpl; [done|..].
  - intros k. rewrite lookup_insert_is_Some, <- Hn, El, !elem_of_app, elem_of_cons.
    destruct (decide (key = k)); naive_solver.
  - done.
  - intros k k' st st' [[-> <-]|[_ Hk1]]%lookup_insert_Some [[-> <-]|[_ Hk2]]%lookup_insert_Some;
      simpl; [done| | |by eauto]; [apply Hnew in Hk2|apply Hnew in Hk1]; congruence.
Qed.

Lemma keeps_create object sig : keeps (wsu_local_stub_create peer mac_prefix leases object sig).
Proof.
  unfold wsu_local_stub_create. apply preserves_bind; [apply preserves_deref|]. intros s.
  apply preserves_bind; [apply preserves_deref|]. intros key. apply preserves_bind; [|by intros; apply keeps_modify].
  intros r Hr. by apply pwp_modify, stubs_wf_insert.
Qed.

Lemma stub_destroyed k r :
  stubs_wf r -> k ∈ r_tree r ->
  wsu_local_stub_destroy k r =
    Some (tt, set_stubs (filter (fun x => x <> k) (r_tree r)) (delete k (r_nodes r)) (emit (RemoveObject k) r)).
Proof.
  intros Hr [n Hk]%(stubs_nodes _ Hr). unfold wsu_local_stub_destroy, M_bind, deref, modify. rewrite Hk. simpl.
  by rewrite avl_delete_spec.
Qed.

Lemma stubs_wf_delete k r :
  stubs_wf r -> stubs_wf (set_stubs (filter (fun x => x <> k) (r_tree r)) (delete k (r_nodes r)) r).
Proof.
  intros [Hs Hn Ho Hd]. split; simpl.
  - eapply StronglySorted_sub; [apply sublist_filter|done].
  - intros x. rewrite list_elem_of_filter, Hn, lookup_delete_is_Some. naive_solver.
  - done.
  - intros x y st st' [_ ?]%lookup_delete_Some [_ ?]%lookup_delete_Some. eauto.
Qed.

Lemma keeps_destroy k : keeps (wsu_local_stub_destroy k).
Proof.
  intros r Hr [] r' Hd. destruct (decide (k ∈ r_tree r)) as [Hk|Hk].
  - rewrite stub_destroyed in Hd by done. injection Hd as <-. apply (stubs_wf_delete k (emit _ r)); by eapply stubs_wf_same.
  - exfalso. revert Hd. unfold wsu_local_stub_destroy, M_bind, deref.
    destruct (r_nodes r !! k) eqn:E; [|done]. destruct Hk. apply (stubs_nodes _ Hr). eauto.
Qed.

(** Take a program apart along [keeps]. *)
Ltac keeps_step :=
  lazymatch goal with
  | |- keeps (modify _) => by apply keeps_modify
  | |- keeps (r_queue _) => apply keeps_r_queue
  | |- keeps (wsu_local_stub_create _ _ _ _ _) => apply keeps_create
  | |- keeps (wsu_local_stub_destroy _) => apply keeps_destroy
  | |- _ => preserves_step
  end.

Lemma keeps_merge_all last_ptr objs st : keeps (merge_all peer mac_prefix leases paths_tree last_ptr objs st).
Proof.
  revert st. induction objs as [|o objs IH]; intros st; cbn [merge_all]; [apply preserves_ret|].
  apply preserves_bind; [|intros; apply IH]. unfold merge_one. repeat keeps_step.
Qed.

Lemma keeps_receive jobj : keeps (remote_receive peer mac_prefix leases paths_tree jobj).
Proof.
  unfold remote_receive, receive_login, receive_listen, receive_list, receive_call, receive_method, answer_request,
    send_list, send_listen, sid_update, next_call_id, queue_request, merge_list.
  repeat (keeps_step || apply keeps_merge_all).
Qed.

Lemma keeps_handle_call name method args ureq : keeps (wsu_local_stub_handle_call name method args ureq).
Proof. unfold wsu_local_stub_handle_call. repeat keeps_step. Qed.

(** A connection starts without stubs. *)
Lemma established_wf rpcd is_ssl cn r :
  (forall used, r_calloc r used ∉ used) ->
  pwp (remote_established rpcd is_ssl cn) (fun _ r' => stubs_wf r') r.
Proof.
  intros Hc0. unfold remote_established. apply pwp_bind, pwp_modify. revert r Hc0.
  assert (forall m : M remote unit, keeps m -> forall r, r_tree r = [] -> r_nodes r = ∅ ->
    (forall used, r_calloc r used ∉ used) -> pwp m (fun _ r' => stubs_wf r') r) as Hk.
  { intros m Hm r Ht Hn Hc. apply Hm. split; rewrite ?Ht, ?Hn; [constructor|..|done|].
    - intros k. rewrite lookup_empty. split; [by intros ?%elem_of_nil|by intros []].
    - intros k k' st st'. by rewrite lookup_empty. }
  intros r Hc. apply Hk; [|done..]. unfold send_listen, sid_update, next_call_id, queue_request. repeat keeps_step.
Qed.

(** Every stub is taken off the bus, in the order of the tree. *)
Lemma stubs_destroyed l r :
  stubs_wf r -> r_tree r = l ->
  exists r', forM_ l wsu_local_stub_destroy r = Some (tt, r') /\ r_tree r' = [] /\ r_nodes r' = ∅ /\
    r_write r' = r_write r /\ r_out r' = r_out r ++ (RemoveObject <$> l).
Proof.
  revert r. induction l as [|k l IH]; intros r Hr Ht.
  - exists r. split_and!; [done|done| |done|by rewrite app_nil_r]. apply map_empty. intros k.
    apply eq_None_not_Some. rewrite <- (stubs_nodes _ Hr k), Ht. apply not_elem_of_nil.
  - cbn [forM_]. unfold M_bind. rewrite stub_destroyed by (done || rewrite Ht; set_solver).
    destruct (IH (set_stubs (filter (fun x => x <> k) (r_tree r)) (delete k (r_nodes r)) (emit (RemoveObject k) r)))
      as (r' & Hrun & Ht' & Hn' & Hw & Ho).
    + apply (stubs_wf_delete k (emit _ r)); by eapply stubs_wf_same.
    + simpl. pose proof (sorted_NoDup _ (stubs_sorted _ Hr)) as Hnd. rewrite Ht in *.
      apply NoDup_cons in Hnd as [Hk _]. rewrite filter_cons, decide_False by (intros E; by apply E).
      apply filter_all. by intros x Hx ->.
    + exists r'. split_and!; try done. rewrite Ho. simpl. by rewrite <- app_assoc.
Qed.

Lemma remote_deinit_run r :
  stubs_wf r -> exists r', remote_deinit r = Some (tt, r') /\ r_tree r' = [] /\ r_nodes r' = ∅ /\
    r_write r' = [] /\ r_out r' = r_out r ++ (RemoveObject <$> r_tree r).
Proof.
  intros Hr. unfold remote_deinit, M_bind, modify, gets. simpl.
  destruct (stubs_destroyed (r_tree r) (set_r_write [] r)) as (r' & Hrun & ?); [by eapply stubs_wf_same|done|].
  by exists r'.
Qed.
End stubs.

(** ** All connections *)

Section connections.
Context `{AvlTree, JsonC, LibUbox}.
Variable peer_name : lws -> string.
Variable mac_prefix : bool.
Variable leases : option (list string).
Variable inet_pton : address_family -> string -> Z.

#[local] Abbreviation callback := (ws_ubusproxy_cb peer_name mac_prefix leases).

(** When libwebsockets reports what: a socket of the set [live] is established
    once, is written to and read from after that, and its end is reported as an
    error of the connection or, also after that, as a close.  The protocol starts
    before any connection is made. *)
Definition reported (s : proxies) (live : gset lws) (w : lws) (reason : lws_callback_reason) : Prop :=
  match reason with
  | LWS_CALLBACK_CLIENT_WRITEABLE _ | LWS_CALLBACK_CLIENT_RECEIVE _ => is_Some (px_peers s !! w)
  | LWS_CALLBACK_CLIENT_CLOSED | LWS_CALLBACK_CLOSED => w ∈ live
  | LWS_CALLBACK_CLIENT_CONNECTION_ERROR | LWS_CALLBACK_CLIENT_ESTABLISHED _ _ => w ∈ live /\ px_peers s !! w = None
  | LWS_CALLBACK_PROTOCOL_INIT _ => forall c, c ∈ clients (px_table s) -> state c = CONNECTION_STATE_DISCONNECTED
  | _ => True
  end.

Definition live_after (w : lws) (reason : lws_callback_reason) (live : gset lws) : gset lws :=
  match reason with
  | LWS_CALLBACK_CLIENT_CLOSED | LWS_CALLBACK_CLOSED | LWS_CALLBACK_CLIENT_CONNECTION_ERROR => live ∖ {[w]}
  | _ => live
  end.

(** Besides the callbacks: the table is changed by requests and timers, which open
    sockets and close none, and calls are made on stubs. *)
Inductive px_step : proxies * gset lws -> proxies * gset lws -> Prop :=
  | px_callback s live w reason rc s' :
      reported s live w reason -> callback w reason s = Some (rc, s') ->
      px_step (s, live) (s', live_after w reason live)
  | px_table_change s live o table live' :
      step inet_pton (px_table s, live) o (table, live') -> live ⊆ live' ->
      px_step (s, live) (on_table (fun _ => table) s, live')
  | px_stub_call s live w name method args ureq rc s' :
      on_remote w (wsu_local_stub_handle_call name method args ureq) s = Some (rc, s') ->
      px_step (s, live) (s', live)
  (** what the next [calloc] of a stub gives *)
  | px_calloc s live w f rc s' :
      (forall used, f used ∉ used) -> on_remote w (modify (set_calloc f)) s = Some (rc, s') ->
      px_step (s, live) (s', live).

Inductive px_reachable : proxies * gset lws -> Prop :=
  | px_start table : clients table = [] -> px_reachable (Proxies table ∅ [], ∅)
  | px_next st st' : px_reachable st -> px_step st st' -> px_reachable st'.

Record px_inv (s : proxies) (live : gset lws) : Prop := {
  pi_stubs : forall w r, px_peers s !! w = Some r -> stubs_wf r;
  pi_live : forall w r, px_peers s !! w = Some r -> w ∈ live;
}.

Lemma px_inv_table s live table live' :
  px_inv s live -> live ⊆ live' -> px_inv (on_table (fun _ => table) s) live'.
Proof. intros [Hs Hw] Hl. split; simpl; [done|]. intros w r E. eapply Hl, Hw, E. Qed.

Lemma px_inv_remote {A} s live w (m : M remote A) a s' :
  px_inv s live -> keeps m -> on_remote w m s = Some (a, s') -> px_inv s' live.
Proof.
  intros [Hs Hl] Hm. unfold on_remote. destruct (px_peers s !! w) as [r|] eqn:Ew; [|done].
  destruct (m r) as [[a' r']|] eqn:Er; [|done]. intros [= <- <-]. split; simpl.
  - intros w' r2 [[<- <-]|[_ ?]]%lookup_insert_Some; [|eauto]. by eapply (Hm r); [eapply Hs|].
  - intros w' r2 [[<- _]|[_ ?]]%lookup_insert_Some; eauto.
Qed.

(** The end of a socket. *)
Lemma px_closed s live w :
  px_inv s live -> exists s', peer_gone w s = Some (tt, s') /\ px_table s' = px_table s /\
    px_peers s' = delete w (px_peers s) /\
    px_bus s' = px_bus s ++ match px_peers s !! w with
                            | Some r => r_out r ++ (RemoveObject <$> r_tree r)
                            | None => []
                            end.
Proof.
  intros [Hs _]. unfold peer_gone. destruct (px_peers s !! w) as [r|] eqn:Ew.
  - destruct (remote_deinit_run r (Hs w r Ew)) as (r' & -> & _ & _ & _ & Ho).
    eexists. split; [done|]. simpl. by rewrite Ho.
  - exists s. by rewrite delete_id, app_nil_r.
Qed.

(** What the table makes of the end of a socket: the first client that names
    it is hit, the others stay. *)
Lemma proxy_closed_split w t :
  (forall c, c ∈ clients t -> wsi c <> Some w) /\ clients (proxy_closed w t) = clients t \/
  exists l1 c l2, clients t = l1 ++ c :: l2 /\ (forall x, x ∈ l1 -> wsi x <> Some w) /\ wsi c = Some w /\
    clients (proxy_closed w t) = l1 ++ option_list (closed_client c) ++ l2.
Proof.
  pose proof (get_client_by_wsi_spec w (clients t)) as Hg.
  unfold proxy_closed, wsubus_client_should_destroy.
  destruct (get_client_by_wsi (Some w) (clients t)) as [c|] eqn:Eg; [right|left; split; [done|by apply destroy_unknown]].
  assert (exists l1 l2, clients t = l1 ++ c :: l2 /\ forall x, x ∈ l1 -> wsi x <> Some w) as (l1 & l2 & Et & Hl1).
  { clear Hg. simpl in Eg. induction (clients t) as [|x l IH]; simpl in Eg; [done|].
    destruct (has_wsi w x) eqn:E.
    - injection Eg as ->. exists [], l. split; [done|by intros ? ?%elem_of_nil].
    - destruct (IH Eg) as (l1 & l2 & -> & Hl1). exists (x :: l1), l2. split; [done|].
      intros y [->|Hy]%elem_of_cons; [by apply bool_decide_eq_false in E|auto]. }
  destruct Hg as [_ Hw]. exists l1, c, l2. split_and!; try done.
  assert (forall l, delete_first (has_wsi w) (l1 ++ l) = l1 ++ delete_first (has_wsi w) l /\
    forall f, update_first (has_wsi w) f (l1 ++ l) = l1 ++ update_first (has_wsi w) f l) as Hskip.
  { intros l. clear Et. induction l1 as [|x l1 IH]; simpl; [done|].
    assert (has_wsi w x = false) as -> by (apply bool_decide_eq_false_2, Hl1; left).
    destruct IH as [-> IH]; [intros y Hy; apply Hl1; by right|]. split; [done|]. intros f. by rewrite IH. }
  assert (has_wsi w c = true) as Hc by (by apply bool_decide_eq_true_2).
  unfold closed_client. case_bool_decide as Est; simpl.
  - rewrite Est, Et. destruct (Hskip (c :: l2)) as [-> _]. simpl. by rewrite Hc.
  - rewrite update_first_twice by done. rewrite Et. destruct (Hskip (c :: l2)) as [_ ->]. simpl. rewrite Hc.
    by destruct (state c).
Qed.

Lemma closed_run s live w :
  px_inv s live ->
  exists s', (peer_gone w ;;; modify (on_table (proxy_closed w)) ;;; M_ret 0) s = Some (0, s') /\
    px_inv s' (live ∖ {[w]}) /\ px_peers s' = delete w (px_peers s) /\
    px_bus s' = px_bus s ++ match px_peers s !! w with
                            | Some r => r_out r ++ (RemoveObject <$> r_tree r)
                            | None => []
                            end /\
    px_table s' = proxy_closed w (px_table s).
Proof.
  intros Hi. destruct (px_closed s live w Hi) as (s1 & Hrun & Et & Ep & Eb). destruct Hi as [Hs Hl].
  unfold M_bind, modify. rewrite Hrun. eexists. split; [done|]. simpl. rewrite Et.
  split_and!; [|done..]. split; simpl; rewrite ?Et, ?Ep.
  - intros w' r [_ ?]%lookup_delete_Some. eauto.
  - intros w' r [? ?]%lookup_delete_Some. apply elem_of_difference. rewrite not_elem_of_singleton. eauto.
Qed.

Lemma px_callback_inv s live w reason rc s' :
  px_inv s live -> reported s live w reason -> callback w reason s = Some (rc, s') ->
  px_inv s' (live_after w reason live).
Proof.
  intros Hi Hrep. assert (px_inv s live) as [Hs Hl] by done.
  destruct (closed_run s live w Hi) as (sc & Hc & Hic & _).
  destruct reason as [oracle| | | | |port| |is_ssl cn|jobj|]; simpl in *; try (by intros [= <- <-]).
  - unfold M_bind, get. destruct (wsubus_client_should_destroy _ _); [by intros [= <- <-]|].
    apply px_inv_remote; [done|]. intros r Hr a r'. unfold remote_writable.
    destruct (wsubus_tx_text _ _) as [[[? ?] q]|]; [|done]. intros [= <- <-]. by eapply stubs_wf_same.
  - rewrite Hc. by intros [= <- <-].
  - rewrite Hc. by intros [= <- <-].
  - destruct Hrep as [_ Hw]. intros [= <- <-]. split; simpl; [done|].
    intros w' r Hw'. apply elem_of_difference. rewrite not_elem_of_singleton. split; [eauto|]. congruence.
  - unfold M_bind. destruct port as [port|]; [|by intros [= <- <-]].
    destruct (port =? CONTEXT_PORT_NO_LISTEN); intros [= <- <-]; [|done].
    by split.
  - destruct Hrep as [Hw Hwn]. unfold M_bind, get.
    destruct (proxy_established w (px_table s)) as [rc' table]. destruct (rc' =? 0); simpl; [|by intros [= <- <-]].
    unfold on_remote. simpl. rewrite lookup_insert_eq.
    destruct (remote_established (rpcd_integration table) is_ssl cn remote_init) as [[[] r']|] eqn:Er; [|done].
    intros [= <- <-]. rewrite insert_insert_eq. split; simpl.
    + intros w' r [[<- <-]|[_ ?]]%lookup_insert_Some; [|eauto].
      eapply established_wf; [|exact Er]. intros used. apply is_fresh.
    + intros w' r [[<- _]|[_ ?]]%lookup_insert_Some; eauto.
  - unfold M_bind, get. destruct (on_remote w _ s) as [[[] s1]|] eqn:E; [|done]. intros [= <- <-].
    eapply px_inv_remote; [done| |exact E]. apply keeps_receive.
Qed.

Lemma px_step_inv s live s' live' :
  px_inv s live -> px_step (s, live) (s', live') -> px_inv s' live'.
Proof.
  intros Hi Hstep. inversion Hstep; subst.
  - by eapply px_callback_inv.
  - by apply (px_inv_table s live).
  - eapply px_inv_remote; [done| |done]. apply keeps_handle_call.
  - eapply px_inv_remote; [done| |done]. by apply keeps_calloc.
Qed.

Lemma px_reachable_inv s live : px_reachable (s, live) -> px_inv s live.
Proof.
  remember (s, live) as st eqn:E. intros Hr. revert s live E.
  induction Hr as [table Ht|[s1 live1] st' Hr IH Hstep]; intros s live E.
  - simplify_eq. by split; intros ??; simpl; rewrite lookup_empty.
  - subst. eapply px_step_inv; [by apply IH|done].
Qed.
End connections.

(** C17: a remote bus that goes away leaves no stub behind.  In every state the
    program can reach with any number of connections, and whatever addresses
    sockets and stubs get, each peer belongs to an open socket, and the tree of
    its stubs is in order and has exactly its nodes.  When the end of a socket is
    reported, the callback comes back with 0; every stub of the connection is
    taken off the local bus, once and in order; the peer is gone and the others
    are as they were.  In the table the first client that names the socket, if
    any, is dropped if its removal was asked for and otherwise waits two seconds
    for its next try, while all others stay as they are: this is the client of
    the socket, unless the socket has the address of a closed one that a client
    before it still names (C2). *)
Theorem closed_connection_cleaned `{AvlTree, JsonC, LibUbox} (peer_name : lws -> string) (mac_prefix : bool)
    (leases : option (list string)) (inet_pton : address_family -> string -> Z) (s : proxies) (live : gset lws)
    (w : lws) :
  px_reachable peer_name mac_prefix leases inet_pton (s, live) ->
  (forall v r, px_peers s !! v = Some r ->
     v ∈ live /\ StronglySorted key_lt (r_tree r) /\ forall k, k ∈ r_tree r <-> is_Some (r_nodes r !! k)) /\
  exists s', ws_ubusproxy_cb peer_name mac_prefix leases w LWS_CALLBACK_CLIENT_CLOSED s = Some (0, s') /\
    px_peers s' !! w = None /\ (forall v, v <> w -> px_peers s' !! v = px_peers s !! v) /\
    px_bus s' = px_bus s ++ match px_peers s !! w with
                            | Some r => r_out r ++ (RemoveObject <$> r_tree r)
                            | None => []
                            end /\
    ((forall c, c ∈ clients (px_table s) -> wsi c <> Some w) /\
       clients (px_table s') = clients (px_table s) \/
     exists l1 c l2, clients (px_table s) = l1 ++ c :: l2 /\
       (forall x, x ∈ l1 -> wsi x <> Some w) /\ wsi c = Some w /\
       clients (px_table s') = l1 ++
         (if bool_decide (state c = CONNECTION_STATE_TEARINGDOWN) then []
          else [set_timer (Some 2000) (set_count 0 (set_state CONNECTION_STATE_DISCONNECTED c))]) ++ l2).
Proof.
  intros Hr. pose proof (px_reachable_inv _ _ _ _ s live Hr) as Hi. split.
  - intros v r Hv. split; [exact (pi_live _ _ Hi v r Hv)|]. by destruct (pi_stubs _ _ Hi v r Hv).
  - destruct (closed_run s live w Hi) as (s' & Hrun & _ & Hp & Hb & Hc).
    exists s'. split; [exact Hrun|]. rewrite Hp, lookup_delete_eq. split_and!; try done.
    + intros v Hv. by rewrite lookup_delete_ne.
    + rewrite Hc. destruct (proxy_closed_split w (px_table s)) as [?|(l1 & c & l2 & E1 & E2 & E3 & E4)]; [by left|right].
      exists l1, c, l2. split_and!; try done. rewrite E4. f_equal. f_equal. unfold closed_client.
      case_bool_decide as E; [by rewrite E|]. by destruct (state c).
Qed.

(** A client added, connected, past the handshake and with one stub. *)
Definition px_run (w : lws) (reason : lws_callback_reason) (s : proxies) : proxies :=
  match ws_ubusproxy_cb (H := list_avl) (H0 := ref_jsonc) (H1 := ref_libubox) (fun _ => "10.0.0.2") false None w reason s with
  | Some (_, s') => s'
  | None => s
  end.

Definition px1 : proxies := px_run 1%nat (LWS_CALLBACK_CLIENT_ESTABLISHED true None) (Proxies one_connecting ∅ []).
Definition px2 : proxies := px_run 1%nat (LWS_CALLBACK_CLIENT_RECEIVE (reply 1 [JInt 0])) px1.
Definition px3 : proxies :=
  px_run 1%nat (LWS_CALLBACK_CLIENT_RECEIVE (reply 2 [JInt 0; JObject [("net", ex_sig)]])) px2.

Lemma px3_reachable :
  px_reachable (H := list_avl) (H0 := ref_jsonc) (H1 := ref_libubox) (fun _ => "10.0.0.2") false None two_hosts
    (px3, {[ 1%nat ]}).
Proof.
  replace ({[ 1%nat ]} : gset lws) with ({[ 1%nat ]} ∪ ∅ : gset lws) by set_solver.
  assert (px_reachable (H := list_avl) (H0 := ref_jsonc) (H1 := ref_libubox) (fun _ => "10.0.0.2") false None two_hosts
    (Proxies one_connecting ∅ [], {[ 1%nat ]} ∪ ∅)) as H0.
  { eapply px_next; [eapply px_next; [by apply (px_start _ _ _ _ clvh_init)|]|].
    - apply (px_table_change _ _ _ _ _ _ None one_client ∅); [apply step_create|done].
    - apply (px_table_change _ _ _ _ (Proxies one_client ∅ []) ∅ (Some (0, 1%nat)) one_connecting); [|set_solver].
      apply step_timer_connecting; [|set_solver].
      eexists. split; [apply elem_of_cons; left; reflexivity|]. done. }
  eapply px_next; [eapply px_next; [eapply px_next; [exact H0|]|]|].
  - apply (px_callback _ _ _ _ _ _ 1%nat (LWS_CALLBACK_CLIENT_ESTABLISHED true None) 0 px1); [|vm_compute; reflexivity].
    split; [set_solver|done].
  - apply (px_callback _ _ _ _ _ _ 1%nat (LWS_CALLBACK_CLIENT_RECEIVE (reply 1 [JInt 0])) 0 px2); vm_compute; eauto.
  - apply (px_callback _ _ _ _ _ _ 1%nat
      (LWS_CALLBACK_CLIENT_RECEIVE (reply 2 [JInt 0; JObject [("net", ex_sig)]])) 0 px3); vm_compute; eauto.
Qed.

Lemma closed_connection_cleaned_witness :
  exists s', ws_ubusproxy_cb (H := list_avl) (H0 := ref_jsonc) (H1 := ref_libubox) (fun _ => "10.0.0.2") false None
      1%nat LWS_CALLBACK_CLIENT_CLOSED px3 = Some (0, s') /\
    px_peers s' !! 1%nat = None /\ RemoveObject "net" ∈ px_bus s' /\ timer <$> clients (px_table s') = [Some 2000].
Proof.
  destruct (closed_connection_cleaned (H := list_avl) (H0 := ref_jsonc) (H1 := ref_libubox) (fun _ => "10.0.0.2")
    false None two_hosts px3 {[ 1%nat ]} 1%nat px3_reachable) as [_ Hc].
  destruct Hc as (s' & Hrun & Hp & _ & Hb & _). exists s'.
  split; [exact Hrun|]. split; [exact Hp|]. split.
  - rewrite Hb. vm_compute. right. left.
  - assert (Some (0, s') = Some (0, px_run 1%nat LWS_CALLBACK_CLIENT_CLOSED px3)) as [= ->].
    { rewrite <- Hrun. vm_compute. reflexivity. }
    vm_compute. reflexivity.
Defined.
