(* ===== verification/MergeProps.v ===== *)
(** * A second answer to "list": the stubs it leaves

    [receive_list] of UbusProxy.v walks along the stubs while it goes through the
    objects of an answer.  Here the walk is compared with a reference that looks
    every object up on its own: as long as the walk does not run off the end of
    the stubs the two agree, and exactly when it does is decided by the answer. *)

From Stdlib Require Import Ascii.
From stdpp Require Import base list strings numbers sorting sets gmap.
From S2P Require Import Prelude CStrings Avl Patterns Libs WsubusClient Rpc PeerIO UbusProxy ProxyProps ProxyConn.

Local Arguments strcmp : simpl never.

Set Default Proof Using "Type".

(** ** The reference *)

Section reference.
Context `{AvlTree, JsonC}.
Variable peer : string.
Variable mac_prefix : bool.
Variable leases : option (list string).
Variable paths_tree : list string.

#[local] Abbreviation wants o := (wsubus_client_match_pattern paths_tree o.1).

(** The signature of a listed object. *)
Definition listed_sig (o : string * json) : signature := default [] (signature_of o.2).

Definition add_stub (o : string * json) (r : remote) : remote :=
  emit (AddObject (stub_name peer mac_prefix leases o.1) (listed_sig o))
    match avl_insert strcmp (r_tree r) o.1 with
    | Some tree' => set_stubs tree' (<[o.1 := Stub (stub_addr r) (listed_sig o)]> (r_nodes r)) r
    | None => r
    end.

Definition drop_stub (k : string) (r : remote) : remote :=
  set_stubs (filter (fun x => x <> k) (r_tree r)) (delete k (r_nodes r)) (emit (RemoveObject k) r).

(** The stub a listed object has already, if it has its signature. *)
Definition up_to_date (r : remote) (o : string * json) : bool :=
  bool_decide (st_sig <$> r_nodes r !! o.1 = Some (listed_sig o)).

Definition apply_obj (r : remote) (o : string * json) : remote :=
  if up_to_date r o then r
  else
    let r := if r_nodes r !! o.1 is Some _ then drop_stub o.1 r else r in
    if wants o then add_stub o r else r.

Definition merged (r : remote) (objs : list (string * json)) : remote := foldl apply_obj r objs.

(** What a listed object asks of the local bus. *)
Definition asked (r : remote) (o : string * json) : list bus_action :=
  if up_to_date r o then []
  else (if r_nodes r !! o.1 is Some _ then [RemoveObject o.1] else []) ++
       (if wants o then [AddObject (stub_name peer mac_prefix leases o.1) (listed_sig o)] else []).

(** The signature the stub of a listed object has in the end. *)
Definition wanted_sig (r : remote) (o : string * json) : option signature :=
  if wants o || up_to_date r o then Some (listed_sig o) else None.

(** The answer runs the walk off the stubs: it starts at a stub, and an object
    from the last stub on that asks for a change is not the last of the answer. *)
Definition runs_off (r : remote) (objs : list (string * json)) : bool :=
  match objs, last (r_tree r) with
  | (key, _) :: _, Some m =>
      (strcmp key m <=? 0) &&
      existsb (fun o => (0 <=? strcmp o.1 m) && bool_decide (asked r o <> [])) (removelast objs)
  | _, _ => false
  end.

(** *** Facts on the reference *)

Lemma add_stub_new r o :
  stubs_wf r -> r_nodes r !! o.1 = None ->
  exists l1 l2, r_tree r = l1 ++ l2 /\ Forall (fun e => 0 < strcmp o.1 e) l1 /\ Forall (fun e => strcmp o.1 e < 0) l2 /\
    add_stub o r = emit (AddObject (stub_name peer mac_prefix leases o.1) (listed_sig o))
      (set_stubs (l1 ++ o.1 :: l2) (<[o.1 := Stub (stub_addr r) (listed_sig o)]> (r_nodes r)) r).
Proof.
  intros Hr Ho. assert (o.1 ∉ r_tree r) as Hk by (rewrite (stubs_nodes _ Hr), Ho; by intros []).
  destruct (sorted_split _ _ (stubs_sorted _ Hr) Hk) as (l1 & l2 & El & H1 & H2).
  exists l1, l2. split_and!; [done..|]. unfold add_stub. rewrite El. by rewrite avl_insert_new.
Qed.

Lemma add_stub_wf r o : stubs_wf r -> stubs_wf (add_stub o r).
Proof. intros Hr. eapply stubs_wf_same; [by apply (stubs_wf_insert o.1 (listed_sig o) r Hr)|done..]. Qed.

Lemma drop_stub_wf r k : stubs_wf r -> stubs_wf (drop_stub k r).
Proof. intros Hr. apply (stubs_wf_delete k (emit _ r)). by eapply stubs_wf_same. Qed.

Lemma apply_obj_wf r o : stubs_wf r -> stubs_wf (apply_obj r o).
Proof.
  intros Hr. unfold apply_obj. case_match; [done|]. cbv zeta.
  repeat case_match; auto using add_stub_wf, drop_stub_wf.
Qed.

(** The stub of an object that was applied; no other one changes. *)
Lemma apply_obj_nodes r o :
  stubs_wf r ->
  (forall k, k <> o.1 -> r_nodes (apply_obj r o) !! k = r_nodes r !! k) /\
  st_sig <$> r_nodes (apply_obj r o) !! o.1 = wanted_sig r o /\
  (up_to_date r o = true -> apply_obj r o = r).
Proof.
  intros Hr. unfold apply_obj, wanted_sig. destruct (up_to_date r o) eqn:E.
  { rewrite orb_true_r. apply bool_decide_eq_true in E. done. }
  rewrite orb_false_r. cbv zeta. set (r1 := if r_nodes r !! o.1 is Some _ then drop_stub o.1 r else r).
  assert (stubs_wf r1 /\ r_nodes r1 !! o.1 = None /\ forall k, k <> o.1 -> r_nodes r1 !! k = r_nodes r !! k)
    as (Hr1 & Hn & Hk).
  { unfold r1. destruct (r_nodes r !! o.1) eqn:En; [|done]. split_and!; [by apply drop_stub_wf|..]; simpl.
    - apply lookup_delete_eq.
    - intros k ?. by rewrite lookup_delete_ne. }
  clearbody r1. destruct (wants o); [|by rewrite Hn].
  destruct (add_stub_new r1 o Hr1 Hn) as (l1 & l2 & _ & _ & _ & ->). simpl.
  rewrite lookup_insert_eq. split_and!; [|done..]. intros k ?. rewrite lookup_insert_ne by done. auto.
Qed.

Lemma apply_obj_out r o : r_out (apply_obj r o) = r_out r ++ asked r o.
Proof.
  unfold apply_obj, asked. case_match; [by rewrite app_nil_r|]. cbv zeta.
  destruct (r_nodes r !! o.1); destruct (wants o); unfold add_stub; simpl; rewrite ?app_nil_r; try done;
    by destruct (avl_insert _ _ _); simpl; rewrite <- ?app_assoc.
Qed.

Lemma apply_obj_connection r o : same_connection r (apply_obj r o).
Proof.
  unfold apply_obj. case_match; [done|]. cbv zeta.
  destruct (r_nodes r !! o.1); destruct (wants o); unfold add_stub; try done; by destruct (avl_insert _ _ _).
Qed.

(** What an object asks for depends on its own stub only. *)
Lemma asked_same r r' o : r_nodes r' !! o.1 = r_nodes r !! o.1 -> asked r' o = asked r o /\ wanted_sig r' o = wanted_sig r o.
Proof. intros E. unfold asked, wanted_sig, up_to_date. by rewrite E. Qed.

Lemma same_connection_trans r1 r2 r3 : same_connection r1 r2 -> same_connection r2 r3 -> same_connection r1 r3.
Proof. intros (?&?&?&?&?&?&?&?) (?&?&?&?&?&?&?&?). unfold same_connection. split_and!; congruence. Qed.

Lemma merged_spec r objs :
  stubs_wf r -> NoDup objs.*1 ->
  stubs_wf (merged r objs) /\ same_connection r (merged r objs) /\
  r_out (merged r objs) = r_out r ++ concat (asked r <$> objs) /\
  (forall k, k ∉ objs.*1 -> r_nodes (merged r objs) !! k = r_nodes r !! k) /\
  (forall o, o ∈ objs -> st_sig <$> r_nodes (merged r objs) !! o.1 = wanted_sig r o /\
     (asked r o = [] -> r_nodes (merged r objs) !! o.1 = r_nodes r !! o.1)).
Proof.
  revert r. induction objs as [|o objs IH]; intros r Hr Hnd.
  { split_and!; try done; simpl; [by rewrite app_nil_r|by intros o ?%elem_of_nil]. }
  cbn [fmap list_fmap] in Hnd. apply NoDup_cons in Hnd as [Ho Hnd].
  destruct (apply_obj_nodes r o Hr) as (Hother & Hsig & Hkeep).
  destruct (IH (apply_obj r o) (apply_obj_wf r o Hr) Hnd) as (Hwf & Hc & Hout & Hk & Hin).
  assert (forall o', o' ∈ objs -> r_nodes (apply_obj r o) !! o'.1 = r_nodes r !! o'.1) as Hsame.
  { intros o' Ho'. apply Hother. intros E. apply Ho. rewrite <- E. by apply list_elem_of_fmap_2. }
  cbn [merged foldl]. fold (merged (apply_obj r o) objs). split_and!.
  - done.
  - eapply same_connection_trans; [apply apply_obj_connection|done].
  - rewrite Hout, apply_obj_out, <- app_assoc. cbn [fmap list_fmap concat]. do 3 f_equal.
    apply list_fmap_ext. intros i o' Ho'%list_elem_of_lookup_2. by apply asked_same, Hsame.
  - cbn [fmap list_fmap]. intros k [? ?]%not_elem_of_cons. rewrite Hk by done. auto.
  - intros o' [->|Ho']%elem_of_cons.
    + rewrite Hk by done. split; [done|]. intros Ha. destruct (up_to_date r o) eqn:E; [by rewrite Hkeep|].
      revert Ha. unfold asked, wanted_sig, apply_obj in *. rewrite E in *. cbv zeta.
      destruct (r_nodes r !! o.1) eqn:En; [done|]. destruct (wants o); [done|]. by intros _; rewrite En.
    + destruct (Hin o' Ho') as [H1 H2]. destruct (asked_same r (apply_obj r o) o' (Hsame o' Ho')) as [Ea Ew].
      rewrite <- Ea, <- Ew, <- (Hsame o' Ho'). done.
Qed.
End reference.

(** ** The walk *)

Lemma key_before_split l1 k l2 prev :
  k ∉ l1 -> key_before (l1 ++ k :: l2) k prev = match last l1 with Some x => Some x | None => prev end.
Proof.
  revert prev. induction l1 as [|x l1 IH]; intros prev; [simpl; by rewrite decide_True|].
  rewrite not_elem_of_cons. intros [? ?]. simpl. rewrite decide_False by done. rewrite IH by done.
  destruct l1 as [|y l1]; [done|]. rewrite last_cons_cons. by destruct (last (y :: l1)) eqn:E; [|apply last_None in E].
Qed.

Lemma existsb_ext_elem {A} (f g : A -> bool) l :
  (forall x, x ∈ l -> f x = g x) -> existsb f l = existsb g l.
Proof. induction l as [|x l IH]; intros E; simpl; [done|]. rewrite E, IH; [done|set_solver..]. Qed.

Lemma elem_of_removelast {A} (l : list A) x : x ∈ removelast l -> x ∈ l.
Proof. induction l as [|y [|z l] IH]; [done|by intros ?%elem_of_nil|]. cbn [removelast]. set_solver. Qed.

(** The keys below the wanted one, and the others. *)
Lemma sorted_split_ge k l :
  StronglySorted key_lt l ->
  exists l1 l2, l = l1 ++ l2 /\ Forall (fun e => 0 < strcmp k e) l1 /\ Forall (fun e => strcmp k e <= 0) l2.
Proof.
  induction 1 as [|e l Hs IH He]; [by exists [], []|].
  destruct (Z_lt_ge_dec 0 (strcmp k e)) as [Hlt|Hge].
  - destruct IH as (l1 & l2 & -> & H1 & H2). exists (e :: l1), l2. split_and!; [done|by constructor|done].
  - exists [], (e :: l). split_and!; [done..|]. constructor; [lia|]. eapply Forall_impl; [exact He|].
    intros x Hx. unfold key_lt in Hx. destruct (Z.eq_dec (strcmp k e) 0) as [->%strcmp_eq|]; [lia|].
    pose proof (strcmp_trans k e x). lia.
Qed.

Section walk.
Context `{AvlTree, JsonC}.
Variable peer : string.
Variable mac_prefix : bool.
Variable leases : option (list string).
Variable paths_tree : list string.

(** The last stub at the start, and its address. *)
Variables (m : string) (p : nat).

#[local] Abbreviation wants o := (wsubus_client_match_pattern paths_tree o.1).
#[local] Abbreviation apply_ := (apply_obj peer mac_prefix leases paths_tree).
#[local] Abbreviation asked_ := (asked peer mac_prefix leases paths_tree).
#[local] Abbreviation merge lp := (merge_one peer mac_prefix leases paths_tree lp).

Definition last_stub (r : remote) : Prop :=
  last (r_tree r) = Some m /\ st_ptr <$> r_nodes r !! m = Some p.

(** The walk is at a stub below which there are only names below those left, or
    past the last stub, with the result of a comparison that was not equal. *)
Inductive on_track (r : remote) (rest : list (string * json)) : cursor * Z -> Prop :=
  | track_at l1 k l2 cmp :
      r_tree r = l1 ++ k :: l2 -> (forall o x, o ∈ rest -> x ∈ l1 -> strcmp x o.1 < 0) ->
      on_track r rest (CurAt k, cmp)
  | track_past cmp :
      cmp <> 0 -> (forall o, o ∈ rest -> strcmp m o.1 < 0) -> on_track r rest (CurEnd, cmp).

(** The walk is past the stubs, and the last one is not the one it looks for, or
    the last comparison was equal: then the head of the list is read as a stub. *)
Definition off_track (r : remote) (st : cursor * Z) : Prop :=
  st.1 = CurEnd /\ (prev_ptr r CurEnd <> Some p \/ st.2 = 0).

Lemma merge_off_track o st r : off_track r st -> merge (Some p) o st r = None.
Proof.
  intros [Hc Hp]. destruct st as [c cmp], o as [name sig]. simpl in Hc, Hp. subst c.
  unfold merge_one, M_bind, deref. cbn [fst snd]. cbn [advance].
  case_bool_decide as E; [|done]. destruct Hp as [Hp| ->]; [by destruct E|done].
Qed.

Lemma prev_ptr_end r : last_stub r -> prev_ptr r CurEnd = Some p.
Proof. intros [Hl Hm]. unfold prev_ptr. simpl. rewrite Hl. simpl. done. Qed.

Lemma prev_ptr_at r l1 k l2 :
  stubs_wf r -> last_stub r -> r_tree r = l1 ++ k :: l2 -> prev_ptr r (CurAt k) <> Some p.
Proof.
  intros Hr [Hl Hm] Ht. pose proof (sorted_NoDup _ (stubs_sorted _ Hr)) as Hnd. rewrite Ht in Hnd.
  apply NoDup_app in Hnd as (_ & Hd & _). unfold prev_ptr. simpl. rewrite Ht, key_before_split.
  2:{ intros Hk. apply (Hd k Hk). left. }
  destruct (last l1) as [x|] eqn:Ex; [|done]. simpl. intros Hx.
  apply last_Some_elem_of in Ex. rewrite Ht, last_app_cons in Hl. apply last_Some_elem_of in Hl.
  destruct (r_nodes r !! x) as [sx|] eqn:Esx; [|done]. destruct (r_nodes r !! m) as [sm|] eqn:Esm; [|done].
  simplify_eq/=. assert (x = m) as -> by (eapply (stubs_distinct _ Hr); [done..|congruence]).
  by apply (Hd m Ex).
Qed.

(** The turns of the walk for one object. *)
Lemma advance_run r name l1 k l2 fuel cmp :
  stubs_wf r -> last_stub r -> r_tree r = l1 ++ k :: l2 -> (length l2 < fuel)%nat ->
  (exists pre k' l2', k :: l2 = pre ++ k' :: l2' /\ Forall (fun x => strcmp x name < 0) pre /\
     0 <= strcmp k' name /\ advance fuel r (Some p) name (CurAt k) cmp = Some (CurAt k', strcmp k' name)) \/
  (Forall (fun x => strcmp x name < 0) (k :: l2) /\
     advance fuel r (Some p) name (CurAt k) cmp = Some (CurEnd, strcmp m name)).
Proof.
  intros Hr Hm. revert l1 k fuel cmp. induction l2 as [|y l2 IH]; intros l1 k [|fuel] cmp Ht Hf;
    simpl in Hf; try lia; cbn [advance];
    rewrite bool_decide_eq_false_2 by (intros [E _]; by eapply prev_ptr_at in E); cbv zeta;
    pose proof (sorted_NoDup _ (stubs_sorted _ Hr)) as Hnd; rewrite Ht in Hnd;
    apply NoDup_app in Hnd as (_ & Hd & _);
    (assert (k ∉ l1) as Hk by (intros Hk; apply (Hd k Hk); left));
    (destruct (0 <=? strcmp k name) eqn:Ec;
     [left; eexists [], k, _; split_and!; [done|constructor|by apply Z.leb_le|done]|apply Z.leb_gt in Ec]);
    rewrite Ht, next_of_split by done.
  - right. split; [by constructor|]. destruct fuel; cbn [advance];
      rewrite prev_ptr_end, bool_decide_eq_true_2 by done;
      (destruct Hm as [Hl _]; rewrite Ht, last_snoc in Hl; by simplify_eq).
  - destruct (IH (l1 ++ [k]) y fuel (strcmp k name)) as [(pre & k' & l2' & E & Hpre & Hk' & ->)|[Hall ->]].
    + by rewrite <- app_assoc.
    + lia.
    + left. exists (k :: pre), k', l2'. split_and!; [by rewrite E|by constructor|done..].
    + right. split; [by constructor|done].
Qed.

Lemma apply_new r o :
  r_nodes r !! o.1 = None -> apply_ r o = if wants o then add_stub peer mac_prefix leases o r else r.
Proof. intros Hn. unfold apply_obj, up_to_date. rewrite Hn. simpl. done. Qed.

Lemma asked_new r o :
  r_nodes r !! o.1 = None ->
  asked_ r o = if wants o then [AddObject (stub_name peer mac_prefix leases o.1) (listed_sig o)] else [].
Proof. intros Hn. unfold asked, up_to_date. by rewrite Hn. Qed.

(** The tree with a new object between its neighbours. *)
Lemma apply_new_tree r o l1 l2 :
  r_nodes r !! o.1 = None -> r_tree r = l1 ++ l2 ->
  Forall (fun x => strcmp x o.1 < 0) l1 -> Forall (fun x => 0 < strcmp x o.1) l2 ->
  r_tree (apply_ r o) = l1 ++ (if wants o then [o.1] else []) ++ l2 /\
  (forall k, k <> o.1 -> r_nodes (apply_ r o) !! k = r_nodes r !! k) /\
  (wants o = true -> st_ptr <$> r_nodes (apply_ r o) !! o.1 = Some (stub_addr r)).
Proof.
  intros Hn Ht H1 H2. rewrite apply_new by done. destruct (wants o); [|done].
  unfold add_stub. rewrite Ht, avl_insert_new; simpl.
  - rewrite lookup_insert_eq. split_and!; [done| |done]. intros k ?. by rewrite lookup_insert_ne.
  - eapply Forall_impl; [exact H1|]. intros x. by rewrite strcmp_gt_lt.
  - eapply Forall_impl; [exact H2|]. intros x. by rewrite strcmp_gt_lt.
Qed.

(** The tree after the stub of an object was replaced. *)
Lemma apply_changed_tree r o l1 l2 :
  stubs_wf r -> up_to_date r o = false -> r_tree r = l1 ++ o.1 :: l2 ->
  r_tree (apply_ r o) = l1 ++ (if wants o then [o.1] else []) ++ l2 /\
  (forall k, k <> o.1 -> r_nodes (apply_ r o) !! k = r_nodes r !! k).
Proof.
  intros Hr Hu Ht. pose proof (stubs_sorted _ Hr) as Hs. pose proof (sorted_NoDup _ Hs) as Hnd.
  destruct (proj1 (stubs_nodes _ Hr o.1)) as [n Hn]; [rewrite Ht; set_solver|].
  assert (r_tree (drop_stub o.1 r) = l1 ++ l2) as Htd.
  { simpl. rewrite Ht in Hnd |- *. apply NoDup_app in Hnd as (_ & Hd & [Hk _]%NoDup_cons).
    rewrite filter_app, filter_cons, decide_False by (intros E; by apply E).
    rewrite !filter_all; [done|intros x Hx ->; done|]. intros x Hx ->. apply (Hd o.1 Hx). left. }
  assert (apply_ r o = apply_ (drop_stub o.1 r) o) as ->.
  { rewrite (apply_new (drop_stub o.1 r)) by apply lookup_delete_eq. unfold apply_obj. rewrite Hu, Hn. done. }
  rewrite Ht in Hs. destruct (apply_new_tree (drop_stub o.1 r) o l1 l2) as (E1 & E2 & _); try done.
  - apply lookup_delete_eq.
  - apply Forall_forall. intros x Hx. apply (StronglySorted_app_cross _ _ _ x o.1 Hs Hx). left.
  - apply Forall_forall. intros x Hx. apply strcmp_gt_lt. rewrite cons_middle, app_assoc in Hs.
    apply (StronglySorted_app_cross _ _ _ o.1 x Hs); set_solver.
  - split; [done|]. intros k Hk. rewrite E2 by done. simpl. by rewrite lookup_delete_ne.
Qed.

(** Names after the one at hand are above everything below it. *)
Lemma below_rest o rest l :
  StronglySorted name_lt (o :: rest) -> Forall (fun x => strcmp x o.1 < 0) l ->
  forall o' x, o' ∈ rest -> x ∈ l \/ x = o.1 -> strcmp x o'.1 < 0.
Proof.
  intros Hs Hl o' x Ho' Hx. apply StronglySorted_inv in Hs as [_ Hs].
  rewrite Forall_forall in Hs. rewrite Forall_forall in Hl. specialize (Hs o' Ho'). unfold name_lt in Hs.
  destruct Hx as [Hx| ->]; [|done]. by eapply strcmp_trans; [apply Hl|].
Qed.

(** One object after the last stub. *)
Lemma step_past r o rest cmp :
  stubs_wf r -> last_stub r -> StronglySorted name_lt (o :: rest) ->
  cmp <> 0 -> Forall (fun x => strcmp x o.1 < 0) (r_tree r) ->
  r_nodes r !! o.1 = None /\
  (if wants o then off_track (apply_ r o) (CurEnd, cmp) /\ asked_ r o <> []
   else apply_ r o = r /\ on_track r rest (CurEnd, cmp) /\ asked_ r o = []).
Proof.
  intros Hr Hm Hs Hc Hlt. assert (r_nodes r !! o.1 = None) as Hn.
  { apply eq_None_not_Some. rewrite <- (stubs_nodes _ Hr). intros Hin.
    rewrite Forall_forall in Hlt. specialize (Hlt _ Hin). rewrite strcmp_refl in Hlt. lia. }
  split; [done|]. rewrite asked_new by done.
  destruct (apply_new_tree r o (r_tree r) [] Hn) as (Ht & _ & Hp); [by rewrite app_nil_r|done|constructor|].
  destruct (wants o) eqn:Ew.
  - split; [|done]. split; [done|]. left. unfold prev_ptr. simpl. rewrite Ht, app_assoc, app_nil_r, last_snoc. simpl.
    rewrite Hp by done. intros [= E]. destruct Hm as [_ Hm].
    destruct (r_nodes r !! m) as [sm|] eqn:Em; [|done]. simplify_eq/=. by apply (stub_addr_new r m sm) in Em.
  - rewrite apply_new, Ew by done. split_and!; [done| |done]. apply track_past; [done|].
    intros o' Ho'. eapply below_rest; [done..|]. left. destruct Hm as [Hl _]. by apply last_Some_elem_of.
Qed.

(** One object whose stub has another signature. *)
Lemma step_changed r o rest l1 l2 :
  stubs_wf r -> last_stub r -> StronglySorted name_lt (o :: rest) -> up_to_date r o = false ->
  r_tree r = l1 ++ o.1 :: l2 ->
  let r' := apply_ r o in let st := (next_of (r_tree r) o.1, 0) in
  asked_ r o <> [] /\
  (strcmp o.1 m < 0 /\ on_track r' rest st /\ last_stub r' \/ 0 <= strcmp o.1 m /\ off_track r' st).
Proof.
  intros Hr Hm Hs Hu Ht r' st. destruct (apply_changed_tree r o l1 l2 Hr Hu Ht) as (Ht' & Hk).
  fold r' in Ht', Hk. pose proof (stubs_sorted _ Hr) as Hso. pose proof (sorted_NoDup _ Hso) as Hnd.
  destruct (proj1 (stubs_nodes _ Hr o.1)) as [n Hn]; [rewrite Ht; set_solver|].
  rewrite Ht in Hso, Hnd. apply NoDup_app in Hnd as (Hnd1 & Hd & [Hnl2 Hnd2]%NoDup_cons).
  split; [unfold asked; by rewrite Hu, Hn|].
  unfold st. rewrite Ht, next_of_split by (intros Hin; apply (Hd _ Hin); left).
  destruct Hm as [Hl Hmp]. rewrite Ht, last_app_cons in Hl. destruct l2 as [|y l2].
  - injection Hl as Hmo. rewrite <- Hmo in Hmp |- *. right. rewrite strcmp_refl. split; [lia|]. split; [done|by right].
  - left. rewrite last_cons_cons in Hl. pose proof (last_Some_elem_of _ _ Hl) as Hin.
    assert (strcmp o.1 m < 0) as Hom.
    { rewrite cons_middle, app_assoc in Hso. apply (StronglySorted_app_cross key_lt _ _ o.1 m Hso); set_solver. }
    split; [done|]. split.
    + eapply (track_at _ _ (l1 ++ if wants o then [o.1] else [])); [by rewrite Ht', <- app_assoc|].
      intros o' x Ho' Hx. eapply (below_rest o rest l1); [done| |done|].
      * apply Forall_forall. intros z Hz. apply (StronglySorted_app_cross _ _ _ z o.1 Hso Hz). left.
      * destruct (wants o); set_solver.
    + split; [by rewrite Ht', app_assoc, last_app_cons|]. rewrite Hk; [done|]. intros E.
      rewrite E, strcmp_refl in Hom. lia.
Qed.

(** One new object between stubs. *)
Lemma step_between r o rest l1 k l2 :
  stubs_wf r -> last_stub r -> StronglySorted name_lt (o :: rest) -> r_tree r = l1 ++ k :: l2 ->
  Forall (fun x => strcmp x o.1 < 0) l1 -> 0 < strcmp k o.1 ->
  r_nodes r !! o.1 = None /\ strcmp o.1 m < 0 /\ last_stub (apply_ r o) /\
  forall cmp, on_track (apply_ r o) rest (CurAt k, cmp).
Proof.
  intros Hr [Hl Hmp] Hso Ht Hlt Hk. pose proof (stubs_sorted _ Hr) as Hsorted.
  assert (Forall (fun x => 0 < strcmp x o.1) (k :: l2)) as Hgt.
  { constructor; [lia|]. rewrite Ht, cons_middle, app_assoc in Hsorted. apply Forall_forall. intros x Hx.
    apply strcmp_gt_lt. eapply strcmp_trans; [by apply strcmp_gt_lt|].
    apply (StronglySorted_app_cross key_lt _ _ k x Hsorted); set_solver. }
  assert (r_nodes r !! o.1 = None) as Hn.
  { apply eq_None_not_Some. rewrite <- (stubs_nodes _ Hr), Ht, elem_of_app. rewrite Forall_forall in Hlt.
    rewrite Forall_forall in Hgt. pose proof (strcmp_refl o.1). intros [Hin%Hlt|Hin%Hgt]; lia. }
  destruct (apply_new_tree r o _ _ Hn Ht Hlt Hgt) as (Ht' & Hnodes & _).
  rewrite Ht, last_app_cons in Hl. rewrite Forall_forall in Hgt.
  pose proof (Hgt m (last_Some_elem_of _ _ Hl)) as Hom.
  split_and!; [done|by apply strcmp_gt_lt|..].
  - split; [by rewrite Ht', app_assoc, last_app_cons|]. rewrite Hnodes; [done|]. intros Em. rewrite Em, strcmp_refl in Hom. lia.
  - intros cmp. eapply (track_at _ _ (l1 ++ if wants o then [o.1] else [])); [by rewrite Ht', <- app_assoc|].
    intros o' x Ho' Hx. eapply (below_rest o rest l1); [done..|]. destruct (wants o); set_solver.
Qed.

(** How far an object of the answer takes the walk. *)
Definition stepped (r : remote) (o : string * json) (rest : list (string * json)) (st' : cursor * Z) : Prop :=
  on_track (apply_ r o) rest st' /\ last_stub (apply_ r o) /\ (strcmp o.1 m < 0 \/ asked_ r o = []) \/
  off_track (apply_ r o) st' /\ 0 <= strcmp o.1 m /\ asked_ r o <> [].

Lemma stepped_past r o rest cmp :
  stubs_wf r -> last_stub r -> StronglySorted name_lt (o :: rest) ->
  cmp <> 0 -> Forall (fun x => strcmp x o.1 < 0) (r_tree r) ->
  r_nodes r !! o.1 = None /\ stepped r o rest (CurEnd, cmp).
Proof.
  intros Hr Hm Hso Hc Hlt. destruct (step_past r o rest cmp Hr Hm Hso Hc Hlt) as [Hn Hw]. split; [done|].
  unfold stepped. destruct (wants o); [right|left; destruct Hw as (-> & ? & ?); by auto].
  destruct Hw. split_and!; [done| |done]. rewrite Forall_forall in Hlt.
  specialize (Hlt m (last_Some_elem_of _ _ (proj1 Hm))). apply strcmp_gt_lt in Hlt. lia.
Qed.

Lemma stepped_found r o rest l1 l2 :
  stubs_wf r -> last_stub r -> StronglySorted name_lt (o :: rest) -> r_tree r = l1 ++ o.1 :: l2 ->
  Forall (fun x => strcmp x o.1 < 0) l1 ->
  stepped r o rest (if up_to_date r o then CurAt o.1 else next_of (r_tree r) o.1, 0).
Proof.
  intros Hr Hm Hso Ht Hlt. unfold stepped. destruct (up_to_date r o) eqn:Eu.
  - left. destruct (apply_obj_nodes peer mac_prefix leases paths_tree r o Hr) as (_ & _ & ->); [|done].
    split_and!; [|done|right; unfold asked; by rewrite Eu].
    eapply track_at; [exact Ht|]. intros. eapply below_rest; eauto.
  - destruct (step_changed r o rest _ _ Hr Hm Hso Eu Ht) as [Hask [(?&?&?)|[??]]]; [left|right]; auto.
Qed.

(** Past the last stub every name left is above all stubs. *)
Lemma above_all r name :
  stubs_wf r -> last_stub r -> strcmp m name < 0 -> Forall (fun x => strcmp x name < 0) (r_tree r).
Proof.
  intros Hr [Hl _] Hlt. apply Forall_forall. intros x Hx. destruct (decide (x = m)) as [->|Hxm]; [done|].
  eapply strcmp_trans; [|exact Hlt]. pose proof (stubs_sorted _ Hr) as Hs.
  apply last_Some in Hl as [l' Hl]. rewrite Hl in Hs, Hx.
  apply (StronglySorted_app_cross key_lt _ _ x m Hs); set_solver.
Qed.

Hypothesis peer_ok : ("/"%char ∉ chars peer) /\ (String.length peer <= 50)%nat.
Hypothesis leases_ok :
  forall l line, leases = Some l -> line ∈ l -> "/"%char ∉ chars (scan_lease line).1.

Lemma create_run o r :
  is_Some (signature_of o.2) ->
  wsu_local_stub_create peer mac_prefix leases o.1 o.2 r = Some (tt, add_stub peer mac_prefix leases o r).
Proof using peer_ok leases_ok.
  intros [s Hs]. unfold wsu_local_stub_create, add_stub, listed_sig. unfold M_bind at 1, deref at 1. rewrite Hs.
  fold (stub_name peer mac_prefix leases o.1). unfold M_bind, deref, modify.
  unfold stub_name at 1. destruct peer_ok. by rewrite stub_name_local.
Qed.

Lemma create_wanted o r :
  is_Some (signature_of o.2) ->
  (when wants o do wsu_local_stub_create peer mac_prefix leases o.1 o.2) r =
  Some (tt, if wants o then add_stub peer mac_prefix leases o r else r).
Proof using peer_ok leases_ok. intros Hs. destruct (wants o); [by apply create_run|done]. Qed.

(** The walk stopped beside the place of a new object. *)
Lemma merge_new lp r o c cmp c' cmp' :
  is_Some (signature_of o.2) -> r_nodes r !! o.1 = None ->
  (c = CurNull /\ (c', cmp') = (c, cmp) \/ c <> CurNull /\ advance (S (length (r_tree r))) r lp o.1 c cmp = Some (c', cmp')) ->
  cmp' <> 0 -> merge lp o (c, cmp) r = Some ((c', cmp'), apply_ r o).
Proof using peer_ok leases_ok.
  intros Hs Hn Hc Hne. rewrite apply_new by done. pose proof (create_wanted o r Hs) as Hw.
  apply Z.eqb_neq in Hne. destruct o as [name sig]. simpl in *. unfold merge_one, M_bind, deref. cbn [fst snd].
  destruct Hc as [[-> [= -> ->]]|[? Ha]]; [|destruct c; [done|rewrite Ha..]];
    simpl; rewrite Hne; simpl; by rewrite Hw.
Qed.

(** The walk stopped at the stub of the object. *)
Lemma merge_found lp r o k cmp :
  stubs_wf r -> is_Some (signature_of o.2) -> o.1 ∈ r_tree r ->
  advance (S (length (r_tree r))) r lp o.1 (CurAt k) cmp = Some (CurAt o.1, 0) ->
  merge lp o (CurAt k, cmp) r =
    Some ((if up_to_date r o then CurAt o.1 else next_of (r_tree r) o.1, 0), apply_ r o).
Proof using peer_ok leases_ok.
  intros Hr Hs Hin Ha. pose proof (stub_destroyed o.1 r Hr Hin) as Hd.
  apply (stubs_nodes _ Hr) in Hin as [n Hn]. pose proof (create_wanted o (drop_stub o.1 r) Hs) as Hw.
  destruct Hs as [s Hs]. unfold apply_obj, up_to_date, listed_sig in *. rewrite Hs, Hn in *.
  destruct o as [name sig]. simpl in *. unfold merge_one, M_bind, deref. cbn [fst snd]. rewrite Ha. simpl.
  rewrite Hn, (same_signature_iff n sig s Hs).
  destruct (decide (st_sig n = s)) as [E|E].
  - rewrite !bool_decide_eq_true_2 by congruence. done.
  - rewrite !bool_decide_eq_false_2 by congruence. unfold gets. rewrite Hd.
    fold (drop_stub name r). by rewrite Hw.
Qed.

(** One object of the answer, from a walk that is on its track. *)
Lemma merge_step r o rest st :
  stubs_wf r -> last_stub r -> is_Some (signature_of o.2) -> StronglySorted name_lt (o :: rest) ->
  on_track r (o :: rest) st ->
  exists st', merge (Some p) o st r = Some (st', apply_ r o) /\ stepped r o rest st'.
Proof using peer_ok leases_ok.
  intros Hr Hm Hs Hso [l1 k l2 cmp Ht Hbelow|cmp Hc Hbelow].
  2:{ exists (CurEnd, cmp). destruct (stepped_past r o rest cmp Hr Hm Hso Hc) as [Hn ?].
      - apply above_all; auto. apply Hbelow. left.
      - split; [|done]. apply merge_new; try done. right. split; [done|]. cbn [advance].
        by rewrite prev_ptr_end, bool_decide_eq_true_2. }
  assert (Forall (fun x => strcmp x o.1 < 0) l1) as Hl1.
  { apply Forall_forall. intros x Hx. apply Hbelow; [left|done]. }
  destruct (advance_run r o.1 l1 k l2 (S (length (r_tree r))) cmp Hr Hm Ht)
    as [(pre & k' & l2' & E & Hpre & Hge & Ha)|[Hlt Ha]].
  - rewrite Ht, length_app. simpl. lia.
  - rewrite E, app_assoc in Ht. pose proof (Forall_app_2 _ _ _ Hl1 Hpre) as Hlt.
    destruct (Z.eq_dec (strcmp k' o.1) 0) as [E0|Hne].
    + rewrite E0 in Ha. apply strcmp_eq in E0. subst k'. eexists. split; [|by eapply stepped_found].
      apply merge_found; try done. rewrite Ht. apply elem_of_app. right. left.
    + destruct (step_between r o rest _ _ _ Hr Hm Hso Ht Hlt) as (Hn & ? & ? & Htr); [lia|].
      exists (CurAt k', strcmp k' o.1). split; [by apply merge_new; auto|]. left. auto.
  - assert (strcmp m o.1 < 0) as Hmo.
    { rewrite Forall_forall in Hlt. apply Hlt. destruct Hm as [Hl _]. rewrite Ht, last_app_cons in Hl.
      by apply last_Some_elem_of. }
    destruct (stepped_past r o rest (strcmp m o.1) Hr Hm Hso) as [Hn ?]; [lia|by apply above_all|].
    eexists. split; [|done]. apply merge_new; auto. lia.
Qed.

(** All objects: the walk and the reference agree, or the walk is lost before
    the last object. *)
Lemma merge_on_track r objs st :
  stubs_wf r -> last_stub r -> Forall (fun o => is_Some (signature_of o.2)) objs ->
  StronglySorted name_lt objs -> on_track r objs st ->
  merge_all peer mac_prefix leases paths_tree (Some p) objs st r =
  if existsb (fun o => (0 <=? strcmp o.1 m) && bool_decide (asked_ r o <> [])) (removelast objs)
  then None else Some (tt, merged peer mac_prefix leases paths_tree r objs).
Proof using peer_ok leases_ok.
  revert r st. induction objs as [|o rest IH]; intros r st Hr Hm Hsig Hs Htr; [done|].
  apply Forall_cons in Hsig as [Ho Hsig]. destruct (merge_step r o rest st Hr Hm Ho Hs Htr) as (st' & Hrun & Hst).
  cbn [merge_all]. unfold M_bind at 1. rewrite Hrun. pose proof (StronglySorted_inv Hs) as [Hs' Habove].
  assert (rest <> [] -> removelast (o :: rest) = o :: removelast rest) as Hrl by (by destruct rest).
  destruct Hst as [(Htr' & Hm' & Hask)|(Hoff & Hge & Hask)].
  - rewrite IH by auto using apply_obj_wf. destruct (decide (rest = [])) as [->|Hne]; [done|].
    rewrite Hrl by done. cbn [existsb merged foldl].
    replace ((0 <=? strcmp o.1 m) && bool_decide (asked_ r o <> [])) with false.
    2:{ symmetry. apply andb_false_iff. destruct Hask as [?| ->]; [left; by apply Z.leb_gt|by right]. }
    simpl. destruct (apply_obj_nodes peer mac_prefix leases paths_tree r o Hr) as (Hother & _).
    match goal with |- (if ?a then _ else _) = (if ?b then _ else _) => replace a with b; [done|] end.
    apply existsb_ext_elem. intros o' Ho'%elem_of_removelast. f_equal. apply bool_decide_ext. f_equiv.
    destruct (asked_same peer mac_prefix leases paths_tree r (apply_ r o) o') as [-> _]; [|done].
    apply Hother. intros E. rewrite Forall_forall in Habove. specialize (Habove o' Ho'). unfold name_lt in Habove.
    rewrite E, strcmp_refl in Habove. lia.
  - destruct rest as [|o2 rest]; [done|]. cbn [merge_all]. unfold M_bind at 1.
    rewrite merge_off_track by done. rewrite Hrl by done. cbn [existsb].
    by rewrite (proj2 (Z.leb_le _ _)), bool_decide_eq_true_2.
Qed.

(** Without a stub to start from, every object is new. *)
Lemma merge_from_null r objs lp cmp :
  stubs_wf r -> Forall (fun o => is_Some (signature_of o.2)) objs -> StronglySorted name_lt objs -> cmp <> 0 ->
  (forall o, o ∈ objs -> Forall (fun x => strcmp x o.1 < 0) (r_tree r)) ->
  merge_all peer mac_prefix leases paths_tree lp objs (CurNull, cmp) r =
  Some (tt, merged peer mac_prefix leases paths_tree r objs).
Proof using peer_ok leases_ok.
  intros Hr Hsig Hs Hc. revert r Hr. induction objs as [|o rest IH]; intros r Hr Hlt; [done|].
  apply Forall_cons in Hsig as [Ho Hsig]. pose proof (StronglySorted_inv Hs) as [Hs' _].
  assert (Forall (fun x => strcmp x o.1 < 0) (r_tree r)) as Hlo by (apply Hlt; left).
  assert (r_nodes r !! o.1 = None) as Hn.
  { apply eq_None_not_Some. rewrite <- (stubs_nodes _ Hr). intros Hin.
    rewrite Forall_forall in Hlo. specialize (Hlo _ Hin). rewrite strcmp_refl in Hlo. lia. }
  cbn [merge_all]. unfold M_bind at 1. rewrite (merge_new lp r o CurNull cmp CurNull cmp) by auto.
  apply IH; [done..|by apply apply_obj_wf|]. intros o' Ho'.
  destruct (apply_new_tree r o (r_tree r) [] Hn) as (-> & _); [by rewrite app_nil_r|done|constructor|].
  rewrite app_nil_r. apply Forall_app. split; [apply Hlt; by right|]. destruct (wants o); constructor; [|constructor].
  eapply (below_rest o rest []); [done..|by right].
Qed.
End walk.

Section merge_list.
Context `{AvlTree, JsonC}.
Variable peer : string.
Variable mac_prefix : bool.
Variable leases : option (list string).
Variable paths_tree : list string.
Hypothesis peer_ok : ("/"%char ∉ chars peer) /\ (String.length peer <= 50)%nat.
Hypothesis leases_ok :
  forall l line, leases = Some l -> line ∈ l -> "/"%char ∉ chars (scan_lease line).1.

(** The whole answer. *)
Lemma merge_list_run r objs :
  stubs_wf r -> Forall (fun o => is_Some (signature_of o.2)) objs -> StronglySorted name_lt objs ->
  merge_list peer mac_prefix leases paths_tree objs r =
  if runs_off peer mac_prefix leases paths_tree r objs then None
  else Some (tt, merged peer mac_prefix leases paths_tree r objs).
Proof using peer_ok leases_ok.
  intros Hr Hsig Hs. unfold merge_list, M_bind, get. destruct objs as [|[key sig] rest]; [done|].
  destruct (sorted_split_ge key (r_tree r) (stubs_sorted _ Hr)) as (l1 & l2 & Ht & H1 & H2).
  rewrite Ht at 1 2. rewrite (avl_find_ge_split _ _ _ _ H1 H2).
  assert (forall o x, o ∈ (key, sig) :: rest -> x ∈ l1 -> strcmp x o.1 < 0) as Hbelow.
  { intros o x Ho Hx. apply elem_of_cons in Ho as [->|Ho].
    - apply strcmp_gt_lt. rewrite Forall_forall in H1. by apply H1.
    - apply (below_rest (key, sig) rest l1 Hs); [|done|by left].
      eapply Forall_impl; [exact H1|]. intros y. by rewrite strcmp_gt_lt. }
  unfold runs_off. destruct l2 as [|k l2]; simpl head.
  - rewrite merge_from_null; try done.
    + rewrite app_nil_r in Ht. destruct (last (r_tree r)) as [m|] eqn:El; [|done].
      apply last_Some_elem_of in El. rewrite Ht in El.
      rewrite (proj2 (Z.leb_gt _ _)); [done|]. rewrite Forall_forall in H1. by apply H1.
    + intros o Ho. rewrite Ht, app_nil_r. apply Forall_forall. intros x Hx. by apply Hbelow.
  - destruct (last (r_tree r)) as [m|] eqn:El; [|by rewrite Ht, last_app_cons, last_None in El].
    destruct (proj1 (stubs_nodes _ Hr m)) as [n Hn]; [by apply last_Some_elem_of|].
    assert (prev_ptr r CurEnd = Some (st_ptr n)) as -> by (unfold prev_ptr; simpl; rewrite El; simpl; by rewrite Hn).
    rewrite (merge_on_track peer mac_prefix leases paths_tree m (st_ptr n)); try done.
    + assert (strcmp key m <= 0) as Hle.
      { rewrite Ht, last_app_cons in El. apply last_Some_elem_of in El. rewrite Forall_forall in H2. by apply H2. }
      by rewrite (proj2 (Z.leb_le _ _)).
    + split; [done|by rewrite Hn].
    + by eapply track_at.
Qed.
End merge_list.

(** ** In every reachable state *)

Section reachable.
Context `{AvlTree, JsonC, LibUbox}.
Variable peer : string.
Variable mac_prefix : bool.
Variable leases : option (list string).
Variable paths_tree : list string.

Lemma reachable_stubs_wf r : remote_reachable peer mac_prefix leases paths_tree r -> stubs_wf r.
Proof.
  induction 1 as [rpcd is_ssl cn r Hrun|r r' _ IH Hstep].
  - eapply established_wf; [|exact Hrun]. intros used. apply is_fresh.
  - destruct Hstep as [jobj r' _ Hrun|name sig method args ureq rc r' _ _ Hrun|q|f Hf].
    + by eapply keeps_receive.
    + by eapply keeps_handle_call.
    + by eapply stubs_wf_same.
    + destruct IH. by split.
Qed.
End reachable.

Lemma sorted_names_NoDup (objs : list (string * json)) : StronglySorted name_lt objs -> NoDup objs.*1.
Proof.
  intros Hs. apply sorted_NoDup. induction Hs as [|o l _ IH Ho]; constructor; [done|]. by apply Forall_fmap.
Qed.

Lemma receive_list_run `{AvlTree, JsonC, LibUbox} (peer : string) (mac_prefix : bool)
    (leases : option (list string)) (paths_tree : list string) (r : remote) (objs : list (string * json)) :
  ("/"%char ∉ chars peer) /\ (String.length peer <= 50)%nat ->
  (forall l line, leases = Some l -> line ∈ l -> "/"%char ∉ chars (scan_lease line).1) ->
  remote_reachable peer mac_prefix leases paths_tree r ->
  w_login r = false -> w_listen r = false -> w_list_id r <> 0 ->
  Forall (fun o => is_Some (signature_of o.2)) objs -> StronglySorted name_lt objs ->
  let run := remote_receive peer mac_prefix leases paths_tree (reply (w_list_id r) [JInt 0; JObject objs]) r in
  if runs_off peer mac_prefix leases paths_tree r objs then run = None
  else exists r', run = Some (tt, r') /\ stubs_wf r' /\ same_connection (set_list_id 0 r) r' /\
    r_out r' = r_out r ++ concat (asked peer mac_prefix leases paths_tree r <$> objs) /\
    (forall k, k ∉ objs.*1 -> r_nodes r' !! k = r_nodes r !! k) /\
    (forall o, o ∈ objs -> st_sig <$> r_nodes r' !! o.1 = wanted_sig paths_tree r o /\
       (asked peer mac_prefix leases paths_tree r o = [] -> r_nodes r' !! o.1 = r_nodes r !! o.1)).
Proof.
  intros Hp Hle Hreach Hl Hw Hne Hsig Hs run. pose proof (reachable_rinv _ _ _ _ _ Hreach) as Hri.
  pose proof (inv_list _ Hri). pose proof (inv_id _ Hri). apply reachable_stubs_wf in Hreach as Hr.
  unfold run. rewrite receive_reply, Hl, Hw, get_int_int by lia.
  rewrite Z.eqb_refl, (proj2 (Z.eqb_neq _ _)) by done. simpl.
  unfold receive_list. rewrite result_ok_zero. simpl. rewrite get_idx_array. simpl. unfold M_bind, modify.
  rewrite merge_list_run by done. destruct (runs_off _ _ _ _ r objs); [done|].
  destruct (merged_spec peer mac_prefix leases paths_tree r objs Hr (sorted_names_NoDup _ Hs))
    as (Hwf & (?&?&?&?&?&?&?&?) & Ho & Hk & Hin).
  eexists. split; [done|]. split; [by eapply stubs_wf_same|]. done.
Qed.

(** C13: the stubs follow an answer to "list".  In every reachable state of a
    connection, for an answer sorted by name: either the walk along the stubs
    runs off their end, which happens exactly if the answer starts at or below
    the last stub and some object from the last stub on asks for a change and is
    not the last of the answer; or handling the answer comes back, with exactly
    the stubs a look-up of each object gives: objects whose stub has their
    signature keep it untouched, other stubs of listed objects are replaced, or
    dropped if no pattern covers them any more, wanted objects without one get
    one, stubs that are not listed stay, and the local bus hears of exactly
    these changes, in the order of the answer. *)
Theorem list_merged `{AvlTree, JsonC, LibUbox} (peer : string) (mac_prefix : bool)
    (leases : option (list string)) (paths_tree : list string) (r : remote) (objs : list (string * json)) :
  ("/"%char ∉ chars peer) /\ (String.length peer <= 50)%nat ->
  (forall l line, leases = Some l -> line ∈ l -> "/"%char ∉ chars (scan_lease line).1) ->
  remote_reachable peer mac_prefix leases paths_tree r ->
  w_login r = false -> w_listen r = false -> w_list_id r <> 0 ->
  Forall (fun o => is_Some (signature_of o.2)) objs -> StronglySorted name_lt objs ->
  let run := remote_receive peer mac_prefix leases paths_tree (reply (w_list_id r) [JInt 0; JObject objs]) r in
  if runs_off peer mac_prefix leases paths_tree r objs then run = None
  else exists r', run = Some (tt, r') /\ stubs_wf r' /\ same_connection (set_list_id 0 r) r' /\
    r_out r' = r_out r ++ concat (asked peer mac_prefix leases paths_tree r <$> objs) /\
    (forall k, k ∉ objs.*1 -> r_nodes r' !! k = r_nodes r !! k) /\
    (forall o, o ∈ objs -> st_sig <$> r_nodes r' !! o.1 = wanted_sig paths_tree r o /\
       (asked peer mac_prefix leases paths_tree r o = [] -> r_nodes r' !! o.1 = r_nodes r !! o.1)).
Proof. apply receive_list_run. Qed.

(** ** Events about objects *)

(** The notification of an event. *)
Definition event_message (type : string) (data : json) (more : list (string * json)) : json :=
  JObject [("jsonrpc", JString "2.0"); ("method", JString "event");
           ("params", JObject (("type", JString type) :: ("data", data) :: more))].

Section events.
Context `{AvlTree, JsonC, LibUbox}.
Variable peer : string.
Variable mac_prefix : bool.
Variable leases : option (list string).
Variable paths_tree : list string.

#[local] Abbreviation receive := (remote_receive peer mac_prefix leases paths_tree).

(** A notification: what it does depends on its type and on the path in its data. *)
Lemma receive_event type data more r :
  receive (event_message type data more) r =
  (let path := json_get data "path" in
   if decide (type = "ubus.object.add") then
     if json_object_is_type path json_type_string then send_list r
     else Some (tt, emit (proxied_event peer type path) r)
   else if decide (type = "ubus.object.remove") then
     match path with
     | JString k => match avl_find strcmp (r_tree r) k with
                    | Some key => wsu_local_stub_destroy key r
                    | None => Some (tt, r)
                    end
     | _ => Some (tt, emit (proxied_event peer type path) r)
     end
   else Some (tt, emit (proxied_event peer type data) r)).
Proof.
  unfold remote_receive, event_message. simpl. rewrite json_get_object, !get_ex_object. simpl.
  unfold receive_method, M_bind, deref. rewrite get_string_string. simpl.
  rewrite !json_get_object. simpl. rewrite !json_get_object. simpl. rewrite get_string_string.
  change (strcmp "event" "event" =? 0) with true. simpl.
  assert (forall s, (strcmp s type =? 0) = bool_decide (type = s)) as Hs.
  { intros s. apply eq_bool_prop_intro. rewrite bool_decide_spec, Is_true_true, Z.eqb_eq, strcmp_eq. done. }
  rewrite !Hs. destruct (decide (type = "ubus.object.add")) as [->|].
  - rewrite bool_decide_eq_true_2, (bool_decide_eq_false_2 ("ubus.object.add" = "ubus.object.remove")) by done. simpl.
    destruct (json_object_is_type (json_get data "path") json_type_string); done.
  - rewrite bool_decide_eq_false_2 by done. simpl. destruct (decide (type = "ubus.object.remove")) as [->|].
    + rewrite bool_decide_eq_true_2 by done. simpl. destruct (json_get data "path"); try done.
      simpl. rewrite get_string_string. unfold gets. by destruct (avl_find _ _ _).
    + by rewrite bool_decide_eq_false_2.
Qed.

Lemma avl_find_sorted l k :
  StronglySorted key_lt l -> avl_find strcmp l k = if decide (k ∈ l) then Some k else None.
Proof.
  intros Hs. case_decide as Hk.
  - destruct (avl_find_complete strcmp l k) as [e He].
    + apply list_elem_of_split in Hk as (l1 & l2 & ->). exists l1, [k], l2. split_and!; [done|..].
      * apply Forall_forall. intros x Hx. apply strcmp_gt_lt, (StronglySorted_app_cross key_lt _ _ x k Hs); set_solver.
      * by repeat constructor; rewrite strcmp_refl.
      * apply Forall_forall. intros x Hx.
        rewrite cons_middle, app_assoc in Hs. apply (StronglySorted_app_cross key_lt _ _ k x Hs); set_solver.
    + exists k. by rewrite strcmp_refl.
    + rewrite He. apply avl_find_sound in He as [_ He%strcmp_eq]. by subst.
  - destruct (avl_find strcmp l k) as [e|] eqn:E; [|done]. apply avl_find_sound in E as [? E%strcmp_eq]. by subst.
Qed.
End events.

(** What such an event makes the local bus hear. *)
Definition replayed `{JsonC, LibUbox} (peer : string) (r : remote) (type path : string) (data : json) : list bus_action :=
  if decide (type = "ubus.object.add") then []
  else if decide (type = "ubus.object.remove") then if decide (path ∈ r_tree r) then [RemoveObject path] else []
  else [proxied_event peer type data].

(** The connection after it: one more request for the list, or as it was. *)
Definition followed `{JsonC} (r : remote) (type : string) (r' : remote) : Prop :=
  if decide (type = "ubus.object.add")
  then call_id r' = call_id r + 1 /\ w_list_id r' = call_id r + 1 /\
       r_write r' = r_write r ++ [WriteReq (json_object_to_json_string (list_request (call_id r + 1) (r_sid r))) 0]
  else same_connection r r'.

(** Events of a remote bus, in every reachable state: the event that the object
    [path] was removed takes exactly the stub of that name off the local bus, if
    there is one, and changes nothing else; the event that an object was added
    queues exactly one request for the list, with the next id, and remembers that
    id; every event of another type is sent on the local bus, once, with the
    proxied name. *)
Lemma receive_event_run `{AvlTree, JsonC, LibUbox} (peer : string) (mac_prefix : bool)
    (leases : option (list string)) (paths_tree : list string) (r : remote) (type path : string)
    (data more : list (string * json)) :
  remote_reachable peer mac_prefix leases paths_tree r -> call_id r < 2 ^ 31 - 1 ->
  fits (list_request (call_id r + 1) (r_sid r)) ->
  (type = "ubus.object.add" \/ type = "ubus.object.remove" -> assoc "path" data = Some (JString path)) ->
  exists r', remote_receive peer mac_prefix leases paths_tree (event_message type (JObject data) more) r = Some (tt, r') /\
    stubs_wf r' /\ r_out r' = r_out r ++ replayed peer r type path (JObject data) /\
    r_nodes r' = (if decide (type = "ubus.object.remove") then delete path (r_nodes r) else r_nodes r) /\
    followed r type r'.
Proof.
  intros Hr Hid Hf Hpath. pose proof (inv_id _ (reachable_rinv _ _ _ _ _ Hr)).
  pose proof (reachable_stubs_wf _ _ _ _ _ Hr) as Hwf.
  assert (s32 (call_id r + 1) = call_id r + 1) as Hs by (apply s32_small; lia).
  unfold replayed, followed. rewrite receive_event. cbv zeta. rewrite json_get_object.
  destruct (decide (type = "ubus.object.add")) as [->|].
  - rewrite Hpath by auto. simpl. rewrite send_list_ok, Hs by (by rewrite Hs). eexists. split; [done|]. split; [by eapply stubs_wf_same|].
    by rewrite app_nil_r.
  - destruct (decide (type = "ubus.object.remove")) as [->|].
    2:{ eexists. split; [done|]. split; [by eapply stubs_wf_same|]. done. }
    rewrite Hpath by auto. simpl. rewrite avl_find_sorted by apply Hwf. destruct (decide (path ∈ r_tree r)) as [Hin|Hin].
    + rewrite stub_destroyed by done. eexists. split; [done|]. split; [|done]. by apply drop_stub_wf.
    + exists r. rewrite app_nil_r, delete_id; [done|]. apply eq_None_not_Some. by rewrite <- (stubs_nodes _ Hwf).
Qed.

(** The connection of ProxyProps.v when the far bus gets another object. *)
Definition ex_added : json := event_message "ubus.object.add" (JObject [("path", JString "wifi")]) [].
Definition ex_r6 : remote := after (ex_receive ex_added) ex_r3.

Lemma ex_r6_reachable :
  remote_reachable (H := list_avl) (H0 := ref_jsonc) (H1 := ref_libubox) "10.0.0.7" false None [] ex_r6.
Proof.
  eapply reachable_step; [apply ex_r3_reachable|].
  eapply (step_receive _ _ _ _ _ ex_added ex_r6); vm_compute; reflexivity.
Qed.

(** A list with a new object before the stub, the stub, and a new one at the end. *)
Lemma list_merged_witness :
  let objs := [("lan", ex_sig); ("net", ex_sig); ("wifi", ex_sig)] in
  exists r', ex_receive (reply (w_list_id ex_r6) [JInt 0; JObject objs]) ex_r6 = Some (tt, r') /\
    is_Some (r_nodes r' !! "lan") /\ r_nodes r' !! "net" = r_nodes ex_r6 !! "net" /\
    length (r_out r') = (length (r_out ex_r6) + 2)%nat.
Proof.
  intros objs.
  assert (StronglySorted name_lt objs) as Hs by (unfold objs, name_lt; repeat constructor).
  pose proof (list_merged (H := list_avl) (H0 := ref_jsonc) (H1 := ref_libubox) "10.0.0.7" false None [] ex_r6 objs
    ltac:(split; [by apply no_slash|simpl; lia]) ltac:(done) ex_r6_reachable eq_refl eq_refl ltac:(done)
    ltac:(repeat constructor; eexists; reflexivity) Hs) as Hm.
  replace (runs_off "10.0.0.7" false None [] ex_r6 objs) with false in Hm by (vm_compute; reflexivity).
  destruct Hm as (r' & Hrun & _ & _ & Ho & _ & Hin). exists r'. split; [exact Hrun|].
  destruct (Hin ("lan", ex_sig) ltac:(left)) as [Hl _]. destruct (Hin ("net", ex_sig) ltac:(right; left)) as [_ Hn].
  split_and!.
  - simpl in Hl. destruct (r_nodes r' !! "lan"); [by eexists|discriminate Hl].
  - apply Hn. vm_compute. reflexivity.
  - rewrite Ho. vm_compute. reflexivity.
Defined.
