(* ===== verification/ProxySafety.v ===== *)
(** * What a remote bus can do to the proxy

    Every message a remote bus can send, apart from the answer to the list, which
    MergeProps.v is about: handling it comes back, with one exception. *)

From Stdlib Require Import Ascii.
From stdpp Require Import base list strings numbers sorting sets gmap.
From S2P Require Import Prelude CStrings Avl Patterns Libs WsubusClient Rpc PeerIO UbusProxy ProxyProps ProxyConn MergeProps.

Local Arguments strcmp : simpl never.
Set Default Proof Using "Type".

Section survive.
Context `{AvlTree, JsonC, LibUbox}.
Variable peer : string.
Variable mac_prefix : bool.
Variable leases : option (list string).
Variable paths_tree : list string.

(** The requests of the proxy fit, with any session id a login can give. *)
Definition requests_fit : Prop :=
  forall id sid, (String.length sid <= 32)%nat -> fits (listen_request id sid) /\ fits (list_request id sid).

(** The message is taken for the list the proxy waits for. *)
Definition list_answer (r : remote) (jobj : json) : bool :=
  match json_object_object_get_ex jobj "result" with
  | Some tmp =>
      negb (w_login r) && negb (w_listen r) && negb (w_list_id r =? 0) &&
      json_object_is_type (json_get jobj "id") json_type_int &&
      (json_object_get_int (json_get jobj "id") =? w_list_id r) && result_ok tmp &&
      json_object_is_type (json_object_array_get_idx tmp 1) json_type_object
  | None => false
  end.

#[local] Abbreviation comes_back m r := (is_Some (m r)).

Lemma send_listen_back r : requests_fit -> (String.length (r_sid r) <= 32)%nat -> comes_back send_listen r.
Proof. intros Hf Hs. rewrite send_listen_ok; [by eexists|]. by apply Hf. Qed.

Lemma send_list_back r : requests_fit -> (String.length (r_sid r) <= 32)%nat -> comes_back send_list r.
Proof. intros Hf Hs. rewrite send_list_ok; [by eexists|]. by apply Hf. Qed.

(** *** The session id fits its buffer *)

Definition short_sid (r : remote) : Prop := (String.length (r_sid r) <= 32)%nat.

Lemma sid_copied_short sid : (String.length (strncat "" sid UBUS_SID_MAX_STRLEN) <= 32)%nat.
Proof.
  unfold strncat. rewrite str_app_length, str_take_length. change UBUS_SID_MAX_STRLEN with 32%nat.
  change (String.length "") with O. lia.
Qed.

Lemma short_sid_update sid : preserves short_sid (sid_update sid).
Proof.
  intros r _ [] r'. unfold sid_update, M_bind, deref, wsu_sid_update, modify. destruct sid as [sid|]; [|done].
  intros [= <-]. apply sid_copied_short.
Qed.

Lemma short_queue d : preserves short_sid (r_queue d).
Proof.
  intros r Hr [] r'. unfold r_queue. destruct (wsu_queue_write_str _ _ _) as [[? q]|]; [|done]. by intros [= <-].
Qed.

Ltac short_step :=
  lazymatch goal with
  | |- preserves short_sid (modify _) => by apply preserves_modify; intros ? ?; repeat case_match
  | |- preserves short_sid (r_queue _) => apply short_queue
  | |- preserves short_sid (sid_update _) => apply short_sid_update
  | |- _ => preserves_step
  end.

Lemma short_merge_all last_ptr objs st : preserves short_sid (merge_all peer mac_prefix leases paths_tree last_ptr objs st).
Proof.
  revert st. induction objs as [|o objs IH]; intros st; cbn [merge_all]; [apply preserves_ret|].
  apply preserves_bind; [|intros; apply IH].
  unfold merge_one, wsu_local_stub_create, wsu_local_stub_destroy. repeat short_step.
Qed.

Lemma short_receive jobj : preserves short_sid (remote_receive peer mac_prefix leases paths_tree jobj).
Proof.
  unfold remote_receive, receive_login, receive_listen, receive_list, receive_call, receive_method, answer_request,
    send_list, send_listen, next_call_id, queue_request, merge_list, wsu_local_stub_destroy.
  repeat (short_step || apply short_merge_all).
Qed.

Lemma established_short rpcd is_ssl cn r :
  pwp (remote_established rpcd is_ssl cn) (fun _ r' => short_sid r') r.
Proof.
  unfold remote_established. apply pwp_bind, pwp_modify. revert r.
  assert (forall m : M remote unit, preserves short_sid m -> forall r, r_sid r = "" -> pwp m (fun _ r' => short_sid r') r)
    as Hk by (intros m Hm r Er; apply Hm; unfold short_sid; rewrite Er; simpl; lia).
  intros r. apply Hk; [|done]. unfold send_listen, next_call_id, queue_request. repeat short_step.
Qed.

Lemma reachable_short r : remote_reachable peer mac_prefix leases paths_tree r -> short_sid r.
Proof.
  induction 1 as [rpcd is_ssl cn r Hrun|r r' _ IH Hstep].
  - by eapply established_short.
  - destruct Hstep as [jobj r' _ Hrun|name sig method args ureq rc r' _ _ Hrun|q|f _]; [by eapply short_receive| |done|done].
    revert Hrun. apply (fun Hm : preserves short_sid (wsu_local_stub_handle_call name method args ureq) => Hm r IH).
    unfold wsu_local_stub_handle_call. repeat short_step.
Qed.

(** *** Every message *)

Lemma receive_login_back tmp r : requests_fit -> comes_back (receive_login tmp) r.
Proof.
  intros Hf. unfold receive_login. destruct (negb (result_ok tmp)); [by eexists|]. cbv zeta.
  destruct (if is_null _ then None else _) as [session|]; [|by eexists].
  destruct session as [| | | |sid| |]; try (by eexists). cbn [json_object_is_type type_of_json]. rewrite get_string_string.
  unfold M_bind at 1, modify at 1, sid_update, M_bind at 1, M_bind at 1, deref, wsu_sid_update, modify.
  apply send_listen_back; [done|]. apply sid_copied_short.
Qed.

Lemma receive_call_back id tmp r : comes_back (receive_call id tmp) r.
Proof.
  unfold receive_call. destruct (negb _); [by eexists|]. cbv zeta. destruct (_ =? 0); [by eexists|].
  unfold M_bind at 1, gets. destruct (find_call _ _ _) as [[i ureq]|]; [|by eexists].
  unfold answer_request. destruct (json_object_is_type tmp json_type_array); [|by eexists]. cbv zeta.
  unfold M_bind, modify, M_ret. repeat case_match; simplify_eq; by eexists.
Qed.

Lemma receive_method_back jobj tmp r :
  requests_fit -> stubs_wf r -> short_sid r -> is_null tmp = false ->
  comes_back (receive_method peer jobj tmp) r.
Proof.
  intros Hf Hw Hs Hn. unfold receive_method. destruct (get_string_some tmp Hn) as [m Em].
  unfold M_bind at 1, deref at 1. rewrite Em. cbv zeta.
  destruct (json_get (json_get jobj "params") "type") as [| | | |type| |]; cbn [json_object_is_type type_of_json];
    rewrite ?orb_true_r; try (by eexists). rewrite orb_false_r.
  destruct (_ || _); [by eexists|]. unfold M_bind at 1, deref at 1. rewrite get_string_string.
  destruct (_ && _); [by apply send_list_back|].
  destruct (strcmp "ubus.object.remove" type =? 0); [|by eexists]. cbn [andb].
  match goal with |- context [json_object_is_type ?j json_type_string] => destruct j as [| | | |path| |] end;
    try (by eexists). change (json_object_is_type (JString path) json_type_string) with true. cbv iota.
  unfold M_bind, deref, gets. rewrite get_string_string.
  destruct (avl_find strcmp (r_tree r) path) as [key|] eqn:E; [|by eexists].
  apply avl_find_sound in E as [Hin _]. rewrite stub_destroyed by done. by eexists.
Qed.
End survive.

(** C16: what a remote bus can send.  In every reachable state, for every JSON value
    that is not the list the proxy waits for, handling the message comes back, with
    exactly one exception: a message without a "result" whose "method" is null,
    which is read as a string. *)
Theorem remote_survives `{AvlTree, JsonC, LibUbox} (peer : string) (mac_prefix : bool)
    (leases : option (list string)) (paths_tree : list string) (r : remote) (jobj : json) :
  remote_reachable peer mac_prefix leases paths_tree r -> requests_fit -> list_answer r jobj = false ->
  remote_receive peer mac_prefix leases paths_tree jobj r = None <->
  json_object_object_get_ex jobj "result" = None /\ json_object_object_get_ex jobj "method" = Some JNull.
Proof.
  intros Hr Hf Hla. pose proof (reachable_stubs_wf _ _ _ _ _ Hr) as Hw. pose proof (reachable_short _ _ _ _ _ Hr) as Hs.
  unfold remote_receive, list_answer in *. destruct (is_null jobj) eqn:En.
  { destruct jobj; try done. rewrite !get_ex_other by done. split; [done|by intros [_ ?]]. }
  cbv zeta. destruct (json_object_object_get_ex jobj "result") as [tmp|].
  - split; [|by intros [? _]]. unfold M_bind at 1, get. intros Hnone. exfalso. revert Hnone. apply not_eq_None_Some.
    destruct (w_login r); [by apply receive_login_back|]. destruct (w_listen r).
    { unfold receive_listen. destruct (result_ok tmp); [|by eexists]. unfold M_bind, modify. by apply send_list_back. }
    cbn [negb andb] in Hla.
    destruct (negb (w_list_id r =? 0) && json_object_is_type (json_get jobj "id") json_type_int &&
              (json_object_get_int (json_get jobj "id") =? w_list_id r)); cbn [andb] in Hla.
    + unfold receive_list. destruct (result_ok tmp); [|by eexists]. cbn [negb andb] in *.
      destruct (json_object_array_get_idx tmp 1); done || by eexists.
    + destruct (negb _); [apply receive_call_back|by eexists].
  - destruct (json_object_object_get_ex jobj "method") as [tmp|]; [|split; [done|by intros [_ ?]]].
    destruct (is_null tmp) eqn:Et.
    + destruct tmp; try done. split; [done|]. intros _. unfold receive_method, M_bind, deref. by rewrite get_string_null.
    + split; [|intros [_ [= ->]]; done]. intros Hnone. exfalso. revert Hnone.
      apply not_eq_None_Some. by apply receive_method_back.
Qed.

(** A message that stops the daemon, and one that does not. *)
Lemma remote_survives_witness :
  ex_receive (JObject [("method", JNull)]) ex_r3 = None /\
  ex_receive (JObject [("result", JNull); ("method", JNull)]) ex_r3 <> None.
Proof.
  split.
  - apply (remote_survives (H := list_avl) (H0 := ref_jsonc) (H1 := ref_libubox) "10.0.0.7" false None [] ex_r3).
    + apply ex_r3_reachable.
    + intros id sid _. by split.
    + reflexivity.
    + split; reflexivity.
  - intros Hnone. apply (remote_survives (H := list_avl) (H0 := ref_jsonc) (H1 := ref_libubox) "10.0.0.7" false None [] ex_r3
      (JObject [("result", JNull); ("method", JNull)]) ex_r3_reachable ltac:(intros id sid _; by split) eq_refl) in Hnone as [? _]. discriminate.
Defined.
