(* ===== verification/EndToEnd.v ===== *)
(** * A call through two daemons

    The proxy of UbusProxy.v and the client session of Session.v are the two ends
    of one connection: a local program calls a stub, the near daemon sends the
    request, the far daemon checks the call, makes it on its own bus and answers,
    and the near daemon completes the request of the local program.  The theorems
    here follow a call along that way, whatever else both daemons do in between,
    for a connection with certificates; the messages go through the texts that both
    sides print and parse. *)

From stdpp Require Import base list strings numbers sets gmap.
From S2P Require Import Prelude CStrings Avl Patterns Libs UbusxAcl WsubusClient Rpc PeerIO AccessCheck.
From S2P Require Import Session SessionInv SessionProps UbusProxy ProxyProps.

Local Arguments strcmp : simpl never.
Local Arguments strncmp : simpl never.
Set Default Proof Using "Type".

(** ** Values both formats have *)

(** Strings, 32-bit integers, and tables and unnamed arrays of these. *)
Fixpoint plain (b : blob) : bool :=
  match b with
  | BString _ => true
  | BInt32 z => (0 <=? z) && (z <? 2 ^ 32)
  | BArray l => forallb (fun a => bool_decide (a.1 = "") && plain a.2) l
  | BTable l => forallb (fun a => plain a.2) l
  | _ => false
  end.

Section blob_ind.
Variable P : blob -> Prop.
Hypothesis Hunspec : P BUnspec.
Hypothesis Harray : forall l, Forall (fun a => P a.2) l -> P (BArray l).
Hypothesis Htable : forall l, Forall (fun a => P a.2) l -> P (BTable l).
Hypothesis Hstring : forall s, P (BString s).
Hypothesis Hint64 : forall z, P (BInt64 z).
Hypothesis Hint32 : forall z, P (BInt32 z).
Hypothesis Hint16 : forall z, P (BInt16 z).
Hypothesis Hint8 : forall z, P (BInt8 z).
Hypothesis Hdouble : forall s, P (BDouble s).

(** Induction with the hypothesis for all attributes of a container. *)
Fixpoint blob_nested_ind (b : blob) : P b :=
  let all := fix all (l : list (string * blob)) : Forall (fun a => P a.2) l :=
    match l with
    | [] => Forall_nil_2 _
    | a :: l' => Forall_cons_2 _ _ _ (blob_nested_ind a.2) (all l')
    end in
  match b with
  | BUnspec => Hunspec
  | BArray l => Harray l (all l)
  | BTable l => Htable l (all l)
  | BString s => Hstring s
  | BInt64 z => Hint64 z
  | BInt32 z => Hint32 z
  | BInt16 z => Hint16 z
  | BInt8 z => Hint8 z
  | BDouble s => Hdouble s
  end.
End blob_ind.

(** Such a value comes back from JSON as it was. *)
Lemma plain_roundtrip `{JsonBlob} b : plain b = true -> json_blob (blob_json b) = b.
Proof.
  induction b as [|l IH|l IH|s|z|z|z|z|s] using blob_nested_ind; cbn [plain blob_json]; try done.
  - intros Hl%Is_true_true%forallb_True. rewrite json_blob_array. f_equal. rewrite <- list_fmap_compose.
    rewrite <- (list_fmap_id l) at 2. apply list_fmap_ext. intros i [n v] Hi. simpl.
    rewrite !Forall_lookup in *. specialize (IH i (n, v) Hi). specialize (Hl i (n, v) Hi).
    cbn [fst snd] in *. apply andb_prop_elim in Hl as [->%bool_decide_unpack Hv]. by rewrite IH by (by apply Is_true_true).
  - intros Hl%Is_true_true%forallb_True. rewrite json_blob_object. f_equal. rewrite <- list_fmap_compose.
    rewrite <- (list_fmap_id l) at 2. apply list_fmap_ext. intros i [n v] Hi. simpl.
    rewrite !Forall_lookup in *. specialize (IH i (n, v) Hi). specialize (Hl i (n, v) Hi).
    simpl in *. by rewrite IH by (by apply Is_true_true).
  - intros _. apply json_blob_string.
  - intros Hz. rewrite json_blob_int; cycle 1.
    { unfold s32. pose proof (Z.mod_pos_bound (z + 2 ^ 31) (2 ^ 32)). lia. }
    by rewrite u32_s32 by lia.
Qed.

Lemma plain_attrs `{JsonBlob} (msg : list attr) :
  plain (BTable msg) = true ->
  (fun kv => (kv.1, json_blob kv.2)) <$> ((fun a => (a.1, blob_json a.2)) <$> msg) = msg.
Proof.
  intros Hp%plain_roundtrip. cbn [blob_json] in Hp. rewrite json_blob_object in Hp. by injection Hp.
Qed.

(** ** The far daemon *)

(** The events of a session that are not about the call [p]. *)
Definition concerns (p : nat) (ev : sevent) : bool :=
  match ev with
  | EvCallChecked q _ | EvReturned q _ | EvCompleted q _ => bool_decide (q = p)
  | EvClosed => true
  | _ => false
  end.

Section far.
Context `{AvlTree, JsonC, LibUbox}.

(** Anything that happens in the session beside the call [p], which stays within
    its ten seconds. *)
Inductive others (p : nat) (s : session) : session -> Prop :=
  | others_none : others p s s
  | others_step s1 e ev s2 :
      others p s s1 -> enabled s1 ev -> safe e s1 ev -> concerns p ev = false ->
      (ev = EvCleanStale -> forall c, calls s1 !! p = Some c -> stale (e_now e) (cc_start c) = false) ->
      sstep e ev s1 = Some (tt, s2) -> others p s s2.

Lemma step_other e ev s s' p c :
  texts_fit -> sinv 0 s -> enabled s ev -> safe e s ev -> concerns p ev = false ->
  (ev = EvCleanStale -> forall c, calls s !! p = Some c -> stale (e_now e) (cc_start c) = false) ->
  sstep e ev s = Some (tt, s') -> calls s !! p = Some c -> calls s' !! p = Some c.
Proof.
  intros Hfit Hi Hen Hsafe Hno Hst Hstep Hp.
  destruct ev as [blob|q allow|t access|q msg|q status|q type msg| |]; simpl in Hno, Hstep, Hsafe, Hen; try done.
  - pose proof (safe_message s e blob s' Hfit Hi Hstep) as Hans.
    destruct (u32 (e_req_max e) <? rpc_q_len s); [by subst|].
    destruct Hans as [(l & _ & ->)|(_ & c' & -> & Hn & _)]; [done|].
    by rewrite lookup_insert_ne by congruence.
  - apply bool_decide_eq_false in Hno.
    destruct Hen as [Hk Hn]. destruct (call_checked 0 s q Hi Hk Hn) as (cq & Hq & Hck).
    destruct (access_on_completed_ok e Hfit 0 s q cq allow Hi Hq Hck) as (s2 & Hr & _ & Hres). simplify_eq.
    destruct (allow && _ && _); [destruct Hres as (_ & c' & -> & _)|destruct Hres as [_ ->]].
    + by rewrite lookup_insert_ne.
    + by rewrite lookup_delete_ne.
  - destruct Hen as [_ [n Hn]].
    destruct (ev_check_cb_ok e Hfit 0 s t n access Hi Hn) as (s2 & i & Hr & _ & _ & Hc & _). congruence.
  - apply bool_decide_eq_false in Hno. destruct Hen as (cq & Hq & Hiv).
    destruct (on_retdata_ok 0 s q cq msg Hi Hq) as (s2 & Hr & _ & _ & c' & Hc & _). simplify_eq.
    by rewrite Hc, lookup_insert_ne.
  - apply bool_decide_eq_false in Hno. destruct Hen as (cq & Hq & Hiv).
    destruct (on_completed_ok e Hfit 0 s q cq status Hi Hq Hiv) as (s2 & Hr & _ & _ & Hc & _). simplify_eq.
    by rewrite Hc, lookup_delete_ne.
  - destruct Hen as [i Hs]. destruct (sub_cb_ok e 0 s q i type msg Hi Hs) as (s2 & Hr & _ & _ & Hc); [auto|].
    congruence.
  - destruct (clean_stale_ok e 0 s Hi) as (s2 & Hr & _ & Hc & _). simplify_eq. apply Hc. auto.
Qed.

Lemma others_keep p s s' :
  texts_fit -> others p s s' -> sinv 0 s ->
  sinv 0 s' /\ forall c, calls s !! p = Some c -> calls s' !! p = Some c.
Proof.
  intros Hfit. induction 1 as [|s1 e ev s2 Ho IH Hen Hsafe Hno Hst Hstep]; intros Hi; [done|].
  destruct (IH Hi) as [Hi1 Hc].
  destruct (sstep_inv e s1 ev Hfit Hi1 Hen Hsafe) as (s3 & Hr & Hi3); [by intros ->|]. simplify_eq.
  split; [done|]. intros c ?%Hc. by eapply (step_other e ev s1).
Qed.

(** The context of a call whose access check is pending, of one that was made, and
    the step between them. *)
Definition pending_ctx (e : env) (id : option attr) (sid object method : string) (args : list attr) : call_ctx :=
  CallCtx id sid object method args [] false true (e_now e).
Definition made_ctx (c : call_ctx) : call_ctx := cc_set_invoke true (cc_set_check false c).

Lemma handle_call_run e s r id sid object method args started args' :
  r = UbusRpc (Some sid) (CallArgs object method args) (Some ubusrpc_handle_call) ->
  wsubus_access_check__call (e_acl e) (e_session e) (e_access e) (e_conn e) sid object method args =
    Some (started, args') -> started <> CheckFailed ->
  exists s', handle_call_ubus e r id s = Some (0, s') /\
    calls s' !! next_ptr s = Some (pending_ctx e id sid object method (default args args')).
Proof.
  intros -> Hc Hs. unfold handle_call_ubus, wsubus_percall_ctx_create, wsubus_call_do_check_then_do_call. run.
  rewrite lookup_insert_eq. simpl. rewrite Hc.
  destruct started; try done; repeat (run; rewrite lookup_insert_eq); run;
    eexists; (split; [done|]); simpl; by rewrite lookup_insert_eq.
Qed.

(** Allowed: the call is made with what its context has. *)
Lemma access_allowed_run e s p c :
  calls s !! p = Some c -> cc_check c = true -> strcmp (cc_sid c) UBUS_DEFAULT_SID <> 0 ->
  e_lookup e = UBUS_STATUS_OK -> e_invoke e = UBUS_STATUS_OK ->
  exists s', wsubus_access_on_completed e p true s = Some (tt, s') /\ calls s' !! p = Some (made_ctx c).
Proof.
  intros Hp Hck Hsid El Ei. unfold wsubus_access_on_completed, wsubus_call_do_call. run.
  rewrite Hp, Hck. simpl. rewrite Hp. simpl. rewrite lookup_insert_eq, El. simpl.
  rewrite (proj2 (Z.eqb_neq _ _)) by done. rewrite Ei. simpl. rewrite lookup_insert_eq. simpl.
  eexists. split; [done|]. simpl. by rewrite lookup_insert_eq.
Qed.

Lemma on_retdata_run s p c data :
  calls s !! p = Some c ->
  exists s', wsubus_call_on_retdata p (Some data) s = Some (tt, s') /\
    calls s' !! p = Some (cc_add_ret ("", data.2) c).
Proof.
  intros Hp. unfold wsubus_call_on_retdata. run. rewrite Hp. eexists. split; [done|].
  simpl. by rewrite lookup_insert_eq.
Qed.

(** The check of a peer with a certificate. *)
Definition tls_sid : string := "X-tls-certificate".

Lemma tls_check_run e object method args :
  is_ssl (e_conn e) = true -> peer_cert (e_conn e) = Some true -> strstr object "ubus.object." = None ->
  wsubus_access_check__call (e_acl e) (e_session e) (e_access e) (e_conn e) tls_sid object method args =
  Some (CheckDeferred (ubusx_acl__allow_object (e_acl e) object), Some args).
Proof.
  intros Hs Hc Ho. unfold wsubus_access_check__call, wsubus_access_check_.
  change (wsu_sid_extended tls_sid) with (Some "tls-certificate").
  change (strcmp "mgmt-interface" "tls-certificate" =? 0) with false.
  change (strcmp "tls-certificate" "tls-certificate" =? 0) with true.
  unfold tls_object. rewrite Ho. unfold wsu_ext_check_tls, check_decide. rewrite Hs, Hc. simpl.
  by destruct (ubusx_acl__allow_object (e_acl e) object).
Qed.
End far.

(** ** Both ends *)

Section both.
Context `{AvlTree} `{HB : JsonBlob}.

(** The far daemon takes the request of a call. *)
Lemma far_takes_request e s id sid object method args started args' :
  texts_fit -> sinv 0 s -> (u32 (e_req_max e) <? rpc_q_len s) = false -> - 2 ^ 31 <= id < 2 ^ 31 ->
  Forall (fun kv => kv.1 <> "_owsd_listen") args ->
  let msg := (fun kv => (kv.1, json_blob kv.2)) <$> args in
  wsubus_access_check__call (e_acl e) (e_session e) (e_access e) (e_conn e) sid object method msg =
    Some (started, args') -> started <> CheckFailed ->
  exists s', wsubus_rx_json e
      (Some (request id "call" [JString sid; JString object; JString method; JObject args])) s = Some (tt, s') /\
    sinv 0 s' /\
    calls s' !! next_ptr s =
      Some (pending_ctx e (Some ("id", BInt32 (u32 id))) sid object method (default msg args')).
Proof.
  intros Hfit Hi Hmax Hid Hargs msg Hc Hs. unfold request. cbn [wsubus_rx_json].
  rewrite add_object_object. cbn [fmap list_fmap fst snd].
  rewrite !json_blob_string, json_blob_int, json_blob_array by done.
  set (params := (fun j => ("", json_blob j)) <$> _).
  pose proof (req_parse_ok (BInt32 (u32 id)) "call" params) as Eparse.
  pose proof (call_params_parse sid object method args Hargs) as Ecall. fold params msg in Ecall.
  set (blob := [("jsonrpc", BString "2.0"); _; _; _] : list attr) in *.
  assert (safe e s (EvMessage blob)) as Hsafe.
  { assert (admitted e s blob = Some (Some ("id", BInt32 (u32 id)),
      UbusRpc (Some sid) (CallArgs object method msg) (Some ubusrpc_handle_call))) as Ha.
    { unfold admitted. rewrite Hmax, Eparse. simpl. by rewrite Ecall. }
    split; intros i r; rewrite Ha; intros [= <- <-]; [|done]. unfold request_returns. simpl. rewrite Hc. eauto. }
  destruct (sstep_inv e s (EvMessage blob) Hfit Hi I Hsafe ltac:(done)) as (s' & Hr & Hi'). simpl in Hr.
  exists s'. split; [done|]. split; [done|].
  unfold wsu_on_msg_from_client, M_bind at 1, gets in Hr. rewrite Hmax, Eparse in Hr. simpl in Hr.
  rewrite Ecall in Hr. unfold M_bind at 1, deref at 1 in Hr. simpl in Hr.
  unfold M_bind at 1, modify at 1 in Hr. unfold M_bind at 1, deref at 1 in Hr. simpl in Hr.
  edestruct (handle_call_run e (set_sid (strncat "" sid UBUS_SID_MAX_STRLEN) s)) as (s2 & Hh & Hp2); [done..|].
  unfold M_bind in Hr. rewrite Hh in Hr. simpl in Hr. injection Hr as <-. exact Hp2.
Qed.

(** The text of a response is the answer the proxy waits for. *)
Lemma response_parsed id status ret :
  - 2 ^ 31 <= id < 2 ^ 31 -> 0 <= status < 2 ^ 31 ->
  let blob := resp_ubus_blob (Some ("id", BInt32 (u32 id))) status ((fun data => ("", BTable data)) <$> ret) in
  prints_as blob ->
  json_tokener_parse (blobmsg_format_json blob) =
  answer id (JArray (JInt status :: option_list ((fun data => blob_json (BTable data)) <$> ret))).
Proof.
  intros Hid Hst blob ->. subst blob. unfold answer. cbn. rewrite !s32_u32 by lia. by destruct ret.
Qed.

(** What the proxy does with it. *)
Lemma answers_of ureq status ret :
  0 <= status < 2 ^ 31 -> (forall data, ret = Some data -> plain (BTable data) = true) ->
  answers ureq (JArray (JInt status :: option_list ((fun data => blob_json (BTable data)) <$> ret))) =
  option_list (SendReply ureq <$> ret) ++ [CompleteDeferred ureq status].
Proof using HB.
  intros Hst Hp. unfold answers. cbn [json_object_is_type type_of_json]. rewrite !get_idx_array. simpl.
  rewrite get_int_int by lia. destruct ret as [data|]; simpl; [|done].
  rewrite add_object_object, plain_attrs by auto. done.
Qed.

(** ** A call along the whole way *)

(** The connection: the near end [r] and the far end [s], which the peer reaches
    with a certificate. *)
Variable peer : string.
Variable mac_prefix : bool.
Variable leases : option (list string).
Variable paths_tree : list string.
Variable r : remote.
Variable s : session.
Hypothesis Hnear : remote_reachable peer mac_prefix leases paths_tree r.
Hypothesis Hfar : sreach s.
Hypothesis Hfit : texts_fit.
Hypothesis Hsid : r_sid r = tls_sid.
Hypothesis Hid : call_id r < 2 ^ 31 - 1.
Hypothesis Hslot : is_Some (wsu_proxied_call_new (w_call r)).1.

(** The call: an object of the far bus with a stub here, a method and a message. *)
Variable name key method : string.
Variable msg : list attr.
Hypothesis Hkey : local_name name = Some key.
Hypothesis Hplain : plain (BTable msg) = true.
Hypothesis Hlisten : Forall (fun a => a.1 <> "_owsd_listen") msg.
Hypothesis Hprint : prints_as msg.

Definition call_request : json :=
  request (call_id r + 1) "call" [JString tls_sid; JString key; JString method; blob_json (BTable msg)].
Hypothesis Hreq_fits : fits call_request.
Hypothesis Hreq_text : json_tokener_parse (json_object_to_json_string call_request) = call_request.

(** The far daemon when the request comes. *)
Variable e1 : env.
Hypothesis Hlimit : (u32 (e_req_max e1) <? rpc_q_len s) = false.
Hypothesis Hssl : is_ssl (e_conn e1) = true.
Hypothesis Hcert : peer_cert (e_conn e1) = Some true.
Hypothesis Hobject : strstr key "ubus.object." = None.

(** In any later state of the near end in which slot [i] still waits, the text
    completes the request of the caller with these actions. *)
Definition completes (i : Z) (ureq : nat) (text : string) (acts : list bus_action) : Prop :=
  forall r2, remote_reachable peer mac_prefix leases paths_tree r2 -> in_progress r2 i (call_id r + 1) ureq ->
  exists r3, remote_receive peer mac_prefix leases paths_tree (json_tokener_parse text) r2 = Some (tt, r3) /\
    r_out r3 = r_out r2 ++ acts /\ forall id u, ~ in_progress r3 i id u.

(** The way there: the request arrives with its access check pending. *)
Lemma request_arrives ureq :
  exists r1 s1 i text,
    wsu_local_stub_handle_call name method (Some (json_tokener_parse (blobmsg_format_json msg))) ureq r =
      Some (0, r1) /\
    in_progress r1 i (call_id r + 1) ureq /\ r_write r1 = r_write r ++ [WriteReq text 0] /\
    wsubus_rx_json e1 (Some (json_tokener_parse text)) s = Some (tt, s1) /\ sinv 0 s1 /\
    calls s1 !! next_ptr s =
      Some (pending_ctx e1 (Some ("id", BInt32 (u32 (call_id r + 1)))) tls_sid key method msg).
Proof using All.
  pose proof (reachable_rinv peer mac_prefix leases paths_tree r Hnear) as Hr. pose proof (inv_id _ Hr).
  destruct (wsu_proxied_call_new (w_call r)) as [[i|] mask] eqn:Hn; [|by destruct Hslot].
  destruct (far_takes_request e1 s (call_id r + 1) tls_sid key method
              ((fun a => (a.1, blob_json a.2)) <$> msg)
              (CheckDeferred (ubusx_acl__allow_object (e_acl e1) key)) (Some msg)) as (s1 & Hrx & Hi & Hp);
    try done; [by apply sreach_inv|lia|by rewrite Forall_fmap|by rewrite plain_attrs, tls_check_run|].
  rewrite Hprint. eexists _, s1, i, _. split.
  { apply (handle_call_queued name key method _ ureq r i mask); try done. by rewrite Hsid. }
  split. { apply (in_progress_new (set_call_id (call_id r + 1) r) i mask); [by apply rinv_new_id|done|by left]. }
  split; [done|]. rewrite Hsid. change (request _ _ _) with call_request. rewrite Hreq_text. done.
Qed.

(** The way back: the text of a response completes the request. *)
Lemma answer_completes i ureq status ret :
  0 <= status < 2 ^ 31 -> (forall data, ret = Some data -> plain (BTable data) = true) ->
  let id := Some ("id", BInt32 (u32 (call_id r + 1))) in
  prints_as (resp_ubus_blob id status ((fun data => ("", BTable data)) <$> ret)) ->
  completes i ureq (jsonrpc__resp_ubus id status ((fun data => ("", BTable data)) <$> ret))
    (option_list (SendReply ureq <$> ret) ++ [CompleteDeferred ureq status]).
Proof using Hnear Hid HB.
  intros Hst Hpl id Hpr r2 Hr2%reachable_rinv Hp.
  pose proof (inv_id _ (reachable_rinv peer mac_prefix leases paths_tree r Hnear)).
  subst id. unfold jsonrpc__resp_ubus. rewrite response_parsed by (done || lia).
  rewrite (receive_in_progress peer mac_prefix leases paths_tree r2 i _ ureq), answers_of by done.
  eexists. split; [done|]. split; [done|].
  intros jid u Hj. apply (in_progress_free r2 i i jid u) in Hj; [naive_solver|done|by eapply in_progress_range].
Qed.


End both.

(** ** A concrete call *)

(** "up" of the object "net" with a name, and the answer of the far bus. *)
Definition ex_msg : list attr := [("name", BString "lan"); ("timeout", BInt32 30)].
Definition ex_data : list attr := [("up", BInt32 1)].

(** A parser and a printer that are right about the texts of the call: request,
    message, response and refusal. *)
Definition ex_id : option attr := Some ("id", BInt32 3).
Definition ex_parse (text : string) : json :=
  if decide (text = "m") then blob_json (BTable ex_msg)
  else if decide (text = "a") then blob_json (BTable (resp_ubus_blob ex_id 0 (Some ("", BTable ex_data))))
  else if decide (text = "d") then blob_json (BTable (resp_ubus_blob ex_id UBUS_STATUS_PERMISSION_DENIED None))
  else request 3 "call" [JString tls_sid; JString "net"; JString "up"; blob_json (BTable ex_msg)].
Definition ex_format (l : list attr) : string :=
  match l with
  | [_; _; (_, BArray [_; _])] => "a"
  | [_; _; _] => "d"
  | _ => "m"
  end.

Definition ex_jsonc : JsonC := ref_jsonc_with ex_parse.
Definition ex_libubox : LibUbox := ref_libubox_with ex_format.

Program Definition ex_json_blob : @JsonBlob ex_jsonc ex_libubox :=
  @Build_JsonBlob ex_jsonc ex_libubox ref_json_blob _ _ _ _ _.
Next Obligation. done. Qed.
Next Obligation. done. Qed.
Next Obligation. done. Qed.
Next Obligation. done. Qed.
Next Obligation. done. Qed.

(** The near end after its handshake, with the stub of "net". *)
Definition near1 : remote := after (remote_established (H0 := ex_jsonc) false true None) remote_init.
Definition near_receive (j : json) : M remote unit :=
  remote_receive (H := list_avl) (H0 := ex_jsonc) (H1 := ex_libubox) "10.0.0.7" false None [] j.
Definition near2 : remote := after (near_receive (reply 1 [JInt 0])) near1.
Definition near3 : remote := after (near_receive (reply 2 [JInt 0; JObject [("net", ex_sig)]])) near2.

Lemma near3_reachable :
  remote_reachable (H := list_avl) (H0 := ex_jsonc) (H1 := ex_libubox) "10.0.0.7" false None [] near3.
Proof.
  eapply reachable_step; [eapply reachable_step|].
  - eapply (reachable_established _ _ _ _ false true None near1). reflexivity.
  - eapply (step_receive _ _ _ _ _ (reply 1 [JInt 0]) near2); vm_compute; reflexivity.
  - eapply (step_receive _ _ _ _ _ (reply 2 [JInt 0; JObject [("net", ex_sig)]]) near3); vm_compute; reflexivity.
Qed.

Lemma ex_fit : texts_fit (H1 := ex_libubox).
Proof. intros l. simpl. unfold ex_format. by repeat case_match. Qed.

(** The far daemon with its access list. *)
Definition ex_far (acl : list string) : env :=
  Env acl (Conn true (Some true) [] "wan") 512 (TimeSpec 0 0) true true 0 0 0 [] 0 0.


