(* ===== verification/EventFlow.v ===== *)
(** * An event through two daemons

    The far bus reports an event to the session of the proxy; the far daemon
    checks whether the peer may see it and sends it on; the near daemon replays it
    on its own bus, drops the stub of an object that is gone, or asks for the list
    when there is a new one.  As in EndToEnd.v the messages go through the texts
    that both sides print and parse, and anything else can happen on both sides in
    between. *)

From stdpp Require Import base list strings numbers sets gmap.
From S2P Require Import Prelude CStrings Avl Patterns Libs UbusxAcl WsubusClient Rpc PeerIO AccessCheck.
From S2P Require Import Session SessionInv SessionProps UbusProxy ProxyProps ProxyConn EndToEnd MergeProps.

Local Arguments strcmp : simpl never.
Local Arguments strncmp : simpl never.
Set Default Proof Using "Type".

(** ** A pending notification *)

(** The check of notification [t] is pending, and its subscription is [i] as long
    as it is there. *)
Record waits (t : nat) (n : ev_notif) (i : sub_info) (s : session) : Prop := {
  w_notif : notifs s !! t = Some n;
  w_check : t ∈ checks s;
  w_old : (t < next_ptr s)%nat /\ (n_info n < next_ptr s)%nat;
  w_sub : forall i', subs s !! n_info n = Some i' -> i' = i;
}.

Section pending.
Context `{AvlTree, JsonC, LibUbox}.
Variables (t : nat) (n : ev_notif) (i : sub_info).

(** Programs that leave it alone. *)
#[local] Abbreviation spares := (preserves (waits t n i)).

Lemma spares_alloc : spares alloc.
Proof. intros s [? ? ? ?] a s' [= <- <-]. split; [done..| |done]. simpl. lia. Qed.

Lemma spares_queue e str : spares (queue_str e str).
Proof.
  intros s Hs [] s'. unfold queue_str. destruct (wsu_queue_write_str _ _ _) as [[? q]|]; [|done].
  intros [= <-]. destruct Hs. by split.
Qed.

(** Requests whose check ends are others. *)
Lemma spares_checked p : p <> t -> spares (modify (fun s => set_checks (checks s ∖ {[p]}) s)).
Proof. intros Hp. apply preserves_modify. intros s []. split; [done| |done..]. simpl. set_solver. Qed.

Lemma spares_started p : spares (modify (fun s => set_checks (checks s ∪ {[p]}) s)).
Proof. apply preserves_modify. intros s []. split; [done| |done..]. simpl. set_solver. Qed.

(** A subscription that ends. *)
Lemma spares_unsubscribed p : spares (modify (fun s => set_subs (delete p (subs s)) s)).
Proof. apply preserves_modify. intros s []. split; [done..|]. simpl. intros i' [_ ?]%lookup_delete_Some. eauto. Qed.

Ltac spares_step :=
  lazymatch goal with
  | |- spares alloc => apply spares_alloc
  | |- spares (queue_str _ _) => apply spares_queue
  | |- spares (modify (fun s => set_checks (checks s ∪ _) s)) => apply spares_started
  | |- spares (modify (fun s => set_checks (checks s ∖ _) s)) => by apply spares_checked
  | |- spares (modify (fun s => set_subs (delete _ _) s)) => apply spares_unsubscribed
  | |- spares (modify _) => by apply preserves_modify; intros ? []; split
  | |- _ => preserves_step
  end.

Lemma spares_unsub pattern l : spares (unsub_matching pattern l).
Proof.
  induction l as [|p l IH]; cbn [unsub_matching]; [apply preserves_ret|].
  unfold wsubus_unsub_elem. repeat (exact IH || spares_step).
Qed.

(** A new subscription is another one. *)
Lemma spares_sub e r id : spares (ubusrpc_handle_sub_ e r id).
Proof.
  unfold ubusrpc_handle_sub_, dec_q_len. cbv zeta. apply preserves_bind; [|intros; repeat spares_step].
  destruct (e_register e =? 0); [|apply preserves_ret]. intros s Hw. apply pwp_bind. intros p s1 [= <- <-].
  pose proof (w_old _ _ _ _ Hw) as [_ Hold]. assert (next_ptr s <> n_info n) as Hne by lia.
  pose proof (spares_alloc s Hw _ _ eq_refl) as Hw1. revert Hw1 Hne. generalize (next_ptr s). intros p Hw1 Hne.
  revert Hw1. generalize (set_next (S p) s). intros s1 Hw1.
  apply preserves_bind; [|intros; repeat spares_step|done].
  apply preserves_modify. intros s2 []. split; [done..|]. intros i'. simpl. rewrite lookup_insert_ne by done. auto.
Qed.

Lemma spares_message e blob : spares (wsu_on_msg_from_client e blob).
Proof.
  unfold wsu_on_msg_from_client. repeat spares_step.
  unfold run_handler, handle_call_ubus, wsubus_percall_ctx_create, wsubus_call_do_check_then_do_call, with_call,
    wsubus_percall_ctx_destroy, ubusrpc_handle_list_, handle_list_ubus, ubusrpc_handle_sub_list_, ubusrpc_handle_unsub_,
    dec_q_len.
  repeat (apply spares_unsub || apply spares_sub || spares_step).
Qed.

(** An event on the bus: its own notification is a new one. *)
Lemma spares_bus_event e p type msg : spares (wsubus_sub_cb e p type msg).
Proof.
  unfold wsubus_sub_cb. apply preserves_bind; [apply preserves_deref|]. intros j s Hw0. pose proof (w_old _ _ _ _ Hw0) as [Ht _].
  apply pwp_bind. intros t' s1 [= <- <-]. set (t' := next_ptr s) in *.
  assert (t <> t') as Hne by (unfold t'; lia).
  assert (spares (modify (fun s => set_notifs (<[t' := Notif type msg p]> (notifs s)) s))) as Hins.
  { apply preserves_modify. intros s0 []. split; [|done..]. simpl. by rewrite lookup_insert_ne. }
  assert (spares (modify (fun s => set_notifs (delete t' (notifs s)) s))) as Hdel.
  { apply preserves_modify. intros s0 []. split; [|done..]. simpl. by rewrite lookup_delete_ne. }
  assert (waits t n i (set_next (S t') s)) as Hw by (exact (spares_alloc s Hw0 _ _ eq_refl)).
  clearbody t'. revert Hw. generalize (set_next (S t') s). intros s0 Hw. apply preserves_bind; [exact Hins| |exact Hw].
  intros _. unfold wsubus_ev_destroy_ctx. repeat (exact Hdel || spares_step).
Qed.

(** Everything that can happen beside the end of this check and of the session. *)
Definition about_notif (ev : sevent) : bool :=
  match ev with
  | EvNotifChecked t' _ => bool_decide (t' = t)
  | EvClosed => true
  | _ => false
  end.

Lemma spares_step_event e ev s s' :
  waits t n i s -> enabled s ev -> about_notif ev = false -> sstep e ev s = Some (tt, s') -> waits t n i s'.
Proof.
  intros Hw Hen Hab Hstep. destruct ev as [blob|q allow|t' access|q msg|q status|q type msg| |]; simpl in Hab, Hen, Hstep;
    try done; revert Hstep.
  - exact (spares_message e blob s Hw tt s').
  - assert (q <> t) as Hq by (intros ->; destruct Hw as [Hw _ _ _], Hen as [_ Hen]; congruence).
    apply (fun Hm : spares (wsubus_access_on_completed e q allow) => Hm s Hw tt s').
    unfold wsubus_access_on_completed, wsubus_call_do_call, with_call, wsubus_percall_ctx_destroy, dec_q_len.
    repeat spares_step.
  - apply bool_decide_eq_false in Hab. apply (fun Hm : spares (wsubus_ev_check_cb e t' access) => Hm s Hw tt s').
    assert (spares (modify (fun s => set_notifs (delete t' (notifs s)) s))) as Hdel.
    { apply preserves_modify. intros s0 []. split; [|done..]. simpl. by rewrite lookup_delete_ne. }
    unfold wsubus_ev_check_cb, wsubus_ev_destroy_ctx. repeat (exact Hdel || spares_step).
  - apply (fun Hm : spares (wsubus_call_on_retdata q msg) => Hm s Hw tt s').
    unfold wsubus_call_on_retdata, with_call. repeat spares_step.
  - apply (fun Hm : spares (wsubus_call_on_completed e q status) => Hm s Hw tt s').
    unfold wsubus_call_on_completed, with_call, wsubus_percall_ctx_destroy, dec_q_len. repeat spares_step.
  - exact (spares_bus_event e q type msg s Hw tt s').
  - apply (fun Hm : spares (wsubus_percall_clean_stale e) => Hm s Hw tt s').
    unfold wsubus_percall_clean_stale. repeat spares_step.
    unfold clean_stale_one, wsubus_percall_ctx_destroy, dec_q_len. repeat spares_step.
Qed.

Inductive meanwhile (s : session) : session -> Prop :=
  | meanwhile_none : meanwhile s s
  | meanwhile_step s1 e ev s2 :
      meanwhile s s1 -> enabled s1 ev -> safe e s1 ev -> about_notif ev = false ->
      sstep e ev s1 = Some (tt, s2) -> meanwhile s s2.

Lemma meanwhile_waits s s' :
  texts_fit -> meanwhile s s' -> sinv 0 s -> waits t n i s -> sinv 0 s' /\ waits t n i s'.
Proof.
  intros Hfit. induction 1 as [|s1 e ev s2 _ IH Hen Hsafe Hab Hstep]; intros Hi Hw; [done|].
  destruct (IH Hi Hw) as [Hi1 Hw1]. split; [|by eapply spares_step_event].
  destruct (sstep_inv e s1 ev Hfit Hi1 Hen Hsafe) as (s3 & Hr & Hi3); [by intros ->|]. by simplify_eq.
Qed.
End pending.

(** ** The check of an event *)

(** What the access list is asked about: the object an event is about, or the
    type of the event. *)
Definition event_subject (type path : string) : string :=
  if strstr type "ubus.object." is Some _ then path else type.

Lemma assoc_fmap {A B} (f : A -> B) k (l : list (string * A)) :
  assoc k ((fun a => (a.1, f a.2)) <$> l) = f <$> assoc k l.
Proof. induction l as [|[k' v] l IH]; simpl; [done|]. by case_decide. Qed.

Section check.
Context `{AvlTree, JsonC, LibUbox}.

Lemma tls_event_run e type path msg :
  is_ssl (e_conn e) = true -> peer_cert (e_conn e) = Some true -> prints_as msg ->
  (is_Some (strstr type "ubus.object.") -> assoc "path" msg = Some (BString path)) ->
  wsubus_access_check__event (e_acl e) (e_session e) (e_access e) (e_conn e) tls_sid type msg =
  Some (CheckDeferred (ubusx_acl__allow_object (e_acl e) (event_subject type path)), None).
Proof.
  intros Hs Hc Hpr Hpath. unfold wsubus_access_check__event, wsubus_access_check_, event_subject.
  change (wsu_sid_extended tls_sid) with (Some "tls-certificate").
  change (strcmp "mgmt-interface" "tls-certificate" =? 0) with false.
  change (strcmp "tls-certificate" "tls-certificate" =? 0) with true.
  unfold tls_object. destruct (strstr type "ubus.object.") as [tail|].
  - rewrite Hpr. cbn [blob_json]. rewrite json_get_object, assoc_fmap, Hpath by eauto. simpl.
    rewrite get_string_string. simpl. unfold wsu_ext_check_tls, check_decide. rewrite Hs, Hc. simpl.
    by destruct (ubusx_acl__allow_object (e_acl e) path).
  - unfold wsu_ext_check_tls, check_decide. rewrite Hs, Hc. simpl.
    by destruct (ubusx_acl__allow_object (e_acl e) type).
Qed.

(** The event of the far bus starts a check. *)
Lemma sub_cb_run e s p i type msg allow args :
  sinv 0 s -> subs s !! p = Some i ->
  wsubus_access_check__event (e_acl e) (e_session e) (e_access e) (e_conn e) (si_sid i) type msg =
    Some (CheckDeferred allow, args) ->
  exists s', wsubus_sub_cb e p type msg s = Some (tt, s') /\ sinv 0 s' /\ write_q s' = write_q s /\
    waits (next_ptr s) (Notif type msg p) i s'.
Proof.
  intros Hi Hp Hc. destruct (sub_cb_ok e 0 s p i type msg Hi Hp) as (s' & Hr & Hi' & Hw & _); [by rewrite Hc|].
  exists s'. do 3 (split; [done|]). revert Hr. unfold wsubus_sub_cb. run. rewrite Hp. run. rewrite Hc. run.
  intros [= <-]. pose proof (si_sub_fresh 0 s Hi p ltac:(eauto)).
  split; simpl; [by rewrite lookup_insert_eq|set_solver|lia|congruence].
Qed.
End check.

(** The end of a check: the notification is gone. *)
Lemma ev_check_gone `{LibUbox} e t access s :
  pwp (wsubus_ev_check_cb e t access) (fun _ s' => notifs s' !! t = None) s.
Proof.
  unfold wsubus_ev_check_cb. do 4 (apply pwp_bind; intros ? ? _). unfold wsubus_ev_destroy_ctx.
  apply pwp_bind, pwp_deref. intros n' _. apply pwp_modify. apply lookup_delete_eq.
Qed.

(** ** The whole way *)

(** What the local bus of the near daemon hears of an event of the far bus. *)
Definition heard (peer : string) (r : remote) (type path : string) (msg : list attr) : list bus_action :=
  if decide (type = "ubus.object.add") then []
  else if decide (type = "ubus.object.remove") then if decide (path ∈ r_tree r) then [RemoveObject path] else []
  else [SendEvent (proxied_name_fill peer type) msg].

Section near.
Context `{AvlTree} `{HB : JsonBlob}.

Lemma near_hears peer mac_prefix leases paths_tree r p i type path msg :
  remote_reachable peer mac_prefix leases paths_tree r -> call_id r < 2 ^ 31 - 1 ->
  fits (list_request (call_id r + 1) (r_sid r)) ->
  plain (BTable msg) = true -> prints_as (event_blob (Notif type msg p) i) ->
  (is_Some (strstr type "ubus.object.") -> assoc "path" msg = Some (BString path)) ->
  exists r', remote_receive peer mac_prefix leases paths_tree
      (json_tokener_parse (blobmsg_format_json (event_blob (Notif type msg p) i))) r = Some (tt, r') /\
    r_out r' = r_out r ++ heard peer r type path msg /\
    r_nodes r' = (if decide (type = "ubus.object.remove") then delete path (r_nodes r) else r_nodes r) /\
    followed r type r'.
Proof using HB.
  intros Hr Hid Hf Hpl Hpr Hpath. rewrite Hpr.
  set (data := (fun a => (a.1, blob_json a.2)) <$> msg).
  change (blob_json (BTable (event_blob (Notif type msg p) i))) with
    (event_message type (JObject data)
       [("subscription", JObject [("pattern", JString (si_pattern i)); ("ubus_rpc_session", JString (si_sid i))])]).
  destruct (receive_event_run peer mac_prefix leases paths_tree r type path data
    [("subscription", JObject [("pattern", JString (si_pattern i)); ("ubus_rpc_session", JString (si_sid i))])])
    as (r' & Hrun & _ & Ho & Hn & Hfo); try done.
  { intros Ht. unfold data. rewrite assoc_fmap, Hpath; [done|]. destruct Ht as [-> | ->]; eexists; reflexivity. }
  exists r'. split; [done|]. split; [|done]. rewrite Ho. f_equal. unfold replayed, heard, proxied_event. simpl.
  unfold data. by rewrite add_object_object, plain_attrs.
Qed.
End near.

(** C15: an event through two daemons.  The far bus reports an event to the session
    of a proxy with a certificate.  The check asks the access list about the
    object that was added or removed, or about the type of any other event.
    Whatever else happens in the session until the check is called back, the
    notification waits for it; denied, nothing is sent; allowed, one text is sent,
    and in every state of the near end receiving it has exactly the effect the
    event asks for: any other event is sent once on the local bus, under the name
    of the peer and with the same message; the stub of a removed object is taken
    off the bus; a new object makes the proxy ask for the list. *)
Theorem proxied_event_end_to_end `{AvlTree} `{JsonBlob} (peer : string) (mac_prefix : bool)
    (leases : option (list string)) (paths_tree : list string) (s : session) (p : nat) (i : sub_info) (e1 : env)
    (type path : string) (msg : list attr) :
  sreach s -> texts_fit -> subs s !! p = Some i -> si_sid i = tls_sid ->
  is_ssl (e_conn e1) = true -> peer_cert (e_conn e1) = Some true ->
  plain (BTable msg) = true -> prints_as msg -> prints_as (event_blob (Notif type msg p) i) ->
  (is_Some (strstr type "ubus.object.") -> assoc "path" msg = Some (BString path)) ->
  let t := next_ptr s in
  let allow := ubusx_acl__allow_object (e_acl e1) (event_subject type path) in
  wsubus_access_check__event (e_acl e1) (e_session e1) (e_access e1) (e_conn e1) (si_sid i) type msg =
    Some (CheckDeferred allow, None) /\
  exists s1, sstep e1 (EvBusEvent p type msg) s = Some (tt, s1) /\ write_q s1 = write_q s /\
  forall s1' e2, meanwhile t s1 s1' ->
    enabled s1' (EvNotifChecked t allow) /\
    exists s2, sstep e2 (EvNotifChecked t allow) s1' = Some (tt, s2) /\ notifs s2 !! t = None /\
    if allow then exists text, write_q s2 = write_q s1' ++ [WriteReq text 0] /\
      forall r, remote_reachable peer mac_prefix leases paths_tree r -> call_id r < 2 ^ 31 - 1 ->
        fits (list_request (call_id r + 1) (r_sid r)) ->
      exists r', remote_receive peer mac_prefix leases paths_tree (json_tokener_parse text) r = Some (tt, r') /\
        r_out r' = r_out r ++ heard peer r type path msg /\
        r_nodes r' = (if decide (type = "ubus.object.remove") then delete path (r_nodes r) else r_nodes r) /\
        followed r type r'
    else write_q s2 = write_q s1'.
Proof.
  intros Hs Hfit Hp Hsid Hssl Hcert Hpl Hpr Hprint Hpath t allow.
  pose proof (tls_event_run e1 type path msg Hssl Hcert Hpr Hpath) as Hc. fold allow in Hc. rewrite <- Hsid in Hc.
  split; [done|]. destruct (sub_cb_run e1 s p i type msg allow None (sreach_inv s Hfit Hs) Hp Hc)
    as (s1 & Hr1 & Hi1 & Hw1 & Hwait).
  exists s1. split; [done|]. split; [done|]. intros s1' e2 Hmean.
  destruct (meanwhile_waits t (Notif type msg p) i s1 s1' Hfit Hmean Hi1 Hwait) as [Hi1' [Hn Hk _ Hsub]].
  split; [by split|]. destruct (ev_check_cb_ok e2 Hfit 0 s1' t _ allow Hi1' Hn) as (s2 & i2 & Hr2 & _ & Hi2 & _ & Hw2).
  apply Hsub in Hi2 as ->.
  exists s2. split; [done|]. split; [by apply (ev_check_gone e2 t allow s1' tt s2)|].
  destruct allow; [|by rewrite Hw2, app_nil_r]. eexists. split; [exact Hw2|]. intros r Hr Hid Hf.
  by apply near_hears.
Qed.

(** ** A concrete event *)

(** The object "net" of the far bus goes away; the proxy listens to everything. *)
Definition ex_gone : list attr := [("id", BInt32 7); ("path", BString "net")].
Definition ex_sub : sub_info := SubInfo "*" tls_sid.
Definition ex_event : list attr := event_blob (Notif "ubus.object.remove" ex_gone 0) ex_sub.

(** A parser and a printer that are right about the texts of the event. *)
Definition ev_parse (text : string) : json :=
  if decide (text = "m") then blob_json (BTable ex_gone) else blob_json (BTable ex_event).
Definition ev_format (l : list attr) : string := match l with [_; _] => "m" | _ => "e" end.

Definition ev_jsonc : JsonC := ref_jsonc_with ev_parse.
Definition ev_libubox : LibUbox := ref_libubox_with ev_format.

Program Definition ev_json_blob : @JsonBlob ev_jsonc ev_libubox :=
  @Build_JsonBlob ev_jsonc ev_libubox ref_json_blob _ _ _ _ _.
Next Obligation. done. Qed.
Next Obligation. done. Qed.
Next Obligation. done. Qed.
Next Obligation. done. Qed.
Next Obligation. done. Qed.

(** The near end after its handshake, with the stub of "net". *)
Definition ev_receive (j : json) : M remote unit :=
  remote_receive (H := list_avl) (H0 := ev_jsonc) (H1 := ev_libubox) "10.0.0.7" false None [] j.
Definition ev_near1 : remote := after (remote_established (H0 := ev_jsonc) false true None) remote_init.
Definition ev_near2 : remote := after (ev_receive (reply 1 [JInt 0])) ev_near1.
Definition ev_near3 : remote := after (ev_receive (reply 2 [JInt 0; JObject [("net", ex_sig)]])) ev_near2.

Lemma ev_near3_reachable :
  remote_reachable (H := list_avl) (H0 := ev_jsonc) (H1 := ev_libubox) "10.0.0.7" false None [] ev_near3.
Proof.
  eapply reachable_step; [eapply reachable_step|].
  - eapply (reachable_established _ _ _ _ false true None ev_near1). reflexivity.
  - eapply (step_receive _ _ _ _ _ (reply 1 [JInt 0]) ev_near2); vm_compute; reflexivity.
  - eapply (step_receive _ _ _ _ _ (reply 2 [JInt 0; JObject [("net", ex_sig)]]) ev_near3); vm_compute; reflexivity.
Qed.

(** The far session after the request of the proxy to listen. *)
Definition ev_listen : list attr := blobmsg_add_object (LibUbox := ev_libubox) (listen_request 1 tls_sid).
Definition ev_far : session :=
  match sstep (H := list_avl) (H0 := ev_jsonc) (H1 := ev_libubox) (ex_far ["net"]) (EvMessage ev_listen) session_init with
  | Some (_, s) => s
  | None => session_init
  end.

Lemma ev_fit : texts_fit (H1 := ev_libubox).
Proof. intros l. simpl. unfold ev_format. by repeat case_match. Qed.

Lemma ev_far_reach : sreach (H := list_avl) (H0 := ev_jsonc) (H1 := ev_libubox) ev_far.
Proof.
  apply (sreach_step session_init (ex_far ["net"]) (EvMessage ev_listen)); [apply sreach_init|done| |done|reflexivity].
  split; intros id r Hr; vm_compute in Hr; injection Hr as <- <-; exact I.
Qed.

Lemma proxied_event_end_to_end_witness :
  exists s1 s2 text r', sstep (H := list_avl) (H0 := ev_jsonc) (H1 := ev_libubox) (ex_far ["net"])
      (EvBusEvent 0 "ubus.object.remove" ex_gone) ev_far = Some (tt, s1) /\
    sstep (H := list_avl) (H0 := ev_jsonc) (H1 := ev_libubox) (ex_far ["net"])
      (EvNotifChecked 1 true) s1 = Some (tt, s2) /\
    write_q s2 = write_q s1 ++ [WriteReq text 0] /\
    ev_receive (ev_parse text) ev_near3 = Some (tt, r') /\
    r_out r' = r_out ev_near3 ++ [RemoveObject "net"] /\ r_nodes r' !! "net" = None.
Proof.
  destruct (proxied_event_end_to_end (H := list_avl) (H2 := ev_json_blob) "10.0.0.7" false None [] ev_far 0 ex_sub
    (ex_far ["net"]) "ubus.object.remove" "net" ex_gone ev_far_reach ev_fit eq_refl eq_refl eq_refl eq_refl eq_refl
    eq_refl eq_refl ltac:(by intros _)) as [_ (s1 & Hr1 & _ & Hnext)].
  destruct (Hnext s1 (ex_far ["net"]) (meanwhile_none _ s1)) as [_ (s2 & Hr2 & _ & text & Hw & Hnear)].
  destruct (Hnear ev_near3 ev_near3_reachable) as (r' & Hrun & Ho & Hn & _); [vm_compute; reflexivity..|].
  exists s1, s2, text, r'. split; [exact Hr1|]. split; [exact Hr2|]. split; [exact Hw|]. split; [exact Hrun|].
  split; [rewrite Ho; vm_compute; reflexivity|rewrite Hn; vm_compute; reflexivity].
Defined.
