(* ===== verification/Mirror.v ===== *)
(** * The objects of the far bus at the near end

    The proxy asks for the list of objects, the far daemon reports those its
    access list has, with the names of the types of their arguments, and the proxy
    makes stubs from the answer.  The theorem here follows the request and the
    answer through the texts of both sides and says which stubs are there in the
    end, with which signatures. *)

From Stdlib Require Import Ascii.
From stdpp Require Import base list strings numbers sorting sets gmap.
From S2P Require Import Prelude CStrings Avl Patterns Libs UbusxAcl WsubusClient Rpc PeerIO AccessCheck.
From S2P Require Import Session SessionInv SessionProps UbusProxy ProxyProps ProxyConn EndToEnd MergeProps.

Local Arguments strcmp : simpl never.
Local Arguments strncmp : simpl never.
Set Default Proof Using "Type".

(** ** What an object looks like from the other side *)

(** The type of an argument: a number of ubus, its name in the list, and the type
    the proxy reads from the name. *)
Definition wire_type (t : Z) : blobmsg_type :=
  blobmsg_type_from_str (Some (default "unknown" (default None (type_str t)))).

Section view.
Context `{LibUbox}.

Definition args_view (args : list attr) : list (string * blobmsg_type) :=
  omap (fun a => match a.2 with BInt32 t => Some (a.1, wire_type t) | _ => None end) args.

Definition methods_view (path : string) (sig : list attr) : signature :=
  omap (fun m => if ubusx_acl__allow_method path (blobmsg_name m)
                 then Some (blobmsg_name m, args_view (blobmsg_attrs m)) else None) sig.

Definition object_view (o : string * option (list attr)) : signature :=
  match o.2 with Some sig => methods_view o.1 sig | None => [] end.
End view.

(** Integers of 32 and 16 bits, strings, booleans, tables and arrays keep their
    kind; 64 bits and values without a type do not. *)
Lemma wire_type_values :
  wire_type <$> [0; 1; 2; 3; 4; 5; 6; 7] =
  [BLOBMSG_TYPE_UNSPEC; BLOBMSG_TYPE_ARRAY; BLOBMSG_TYPE_TABLE; BLOBMSG_TYPE_STRING; BLOBMSG_TYPE_UNSPEC;
   BLOBMSG_TYPE_INT32; BLOBMSG_TYPE_INT32; BLOBMSG_TYPE_INT8].
Proof. reflexivity. Qed.

Section listing.
Context `{AvlTree, JsonC, LibUbox}.

(** The objects a peer with a certificate is told about. *)
Definition exposed (acl : list string) (objects : list (string * option (list attr)))
  : list (string * option (list attr)) :=
  filter (fun o => ubusx_acl__allow_object acl o.1 = true) objects.

Definition json_attrs (l : list attr) : list (string * json) := (fun a => (a.1, blob_json a.2)) <$> l.

Lemma list_args_view args l :
  list_args args = Some l -> margs_types (JObject (json_attrs l)) = Some (args_view args).
Proof.
  revert l. induction args as [|[name b] args IH]; intros l; cbn [list_args]; [by intros [= <-]|].
  destruct b as [| | | | |t| | |]; try (intros Hl%IH; exact Hl).
  destruct (type_str t) as [ty|] eqn:Et; [|done]. destruct (list_args args) as [l'|]; [|done].
  intros [= <-]. specialize (IH l' eq_refl). injection IH as IH. unfold margs_types, json_attrs, args_view.
  cbn [fmap list_fmap omap list_omap fst snd blob_json]. rewrite get_string_string. unfold wire_type. rewrite Et.
  do 2 f_equal. exact IH.
Qed.

Lemma list_methods_view path sig l :
  list_methods path sig = Some l -> methods_types (json_attrs l) = Some (methods_view path sig).
Proof.
  revert l. induction sig as [|m sig IH]; intros l; cbn [list_methods]; [by intros [= <-]|].
  unfold methods_view. cbn [omap list_omap]. destruct (ubusx_acl__allow_method path (blobmsg_name m)); simpl; [|apply IH].
  destruct (list_args (blobmsg_attrs m)) as [args|] eqn:Ea; [|done].
  destruct (list_methods path sig) as [ms|]; [|done]. intros [= <-].
  pose proof (list_args_view _ _ Ea) as Hargs. specialize (IH ms eq_refl). unfold json_attrs in *.
  cbn [fmap list_fmap methods_types fst snd blob_json]. rewrite Hargs. by rewrite IH.
Qed.

(** The answer has exactly these objects, in their order, and the signature of
    each is what it looks like. *)
Lemma list_objects_view acl objs l :
  list_objects acl tls_sid objs = Some l ->
  Forall2 (fun o j => j.1 = o.1 /\ signature_of j.2 = Some (object_view o)) (exposed acl objs) (json_attrs l).
Proof.
  revert l. induction objs as [|o objs IH]; intros l; cbn [list_objects]; [by intros [= <-]; constructor|].
  unfold ubus_lookup_cb. change (strncmp tls_sid "X-tls-certificate" (String.length "X-tls-certificate") =? 0) with true.
  unfold exposed. rewrite filter_cons. simpl.
  destruct (ubusx_acl__allow_object acl o.1) eqn:Ea.
  - rewrite decide_True by done. simpl. unfold object_view at 1. destruct o as [name [sig|]]; simpl in *.
    + destruct (list_methods name sig) as [ms|] eqn:Em; [|done]. simpl. destruct (list_objects acl tls_sid objs); [|done].
      intros [= <-]. constructor; [|by apply IH]. split; [done|]. simpl. by apply list_methods_view.
    + destruct (list_objects acl tls_sid objs); [|done]. intros [= <-]. constructor; [done|by apply IH].
  - rewrite decide_False by done. simpl. destruct (list_objects acl tls_sid objs); [|done].
    intros [= <-]. by apply IH.
Qed.
End listing.

Section mirror.
Context `{AvlTree} `{HB : JsonBlob}.

(** The far daemon takes the request for the list and answers it at once, or
    meets an argument type it has no name for. *)
Lemma far_lists e s id :
  texts_fit -> (u32 (e_req_max e) <? rpc_q_len s) = false -> - 2 ^ 31 <= id < 2 ^ 31 -> e_lookup_list e = 0 ->
  match list_objects (e_acl e) tls_sid (e_objects e) with
  | None => wsubus_rx_json e (Some (list_request id tls_sid)) s = None
  | Some l => exists s', wsubus_rx_json e (Some (list_request id tls_sid)) s = Some (tt, s') /\
      write_q s' = write_q s ++
        [WriteReq (jsonrpc__resp_ubus (Some ("id", BInt32 (u32 id))) 0 (Some ("", BTable l))) 0] /\
      calls s' = calls s
  end.
Proof using HB.
  intros Hfit Hmax Hid He.
  destruct (pattern_request_roundtrip id (Some tls_sid) "*" Hid) as [(req & params & Hreq & Hparse & Hrpc) _].
  assert (req = list_request id tls_sid) as -> by (injection Hreq as <-; reflexivity). clear Hreq.
  cbn [wsubus_rx_json]. unfold list_request, request in *. cbn [wsubus_rx_json].
  destruct (list_objects (e_acl e) tls_sid (e_objects e)) as [l|] eqn:Hl;
    unfold wsu_on_msg_from_client, M_bind at 1, gets; rewrite Hmax, Hparse; simpl; rewrite Hrpc;
    unfold M_bind at 1, deref at 1; simpl; unfold M_bind at 1, modify at 1, M_bind at 1, deref at 1; simpl;
    change (strncat "" tls_sid UBUS_SID_MAX_STRLEN) with tls_sid;
    unfold M_bind at 1, ubusrpc_handle_list_, handle_list_ubus; run; rewrite Hl; [|done].
  rewrite He. simpl. unfold jsonrpc__resp_ubus.
  rewrite (queue_str_run e Hfit). run. eexists. split; [reflexivity|]. split; reflexivity.
Qed.

Lemma filtered_names {A} (P : string * A -> Prop) `{!forall x, Decision (P x)} (l : list (string * A)) :
  sublist (filter P l).*1 l.*1.
Proof. induction l as [|x l IH]; [constructor|]. rewrite filter_cons. case_decide; by constructor. Qed.

Lemma names_sorted (l : list (string * json)) : StronglySorted key_lt l.*1 -> StronglySorted name_lt l.
Proof.
  induction l as [|o l IH]; intros Hj; [constructor|]. cbn [fmap list_fmap] in Hj.
  apply StronglySorted_inv in Hj as [Hj Ho]. constructor; [by apply IH|]. rewrite Forall_fmap in Ho. exact Ho.
Qed.

Lemma listing_sorted acl objs l :
  StronglySorted key_lt objs.*1 -> list_objects acl tls_sid objs = Some l ->
  (json_attrs l).*1 = (exposed acl objs).*1 /\ StronglySorted name_lt (json_attrs l) /\
  Forall (fun o => is_Some (signature_of o.2)) (json_attrs l).
Proof.
  intros Hs Hl%list_objects_view. assert ((json_attrs l).*1 = (exposed acl objs).*1) as En.
  { induction Hl as [|o j os js [E _] _ IH]; [done|]. cbn [fmap list_fmap]. by rewrite E, IH. }
  split; [done|]. split.
  - assert (StronglySorted key_lt (json_attrs l).*1) as Hj.
    { rewrite En. eapply StronglySorted_sub; [|exact Hs]. apply filtered_names. }
    by apply names_sorted.
  - clear En. induction Hl as [|o j os js [_ E] _ IH]; constructor; [by rewrite E|done].
Qed.
End mirror.

(** C14: the near bus has the objects of the far bus.  In every reachable state in
    which the proxy, known to the far daemon by its certificate, waits for the
    list, and the far daemon is within its limit of requests and its bus reports
    its objects in order: if an object it exposes has an argument of a type
    without a name, the far daemon crashes on the request; otherwise it takes the
    request and answers it at once with one text.  If that answer runs the walk
    along the stubs off their end (C13; a first list never does), receiving it
    does not come back; otherwise it leaves, for every object of the far bus that
    the far access list has and a pattern covers, a stub with exactly the methods
    the access list has, and the names and the types of their arguments as the
    names of types carry them over; no stub of an object that was not listed
    changes. *)
Theorem objects_mirrored `{AvlTree} `{JsonBlob} (peer : string) (mac_prefix : bool)
    (leases : option (list string)) (paths_tree : list string) (r : remote) (s : session) (e : env) :
  ("/"%char ∉ chars peer) /\ (String.length peer <= 50)%nat ->
  (forall ls line, leases = Some ls -> line ∈ ls -> "/"%char ∉ chars (scan_lease line).1) ->
  remote_reachable peer mac_prefix leases paths_tree r ->
  w_login r = false -> w_listen r = false -> w_list_id r <> 0 -> r_sid r = tls_sid ->
  let req := list_request (w_list_id r) (r_sid r) in
  json_tokener_parse (json_object_to_json_string req) = req ->
  texts_fit -> (u32 (e_req_max e) <? rpc_q_len s) = false -> e_lookup_list e = 0 ->
  StronglySorted key_lt (e_objects e).*1 ->
  match list_objects (e_acl e) tls_sid (e_objects e) with
  | None => wsubus_rx_json e (Some (json_tokener_parse (json_object_to_json_string req))) s = None
  | Some l =>
  prints_as (resp_ubus_blob (Some ("id", BInt32 (u32 (w_list_id r)))) 0 (Some ("", BTable l))) ->
  exists s' text,
    wsubus_rx_json e (Some (json_tokener_parse (json_object_to_json_string req))) s = Some (tt, s') /\
    write_q s' = write_q s ++ [WriteReq text 0] /\ calls s' = calls s /\
    (r_tree r = [] -> runs_off peer mac_prefix leases paths_tree r (json_attrs l) = false) /\
    (if runs_off peer mac_prefix leases paths_tree r (json_attrs l)
     then remote_receive peer mac_prefix leases paths_tree (json_tokener_parse text) r = None
     else exists r', remote_receive peer mac_prefix leases paths_tree (json_tokener_parse text) r = Some (tt, r') /\
       w_list_id r' = 0 /\ stubs_wf r' /\
       (forall o, o ∈ exposed (e_acl e) (e_objects e) -> wsubus_client_match_pattern paths_tree o.1 = true ->
          st_sig <$> r_nodes r' !! o.1 = Some (object_view o)) /\
       (forall o, o ∈ exposed (e_acl e) (e_objects e) -> wsubus_client_match_pattern paths_tree o.1 = false ->
          st_sig <$> r_nodes r' !! o.1 = None \/ r_nodes r' !! o.1 = r_nodes r !! o.1) /\
       (forall k, k ∉ (exposed (e_acl e) (e_objects e)).*1 -> r_nodes r' !! k = r_nodes r !! k))
  end.
Proof.
  intros Hp Hle Hr Hlog Hlis Hne Hsid req Hreq Hfit Hmax Hlk Hso. rewrite Hreq. unfold req. rewrite Hsid.
  pose proof (reachable_rinv _ _ _ _ _ Hr) as Hri. pose proof (inv_list _ Hri). pose proof (inv_id _ Hri).
  pose proof (far_lists e s (w_list_id r) Hfit Hmax ltac:(lia) Hlk) as Hfar.
  destruct (list_objects (e_acl e) tls_sid (e_objects e)) as [l|] eqn:Hl; [|exact Hfar].
  intros Hpr. destruct Hfar as (s' & Hrx & Hw & Hc).
  eexists s', _. do 3 (split; [done|]). split.
  { intros Ht. unfold runs_off. rewrite Ht. by destruct (json_attrs l) as [|[??]?]. }
  destruct (listing_sorted (e_acl e) (e_objects e) l Hso Hl) as (En & Hsj & Hsig).
  pose proof (receive_list_run peer mac_prefix leases paths_tree r (json_attrs l) Hp Hle Hr Hlog Hlis Hne Hsig Hsj) as Hm.
  cbv zeta in Hm. unfold jsonrpc__resp_ubus. rewrite (response_parsed (w_list_id r) 0 (Some l)) by (done || lia).
  destruct (runs_off _ _ _ _ r (json_attrs l)); [exact Hm|].
  destruct Hm as (r' & Hrun & Hwf & Hcon & _ & Hk & Hin). exists r'. split; [exact Hrun|].
  split; [by destruct Hcon as (?&?&?&?&?&?)|]. split; [done|].
  pose proof (list_objects_view (e_acl e) (e_objects e) l Hl) as Hview.
  assert (forall o, o ∈ exposed (e_acl e) (e_objects e) -> exists j, j ∈ json_attrs l /\ j.1 = o.1 /\
    listed_sig j = object_view o) as Hj.
  { intros o Ho. apply list_elem_of_lookup in Ho as [i Hi].
    destruct (Forall2_lookup_l _ _ _ _ _ Hview Hi) as (j & Hji & Hj1 & Hj2). exists j.
    split; [by eapply list_elem_of_lookup_2|]. split; [done|]. unfold listed_sig. by rewrite Hj2. }
  split_and!.
  - intros o (j & Hjin & Hj1 & Hj2)%Hj Hwant. destruct (Hin j Hjin) as [Hs _].
    unfold wanted_sig in Hs. rewrite Hj1, Hj2, Hwant in Hs. exact Hs.
  - intros o (j & Hjin & Hj1 & Hj2)%Hj Hwant. destruct (Hin j Hjin) as [Hs Hkeep].
    unfold wanted_sig, asked in *. rewrite Hj1, Hwant in *. destruct (up_to_date r j); [right; by apply Hkeep|by left].
  - intros k Hnk. apply Hk. by rewrite En.
Qed.

(** ** A concrete list *)

(** Two objects on the far bus, of which one is in its access list. *)
Definition mi_objects : list (string * option (list attr)) :=
  [("net", Some [("up", BTable [("name", BInt32 3); ("timeout", BInt32 5)])]); ("secret", None)].
Definition mi_far : env :=
  Env ["net"] (Conn true (Some true) [] "wan") 512 (TimeSpec 0 0) true true 0 0 0 mi_objects 0 0.
Definition mi_list : list attr :=
  [("net", BTable [("up", BTable [("name", BString "string"); ("timeout", BString "number")])])].

(** A parser and a printer that are right about the texts of the request and the
    answer. *)
Definition mi_parse (text : string) : json :=
  if decide (text = "") then list_request 2 tls_sid
  else blob_json (BTable (resp_ubus_blob (Some ("id", BInt32 2)) 0 (Some ("", BTable mi_list)))).
Definition mi_jsonc : JsonC := ref_jsonc_with mi_parse.
Definition mi_libubox : LibUbox := ref_libubox_with (fun _ => "r").

Program Definition mi_json_blob : @JsonBlob mi_jsonc mi_libubox :=
  @Build_JsonBlob mi_jsonc mi_libubox ref_json_blob _ _ _ _ _.
Next Obligation. done. Qed.
Next Obligation. done. Qed.
Next Obligation. done. Qed.
Next Obligation. done. Qed.
Next Obligation. done. Qed.

(** The near end when it waits for the first list. *)
Definition mi_receive (j : json) : M remote unit :=
  remote_receive (H := list_avl) (H0 := mi_jsonc) (H1 := mi_libubox) "10.0.0.7" false None [] j.
Definition mi_near1 : remote := after (remote_established (H0 := mi_jsonc) false true None) remote_init.
Definition mi_near2 : remote := after (mi_receive (reply 1 [JInt 0])) mi_near1.

Lemma mi_near2_reachable :
  remote_reachable (H := list_avl) (H0 := mi_jsonc) (H1 := mi_libubox) "10.0.0.7" false None [] mi_near2.
Proof.
  eapply reachable_step.
  - eapply (reachable_established _ _ _ _ false true None mi_near1). reflexivity.
  - eapply (step_receive _ _ _ _ _ (reply 1 [JInt 0]) mi_near2); vm_compute; reflexivity.
Qed.

Lemma objects_mirrored_witness :
  exists s' text r', wsubus_rx_json (H := list_avl) (H0 := mi_jsonc) (H1 := mi_libubox) mi_far
      (Some (list_request 2 tls_sid)) session_init = Some (tt, s') /\
    write_q s' = [WriteReq text 0] /\ mi_receive (mi_parse text) mi_near2 = Some (tt, r') /\
    st_sig <$> r_nodes r' !! "net" = Some [("up", [("name", BLOBMSG_TYPE_STRING); ("timeout", BLOBMSG_TYPE_INT32)])] /\
    r_nodes r' !! "secret" = None.
Proof.
  pose proof (objects_mirrored (H := list_avl) (H2 := mi_json_blob) "10.0.0.7" false None [] mi_near2 session_init mi_far
    ltac:(split; [by apply no_slash|simpl; lia]) ltac:(done) mi_near2_reachable eq_refl eq_refl ltac:(done)
    eq_refl eq_refl ltac:(by intros l) eq_refl eq_refl ltac:(repeat constructor)) as Hm.
  replace (list_objects (H := list_avl) (e_acl mi_far) tls_sid (e_objects mi_far)) with (Some mi_list) in Hm
    by (vm_compute; reflexivity).
  destruct (Hm eq_refl) as (s' & text & Hrx & Hw & _ & Hfirst & Hnext). rewrite (Hfirst eq_refl) in Hnext.
  destruct Hnext as (r' & Hrun & _ & _ & Hsig & _ & Hother). exists s', text, r'.
  split; [exact Hrx|]. split; [exact Hw|]. split; [exact Hrun|]. split.
  - refine (Hsig ("net", Some [("up", BTable [("name", BInt32 3); ("timeout", BInt32 5)])]) _ eq_refl). vm_compute. left.
  - rewrite Hother; [reflexivity|]. vm_compute. by intros [?|?%elem_of_nil]%elem_of_cons.
Defined.
