(* ===== verification/Uproxyd.v ===== *)
(** * uproxyd.c: the daemon that tells owsd which remote buses there are

    uproxyd listens for "client" events of the router, asks it every hour for
    its hosts, and tells owsd to add or remove remote buses through the ubus
    object "owsd.ubusproxy"; every five seconds it asks owsd for its remote buses
    and removes those that could not be reached for long.  What uproxyd invokes
    is a list of method names with their arguments; [owsd_method] is the other
    side, the methods of wsubus_client.c with the parsing of their arguments.
    The ids [ubus_lookup_id] leaves in its output argument are parameters, 0 is
    "not found". *)

From Stdlib Require Import Ascii.
From stdpp Require Import base list strings numbers sorting sets gmap.
From S2P Require Import Prelude CStrings Avl Patterns Libs WsubusClient.

Definition UBUS_CALL_TIMEOUT : Z := 2 * 1000.
Definition CLEAN_TIMEOUT : Z := UBUS_CALL_TIMEOUT + 3 * 1000.
Definition MAX_RECONNECT_COUNT : Z := 10.

(** [uproxy_c], the static id of [clean_stale_clients] and the two timers. *)
Record uproxy := Uproxy {
  client_max_reconnect_time : Z;
  all_clients_check_timeout : Z;
  clean_id : Z;
  add_timer : option Z;
  clean_timer : option Z;
}.

Definition uproxy_c : uproxy := Uproxy MAX_RECONNECT_COUNT 3600000 0 None None.

(** A method of "owsd.ubusproxy" with its arguments. *)
Definition invocation : Type := string * list attr.

Section json.
Context `{JsonC}.

Definition json_get_int (object : json) (key : string) : Z :=
  if negb (json_object_is_type object json_type_object) then -1
  else match json_object_object_get_ex object key with
  | Some value => if json_object_is_type value json_type_int then json_object_get_int value else -1
  | None => -1
  end.

Definition json_get_bool (object : json) (key : string) : Z :=
  if negb (json_object_is_type object json_type_object) then -1
  else match json_object_object_get_ex object key with
  | Some value =>
      if json_object_is_type value json_type_boolean
      then (if json_object_get_boolean value then 1 else 0) else -1
  | None => -1
  end.

Definition json_get_string (object : json) (key : string) : option string :=
  if negb (json_object_is_type object json_type_object) then None
  else match json_object_object_get_ex object key with
  | Some value => if json_object_is_type value json_type_string then json_object_get_string value else None
  | None => None
  end.
End json.

Definition owsd_add_client (id : Z) (ip : string) : list invocation :=
  if id =? 0 then [] else [("add", [("ip", BString ip)])].

Definition owsd_remove_client (id : Z) (index : Z) (ip : option string) : list invocation :=
  if id =? 0 then []
  else match ip with
  | Some ip => [("remove", [("ip", BString ip)])]
  | None => [("remove", [("index", BInt32 (u32 index))])]
  end.

Section uproxyd.
Context `{JsonC, LibUbox}.
(** What a lookup of "owsd.ubusproxy" leaves in [id]. *)
Variable owsd_id : Z.

(** [receive_event_cb]; a text that does not parse is the NULL value. *)
Definition receive_event_cb (msg : list attr) : list invocation :=
  let json_msg := json_tokener_parse (blobmsg_format_json msg) in
  if negb (json_object_is_type json_msg json_type_object) then []
  else match json_get_string json_msg "action", json_get_string json_msg "ipaddr" with
  | Some action, Some ipaddr =>
      if strcmp action "connect" =? 0 then owsd_add_client owsd_id ipaddr
      else if strcmp action "disconnect" =? 0 then owsd_remove_client owsd_id 0 (Some ipaddr)
      else []
  | _, _ => []
  end.

(** The loop of [clean_stale_clients_cb]: its counter is overwritten with the
    index of a stale client, so it is no loop over the array; [None] is a loop
    that uses more turns than there is fuel. *)
Fixpoint clean_loop (fuel : nat) (max : Z) (clients : json) (index : Z) : option (list invocation) :=
  if Z.of_nat (json_object_array_length clients) <=? index then Some []
  else match fuel with
  | O => None
  | S f =>
      let client := json_object_array_get_idx clients (Z.to_nat index) in
      if is_null client then clean_loop f max clients (index + 1)
      else if json_get_int client "reconnect_count" <=? max
      then clean_loop f max clients (index + 1)
      else
        let index := json_get_int client "index" in
        match clean_loop f max clients (index + 1) with
        | Some rest =>
            Some ((if 0 <=? index then owsd_remove_client owsd_id index None else []) ++ rest)
        | None => None
        end
  end.

(** [clean_stale_clients_cb] on the reply of "list". *)
Definition clean_stale_clients_cb (fuel : nat) (max : Z) (msg : list attr) : option (list invocation) :=
  let json_msg := json_tokener_parse (blobmsg_format_json msg) in
  if negb (json_object_is_type json_msg json_type_object) then Some []
  else
    let clients := json_get json_msg "clients" in
    if negb (json_object_is_type clients json_type_array) then Some []
    else clean_loop fuel max clients 0.

(** The timer callback: [reply] is what "list" answers, [ret] the status of the
    call.  The id is kept between the calls; a failed call forgets it. *)
Definition clean_stale_clients (fuel : nat) (reply : option (list attr)) (ret : Z) (u : uproxy)
  : option (list invocation * uproxy) :=
  let id := if clean_id u =? 0 then owsd_id else clean_id u in
  let with_id id := Uproxy (client_max_reconnect_time u) (all_clients_check_timeout u) id
                      (add_timer u) (Some CLEAN_TIMEOUT) in
  if id =? 0 then Some ([], with_id id)
  else
    match match reply with
          | Some msg => clean_stale_clients_cb fuel (client_max_reconnect_time u) msg
          | None => Some []
          end with
    | None => None
    | Some calls => Some (calls, with_id (if negb (ret =? 0) then 0 else id))
    end.

(** The loop of [add_all_clients_cb] over the hosts. *)
Fixpoint add_hosts (hosts : list json) : list invocation :=
  match hosts with
  | [] => []
  | elem :: rest =>
      (if is_null elem then []
       else if json_get_bool elem "connected" =? 0 then []
       else match json_get_string elem "ipaddr" with
            | Some ipaddr => owsd_add_client owsd_id ipaddr
            | None => []
            end) ++ add_hosts rest
  end.

Definition add_all_clients_cb (msg : list attr) : list invocation :=
  let json_msg := json_tokener_parse (blobmsg_format_json msg) in
  if negb (json_object_is_type json_msg json_type_object) then []
  else match json_get json_msg "hosts" with
  | JArray hosts => add_hosts hosts
  | _ => []
  end.

(** The other timer callback: [router_id] is what the lookup of
    "router.network" leaves, [reply] what "hosts" answers. *)
Definition add_all_clients (router_id : Z) (reply : option (list attr)) (ret : Z) (u : uproxy)
  : list invocation * uproxy :=
  let timeout := all_clients_check_timeout u in
  let with_timer t := Uproxy (client_max_reconnect_time u) (all_clients_check_timeout u) (clean_id u)
                        (Some t) (clean_timer u) in
  if router_id =? 0 then ([], with_timer timeout)
  else
    (match reply with Some msg => add_all_clients_cb msg | None => [] end,
     with_timer (if negb (ret =? 0) then 5000 else timeout)).
End uproxyd.

Definition prepare_timers (u : uproxy) : uproxy :=
  Uproxy (client_max_reconnect_time u) (all_clients_check_timeout u) (clean_id u)
    (Some 1000) (Some CLEAN_TIMEOUT).

(** The loop of [main] over the options getopt delivers; [None]: the usage was
    printed and the program ends. *)
Fixpoint uproxyd_options (opts : list (ascii * string)) (u : uproxy) : option uproxy :=
  match opts with
  | [] => Some u
  | (opt, optarg) :: rest =>
      if (byte opt =? byte "r")%Z then
        let retime := atoi optarg in
        uproxyd_options rest
          (if 0 <? retime then Uproxy retime (all_clients_check_timeout u) (clean_id u)
                                 (add_timer u) (clean_timer u) else u)
      else if (byte opt =? byte "t")%Z then
        let time_out := atoi optarg in
        uproxyd_options rest
          (if 0 <? time_out then Uproxy (client_max_reconnect_time u) time_out (clean_id u)
                                   (add_timer u) (clean_timer u) else u)
      else None
  end.

(** [uloop_init_] is the result of [uloop_init], [connected] that of
    [ubus_connect], [listen] that of [ubus_register_event_handler]. *)
Definition init_ubus (uloop_init_ : Z) (connected : bool) : Z :=
  if negb (uloop_init_ =? 0) then uloop_init_ else if negb connected then 1 else 0.

(** [main] up to the event loop. *)
Definition uproxyd_main (opts : list (ascii * string)) (uloop_init_ : Z) (connected : bool) (listen : Z)
  : Z * option uproxy :=
  let init_ubus_ := init_ubus uloop_init_ connected in
  match uproxyd_options opts uproxy_c with
  | None => (0, None)
  | Some u =>
      if negb (init_ubus_ =? 0) then (init_ubus_, None)
      else if negb (listen =? 0) then (listen, None)
      else (0, Some (prepare_timers u))
  end.

(** ** The other side: the methods of wsubus_client.c *)

Section owsd.
Context `{LibUbox}.
Variable inet_pton : address_family -> string -> Z.

Definition add_client_policy : list blobmsg_policy :=
  [Policy "ip" BLOBMSG_TYPE_STRING; Policy "port" BLOBMSG_TYPE_INT32].
Definition client_index_policy : list blobmsg_policy := [Policy "index" BLOBMSG_TYPE_INT32].
Definition client_remove_policy : list blobmsg_policy :=
  [Policy "index" BLOBMSG_TYPE_INT32; Policy "ip" BLOBMSG_TYPE_STRING].

(** A parsed field, read with its accessor. *)
Definition tb_string (tb : list (option attr)) (i : nat) : option string :=
  blobmsg_get_string <$> default None (tb !! i).
Definition tb_u32 (tb : list (option attr)) (i : nat) : option Z :=
  blobmsg_get_u32 <$> default None (tb !! i).

(** [ubus_methods]: the status and the reply, if the method sends one. *)
Definition owsd_method (call : invocation) : M clvh (Z * option (list attr)) :=
  let '(method, msg) := call in
  if strcmp method "add" =? 0 then
    let tb := blobmsg_parse add_client_policy msg in
    fun s => let '(ret, s') := add_client inet_pton (tb_string tb 0) (tb_u32 tb 1) s in
             Some ((ret, None), s')
  else if strcmp method "remove" =? 0 then
    let tb := blobmsg_parse client_remove_policy msg in
    let* r := remove_client (tb_u32 tb 0) (tb_string tb 1) in
    M_ret (r.1, None)
  else if strcmp method "list" =? 0 then
    let tb := blobmsg_parse client_index_policy msg in
    let* l := gets (list_client (tb_u32 tb 0)) in
    M_ret (UBUS_STATUS_OK, Some l)
  else M_ret (UBUS_STATUS_METHOD_NOT_FOUND, None).

(** The calls of uproxyd, one after the other. *)
Definition owsd_methods (calls : list invocation) : M clvh unit :=
  forM_ calls (fun c => owsd_method c ;;; M_ret tt).
End owsd.

(** One turn of the cleaner with owsd: the list, and the removals made while
    its reply is handled. *)
Definition clean_round `{JsonC, LibUbox} (inet_pton : address_family -> string -> Z)
    (owsd_id : Z) (fuel : nat) (max : Z) : M clvh unit :=
  let* r := owsd_method inet_pton ("list", []) in
  let* calls := deref (fun _ => match r.2 with
                                | Some msg => clean_stale_clients_cb owsd_id fuel max msg
                                | None => Some []
                                end) in
  owsd_methods inet_pton calls.
