(* ===== verification/UproxydProps.v ===== *)
(** * Theorems on uproxyd with owsd (Uproxyd.v)

    The cleaner of stale remote buses against the table of owsd, and the events
    of the router. *)

From Stdlib Require Import Ascii.
From stdpp Require Import base list strings numbers sorting sets gmap.
From S2P Require Import Prelude CStrings Avl Patterns Libs WsubusClient ClientTable ClientProps Uproxyd.

Local Arguments strcmp : simpl never.
Set Default Proof Using "Type".

Implicit Types (l : list client_connection_info) (c : client_connection_info).

(** A client that could not be reached for long. *)
Definition stale_client (max : Z) (c : client_connection_info) : Prop := max < reconnect_count c.

#[export] Instance stale_client_dec max c : Decision (stale_client max c).
Proof. unfold stale_client. apply _. Defined.

(** The [int] fields a reply carries. *)
Definition int_fields (c : client_connection_info) : Prop :=
  index c < 2 ^ 31 /\ - 2 ^ 31 <= reconnect_count c < 2 ^ 31.

(** The reply to "list". *)
Definition list_reply (l : list client_connection_info) : list attr :=
  [("clients", BArray (dump_client <$> l))].

Definition json_client (c : client_connection_info) : json := blob_json (dump_client c).2.

(** In an ascending list of indexes from 0 on, a position is at most the index. *)
Lemma position_le_index l k c :
  StronglySorted by_index l -> (forall x, x ∈ l -> 0 <= index x) -> l !! k = Some c ->
  Z.of_nat k <= index c.
Proof.
  intros Hs Hn Hk.
  assert (forall n, (forall x, x ∈ l -> n <= index x) -> n + Z.of_nat k <= index c) as Hg.
  { clear Hn. revert k Hk. induction Hs as [|x l Hs IH Hf]; intros k Hk n Hn; [done|].
    destruct k as [|k]; simplify_eq/=.
    - specialize (Hn c ltac:(set_solver)). lia.
    - rewrite Forall_forall in Hf.
      enough ((n + 1) + Z.of_nat k <= index c) by lia. apply (IH k Hk). intros y Hy.
      specialize (Hf y Hy). specialize (Hn x ltac:(set_solver)). unfold by_index in Hf. lia. }
  by apply (Hg 0).
Qed.

Section cleaner.
Context `{JsonC, LibUbox}.

Lemma json_client_int c key z :
  assoc key ((fun a => (a.1, blob_json a.2)) <$> blob_children (dump_client c).2) = Some (JInt z) ->
  - 2 ^ 31 <= z < 2 ^ 31 -> json_get_int (json_client c) key = z.
Proof.
  intros Ha Hz. unfold json_get_int, json_client.
  change (blob_json (dump_client c).2) with
    (JObject ((fun a => (a.1, blob_json a.2)) <$> blob_children (dump_client c).2)).
  rewrite get_ex_object, Ha. simpl. by apply get_int_int.
Qed.

Lemma json_client_index c : 0 <= index c -> int_fields c -> json_get_int (json_client c) "index" = index c.
Proof. intros ? []. apply json_client_int; [|lia]. simpl. by rewrite s32_u32 by lia. Qed.

Lemma json_client_count c :
  int_fields c -> json_get_int (json_client c) "reconnect_count" = reconnect_count c.
Proof. intros []. apply json_client_int; [|lia]. simpl. by rewrite s32_u32 by lia. Qed.

Definition removal (c : client_connection_info) : invocation :=
  ("remove", [("index", BInt32 (u32 (index c)))]).

(** The loop from position [k] on: it stops, removes stale clients only, and the
    first of them certainly. *)
Lemma clean_loop_spec owsd_id max l n fuel k :
  owsd_id <> 0 -> StronglySorted by_index l -> (forall c, c ∈ l -> 0 <= index c) ->
  Forall int_fields l -> (length l - k <= n)%nat -> (n <= fuel)%nat ->
  exists sel, clean_loop owsd_id fuel max (JArray (json_client <$> l)) (Z.of_nat k) = Some (removal <$> sel) /\
    sel `sublist_of` filter (stale_client max) (drop k l) /\
    head sel = head (filter (stale_client max) (drop k l)).
Proof.
  intros Hid Hs Hn Hf. revert fuel k. induction n as [|n IH]; intros fuel k Hk Hfuel.
  - exists []. rewrite drop_ge by lia. split; [|done].
    destruct fuel; simpl; rewrite array_length_array, length_fmap, (proj2 (Z.leb_le _ _)) by lia; done.
  - destruct (decide (length l <= k)%nat) as [Hge|Hlt].
    { apply (IH fuel k); lia. }
    destruct (lookup_lt_is_Some_2 l k ltac:(lia)) as [c Hc].
    assert (c ∈ l) as Hin by (by eapply list_elem_of_lookup_2).
    rewrite Forall_forall in Hf. pose proof (position_le_index l k c Hs Hn Hc) as Hpos.
    rewrite (drop_S l c k Hc), filter_cons. destruct fuel as [|fuel]; [lia|]. cbn [clean_loop].
    rewrite array_length_array, length_fmap, (proj2 (Z.leb_gt _ _)) by lia.
    rewrite get_idx_array, list_lookup_fmap, Nat2Z.id, Hc. cbv zeta. simpl default.
    rewrite json_client_count by auto. change (is_null (json_client c)) with false. cbv iota.
    destruct (decide (stale_client max c)) as [Hst|Hst]; unfold stale_client in Hst.
    + rewrite (proj2 (Z.leb_gt _ _)) by lia. rewrite json_client_index by auto.
      specialize (Hn c Hin).
      destruct (IH fuel (S (Z.to_nat (index c)))) as (sel & E & Hsub & _); [lia..|].
      replace (Z.of_nat (S (Z.to_nat (index c)))) with (index c + 1) in E by lia. rewrite E.
      exists (c :: sel). rewrite (proj2 (Z.leb_le _ _)) by done.
      unfold owsd_remove_client. rewrite (proj2 (Z.eqb_neq _ _)) by done.
      split; [done|]. split; [|done]. apply sublist_skip. etrans; [exact Hsub|].
      apply sublist_filter_mono. assert (S k <= S (Z.to_nat (index c)))%nat as Hle by lia.
      replace (S (Z.to_nat (index c))) with (S k + (S (Z.to_nat (index c)) - S k))%nat by lia.
      rewrite <- drop_drop. apply sublist_drop.
    + rewrite (proj2 (Z.leb_le _ _)) by lia.
      replace (Z.of_nat k + 1) with (Z.of_nat (S k)) by lia. apply IH; lia.
Qed.
End cleaner.

(** ** The removals, on the side of owsd *)

(** The table after the removal of some of its clients. *)
Definition without (sel : list client_connection_info) (c : client_connection_info)
  : option client_connection_info :=
  if decide (index c ∈ index <$> sel) then (manage_remove_client c).1 else Some c.

Lemma manage_remove_index c c' : (manage_remove_client c).1 = Some c' -> index c' = index c.
Proof. unfold manage_remove_client. destruct (state c); simpl; by intros [= <-]. Qed.

Lemma without_index sel c c' : without sel c = Some c' -> index c' = index c.
Proof. unfold without. case_decide; [apply manage_remove_index|by intros [= <-]]. Qed.

Lemma omap_without_nil l : omap (without []) l = l.
Proof. induction l as [|x l IH]; [done|]. cbn. by rewrite IH. Qed.

Section removals.
Context `{LibUbox}.
Variable inet_pton : address_family -> string -> Z.

(** The arguments of a removal, as the method reads them. *)
Lemma parse_removal i :
  0 <= i < 2 ^ 31 ->
  tb_u32 (blobmsg_parse client_remove_policy [("index", BInt32 (u32 i))]) 0 = Some i /\
  tb_string (blobmsg_parse client_remove_policy [("index", BInt32 (u32 i))]) 1 = None.
Proof.
  intros Hi. rewrite (u32_small i) by lia. unfold tb_u32, tb_string. split.
  - rewrite (parse_complete _ _ 0 (Policy "index" BLOBMSG_TYPE_INT32) ("index", BInt32 i));
      [|done|set_solver|done|by right|set_solver].
    simpl. by rewrite get_u32_attr by lia.
  - set (tb := blobmsg_parse _ _).
    destruct (tb !! 1%nat) as [[a|]|] eqn:E; [|done|done].
    apply parse_sound in E as (p & [= <-] & ->%list_elem_of_singleton & ? & _). done.
Qed.

Lemma owsd_remove_run c s :
  0 <= index c -> index c < 2 ^ 31 -> StronglySorted by_index (clients s) ->
  (exists c', c' ∈ clients s /\ index c' = index c) ->
  exists r, owsd_method inet_pton (removal c) s = Some (r, set_clients
    (omap (on (has_index (index c)) (fun c => (manage_remove_client c).1)) (clients s)) s).
Proof.
  intros H0 Hi Hs (c' & Hin & Hc'). unfold owsd_method, removal.
  change (strcmp "remove" "add" =? 0) with false. change (strcmp "remove" "remove" =? 0) with true.
  cbv iota zeta. destruct (parse_removal (index c) ltac:(lia)) as [-> ->].
  unfold remove_client, M_bind, deref, modify, M_ret. rewrite s32_u32 by lia.
  pose proof (remove_index_omap (index c) (clients s) Hs) as Hr.
  destruct (remove_index (index c) (clients s)) as [[l' w]|].
  - destruct Hr as [-> _]. simpl. eauto.
  - by destruct (Hr c' Hin).
Qed.

Lemma without_cons c sel l :
  index c ∉ index <$> sel ->
  omap (without sel) (omap (on (has_index (index c)) (fun c => (manage_remove_client c).1)) l) =
  omap (without (c :: sel)) l.
Proof.
  intros Hni. induction l as [|x l IH]; [done|]. csimpl. rewrite <- IH. clear IH.
  unfold on at 1, has_index at 1, without at 2. rewrite fmap_cons.
  destruct (Z.eqb_spec (index c) (index x)) as [Heq|Hne].
  - rewrite decide_True by (rewrite Heq; left).
    destruct ((manage_remove_client x).1) as [x'|] eqn:E; [|done]. csimpl.
    unfold without at 1. rewrite (manage_remove_index _ _ E), <- Heq, decide_False by done. done.
  - csimpl. unfold without at 1. destruct (decide (index x ∈ index <$> sel)) as [Hin|Hin].
    + rewrite decide_True by (by right). done.
    + rewrite decide_False; [done|]. rewrite elem_of_cons. naive_solver.
Qed.

(** A sequence of removals of different clients of the table. *)
Lemma owsd_removals_run sel s :
  StronglySorted by_index (clients s) -> NoDup (index <$> sel) ->
  Forall (fun c => 0 <= index c < 2 ^ 31 /\ exists c', c' ∈ clients s /\ index c' = index c) sel ->
  owsd_methods inet_pton (removal <$> sel) s =
  Some (tt, set_clients (omap (without sel) (clients s)) s).
Proof.
  revert s. induction sel as [|c sel IH]; intros s Hs Hnd Hf.
  - rewrite omap_without_nil. by destruct s.
  - apply Forall_cons in Hf as [[Hr Hex] Hf]. csimpl in Hnd. csimpl.
    apply NoDup_cons in Hnd as [Hni Hnd].
    unfold owsd_methods. cbn [forM_]. unfold M_bind at 1 2.
    destruct (owsd_remove_run c s) as [r ->]; [lia|lia|done|done|]. unfold M_ret at 1.
    fold (owsd_methods inet_pton (removal <$> sel)).
    set (g := on (has_index (index c)) (fun c => (manage_remove_client c).1)).
    rewrite IH; [simpl; unfold g; by rewrite without_cons|..|done|].
    + apply omap_sorted; [|done]. intros x x' _. unfold g, on. case_match; [apply manage_remove_index|].
      by intros [= <-].
    + apply Forall_forall. intros x Hx. rewrite Forall_forall in Hf. destruct (Hf x Hx) as [? (x' & Hx' & Ei)].
      split; [done|]. exists x'. split; [|done]. simpl. apply list_elem_of_omap. exists x'. split; [done|].
      unfold g, on, has_index. rewrite (proj2 (Z.eqb_neq _ _)); [done|]. intros Heq. apply Hni.
      rewrite Heq, Ei. by apply list_elem_of_fmap_2.
Qed.
End removals.

(** Removing disconnected clients takes them out of the table. *)
Lemma without_disconnected sel l :
  (forall c, c ∈ l -> index c ∈ index <$> sel -> state c = CONNECTION_STATE_DISCONNECTED) ->
  omap (without sel) l = filter (fun c => index c ∉ index <$> sel) l.
Proof.
  induction l as [|c l IH]; intros Hd; [done|]. csimpl. rewrite filter_cons, IH by set_solver.
  unfold without at 1. case_decide as Hin.
  - rewrite decide_False by tauto. unfold manage_remove_client. by rewrite Hd by set_solver.
  - by rewrite decide_True.
Qed.

(** The clients a turn leaves, when the stale ones are disconnected: the stale
    ones get fewer, if there was one, and the others stay. *)
Lemma turn_progress max l sel :
  StronglySorted by_index l ->
  (forall c, c ∈ l -> stale_client max c -> state c = CONNECTION_STATE_DISCONNECTED) ->
  sel `sublist_of` filter (stale_client max) l ->
  head sel = head (filter (stale_client max) l) ->
  exists l', omap (without sel) l = l' /\ l' `sublist_of` l /\
    filter (fun c => ~ stale_client max c) l' = filter (fun c => ~ stale_client max c) l /\
    (length (filter (stale_client max) l') <= pred (length (filter (stale_client max) l)))%nat.
Proof.
  intros Hs Hd Hsub Hhd. eexists. split; [done|].
  assert (forall c, c ∈ l -> index c ∈ index <$> sel -> c ∈ sel /\ stale_client max c) as Hsel.
  { intros c Hc (x & Hx & Hin)%list_elem_of_fmap.
    pose proof (sublist_elem_of _ _ _ Hsub Hin) as [Hst Hxl]%list_elem_of_filter.
    by rewrite (index_inj l c x Hs Hc Hxl Hx). }
  rewrite without_disconnected by (intros c Hc [_ ?]%Hsel; auto).
  split; [apply sublist_filter|]. split.
  - rewrite list_filter_filter. apply filter_ext_in. intros c Hc. split; [tauto|].
    intros Hns. split; [done|]. by intros [_ ?]%(Hsel c Hc).
  - trans (length (filter (fun c => index c ∉ index <$> sel) (filter (stale_client max) l))).
    { rewrite !list_filter_filter.
      rewrite (filter_ext_in (fun c => stale_client max c /\ index c ∉ index <$> sel)
                 (fun c => (index c ∉ index <$> sel) /\ stale_client max c)) by tauto. done. }
    destruct (filter (stale_client max) l) as [|c0 st]; [done|].
    destruct sel as [|x sel]; [done|]. injection Hhd as ->.
    enough (length (filter (fun c => index c ∉ index <$> c0 :: sel) (c0 :: st)) < length (c0 :: st))%nat
      by (simpl in *; lia).
    apply (length_filter_lt _ _ c0); [left|]. csimpl. rewrite elem_of_cons. tauto.
Qed.

(** ** One turn and all turns of the cleaner *)

Section turns.
Context `{JsonC, LibUbox}.
Variable inet_pton : address_family -> string -> Z.
Variable owsd_id : Z.
Hypothesis owsd_found : owsd_id <> 0.

Lemma parse_list_args : tb_u32 (blobmsg_parse client_index_policy []) 0 = None.
Proof.
  unfold tb_u32. set (tb := blobmsg_parse _ _).
  destruct (tb !! 0%nat) as [[a|]|] eqn:E; [|done|done].
  by apply parse_sound in E as (p & _ & ?%not_elem_of_nil & _).
Qed.

Lemma clean_round_eq fuel max s :
  clean_round inet_pton owsd_id fuel max s =
  match clean_stale_clients_cb owsd_id fuel max (list_reply (clients s)) with
  | Some calls => owsd_methods inet_pton calls s
  | None => None
  end.
Proof.
  unfold clean_round, M_bind at 1, owsd_method.
  change (strcmp "list" "add" =? 0) with false. change (strcmp "list" "remove" =? 0) with false.
  change (strcmp "list" "list" =? 0) with true. cbv iota zeta. rewrite parse_list_args.
  unfold M_bind, gets, M_ret, deref. simpl.
  by destruct (clean_stale_clients_cb owsd_id fuel max _).
Qed.

Lemma clean_cb_eq fuel max l :
  prints_as (list_reply l) ->
  clean_stale_clients_cb owsd_id fuel max (list_reply l) =
  clean_loop owsd_id fuel max (JArray (json_client <$> l)) 0.
Proof.
  intros Hp. unfold clean_stale_clients_cb, prints_as in *. cbv zeta. rewrite Hp.
  change (blob_json (BTable (list_reply l))) with
    (JObject [("clients", JArray ((fun a => blob_json a.2) <$> (dump_client <$> l)))]).
  rewrite json_get_object, <- list_fmap_compose. done.
Qed.

Lemma sublist_indexes l sel :
  StronglySorted by_index l -> sel `sublist_of` l -> NoDup (index <$> sel).
Proof.
  intros Hs Hsub. apply (StronglySorted_sub _ _ _ Hsub) in Hs. clear Hsub.
  induction Hs as [|c sel Hs IH Hf]; csimpl; constructor; [|done].
  intros (x & Hx & Hin)%list_elem_of_fmap. rewrite Forall_forall in Hf.
  specialize (Hf x Hin). unfold by_index in Hf. lia.
Qed.

Lemma clean_round_run fuel max s :
  StronglySorted by_index (clients s) -> (forall c, c ∈ clients s -> 0 <= index c) -> Forall int_fields (clients s) -> prints_as (list_reply (clients s)) ->
  (length (clients s) <= fuel)%nat ->
  exists sel, clean_round inet_pton owsd_id fuel max s =
    Some (tt, set_clients (omap (without sel) (clients s)) s) /\
    sel `sublist_of` filter (stale_client max) (clients s) /\
    head sel = head (filter (stale_client max) (clients s)).
Proof using owsd_found.
  intros Hs Hn Hf Hp Hfuel. rewrite clean_round_eq, clean_cb_eq by done.
  destruct (clean_loop_spec owsd_id max (clients s) (length (clients s)) fuel 0)
    as (sel & E & Hsub & Hhd); [done..|lia|done|].
  rewrite drop_0 in Hsub, Hhd. change (Z.of_nat 0) with 0 in E. rewrite E. exists sel. split; [|done].
  assert (sel `sublist_of` clients s) as Hsub' by (etrans; [exact Hsub|apply sublist_filter]).
  apply owsd_removals_run; [done|by eapply sublist_indexes|].
  apply Forall_forall. intros c Hc. pose proof (sublist_elem_of _ _ _ Hsub' Hc) as Hin.
  rewrite Forall_forall in Hf. destruct (Hf c Hin). split; [|by exists c].
  split; [by apply Hn|done].
Qed.

End turns.

(** [n] turns of the cleaner with nothing in between. *)
Definition clean_turns `{JsonC, LibUbox} (inet_pton : address_family -> string -> Z)
    (owsd_id : Z) (fuel : nat) (max : Z) (n : nat) : M clvh unit :=
  forM_ (seq 0 n) (fun _ => clean_round inet_pton owsd_id fuel max).

Lemma clean_turns_run `{JsonC, LibUbox} inet_pton owsd_id fuel max n i s :
  owsd_id <> 0 -> StronglySorted by_index (clients s) -> (forall c, c ∈ clients s -> 0 <= index c) ->
  Forall int_fields (clients s) -> (length (clients s) <= fuel)%nat ->
  (forall l, l `sublist_of` clients s -> prints_as (list_reply l)) ->
  (forall c, c ∈ clients s -> stale_client max c -> state c = CONNECTION_STATE_DISCONNECTED) ->
  (length (filter (stale_client max) (clients s)) <= n)%nat ->
  forM_ (seq i n) (fun _ => clean_round inet_pton owsd_id fuel max) s =
  Some (tt, set_clients (filter (fun c => ~ stale_client max c) (clients s)) s).
Proof.
  intros Hid. revert i s. induction n as [|n IH]; intros i s Hs Hn Hf Hfuel Hp Hd Hle.
  - rewrite filter_all.
    + by destruct s.
    + intros c Hc Hst.
      assert (c ∈ filter (stale_client max) (clients s)) as Hin by (by apply list_elem_of_filter).
      destruct (filter (stale_client max) (clients s)); [by apply elem_of_nil in Hin|simpl in Hle; lia].
  - cbn [seq forM_]. unfold M_bind at 1.
    destruct (clean_round_run inet_pton owsd_id Hid fuel max s) as (sel & -> & Hsub & Hhd); [auto..|].
    destruct (turn_progress max (clients s) sel Hs Hd Hsub Hhd) as (l' & -> & Hl' & Hkeep & Hless).
    assert (forall c, c ∈ l' -> c ∈ clients s) as Hin by (intros c; by apply sublist_elem_of).
    rewrite IH; simpl; [by rewrite Hkeep|..].
    + by eapply StronglySorted_sub.
    + auto.
    + apply Forall_forall. intros c Hc. rewrite Forall_forall in Hf. auto.
    + apply sublist_length in Hl'. lia.
    + intros l Hl. apply Hp. by etrans.
    + auto.
    + lia.
Qed.

(** One turn of the cleaner against owsd.  In every reachable state of the
    table of remote buses, reading the list and handling it comes back within
    one step of the loop per client, every removal finds its client, and what is
    removed are clients over the limit of reconnections, the first of them
    among them. *)
Theorem cleaner_turn `{JsonC, LibUbox} (inet_pton : address_family -> string -> Z) (s : clvh)
    (live : gset lws) (owsd_id max : Z) :
  (forall af addr, inet_pton af addr <> 0 -> (String.length addr < MAX_IP_LEN)%nat) ->
  reachable inet_pton (s, live) -> owsd_id <> 0 ->
  Forall int_fields (clients s) -> prints_as (list_reply (clients s)) ->
  exists sel, clean_round inet_pton owsd_id (length (clients s)) max s =
    Some (tt, set_clients (omap (without sel) (clients s)) s) /\
    sel `sublist_of` filter (stale_client max) (clients s) /\
    head sel = head (filter (stale_client max) (clients s)).
Proof.
  intros Hp Hr Hid Hf Hpr. pose proof (reachable_indexed _ Hp _ _ Hr) as Hi.
  apply clean_round_run; try done; apply Hi.
Qed.

(** C31: clients that cannot be reached do go away.  Take any reachable table
    whose clients over the limit of reconnections are disconnected and whose
    numbers fit an [int], and replies that json-c reads back as they are
    printed.  After as many turns of the cleaner as there are clients over the
    limit, although a single turn may skip some, none of them is in the table
    any more, and every client below the limit still is, unchanged; nothing is
    added. *)
Theorem cleaner_liveness `{JsonC, LibUbox} (inet_pton : address_family -> string -> Z) (s : clvh)
    (live : gset lws) (owsd_id max : Z) (n : nat) :
  (forall af addr, inet_pton af addr <> 0 -> (String.length addr < MAX_IP_LEN)%nat) ->
  reachable inet_pton (s, live) -> owsd_id <> 0 ->
  Forall int_fields (clients s) ->
  (forall l, l `sublist_of` clients s -> prints_as (list_reply l)) ->
  (forall c, c ∈ clients s -> stale_client max c -> state c = CONNECTION_STATE_DISCONNECTED) ->
  (length (filter (stale_client max) (clients s)) <= n)%nat ->
  exists l, clean_turns inet_pton owsd_id (length (clients s)) max n s = Some (tt, set_clients l s) /\
    l `sublist_of` clients s /\
    (forall c, c ∈ clients s -> max < reconnect_count c -> c ∉ l) /\
    (forall c, c ∈ clients s -> reconnect_count c < max -> c ∈ l).
Proof.
  intros Hp Hr Hid Hf Hpr Hd Hn. pose proof (reachable_indexed _ Hp _ _ Hr) as Hi.
  exists (filter (fun c => ~ stale_client max c) (clients s)). split_and!.
  - apply clean_turns_run; try done; apply Hi.
  - apply sublist_filter.
  - intros c _ Hc. rewrite list_elem_of_filter. intros [Hs _]. by apply Hs.
  - intros c Hc Hlt. apply list_elem_of_filter. split; [|done]. unfold stale_client. lia.
Qed.

(** ** The events of the router *)

Definition client_event (action mac ip network : string) : list attr :=
  [("action", BString action); ("macaddr", BString mac); ("ipaddr", BString ip);
   ("network", BString network)].

Section events.
Context `{JsonC, LibUbox}.
Variable inet_pton : address_family -> string -> Z.

Lemma event_strings action mac ip network :
  json_get_string (blob_json (BTable (client_event action mac ip network))) "action" = Some action /\
  json_get_string (blob_json (BTable (client_event action mac ip network))) "ipaddr" = Some ip.
Proof.
  unfold json_get_string.
  change (blob_json (BTable (client_event action mac ip network))) with
    (JObject [("action", JString action); ("macaddr", JString mac); ("ipaddr", JString ip);
              ("network", JString network)]).
  rewrite !get_ex_object. simpl. by rewrite !get_string_string.
Qed.

(** One string field, as a method reads it; the other field is missing. *)
Lemma parse_ip ps i j t ip :
  ps !! i = Some (Policy "ip" BLOBMSG_TYPE_STRING) -> ps !! j = Some (Policy t BLOBMSG_TYPE_INT32) ->
  t <> "ip" ->
  tb_string (blobmsg_parse ps [("ip", BString ip)]) i = Some ip /\
  tb_u32 (blobmsg_parse ps [("ip", BString ip)]) j = None.
Proof.
  intros Hi Hj Ht. unfold tb_string, tb_u32. split.
  - rewrite (parse_complete _ _ i (Policy "ip" BLOBMSG_TYPE_STRING) ("ip", BString ip));
      [|done|set_solver|done|by right|set_solver].
    simpl. by rewrite get_string_attr.
  - set (tb := blobmsg_parse _ _). destruct (tb !! j) as [[a|]|] eqn:E; [|done|done].
    apply parse_sound in E as (p & Hp & ->%list_elem_of_singleton & Hn & _). simplify_eq/=.
Qed.

Lemma owsd_add_ip_run ip s :
  owsd_methods inet_pton [("add", [("ip", BString ip)])] s =
  Some (tt, (add_client inet_pton (Some ip) None s).2).
Proof.
  unfold owsd_methods. cbn [forM_]. unfold M_bind, owsd_method.
  change (strcmp "add" "add" =? 0) with true. cbv iota zeta.
  destruct (parse_ip add_client_policy 0 1 "port" ip) as [-> ->]; [done..|].
  by destruct (add_client _ _ _ s).
Qed.

Lemma owsd_remove_ip_run ip s :
  owsd_methods inet_pton [("remove", [("ip", BString ip)])] s =
  Some (tt, set_clients (remove_ip ip (clients s)).1 s).
Proof.
  unfold owsd_methods. cbn [forM_]. unfold M_bind at 1 2, owsd_method.
  change (strcmp "remove" "add" =? 0) with false. change (strcmp "remove" "remove" =? 0) with true.
  cbv iota zeta. by destruct (parse_ip client_remove_policy 1 0 "index" ip) as [-> ->].
Qed.

Variable owsd_id : Z.
Hypothesis owsd_found : owsd_id <> 0.

Lemma receive_event_eq action mac ip network :
  prints_as (client_event action mac ip network) ->
  receive_event_cb owsd_id (client_event action mac ip network) =
  if strcmp action "connect" =? 0 then [("add", [("ip", BString ip)])]
  else if strcmp action "disconnect" =? 0 then [("remove", [("ip", BString ip)])] else [].
Proof using owsd_found.
  intros Hp. unfold receive_event_cb, prints_as in *. cbv zeta. rewrite Hp.
  destruct (event_strings action mac ip network) as [-> ->].
  unfold owsd_add_client, owsd_remove_client. by rewrite (proj2 (Z.eqb_neq owsd_id 0)).
Qed.

End events.

Lemma add_ip_effect inet_pton s ip :
  (forall af addr, inet_pton af addr <> 0 -> (String.length addr < MAX_IP_LEN)%nat) ->
  indexed (clients s) -> inet_pton AF_INET ip <> 0 ->
  let s' := (add_client inet_pton (Some ip) None s).2 in
  (exists c, c ∈ clients s' /\ address c = ip /\ wanted c) /\
  forall c, address c <> ip -> c ∈ clients s' <-> c ∈ clients s.
Proof.
  intros Hlen Hi Hip. cbv zeta.
  change (add_client inet_pton (Some ip) None s) with
    (wsubus_client_create inet_pton (Some ip) 443 (Some "/") CLIENT_FROM_UBUS s).
  destruct (decide (Exists (fun c => state c <> CONNECTION_STATE_TEARINGDOWN /\ address c = ip) (clients s)))
    as [Hex|Hnex].
  - assert (unique_ip ip (clients s) = false) as Hu.
    { apply not_true_is_false. rewrite unique_ip_spec. intros Hu.
      apply Exists_exists in Hex as (c & Hc & Hw & Ha). by apply (Hu c). }
    assert ((wsubus_client_create inet_pton (Some ip) 443 (Some "/") CLIENT_FROM_UBUS s).2 = s) as ->.
    { unfold wsubus_client_create. rewrite Hu. by destruct (validate_ip_port_path _ _ _ _). }
    split; [|done]. apply Exists_exists in Hex as (c & Hc & Hw & Ha). by exists c.
  - assert (unique_ip ip (clients s) = true) as Hu.
    { apply unique_ip_spec. intros c Hc Hw Ha. apply Hnex, Exists_exists. by exists c. }
    destruct (create_cases inet_pton Hlen (Some ip) 443 (Some "/") CLIENT_FROM_UBUS s) as
      [E | (a & p & c & [= <-] & _ & _ & _ & -> & Ha & _ & Hst)].
    + exfalso. unfold wsubus_client_create, validate_ip_port_path in E. rewrite Hu in E.
      rewrite (proj2 (Z.eqb_neq (inet_pton AF_INET ip) 0)) in E by done.
      by rewrite (proj2 (Z.eqb_neq (inet_pton AF_INET ip) 0)) in E by done.
    + destruct (insert_at_spec 0 c (clients s)) as (k & l1 & l2 & El & Er & _); [apply Hi|apply Hi|].
      unfold insert_at_lowest_free_index. rewrite Er, El. split.
      * exists (set_index k c). split_and!; [set_solver|done|]. unfold wanted. simpl. by rewrite Hst.
      * intros x Hx. rewrite !elem_of_app, elem_of_cons.
        assert (x <> set_index k c) by (by intros ->). tauto.
Qed.

Lemma remove_ip_effect ip l :
  (forall c, c ∈ (remove_ip ip l).1 -> address c = ip -> ~ wanted c) /\
  forall c, address c <> ip -> c ∈ (remove_ip ip l).1 <-> c ∈ l.
Proof.
  assert (forall c c', (manage_remove_client c).1 = Some c' ->
    address c' = address c /\ state c' = CONNECTION_STATE_TEARINGDOWN) as Hm.
  { intros c c'. unfold manage_remove_client. destruct (state c) eqn:E; simpl; intros [= <-]; done. }
  unfold remove_ip. simpl. split.
  - intros c' (c & _ & E)%list_elem_of_omap Ha Hw.
    destruct (Z.eqb_spec (strcmp ip (address c)) 0) as [|Hne]; [apply Hm in E as [_ ?]; done|].
    simplify_eq. by rewrite strcmp_refl in Hne.
  - intros c' Ha. rewrite list_elem_of_omap. split.
    + intros (c & Hc & E). destruct (Z.eqb_spec (strcmp ip (address c)) 0) as [Heq|]; [|by simplify_eq].
      apply strcmp_eq in Heq. apply Hm in E as [E _]. congruence.
    + intros Hc. exists c'. split; [done|].
      destruct (Z.eqb_spec (strcmp ip (address c')) 0) as [Heq%strcmp_eq|]; congruence.
Qed.

(** C32: owsd follows the router.  In every reachable state, the "connect" event
    of a host with a valid address makes owsd want a remote bus at that address,
    and the "disconnect" event makes it want none there; the clients with other
    addresses are not touched by either. *)
Theorem router_events_followed `{JsonC, LibUbox} (inet_pton : address_family -> string -> Z)
    (s : clvh) (live : gset lws) (owsd_id : Z) (mac ip network : string) :
  (forall af addr, inet_pton af addr <> 0 -> (String.length addr < MAX_IP_LEN)%nat) ->
  reachable inet_pton (s, live) -> owsd_id <> 0 ->
  prints_as (client_event "connect" mac ip network) ->
  prints_as (client_event "disconnect" mac ip network) ->
  inet_pton AF_INET ip <> 0 ->
  (exists s', owsd_methods inet_pton (receive_event_cb owsd_id (client_event "connect" mac ip network)) s
     = Some (tt, s') /\
     (exists c, c ∈ clients s' /\ address c = ip /\ wanted c) /\
     forall c, address c <> ip -> c ∈ clients s' <-> c ∈ clients s) /\
  (exists s', owsd_methods inet_pton (receive_event_cb owsd_id (client_event "disconnect" mac ip network)) s
     = Some (tt, s') /\
     (forall c, c ∈ clients s' -> address c = ip -> ~ wanted c) /\
     forall c, address c <> ip -> c ∈ clients s' <-> c ∈ clients s).
Proof.
  intros Hlen Hr Hid Hp1 Hp2 Hip. pose proof (reachable_indexed _ Hlen _ _ Hr) as Hi.
  rewrite !receive_event_eq by done.
  change (strcmp "connect" "connect" =? 0) with true. change (strcmp "disconnect" "connect" =? 0) with false.
  change (strcmp "disconnect" "disconnect" =? 0) with true. cbv iota.
  rewrite owsd_add_ip_run, owsd_remove_ip_run. split; eexists; (split; [done|]).
  - by eapply add_ip_effect.
  - apply remove_ip_effect.
Qed.

(** ** Instances *)

(** One client that was refused, and a new one after it. *)
Definition two_clients : clvh :=
  (wsubus_client_create two_hosts (Some "10.0.0.3") 443 (Some "/") CLIENT_FROM_UBUS
     (utimer_reconnect_cb 0 (Refused 5%nat) one_client)).2.

Lemma two_clients_reachable : reachable two_hosts (two_clients, ∅).
Proof.
  eapply reachable_step; [eapply reachable_step; [eapply reachable_step; [by apply (reachable_init _ clvh_init)|]|]|].
  - exact (step_create _ _ _ (Some "10.0.0.2") 443 (Some "/") CLIENT_FROM_UBUS).
  - apply (step_timer_refused _ _ _ 0 5%nat); [|set_solver].
    eexists. split; [apply elem_of_cons; left; reflexivity|]. done.
  - apply step_create.
Qed.

(** A printer and a parser for the replies with some of the two clients: the
    text has an "a" for the first and a "b" for the second. *)
Definition print_reply (msg : list attr) : string :=
  match msg with
  | [(_, BArray l)] => foldr (fun a t =>
      match blob_children a.2 with
      | (_, BInt32 0) :: _ => "a" ++ t
      | _ => "b" ++ t
      end)%string "" l
  | (_, BString action) :: _ => action
  | _ => ""
  end.

Definition parse_reply (t : string) : json :=
  if decide (t = "connect") then
    blob_json (BTable (client_event "connect" "00:11:22:33:44:55" "10.0.0.3" "lan"))
  else if decide (t = "disconnect") then
    blob_json (BTable (client_event "disconnect" "00:11:22:33:44:55" "10.0.0.3" "lan"))
  else blob_json (BTable (list_reply
    (if decide (t = "ab") then clients two_clients
     else if decide (t = "a") then take 1 (clients two_clients)
     else if decide (t = "b") then drop 1 (clients two_clients) else []))).

Definition jsonc_w : JsonC := ref_jsonc_with parse_reply.
Definition libubox_w : LibUbox := ref_libubox_with print_reply.

Lemma two_clients_print l :
  l `sublist_of` clients two_clients -> @prints_as jsonc_w libubox_w (list_reply l).
Proof.
  intros Hl. remember (clients two_clients) as cs eqn:E. vm_compute in E. subst cs.
  repeat match goal with H : sublist _ _ |- _ => inversion H; clear H; subst end; reflexivity.
Qed.

Lemma two_clients_fields : Forall int_fields (clients two_clients).
Proof.
  unfold int_fields. remember (clients two_clients) as cs eqn:E. vm_compute in E. subst cs.
  rewrite !Forall_cons. cbn [index reconnect_count]. split_and!; lia || apply Forall_nil; done.
Qed.

Lemma two_clients_disconnected c :
  c ∈ clients two_clients -> state c = CONNECTION_STATE_DISCONNECTED.
Proof.
  intros Hc. remember (clients two_clients) as cs eqn:E. vm_compute in E. subst cs.
  rewrite !elem_of_cons in Hc. by destruct Hc as [->|[->|Hc%elem_of_nil]].
Qed.

Lemma two_clients_stale : length (filter (stale_client 0) (clients two_clients)) = 1%nat.
Proof. vm_compute. reflexivity. Qed.

Lemma cleaner_turn_witness :
  exists sel, @clean_round jsonc_w libubox_w two_hosts 7 (length (clients two_clients)) 0 two_clients =
    Some (tt, set_clients (omap (without sel) (clients two_clients)) two_clients) /\
    sel `sublist_of` filter (stale_client 0) (clients two_clients) /\
    head sel = head (filter (stale_client 0) (clients two_clients)).
Proof.
  apply (@cleaner_turn jsonc_w libubox_w two_hosts two_clients ∅).
  - apply two_hosts_length.
  - apply two_clients_reachable.
  - done.
  - apply two_clients_fields.
  - by apply two_clients_print.
Defined.

Lemma cleaner_liveness_witness :
  exists l, @clean_turns jsonc_w libubox_w two_hosts 7 (length (clients two_clients)) 0 1 two_clients =
    Some (tt, set_clients l two_clients) /\
    l `sublist_of` clients two_clients /\
    (forall c, c ∈ clients two_clients -> 0 < reconnect_count c -> c ∉ l) /\
    (forall c, c ∈ clients two_clients -> reconnect_count c < 0 -> c ∈ l).
Proof.
  apply (@cleaner_liveness jsonc_w libubox_w two_hosts two_clients ∅).
  - apply two_hosts_length.
  - apply two_clients_reachable.
  - done.
  - apply two_clients_fields.
  - apply two_clients_print.
  - intros c Hc _. by apply two_clients_disconnected.
  - by rewrite two_clients_stale.
Defined.

Lemma router_events_followed_witness :
  let ev a := client_event a "00:11:22:33:44:55" "10.0.0.3" "lan" in
  (exists s', owsd_methods (H := libubox_w) two_hosts
     (@receive_event_cb jsonc_w libubox_w 7 (ev "connect")) one_client = Some (tt, s') /\
     (exists c, c ∈ clients s' /\ address c = "10.0.0.3" /\ wanted c) /\
     forall c, address c <> "10.0.0.3" -> c ∈ clients s' <-> c ∈ clients one_client) /\
  (exists s', owsd_methods (H := libubox_w) two_hosts
     (@receive_event_cb jsonc_w libubox_w 7 (ev "disconnect")) one_client = Some (tt, s') /\
     (forall c, c ∈ clients s' -> address c = "10.0.0.3" -> ~ wanted c) /\
     forall c, address c <> "10.0.0.3" -> c ∈ clients s' <-> c ∈ clients one_client).
Proof.
  apply (@router_events_followed jsonc_w libubox_w two_hosts one_client ∅ 7); try done.
  - apply two_hosts_length.
  - eapply reachable_step; [by apply (reachable_init _ clvh_init)|apply step_create].
Defined.
