(* ===== verification/HttpServe.v ===== *)
(** * ws_http_serve.c: files over plain HTTP

    A request is answered with a redirect, "not modified", "not found" or a
    file.  The file system ([access], [stat]), the clock functions ([strptime],
    [mktime], [strftime]) and libwebsockets are parameters: a call of
    libwebsockets is recorded in the state, and its result may depend on the
    calls before it.  Memory is the [M] monad's other outcome: [None] is a read
    or a write outside a buffer. *)

From Stdlib Require Import Ascii.
From stdpp Require Import base list strings numbers sets gmap.
From S2P Require Import Prelude CStrings.

Local Arguments starts_with : simpl never.
Local Arguments strtok_all : simpl never.
Local Arguments strcmp : simpl never.

Definition PATH_MAX : nat := 4096.
Definition HTTP_STATUS_SEE_OTHER : Z := 303.
Definition HTTP_STATUS_NOT_FOUND : Z := 404.

(** [snprintf(buf, size, ...)] of a text: what is in [buf] afterwards. *)
Definition snprintf_buf (size : nat) (text : string) : string := str_take (size - 1) text.

(** [ws_http_construct_pathname]: the outer [None] is the read of [in[-1]], the
    inner one the NULL result; [realloc_ok] is whether the reallocation of a
    path that is too long succeeds. *)
Definition ws_http_construct_pathname (realloc_ok : bool) (base in_ : string) : option (option string) :=
  match last_byte in_ with
  | None => None
  | Some c =>
      let text := base +:+ "/" +:+ in_ +:+ (if byte c =? byte "/" then "index.html" else "") in
      let filepath := snprintf_buf PATH_MAX text in
      let written := String.length text in
      if (PATH_MAX <=? written)%nat then
        if realloc_ok then Some (Some (snprintf_buf PATH_MAX text)) else Some None
      else Some (Some filepath)
  end.

Record fileext_map := FileExt { ext : string; val : string }.

(** The last [c] among the first [n] bytes, as an offset. *)
Fixpoint filepath_strnrchr (filepath : string) (n : nat) (c : ascii) : option nat :=
  match n with
  | O => None
  | S k =>
      match String.get k filepath with
      | Some x => if byte x =? byte c then Some k else filepath_strnrchr filepath k c
      | None => filepath_strnrchr filepath k c
      end
  end.

Fixpoint mapping_by_extension (ext_ : string) (n : nat) (map : list fileext_map) : option fileext_map :=
  match map with
  | [] => None
  | m :: map' => if strncasecmp ext_ (ext m) n =? 0 then Some m else mapping_by_extension ext_ n map'
  end.

Definition mime_map : list fileext_map :=
  [ FileExt "html" "text/html";
    FileExt "js" "application/javascript";
    FileExt "png" "image/png";
    FileExt "gif" "image/gif";
    FileExt "jpg" "image/jpeg";
    FileExt "jpeg" "image/jpeg";
    FileExt "css" "text/css";
    FileExt "txt" "text/plain";
    FileExt "htm" "text/html";
    FileExt "bin" "application/octet-stream";
    FileExt "img" "application/octet-stream" ].

Definition determine_mimetype (filepath : string) (n : nat) : option string :=
  match filepath_strnrchr filepath n "." with
  | None => None
  | Some last_dot =>
      let ext_len := (n - last_dot - 1)%nat in
      val <$> mapping_by_extension (str_drop (S last_dot) filepath) ext_len mime_map
  end.

(** [struct file_meta]: [status] is 0 if the file is there, [st_mtime] its time. *)
Record file_meta := FileMeta {
  status : Z;
  st_mtime : Z;
  real_filepath : string;
  mime : string;
  enc : option string;
}.

Definition enc_map : list fileext_map :=
  [ FileExt "br" "brotli"; FileExt "gz" "gzip"; FileExt "zz" "deflate" ].

(** [strcat] in a buffer of [size] bytes; [None] is a write past its end. *)
Definition strcat_buf (size : nat) (dest src : string) : option string :=
  if (String.length dest + String.length src <? size)%nat then Some (dest +:+ src) else None.

(** What a request asks libwebsockets to do. *)
Inductive lws_call :=
  | Http_redirect (code : Z) (to : string)
  | Add_header_status (code : Z)
  | Add_header (name value : string)
  | Finalize_header
  | Write_headers
  | Return_status (code : Z)
  | Serve_file (path mimetype : string)
  | Transaction_completed.

(** The headers the sources read and write. *)
Definition CONTENT_ENCODING : string := "content-encoding:".
Definition LAST_MODIFIED : string := "last-modified:".
Definition CACHE_CONTROL : string := "cache-control:".
Definition IF_MODIFIED_SINCE : string := "if-modified-since:".

Section serve.
(** [access(path, R_OK) == 0], and [stat]: the time of a file that is there. *)
Variable access : string -> bool.
Variable stat : string -> option Z.
(** [strptime(buf, http_timestr, &tm)]: the offset it stopped at and the broken
    down time; [mktime], and [strftime] of [gmtime]. *)
Variable tm : Type.
Variable strptime : string -> option (Z * tm).
Variable mktime : tm -> Z.
Variable http_date : Z -> string.
(** What [lws_hdr_copy] leaves in an empty buffer, and the result of a call
    after other calls. *)
Variable lws_hdr : string -> string.
Variable lws_rc : list lws_call -> lws_call -> Z.
Variable realloc_ok : bool.

(** The loop of [determine_file_meta] over the encodings. *)
Fixpoint try_encodings (size n : nat) (map : list fileext_map) (real : string)
  : option (string * option string) :=
  match map with
  | [] => Some (real, None)
  | e :: map' =>
      match strcat_buf size real "." with
      | None => None
      | Some real =>
          match strcat_buf size real (ext e) with
          | None => None
          | Some real =>
              if access real then Some (real, Some (val e))
              else try_encodings size n map' (str_take n real)
          end
      end
  end.

Definition determine_file_meta (filepath : string) (n : nat) : option file_meta :=
  let size := (n + 4)%nat in
  let real := str_take (n + 1) filepath in
  let mime_ := default "application/octet-stream" (determine_mimetype real n) in
  match try_encodings size n enc_map real with
  | None => None
  | Some (real, enc_) =>
      Some (match stat real with
            | Some mtime => FileMeta 0 mtime real mime_ enc_
            | None => FileMeta (-1) 0 real mime_ enc_
            end)
  end.

(** A token that keeps a cached copy from being used. *)
Definition no_cache (cur : string) : bool :=
  (strcmp cur "no-cache" =? 0)
  || match strstr cur "no-cache=" with
     | Some r => (String.length r =? String.length cur)%nat
     | None => false
     end.

Definition can_reply_notmodified (meta : file_meta) : bool :=
  if negb (status meta =? 0) then false
  else if existsb no_cache (strtok_all (lws_hdr CACHE_CONTROL) ",; ") then false
  else
    let buf := lws_hdr IF_MODIFIED_SINCE in
    match strptime buf with
    | None => false
    | Some (p, t) =>
        if p <? strlen buf - 4 then false
        else st_mtime meta <=? mktime t
    end.

(** A call, with its result. *)
Definition call (c : lws_call) : M (list lws_call) Z :=
  fun t => Some (lws_rc t c, t ++ [c]).

(** [rc = call; if (rc) goto out;] *)
Definition call_or_out (c : lws_call) (k : M (list lws_call) Z) : M (list lws_call) Z :=
  let* rc := call c in if rc =? 0 then k else M_ret rc.

Definition add_last_modified_header (meta : file_meta) : M (list lws_call) unit :=
  call (Add_header LAST_MODIFIED (http_date (st_mtime meta))) ;;; M_ret tt.

Definition ws_http_serve_interpret_retcode (ret : Z) : M (list lws_call) Z :=
  if ret <? 0 then M_ret (-1)
  else if 0 <? ret then
    let* done_ := call Transaction_completed in
    M_ret (if done_ =? 0 then 0 else -1)
  else M_ret 0.

(** The header of an encoded file, then [k]. *)
Definition with_encoding (meta : file_meta) (k : M (list lws_call) Z) : M (list lws_call) Z :=
  match enc meta with
  | Some e => call_or_out (Add_header CONTENT_ENCODING e) k
  | None => k
  end.

(** [ws_http_serve_file] with the options of the program. *)
Definition ws_http_serve_file (www_path : string) (redir_from : option string) (redir_to : string)
    (in_ : string) : M (list lws_call) Z :=
  let* filepath := deref (fun _ => ws_http_construct_pathname realloc_ok www_path in_) in
  match filepath with
  | None => M_ret (-1)
  | Some filepath =>
      let* meta := deref (fun _ => determine_file_meta filepath (String.length filepath)) in
      let* rc :=
        if match redir_from with Some from => strcmp in_ from =? 0 | None => false end then
          call_or_out (Http_redirect HTTP_STATUS_SEE_OTHER redir_to)
            (call_or_out Finalize_header (call Write_headers))
        else if can_reply_notmodified meta then
          call_or_out (Add_header_status 304)
            (with_encoding meta (call_or_out Finalize_header (call Write_headers)))
        else
          with_encoding meta
            (if negb (status meta =? 0) then
               let* r := call (Return_status HTTP_STATUS_NOT_FOUND) in
               M_ret (if r =? 0 then 1 else -1)
             else
               add_last_modified_header meta ;;;
               call (Serve_file (real_filepath meta) (mime meta))) in
      ws_http_serve_interpret_retcode rc
  end.
End serve.

(** ** Extensions and types *)

Lemma get_chars k s : String.get k s = chars s !! k.
Proof. revert k. induction s as [|c s IH]; intros [|k]; simpl; auto. Qed.

(** The backward scan: the last match below [n], or none. *)
Lemma strnrchr_spec f n c :
  match filepath_strnrchr f n c with
  | Some k => (k < n)%nat /\ chars f !! k = Some c /\
              forall j, (k < j < n)%nat -> chars f !! j <> Some c
  | None => forall j, (j < n)%nat -> chars f !! j <> Some c
  end.
Proof.
  induction n as [|n IH]; [intros j Hj; lia|]. cbn [filepath_strnrchr]. rewrite get_chars.
  assert (chars f !! n <> Some c -> match filepath_strnrchr f n c with
    | Some k => (k < S n)%nat /\ chars f !! k = Some c /\
                forall j, (k < j < S n)%nat -> chars f !! j <> Some c
    | None => forall j, (j < S n)%nat -> chars f !! j <> Some c
    end) as Hskip.
  { intros Hn. destruct (filepath_strnrchr f n c) as [k|].
    - destruct IH as (? & ? & Hj). split_and!; [lia|done|]. intros j Hjk.
      destruct (decide (j = n)) as [->|]; [done|]. apply Hj. lia.
    - intros j Hj. destruct (decide (j = n)) as [->|]; [done|]. apply IH. lia. }
  destruct (chars f !! n) as [x|] eqn:E; [|by apply Hskip].
  destruct (Z.eqb_spec (byte x) (byte c)) as [->%byte_inj|Hne].
  - split_and!; [lia|done|]. intros j Hj. lia.
  - apply Hskip. congruence.
Qed.

Lemma strnrchr_last a e :
  ("."%char ∉ chars e) ->
  filepath_strnrchr (a +:+ String "." e) (String.length (a +:+ String "." e)) "." = Some (String.length a).
Proof.
  intros He. pose proof (strnrchr_spec (a +:+ String "." e) (String.length (a +:+ String "." e)) ".") as Hs.
  rewrite chars_app in Hs. simpl chars in Hs.
  assert ((chars a ++ "."%char :: chars e) !! String.length a = Some "."%char) as Hd.
  { rewrite lookup_app_r by (by rewrite chars_length). by rewrite chars_length, Nat.sub_diag. }
  assert (String.length a < String.length (a +:+ String "." e))%nat as Hlt.
  { rewrite str_app_length. simpl. lia. }
  destruct (filepath_strnrchr _ _ _) as [k|]; [|by destruct (Hs _ Hlt)].
  destruct Hs as (Hk & Hc & Hj). f_equal.
  destruct (Nat.lt_trichotomy k (String.length a)) as [?|[?|Hgt]]; [|done|].
  - by destruct (Hj (String.length a)).
  - exfalso. apply He. rewrite lookup_app_r in Hc by (rewrite chars_length; lia).
    rewrite lookup_cons_ne_0 in Hc by (rewrite chars_length; lia). by eapply list_elem_of_lookup_2.
Qed.

(** A string without regard to case. *)
Definition lower (s : string) : list Z := tolower <$> chars s.

Lemma strncasecmp_prefix a b :
  strncasecmp a b (String.length a) = 0 <-> lower a `prefix_of` lower b.
Proof.
  unfold lower. revert b. induction a as [|x a IH]; intros b; simpl.
  - split; [intros _; apply prefix_nil|done].
  - destruct b as [|y b]; simpl.
    + split; [done|]. by intros ?%prefix_nil_not.
    + destruct (Z.eqb_spec (tolower x) (tolower y)) as [Heq|Hne].
      * rewrite IH, Heq. split; [apply prefix_cons|apply prefix_cons_inv_2].
      * split; [lia|]. intros ?%prefix_cons_inv_1. done.
Qed.

Lemma mapping_by_extension_find e map :
  mapping_by_extension e (String.length e) map =
  snd <$> list_find (fun m => lower e `prefix_of` lower (ext m)) map.
Proof.
  induction map as [|m map IH]; [done|]. simpl.
  destruct (Z.eqb_spec (strncasecmp e (ext m) (String.length e)) 0) as [Heq|Hne].
  - by rewrite decide_True by (by apply strncasecmp_prefix).
  - rewrite decide_False by (by rewrite <- strncasecmp_prefix). rewrite IH.
    by destruct (list_find _ map) as [[??]|].
Qed.

Lemma lower_length a : length (lower a) = String.length a.
Proof. unfold lower. by rewrite length_fmap, chars_length. Qed.

Lemma mapping_by_extension_lower e e' map :
  lower e = lower e' ->
  mapping_by_extension e (String.length e) map = mapping_by_extension e' (String.length e') map.
Proof.
  intros Hl. rewrite !mapping_by_extension_find. induction map as [|m map IH]; [done|].
  simpl. rewrite Hl. case_decide; [done|].
  destruct (list_find (fun m => lower e `prefix_of` lower (ext m)) map) as [[??]|],
    (list_find (fun m => lower e' `prefix_of` lower (ext m)) map) as [[??]|]; done.
Qed.

(** The type of a file.  It is that of the first entry of the table that
    the part of the name after its last dot begins, in upper or lower case; an
    extension that is in the table therefore gives the type the table has for
    it, and a name without a dot has no type. *)
Theorem mimetype_of_extension (f a e : string) :
  ("."%char ∉ chars e) ->
  determine_mimetype (a +:+ String "." e) (String.length (a +:+ String "." e)) =
    (fun m => val m.2) <$> list_find (fun m => lower e `prefix_of` lower (ext m)) mime_map /\
  (forall m, m ∈ mime_map -> lower e = lower (ext m) ->
     determine_mimetype (a +:+ String "." e) (String.length (a +:+ String "." e)) = Some (val m)) /\
  (("."%char ∉ chars f) -> determine_mimetype f (String.length f) = None).
Proof.
  intros He.
  assert (determine_mimetype (a +:+ String "." e) (String.length (a +:+ String "." e)) =
    val <$> mapping_by_extension e (String.length e) mime_map) as Hd.
  { unfold determine_mimetype. rewrite strnrchr_last by done. f_equal.
    rewrite str_app_length. simpl String.length.
    replace (String.length a + S (String.length e) - String.length a - 1)%nat with (String.length e) by lia.
    replace (S (String.length a)) with (String.length (a +:+ ".")) by (rewrite str_app_length; simpl; lia).
    change (String "." e) with ("." +:+ e). by rewrite <- str_app_assoc, str_drop_app. }
  split_and!.
  - rewrite Hd, mapping_by_extension_find. by rewrite <- option_fmap_compose.
  - intros m Hm Hl. rewrite Hd, (mapping_by_extension_lower e (ext m)) by done.
    unfold mime_map in Hm. rewrite !elem_of_cons, elem_of_nil in Hm.
    by repeat destruct Hm as [->|Hm].
  - intros Hf. unfold determine_mimetype.
    pose proof (strnrchr_spec f (String.length f) ".") as Hs.
    destruct (filepath_strnrchr _ _ _) as [k|]; [|done].
    destruct Hs as (_ & Hk & _). by destruct Hf; eapply list_elem_of_lookup_2.
Qed.

Lemma mimetype_of_extension_witness :
  determine_mimetype "/www/index.HTM" 14 =
    (fun m => val m.2) <$> list_find (fun m => lower "HTM" `prefix_of` lower (ext m)) mime_map /\
  (forall m, m ∈ mime_map -> lower "HTM" = lower (ext m) ->
     determine_mimetype "/www/index.HTM" 14 = Some (val m)) /\
  (("."%char ∉ chars "/www/readme") -> determine_mimetype "/www/readme" 11 = None).
Proof. apply (mimetype_of_extension "/www/readme" "/www/index" "HTM"). set_solver. Defined.

(** ** The file of a request *)

(** The file of an address, and the encoding it is found in: the first of the
    table that can be read, the plain file without one. *)
Definition wanted_file (www_path in_ : string) : string :=
  www_path +:+ "/" +:+ in_ +:+ (if decide (last_byte in_ = Some "/"%char) then "index.html" else "").

Definition encoded (access : string -> bool) (path : string) : string * option string :=
  match list_find (fun e => access (path +:+ "." +:+ ext e) = true) enc_map with
  | Some (_, e) => (path +:+ "." +:+ ext e, Some (val e))
  | None => (path, None)
  end.

Section files.
Variable access : string -> bool.
Variable stat : string -> option Z.

Lemma strcat_buf_fits size a b :
  (String.length a + String.length b < size)%nat -> strcat_buf size a b = Some (a +:+ b).
Proof. intros. unfold strcat_buf. by rewrite (proj2 (Nat.ltb_lt _ _)). Qed.

Lemma try_encodings_spec map path :
  Forall (fun e => String.length (ext e) = 2%nat) map ->
  try_encodings access (String.length path + 4) (String.length path) map path =
  Some (match list_find (fun e => access (path +:+ "." +:+ ext e) = true) map with
        | Some (_, e) => (path +:+ "." +:+ ext e, Some (val e))
        | None => (path, None)
        end).
Proof.
  induction 1 as [|e map He Hf IH]; [done|]. cbn [try_encodings list_find].
  rewrite strcat_buf_fits by (simpl; lia).
  rewrite strcat_buf_fits by (rewrite str_app_length; simpl; lia). rewrite str_app_assoc.
  destruct (access (path +:+ "." +:+ ext e)) eqn:Ha.
  - by rewrite decide_True by done.
  - rewrite decide_False by done. rewrite str_take_le, str_take_ge, IH by done.
    by destruct (list_find _ map) as [[??]|].
Qed.

(** The buffer of [determine_file_meta] is large enough, and the file is the
    encoded one. *)
Lemma determine_file_meta_spec path :
  exists st mt, determine_file_meta access stat path (String.length path) =
    Some (FileMeta st mt (encoded access path).1
            (default "application/octet-stream" (determine_mimetype path (String.length path)))
            (encoded access path).2) /\
  match stat (encoded access path).1 with Some t => st = 0 /\ mt = t | None => st = -1 end.
Proof.
  unfold determine_file_meta. rewrite (str_take_ge _ path) by lia.
  rewrite try_encodings_spec by (repeat constructor). unfold encoded.
  destruct (list_find _ _) as [[? e]|]; simpl; (destruct (stat _) as [mt|]; by eexists _, _).
Qed.
End files.

Lemma last_byte_nonempty s : s <> "" -> is_Some (last_byte s).
Proof.
  induction s as [|c s IH]; [done|]. intros _. destruct s as [|d s]; [by eexists|]. by apply IH.
Qed.

Lemma construct_pathname_spec realloc_ok base in_ :
  in_ <> "" ->
  ws_http_construct_pathname realloc_ok base in_ =
  Some (if decide (String.length (wanted_file base in_) < PATH_MAX)%nat then Some (wanted_file base in_)
        else if realloc_ok then Some (snprintf_buf PATH_MAX (wanted_file base in_)) else None).
Proof.
  intros [c Hc]%last_byte_nonempty. unfold ws_http_construct_pathname, wanted_file. rewrite Hc.
  assert ((if byte c =? byte "/" then "index.html" else "") =
    (if decide (Some c = Some "/"%char) then "index.html" else "")) as ->.
  { rewrite byte_eqb. repeat case_decide || case_bool_decide; congruence. }
  cbv zeta. set (f := base +:+ _). case_decide as Hl.
  - rewrite (proj2 (Nat.leb_gt _ _)) by done. unfold snprintf_buf. by rewrite str_take_ge by lia.
  - rewrite (proj2 (Nat.leb_le _ _)) by lia. by destruct realloc_ok.
Qed.

(** ** The answer to a request *)

Lemma no_cache_spec cur :
  no_cache cur = true <-> cur = "no-cache" \/ starts_with "no-cache=" cur = true.
Proof.
  unfold no_cache. rewrite orb_true_iff, Z.eqb_eq, strcmp_eq.
  by rewrite strstr_prefix.
Qed.

Inductive response :=
  | Redirect (to : string)
  | Not_modified (e : option string)
  | Not_found (e : option string)
  | File (path mimetype date : string) (e : option string).

Definition encoding_header (e : option string) : list lws_call :=
  match e with Some e => [Add_header CONTENT_ENCODING e] | None => [] end.

Definition response_calls (r : response) : list lws_call :=
  match r with
  | Redirect to => [Http_redirect HTTP_STATUS_SEE_OTHER to]
  | Not_modified e => Add_header_status 304 :: encoding_header e ++ [Finalize_header; Write_headers]
  | Not_found e => encoding_header e ++ [Return_status HTTP_STATUS_NOT_FOUND]
  | File path m date e => encoding_header e ++ [Add_header LAST_MODIFIED date; Serve_file path m]
  end.

(** The calls that only collect headers. *)
Definition collects (c : lws_call) : bool :=
  match c with Add_header_status _ | Add_header _ _ | Finalize_header => true | _ => false end.

(** The calls that send something to the client; [lws_http_redirect] adds the
    headers of a redirect, ends them and writes them. *)
Definition sends (c : lws_call) : Prop :=
  match c with Http_redirect _ _ | Write_headers | Return_status _ | Serve_file _ _ => True | _ => False end.

#[export] Instance sends_dec c : Decision (sends c).
Proof. destruct c; apply _. Defined.

Section answer.
Variable access : string -> bool.
Variable stat : string -> option Z.
Variable tm : Type.
Variable strptime : string -> option (Z * tm).
Variable mktime : tm -> Z.
Variable http_date : Z -> string.
Variable lws_hdr : string -> string.
Variable lws_rc : list lws_call -> lws_call -> Z.
Variable realloc_ok : bool.

(** The client's copy of a file of this time is still good. *)
Definition copy_good (mtime : Z) : Prop :=
  Forall (fun t => t <> "no-cache" /\ starts_with "no-cache=" t = false)
    (strtok_all (lws_hdr CACHE_CONTROL) ",; ") /\
  match strptime (lws_hdr IF_MODIFIED_SINCE) with
  | Some (p, t) => strlen (lws_hdr IF_MODIFIED_SINCE) - 4 <= p /\ mtime <= mktime t
  | None => False
  end.

#[local] Instance copy_good_dec mtime : Decision (copy_good mtime).
Proof. unfold copy_good. destruct (strptime _) as [[??]|]; apply _. Defined.

Definition answer (path : string) (redir_from : option string) (redir_to in_ : string) : response :=
  let real := (encoded access path).1 in
  let e := (encoded access path).2 in
  if decide (redir_from = Some in_) then Redirect redir_to
  else match stat real with
  | None => Not_found e
  | Some mtime =>
      if decide (copy_good mtime) then Not_modified e
      else File real (default "application/octet-stream" (determine_mimetype path (String.length path)))
             (http_date mtime) e
  end.

Lemma can_reply_notmodified_spec meta :
  can_reply_notmodified tm strptime mktime lws_hdr meta = true <->
  status meta = 0 /\ copy_good (st_mtime meta).
Proof.
  unfold can_reply_notmodified, copy_good. destruct (Z.eqb_spec (status meta) 0) as [|Hne]; simpl; [|naive_solver].
  destruct (existsb no_cache _) eqn:E.
  - split; [done|]. intros (_ & Hf & _). apply existsb_exists in E as (t & Hin%list_elem_of_In & Hn).
    rewrite Forall_forall in Hf. destruct (Hf t Hin) as [Ht Hs].
    apply no_cache_spec in Hn as [Hn|Hn]; [by destruct (Ht Hn)|by rewrite Hn in Hs].
  - assert (Forall (fun t => t <> "no-cache" /\ starts_with "no-cache=" t = false)
      (strtok_all (lws_hdr CACHE_CONTROL) ",; ")) as Hf.
    { apply Forall_forall. intros t Ht. assert (no_cache t <> true) as Hn.
      { intros Hn. apply not_true_iff_false in E. apply E, existsb_exists. exists t.
        by rewrite <- list_elem_of_In. }
      rewrite no_cache_spec in Hn. split; [naive_solver|]. apply not_true_is_false. naive_solver. }
    destruct (strptime _) as [[p t]|]; [|naive_solver].
    destruct (Z.ltb_spec p (strlen (lws_hdr IF_MODIFIED_SINCE) - 4)); [|rewrite Z.leb_le]; split; try done.
    + intros (_ & _ & ? & _). lia.
    + naive_solver.
Qed.

Lemma answer_notmodified path st mt m e :
  match stat (encoded access path).1 with Some t => st = 0 /\ mt = t | None => st = -1 end ->
  forall redir_to in_ redir_from, redir_from <> Some in_ ->
  answer path redir_from redir_to in_ =
  if can_reply_notmodified tm strptime mktime lws_hdr (FileMeta st mt (encoded access path).1 m e)
  then Not_modified (encoded access path).2
  else if st =? 0 then File (encoded access path).1
         (default "application/octet-stream" (determine_mimetype path (String.length path)))
         (http_date mt) (encoded access path).2
  else Not_found (encoded access path).2.
Proof.
  intros Hst redir_to in_ redir_from Hr. unfold answer. rewrite (decide_False _ _ Hr).
  set (meta := FileMeta _ _ _ _ _). pose proof (can_reply_notmodified_spec meta) as Hc. simpl in Hc.
  destruct (stat _) as [t|].
  - destruct Hst as [-> ->]. rewrite Z.eqb_refl.
    destruct (can_reply_notmodified _ _ _ _ _); case_decide as Hg; try done; exfalso.
    + by apply Hg, Hc.
    + discriminate (proj2 Hc (conj eq_refl Hg)).
  - subst st. destruct (can_reply_notmodified _ _ _ _ _); [naive_solver|done].
Qed.
End answer.

Section runs.
Variable access : string -> bool.
Variable stat : string -> option Z.
Variable lws_rc : list lws_call -> lws_call -> Z.

(** What a request leaves behind, whatever the calls of libwebsockets return:
    at most one thing is sent, and a file that is sent is the one asked for. *)
Definition confined (path : string) (rc : Z) (t : list lws_call) : Prop :=
  (rc = 0 \/ rc = -1) /\ (length (filter sends t) <= 1)%nat /\
  forall p m, Serve_file p m ∈ t -> is_Some (stat p) /\
    (p = path \/ exists e, e ∈ enc_map /\ p = path +:+ "." +:+ ext e /\ access p = true).

(** Nothing was sent yet. *)
Definition quiet (t : list lws_call) : Prop := Forall (fun c => collects c = true) t.

Lemma quiet_snoc t c : quiet t -> collects c = true -> quiet (t ++ [c]).
Proof. intros. apply Forall_app. by repeat constructor. Qed.

Lemma quiet_sends t : quiet t -> filter sends t = [].
Proof. induction 1 as [|c t Hc _ IH]; [done|]. by destruct c. Qed.

(** The run sends at most one answer, as its last call. *)
Definition sends_last (path : string) (m : M (list lws_call) Z) : Prop :=
  forall t, quiet t -> wp m (fun _ => confined path 0) t.

Lemma confined_quiet path t : quiet t -> confined path 0 t.
Proof.
  intros Hq. split_and!; [by left|by rewrite quiet_sends by done; simpl; lia|].
  intros p m Hp. unfold quiet in Hq. rewrite Forall_forall in Hq. by specialize (Hq _ Hp).
Qed.

Lemma sends_last_call path c :
  (forall p m, c = Serve_file p m -> is_Some (stat p) /\
    (p = path \/ exists e, e ∈ enc_map /\ p = path +:+ "." +:+ ext e /\ access p = true)) ->
  sends_last path (call lws_rc c).
Proof.
  intros Hc t Hq. split_and!; [by left| |].
  - rewrite filter_app, quiet_sends by done. rewrite filter_cons. by case_decide; simpl; lia.
  - intros p m [Hp|Hp%list_elem_of_singleton]%elem_of_app; [|by eapply Hc].
    unfold quiet in Hq. rewrite Forall_forall in Hq. by specialize (Hq _ Hp).
Qed.

Lemma sends_last_out path c k :
  collects c = true -> sends_last path k -> sends_last path (call_or_out lws_rc c k).
Proof.
  intros Hc Hk t Hq. pose proof (quiet_snoc t c Hq Hc) as Hq'.
  unfold call_or_out. apply wp_bind. unfold wp at 1, call. destruct (_ =? 0); [by apply Hk|].
  by apply confined_quiet.
Qed.

(** A call that sends and says so: the rest is skipped. *)
Lemma sends_last_stop path c k :
  (forall t, lws_rc t c <> 0) -> (forall p m, c <> Serve_file p m) -> sends_last path (call_or_out lws_rc c k).
Proof.
  intros Hrc Hc t Hq. unfold call_or_out. apply wp_bind. unfold wp at 1, call. rewrite (proj2 (Z.eqb_neq _ _)) by done.
  apply wp_ret. apply (sends_last_call path c); [|done]. intros p m ->. by destruct (Hc p m).
Qed.

Lemma sends_last_encoding path meta k :
  sends_last path k -> sends_last path (with_encoding lws_rc meta k).
Proof. intros Hk. unfold with_encoding. destruct (enc meta); [by apply sends_last_out|done]. Qed.

(** The result of a request is that of its calls, by the last step. *)
Lemma wp_interpret path (m : M (list lws_call) Z) :
  sends_last path m -> wp (M_bind m (ws_http_serve_interpret_retcode lws_rc)) (confined path) [].
Proof.
  intros Hm. apply wp_bind. eapply wp_mono; [apply Hm, Forall_nil_2|]. intros rc t (_ & Hone & Hf).
  assert (forall z, z = 0 \/ z = -1 -> confined path z t /\ confined path z (t ++ [Transaction_completed])) as Hz.
  { intros z Hz. split; split_and!; auto.
    - by rewrite filter_app, length_app, Nat.add_0_r.
    - intros p m' [?|?%list_elem_of_singleton]%elem_of_app; [by eapply Hf|done]. }
  unfold ws_http_serve_interpret_retcode. destruct (rc <? 0); [apply Hz; auto|].
  destruct (0 <? rc); [|apply Hz; auto]. apply wp_bind. unfold wp at 1, call.
  destruct (_ =? 0); apply Hz; auto.
Qed.

Lemma encoded_cases path :
  (encoded access path).1 = path \/
  exists e, e ∈ enc_map /\ (encoded access path).1 = path +:+ "." +:+ ext e /\
    access (encoded access path).1 = true.
Proof.
  unfold encoded. destruct (list_find _ _) as [[i e]|] eqn:E; [|by left].
  apply list_find_Some in E as (Hi & Ha & _). right. exists e.
  split_and!; [by eapply list_elem_of_lookup_2|done..].
Qed.
End runs.

(** The path a request opens: the wanted file, cut off when it is too long. *)
Definition opened (www_path in_ : string) : string := snprintf_buf PATH_MAX (wanted_file www_path in_).

Lemma construct_pathname_opened realloc_ok base in_ :
  in_ <> "" ->
  ws_http_construct_pathname realloc_ok base in_ = Some (Some (opened base in_)) \/
  ws_http_construct_pathname realloc_ok base in_ = Some None.
Proof.
  intros Hin. rewrite construct_pathname_spec by done. unfold opened, snprintf_buf. case_decide.
  - left. by rewrite str_take_ge by lia.
  - destruct realloc_ok; auto.
Qed.

(** No two dots in a row, so that no part of a path leads up. *)
Definition no_dotdot (s : string) : Prop :=
  forall i, chars s !! i = Some "."%char -> chars s !! S i <> Some "."%char.

Lemma chars_take n s : chars (str_take n s) = take n (chars s).
Proof. revert n. induction s as [|c s IH]; intros [|n]; simpl; try done. by rewrite IH. Qed.

Lemma str_take_split a b n :
  (String.length a <= n)%nat -> str_take n (a +:+ b) = a +:+ str_take (n - String.length a) b.
Proof.
  revert n. induction a as [|c a IH]; intros n Hn; simpl in *; [by rewrite Nat.sub_0_r|].
  destruct n as [|n]; [lia|]. change (String c a +:+ b) with (String c (a +:+ b)). simpl.
  change (String c a +:+ ?r) with (String c (a +:+ r)). f_equal. apply IH. lia.
Qed.

Lemma last_byte_chars s : last_byte s = last (chars s).
Proof. induction s as [|c s IH]; [done|]. destruct s as [|d s]; [done|]. exact IH. Qed.

Lemma no_dotdot_take n s : no_dotdot s -> no_dotdot (str_take n s).
Proof.
  intros Hs i Hi Hi'. rewrite chars_take in Hi, Hi'. apply lookup_take_Some in Hi as [Hi _], Hi' as [Hi' _].
  by apply (Hs i).
Qed.

Lemma no_dotdot_index in_ :
  no_dotdot in_ ->
  no_dotdot (in_ +:+ (if decide (last_byte in_ = Some "/"%char) then "index.html" else "")).
Proof.
  intros Hs. case_decide as Hl; [|by rewrite str_app_nil_r]. rewrite last_byte_chars in Hl.
  apply last_Some in Hl as [l Hl]. intros i. rewrite chars_app, Hl, <- app_assoc.
  assert (Hno : forall j, (("/"%char :: chars "index.html") !! j : option ascii) = Some "."%char -> j = 6%nat).
  { intros j. do 12 (destruct j as [|j]; [done|]). done. }
  destruct (decide (i < length l)%nat) as [Hi|Hi].
  - rewrite lookup_app_l by done. intros Hd Hd'. destruct (decide (S i < length l)%nat) as [Hi'|Hi'].
    + rewrite lookup_app_l in Hd' by done. apply (Hs i); rewrite Hl, lookup_app_l by done; done.
    + rewrite lookup_app_r in Hd' by lia. apply Hno in Hd'. lia.
  - rewrite lookup_app_r by lia. intros Hd%Hno Hd'. rewrite lookup_app_r in Hd' by lia. apply Hno in Hd'. lia.
Qed.

(** What is opened is below the directory of the web pages. *)
Lemma opened_below www_path in_ :
  (S (String.length www_path) < PATH_MAX)%nat -> no_dotdot in_ ->
  exists rest, opened www_path in_ = www_path +:+ "/" +:+ rest /\ no_dotdot rest.
Proof.
  intros Hlen Hin. unfold opened, snprintf_buf, wanted_file. set (name := in_ +:+ _).
  exists (str_take (PATH_MAX - 1 - S (String.length www_path)) name). split.
  - assert (String.length (www_path +:+ "/") = S (String.length www_path)) as Hw by (rewrite str_app_length; simpl; lia).
    rewrite <- !(str_app_assoc www_path), str_take_split; rewrite Hw; [done|lia].
  - by apply no_dotdot_take, no_dotdot_index.
Qed.

(** C28: a request is safe for the files of the router.  For every non-empty
    address and whatever the calls of libwebsockets answer (a redirect says how
    much it wrote, or that it failed, never 0), serving it comes back without
    leaving a buffer, the result keeps or closes the connection, at most one answer
    is sent, and a file that is sent exists and is the one that is named by the
    directory of the web pages, a slash and the address ("index.html" added to a
    directory), cut off after 4095 bytes, or its encoded form when that can be read.
    The name is not cut off when it is shorter, and if the address has no two dots
    in a row, which libwebsockets sees to, no part of the name after the directory
    leads up. *)
Theorem serve_confined (access : string -> bool) (stat : string -> option Z) (tm : Type)
    (strptime : string -> option (Z * tm)) (mktime : tm -> Z) (http_date : Z -> string)
    (lws_hdr : string -> string) (lws_rc : list lws_call -> lws_call -> Z) (realloc_ok : bool)
    (www_path : string) (redir_from : option string) (redir_to in_ : string) :
  in_ <> "" -> (forall t code to, lws_rc t (Http_redirect code to) <> 0) ->
  wp (ws_http_serve_file access stat tm strptime mktime http_date lws_hdr lws_rc realloc_ok
        www_path redir_from redir_to in_)
    (confined access stat (opened www_path in_)) [] /\
  ((String.length (wanted_file www_path in_) < PATH_MAX)%nat -> opened www_path in_ = wanted_file www_path in_) /\
  ((S (String.length www_path) < PATH_MAX)%nat -> no_dotdot in_ ->
     exists rest, opened www_path in_ = www_path +:+ "/" +:+ rest /\ no_dotdot rest).
Proof.
  intros Hin Hredir. split; [|split; [|by apply opened_below]].
  2:{ intros Hlen. unfold opened, snprintf_buf. apply str_take_ge. lia. }
  unfold ws_http_serve_file. apply wp_bind. destruct (construct_pathname_opened realloc_ok www_path in_ Hin) as [E|E];
    (eapply wp_deref; [exact E|]); cbn beta iota.
  2:{ apply wp_ret. split_and!; [by right|simpl; lia|intros ?? ?%elem_of_nil; done]. }
  destruct (determine_file_meta_spec access stat (opened www_path in_)) as (st & mt & Hm & Hst).
  apply wp_bind. eapply wp_deref; [exact Hm|]. cbn beta. clear E Hm. apply wp_interpret.
  destruct (match redir_from with Some from => strcmp in_ from =? 0 | None => false end).
  { by apply sends_last_stop. }
  destruct (can_reply_notmodified _ _ _ _ _).
  { apply sends_last_out; [done|]. apply sends_last_encoding, sends_last_out; [done|]. by apply sends_last_call. }
  apply sends_last_encoding. simpl status. destruct (Z.eqb_spec st 0) as [->|]; cbn [negb].
  - intros t Hq. unfold add_last_modified_header. apply wp_bind, wp_bind. unfold wp at 1, call at 1.
    apply wp_ret. apply sends_last_call; [|by apply quiet_snoc].
    intros p m [= <- _]. simpl. split; [|apply encoded_cases]. destruct (stat _); [by eexists|done].
  - intros t Hq. apply wp_bind. eapply (wp_mono _ (fun _ => confined access stat (opened www_path in_) 0));
      [by apply sends_last_call|]. by intros rc t' Hc.
Qed.

Lemma serve_confined_witness :
  let rc (_ : list lws_call) (_ : lws_call) := 1 in
  wp (ws_http_serve_file (fun p => bool_decide (p = "/www//a.js.gz")) (fun _ => Some 7) Z
        (fun _ => None) id (fun _ => "") (fun _ => "") rc true "/www" None "" "/a.js")
    (confined (fun p => bool_decide (p = "/www//a.js.gz")) (fun _ => Some 7) "/www//a.js") [].
Proof.
  destruct (serve_confined (fun p => bool_decide (p = "/www//a.js.gz")) (fun _ => Some 7) Z
    (fun _ => None) id (fun _ => "") (fun _ => "") (fun _ _ => 1) true "/www" None "" "/a.js") as (Hrun & Hname & _);
    [done|done|].
  rewrite Hname in Hrun by (vm_compute; lia). exact Hrun.
Defined.

(** C29: which answer a request gets.  When the calls that collect headers
    succeed (they return 0; a redirect returns how much it wrote, or less than 0)
    and the name of the file has less than 4096 bytes, the calls made are those of
    exactly one answer: a redirect for the configured address; else "not found" when the
    encoded or plain file is not there; else "not modified" when the headers of
    the client say that its copy is still good; else the file, with its type,
    its time and its encoding.  After them the transaction is completed or not. *)
Theorem serve_answers (access : string -> bool) (stat : string -> option Z) (tm : Type)
    (strptime : string -> option (Z * tm)) (mktime : tm -> Z) (http_date : Z -> string)
    (lws_hdr : string -> string) (lws_rc : list lws_call -> lws_call -> Z) (realloc_ok : bool)
    (www_path : string) (redir_from : option string) (redir_to in_ : string) :
  in_ <> "" -> (String.length (wanted_file www_path in_) < PATH_MAX)%nat ->
  (forall t c, collects c = true -> lws_rc t c = 0) ->
  (forall t code to, lws_rc t (Http_redirect code to) <> 0) ->
  exists rc tail, ws_http_serve_file access stat tm strptime mktime http_date lws_hdr lws_rc realloc_ok
      www_path redir_from redir_to in_ [] =
    Some (rc, response_calls (answer access stat tm strptime mktime http_date lws_hdr
                (wanted_file www_path in_) redir_from redir_to in_) ++ tail) /\
    (tail = [] \/ tail = [Transaction_completed]) /\ (rc = 0 \/ rc = -1).
Proof.
  intros Hin Hlen Hrc Hredir. unfold ws_http_serve_file, M_bind at 1, deref at 1.
  rewrite construct_pathname_spec, decide_True by done. cbn beta iota.
  set (path := wanted_file www_path in_) in *. unfold M_bind at 1, deref at 1.
  destruct (determine_file_meta_spec access stat path) as (st & mt & -> & Hst).
  set (meta := FileMeta _ _ _ _ _).
  assert (forall r m, (exists rc, m [] = Some (rc, r)) ->
    exists rc tail, M_bind m (ws_http_serve_interpret_retcode lws_rc) [] = Some (rc, r ++ tail) /\
    (tail = [] \/ tail = [Transaction_completed]) /\ (rc = 0 \/ rc = -1)) as Hend.
  { intros r m [rc Hm]. unfold M_bind. rewrite Hm. unfold ws_http_serve_interpret_retcode.
    destruct (rc <? 0); [|destruct (0 <? rc)]; [exists (-1), []|unfold M_bind, call; eexists _, [Transaction_completed]|exists 0, []];
      rewrite ?app_nil_r; split_and!; eauto. destruct (_ =? 0); auto. }
  apply Hend. clear Hend.
  assert (forall c k t, collects c = true -> call_or_out lws_rc c k t = k (t ++ [c])) as Hout.
  { intros c k t Hc. unfold call_or_out, M_bind, call. by rewrite Hrc by done. }
  assert (forall k t, with_encoding lws_rc meta k t = k (t ++ encoding_header (enc meta))) as Henc.
  { intros k t. unfold with_encoding. destruct (enc meta); [by apply Hout|]. by rewrite app_nil_r. }
  destruct (decide (redir_from = Some in_)) as [->|Hr].
  { rewrite strcmp_refl. simpl. unfold call_or_out, M_bind at 1, call at 1.
    rewrite (proj2 (Z.eqb_neq _ _)) by done. unfold answer. rewrite decide_True by done. by eexists. }
  assert (match redir_from with Some from => strcmp in_ from =? 0 | None => false end = false) as ->.
  { destruct redir_from as [f|]; [|done]. apply Z.eqb_neq. rewrite strcmp_eq. congruence. }
  rewrite (answer_notmodified access stat tm strptime mktime http_date lws_hdr path st mt (mime meta) (enc meta) Hst)
    by done. change (FileMeta st mt (encoded access path).1 (mime meta) (enc meta)) with meta.
  destruct (can_reply_notmodified _ _ _ _ meta).
  { rewrite Hout, Henc, Hout by done. unfold call. simpl. rewrite <- !app_assoc. by eexists. }
  rewrite Henc, app_nil_l. change (status meta) with st. destruct (st =? 0); cbn [negb].
  - unfold add_last_modified_header, M_bind, call, M_ret. eexists. by rewrite <- app_assoc.
  - by eexists.
Qed.

Lemma a_js_not_modified :
  response_calls (answer (fun p => bool_decide (p = "/www//a.js.gz")) (fun _ => Some 7) Z
    (fun _ => Some (0, 9)) id (fun _ => "now") (fun _ => "") (wanted_file "/www" "/a.js") None "" "/a.js") =
  [Add_header_status 304; Add_header CONTENT_ENCODING "gzip"; Finalize_header; Write_headers].
Proof. vm_compute. reflexivity. Qed.

(** Headers are collected, everything else writes something. *)
Definition collected (t : list lws_call) (c : lws_call) : Z := if collects c then 0 else 1.

Lemma serve_answers_witness :
  exists rc tail, ws_http_serve_file (fun p => bool_decide (p = "/www//a.js.gz")) (fun _ => Some 7) Z
      (fun _ => Some (0, 9)) id (fun _ => "now") (fun _ => "") collected true "/www" None "" "/a.js" [] =
    Some (rc, [Add_header_status 304; Add_header CONTENT_ENCODING "gzip"; Finalize_header; Write_headers] ++ tail) /\
    (tail = [] \/ tail = [Transaction_completed]) /\ (rc = 0 \/ rc = -1).
Proof.
  rewrite <- a_js_not_modified.
  apply (serve_answers (fun p => bool_decide (p = "/www//a.js.gz")) (fun _ => Some 7) Z
      (fun _ => Some (0, 9)) id (fun _ => "now") (fun _ => "") collected true "/www" None "" "/a.js").
  - done.
  - vm_compute. lia.
  - by intros ? [].
  - done.
Defined.
