(* ===== verification/WsHttp.v ===== *)
(** * ws_http.c: the event loop under libwebsockets, and plain HTTP

    libwebsockets tells its first protocol which descriptors to poll; owsd keeps
    an array of [struct uloop_fd], one slot per descriptor, and registers them
    with uloop.  uloop is an interface ([Uloop]): what it watches is a map from
    descriptors to flags. *)

From Stdlib Require Import Ascii.
From stdpp Require Import base list strings numbers sets gmap.
From S2P Require Import Prelude CStrings HttpServe.

(** Flags of uloop.h, events of poll.h. *)
Definition ULOOP_READ : Z := 1.
Definition ULOOP_WRITE : Z := 2.
Definition ULOOP_ERROR_CB : Z := 64.
Definition POLLIN : Z := 1.
Definition POLLOUT : Z := 4.
Definition POLLERR : Z := 8.
Definition POLLHUP : Z := 16.
Definition LWS_POLLHUP : Z := Z.lor POLLHUP POLLERR.

Definition flag (mask bit : Z) : bool := negb (Z.land mask bit =? 0).

Definition eventmask_ufd_to_pollfd (ufd_events : Z) : Z :=
  Z.lor (if flag ufd_events ULOOP_READ then POLLIN else 0)
        (if flag ufd_events ULOOP_WRITE then POLLOUT else 0).

Definition eventmask_pollfd_to_ufd (pollfd_events : Z) : Z :=
  Z.lor (Z.lor (if flag pollfd_events POLLIN then ULOOP_READ else 0)
               (if flag pollfd_events POLLOUT then ULOOP_WRITE else 0))
        ULOOP_ERROR_CB.

(** [struct uloop_fd]; the callback is always [ufd_service_cb]. *)
Record uloop_fd := UloopFd { fd : Z; eof : bool; error : bool; flags : Z }.

Definition polls_rw (fl : Z) : bool := flag fl ULOOP_READ || flag fl ULOOP_WRITE.

(** What uloop does with a descriptor: it is watched while its flags have
    [ULOOP_READ] or [ULOOP_WRITE]; adding it without them takes it out. *)
Class Uloop := {
  uloop : Type;
  watched : uloop -> gmap Z Z;
  uloop_fd_add : uloop_fd -> Z -> uloop -> Z * uloop_fd * uloop;
  uloop_fd_delete : uloop_fd -> uloop -> Z * uloop_fd * uloop;

  add_watches u fl l u' l' :
    polls_rw fl = true -> uloop_fd_add u fl l = (0, u', l') ->
    fd u' = fd u /\ flags u' = fl /\ watched l' = <[fd u := fl]> (watched l);
  add_fails u fl l rc u' l' :
    polls_rw fl = true -> uloop_fd_add u fl l = (rc, u', l') -> rc <> 0 -> watched l' = watched l;
  add_nothing u fl l : polls_rw fl = false -> uloop_fd_add u fl l = uloop_fd_delete u l;
  delete_unwatches u l rc u' l' :
    watched l !! fd u = (if polls_rw (flags u) then Some (flags u) else None) ->
    uloop_fd_delete u l = (rc, u', l') ->
    fd u' = fd u /\ polls_rw (flags u') = false /\ watched l' = delete (fd u) (watched l);
}.

(** [struct lws_pollargs] and [struct pollfd] *)
Record lws_pollargs := Pollargs { pa_fd : Z; pa_events : Z }.
Record pollfd := Pollfd { pfd_fd : Z; pfd_events : Z; pfd_revents : Z }.

(** The loop of [ufd_service_cb]: [pending] tells whether libwebsockets has more
    to do before its [i]th extra turn; the result is the number of turns. *)
Fixpoint reservice (pending : nat -> bool) (count i : nat) : nat :=
  match count with
  | O => i
  | S c => if pending i then reservice pending c (S i) else i
  end.

(** [ufd_service_cb]: the event handed to [lws_service_fd], and the number of
    extra turns. *)
Definition ufd_service_cb (ufd : uloop_fd) (revents : Z) (pending : nat -> bool) : pollfd * nat :=
  let ev := eventmask_ufd_to_pollfd (flags ufd) in
  let rev := eventmask_ufd_to_pollfd revents in
  let rev := if eof ufd then Z.lor rev POLLHUP else rev in
  let rev := if error ufd then Z.lor rev LWS_POLLHUP else rev in
  (Pollfd (fd ufd) ev rev, reservice pending 30 0).

(** [enum lws_callback_reasons], with the argument of the callback. *)
Inductive http_reason :=
  | ADD_POLL_FD (a : lws_pollargs)
  | DEL_POLL_FD (a : lws_pollargs)
  | CHANGE_MODE_POLL_FD (a : lws_pollargs)
  | FILTER_PROTOCOL_CONNECTION
  | OPENSSL_PERFORM_CLIENT_CERT_VERIFICATION
  | OPENSSL_LOAD_EXTRA_SERVER_VERIFY_CERTS
  | HTTP (in_ : string)
  | FILTER_HTTP_CONNECTION | HTTP_BODY | CLOSED_HTTP
  | HTTP_BODY_COMPLETION | HTTP_FILE_COMPLETION
  | RECEIVE_PONG
  | OTHER_REASON.

Section http.
Context `{Uloop}.

(** The part of [struct prog_context] used here, and the calls made to
    libwebsockets for the request. *)
Record prog_context := Prog {
  num_ufds : Z;
  ufds : list (option uloop_fd);
  loop : uloop;
  calls : list lws_call;
}.

Definition set_ufd (i : Z) (u : option uloop_fd) (p : prog_context) : prog_context :=
  Prog (num_ufds p) (<[Z.to_nat i := u]> (ufds p)) (loop p) (calls p).
Definition set_loop (l : uloop) (p : prog_context) : prog_context :=
  Prog (num_ufds p) (ufds p) l (calls p).

(** [ufds[fd]]: the bounds are asserted before. *)
Definition get_ufd (i : Z) : M prog_context (option uloop_fd) :=
  deref (fun p => ufds p !! Z.to_nat i).

Definition assert_range (i : Z) : M prog_context unit :=
  let* n := gets num_ufds in assert_ ((0 <=? i) && (0 <? i) && (i <? n)).

(** [calloc] may fail. *)
Definition add_poll_fd (calloc_ok : bool) (a : lws_pollargs) : M prog_context Z :=
  assert_range (pa_fd a) ;;;
  let* old := get_ufd (pa_fd a) in
  assert_ (match old with None => true | Some _ => false end) ;;;
  if negb calloc_ok then M_ret 1
  else
    let ufd := UloopFd (pa_fd a) false false 0 in
    let* l := gets loop in
    let '(rc, ufd, l) := uloop_fd_add ufd (eventmask_pollfd_to_ufd (pa_events a)) l in
    modify (set_loop l) ;;;
    if negb (rc =? 0) then M_ret 1
    else modify (set_ufd (pa_fd a) (Some ufd)) ;;; M_ret 0.

Definition del_poll_fd (a : lws_pollargs) : M prog_context Z :=
  assert_range (pa_fd a) ;;;
  let* old := get_ufd (pa_fd a) in
  match old with
  | None => M_ret 0
  | Some ufd =>
      let* l := gets loop in
      let '(_, _, l) := uloop_fd_delete ufd l in
      modify (set_loop l) ;;;
      modify (set_ufd (pa_fd a) None) ;;; M_ret 0
  end.

Definition change_mode_poll_fd (a : lws_pollargs) : M prog_context Z :=
  assert_range (pa_fd a) ;;;
  let* old := get_ufd (pa_fd a) in
  match old with
  | None => abort
  | Some ufd =>
      assert_ (fd ufd =? pa_fd a) ;;;
      if negb (eventmask_pollfd_to_ufd (pa_events a) =? flags ufd) then
        let* l := gets loop in
        let '(rc, ufd, l) := uloop_fd_add ufd (eventmask_pollfd_to_ufd (pa_events a)) l in
        modify (set_loop l) ;;;
        modify (set_ufd (pa_fd a) (Some ufd)) ;;;
        if negb (rc =? 0) then M_ret 1 else M_ret 0
      else M_ret 0
  end.

(** The serving of a file ([ws_http_serve_file] with its parameters fixed) and
    the results of the other calls of libwebsockets. *)
Variable serve_file : string -> M (list lws_call) Z.
Variable lws_rc : list lws_call -> lws_call -> Z.
Variable calloc_ok : bool.

Definition on_calls {A} (m : M (list lws_call) A) : M prog_context A :=
  fun p => match m (calls p) with
           | Some (a, c) => Some (a, Prog (num_ufds p) (ufds p) (loop p) c)
           | None => None
           end.

Definition ws_http_cb (reason : http_reason) : M prog_context Z :=
  match reason with
  | ADD_POLL_FD a => add_poll_fd calloc_ok a
  | DEL_POLL_FD a => del_poll_fd a
  | CHANGE_MODE_POLL_FD a => change_mode_poll_fd a
  | FILTER_PROTOCOL_CONNECTION => M_ret 1
  | OPENSSL_PERFORM_CLIENT_CERT_VERIFICATION => M_ret 0
  | OPENSSL_LOAD_EXTRA_SERVER_VERIFY_CERTS => M_ret 0
  | HTTP in_ => on_calls (serve_file in_)
  | FILTER_HTTP_CONNECTION | HTTP_BODY | CLOSED_HTTP => M_ret 0
  | HTTP_BODY_COMPLETION | HTTP_FILE_COMPLETION =>
      let* done_ := on_calls (call lws_rc Transaction_completed) in
      M_ret (if done_ =? 0 then 0 else -1)
  | RECEIVE_PONG => M_ret 0
  | OTHER_REASON => M_ret 0
  end.
End http.

(** ** The masks *)

Lemma land_bit m k : 0 <= k -> Z.land m (2 ^ k) = if Z.testbit m k then 2 ^ k else 0.
Proof.
  intros Hk. apply Z.bits_inj'. intros i Hi. rewrite Z.land_spec, (Z.pow2_bits_eqb k i) by done.
  destruct (Z.eqb_spec k i) as [<-|Hne].
  - rewrite andb_true_r. destruct (Z.testbit m k); [by rewrite Z.pow2_bits_true|by rewrite Z.bits_0].
  - rewrite andb_false_r. destruct (Z.testbit m k); [by rewrite Z.pow2_bits_false|by rewrite Z.bits_0].
Qed.

Lemma flag_bit m k : 0 <= k -> flag m (2 ^ k) = Z.testbit m k.
Proof.
  intros Hk. unfold flag. rewrite land_bit by done. destruct (Z.testbit m k); [|done].
  apply negb_true_iff, Z.eqb_neq. pose proof (Z.pow_pos_nonneg 2 k). lia.
Qed.

Lemma flag_poll m :
  flag m ULOOP_READ = Z.testbit m 0 /\ flag m ULOOP_WRITE = Z.testbit m 1 /\
  flag m POLLIN = Z.testbit m 0 /\ flag m POLLOUT = Z.testbit m 2.
Proof.
  pose proof (flag_bit m 0) as H0. pose proof (flag_bit m 1) as H1. pose proof (flag_bit m 2) as H2.
  change (2 ^ 0) with 1 in H0. change (2 ^ 1) with 2 in H1. change (2 ^ 2) with 4 in H2.
  unfold ULOOP_READ, ULOOP_WRITE, POLLIN, POLLOUT. by rewrite H0, H1, H2.
Qed.

(** The events that are polled for, back from the flags they were turned into. *)
Lemma eventmask_roundtrip ev :
  eventmask_ufd_to_pollfd (eventmask_pollfd_to_ufd ev) = Z.land ev (Z.lor POLLIN POLLOUT).
Proof.
  rewrite Z.land_lor_distr_r. unfold POLLIN, POLLOUT.
  change 1 with (2 ^ 0). change 4 with (2 ^ 2). rewrite !land_bit by done.
  unfold eventmask_ufd_to_pollfd, eventmask_pollfd_to_ufd.
  destruct (flag_poll ev) as (_ & _ & -> & ->).
  by destruct (Z.testbit ev 0), (Z.testbit ev 2).
Qed.

Lemma polls_rw_mask ev :
  polls_rw (eventmask_pollfd_to_ufd ev) = negb (Z.land ev (Z.lor POLLIN POLLOUT) =? 0).
Proof.
  rewrite <- eventmask_roundtrip. unfold eventmask_pollfd_to_ufd.
  by destruct (flag ev POLLIN), (flag ev POLLOUT).
Qed.

(** ** The descriptors libwebsockets has asked for *)

(** What libwebsockets asked for, and what it is allowed to ask for next. *)
Definition effect (r : http_reason) (p : gmap Z Z) : gmap Z Z :=
  match r with
  | ADD_POLL_FD a | CHANGE_MODE_POLL_FD a => <[pa_fd a := pa_events a]> p
  | DEL_POLL_FD a => delete (pa_fd a) p
  | _ => p
  end.

(** [others] are the descriptors that do not belong to libwebsockets. *)
Definition asks (n : Z) (others : gmap Z Z) (r : http_reason) (p : gmap Z Z) : Prop :=
  match r with
  | ADD_POLL_FD a => 0 < pa_fd a < n /\ others !! pa_fd a = None /\ p !! pa_fd a = None
  | DEL_POLL_FD a => 0 < pa_fd a < n
  | CHANGE_MODE_POLL_FD a => is_Some (p !! pa_fd a)
  | _ => False
  end.

Definition is_change (r : http_reason) : Prop :=
  match r with CHANGE_MODE_POLL_FD _ => True | _ => False end.

Lemma reservice_bound pending count i : (reservice pending count i <= count + i)%nat.
Proof.
  revert i. induction count as [|c IH]; intros i; simpl; [done|].
  destruct (pending i); [|lia]. specialize (IH (S i)). lia.
Qed.

Section fd_table.
Context `{Uloop}.
Variable serve_file : string -> M (list lws_call) Z.
Variable lws_rc : list lws_call -> lws_call -> Z.

(** The descriptor in its slot is in order with what uloop watches. *)
Definition slot_ok (i ev : Z) (u : uloop_fd) : Prop :=
  fd u = i /\
  if polls_rw (eventmask_pollfd_to_ufd ev) then flags u = eventmask_pollfd_to_ufd ev
  else polls_rw (flags u) = false.

Definition watching (ev : Z) : option Z :=
  if polls_rw (eventmask_pollfd_to_ufd ev) then Some (eventmask_pollfd_to_ufd ev) else None.

(** The table and uloop implement what libwebsockets asked for, and uloop
    watches the other descriptors as before. *)
Record implements (others p : gmap Z Z) (st : prog_context) : Prop := {
  imp_num : Z.of_nat (length (ufds st)) = num_ufds st;
  imp_range i ev : p !! i = Some ev -> 0 < i < num_ufds st /\ others !! i = None;
  imp_slot i ev : p !! i = Some ev ->
    exists u, ufds st !! Z.to_nat i = Some (Some u) /\ slot_ok i ev u;
  imp_free i : 0 < i < num_ufds st -> p !! i = None -> ufds st !! Z.to_nat i = Some None;
  imp_watched i : watched (loop st) !! i =
    match p !! i with Some ev => watching ev | None => others !! i end;
}.

(** The runs in which libwebsockets keeps to its side.  Adding a descriptor may
    fail, changing one must not. *)
Inductive polling (n : Z) (others : gmap Z Z) : gmap Z Z -> prog_context -> Prop :=
  | polling_init st :
      0 <= n -> num_ufds st = n -> ufds st = replicate (Z.to_nat n) None ->
      watched (loop st) = others -> polling n others ∅ st
  | polling_step p st calloc_ok r rc st' :
      polling n others p st -> asks n others r p ->
      ws_http_cb serve_file lws_rc calloc_ok r st = Some (rc, st') ->
      (is_change r -> rc = 0) ->
      polling n others (if decide (rc = 0) then effect r p else p) st'.

Lemma watching_in_order i ev u :
  slot_ok i ev u -> watching ev = if polls_rw (flags u) then Some (flags u) else None.
Proof.
  unfold slot_ok, watching. intros [_ Hf].
  destruct (polls_rw (eventmask_pollfd_to_ufd ev)) eqn:E; [by rewrite Hf, E|by rewrite Hf].
Qed.

(** Storing a descriptor for [i], when uloop watches [i] accordingly. *)
Lemma implements_insert others p st i ev u l' :
  implements others p st -> 0 < i < num_ufds st -> others !! i = None -> slot_ok i ev u ->
  (forall j, watched l' !! j = if decide (j = i) then watching ev else watched (loop st) !! j) ->
  implements others (<[i := ev]> p) (set_ufd i (Some u) (set_loop l' st)).
Proof.
  intros [Hn Hr Hs Hf Hw] Hi Ho Hu Hl. split; simpl.
  - by rewrite length_insert.
  - intros j e. destruct (decide (j = i)) as [->|Hne]; [done|]. rewrite lookup_insert_ne by done. apply Hr.
  - intros j e. destruct (decide (j = i)) as [->|Hne].
    + rewrite lookup_insert_eq. intros [= <-]. exists u. by rewrite list_lookup_insert_eq by lia.
    + rewrite lookup_insert_ne by done. intros Hj. destruct (Hr j e Hj).
      rewrite list_lookup_insert_ne by lia. by apply Hs.
  - intros j Hj. destruct (decide (j = i)) as [->|Hne]; [by rewrite lookup_insert_eq|].
    rewrite lookup_insert_ne by done. rewrite list_lookup_insert_ne by lia. by apply Hf.
  - intros j. rewrite Hl. case_decide as Hj; [by rewrite Hj, lookup_insert_eq|].
    by rewrite lookup_insert_ne, Hw by done.
Qed.

Lemma implements_delete others p st i l' :
  implements others p st -> 0 < i < num_ufds st -> others !! i = None ->
  watched l' = delete i (watched (loop st)) ->
  implements others (delete i p) (set_ufd i None (set_loop l' st)).
Proof.
  intros [Hn Hr Hs Hf Hw] Hi Ho Hl. split; simpl.
  - by rewrite length_insert.
  - intros j e [_ Hj]%lookup_delete_Some. by eapply Hr.
  - intros j e [Hne Hj]%lookup_delete_Some. destruct (Hr j e Hj).
    rewrite list_lookup_insert_ne by lia. by apply Hs.
  - intros j Hj. destruct (decide (j = i)) as [->|Hne]; [by rewrite list_lookup_insert_eq by lia|].
    rewrite lookup_delete_ne by done. rewrite list_lookup_insert_ne by lia. by apply Hf.
  - intros j. rewrite Hl. destruct (decide (j = i)) as [->|Hne]; [by rewrite !lookup_delete_eq|].
    by rewrite !lookup_delete_ne, Hw by done.
Qed.

Lemma implements_loop others p st l' :
  implements others p st -> watched l' = watched (loop st) -> implements others p (set_loop l' st).
Proof. intros [? ? ? ? Hw] Hl. split; simpl; auto. by rewrite Hl. Qed.

Lemma add_in_order u ev l rc u' l' :
  watched l !! fd u = (if polls_rw (flags u) then Some (flags u) else None) ->
  uloop_fd_add u (eventmask_pollfd_to_ufd ev) l = (rc, u', l') -> rc = 0 ->
  slot_ok (fd u) ev u' /\
  forall j, watched l' !! j = if decide (j = fd u) then watching ev else watched l !! j.
Proof.
  intros Hord Ha ->. unfold slot_ok, watching. destruct (polls_rw (eventmask_pollfd_to_ufd ev)) eqn:E.
  - apply add_watches in Ha as (? & ? & ->); [|done]. split; [done|]. intros j.
    case_decide as Hj; [by rewrite Hj, lookup_insert_eq|by rewrite lookup_insert_ne].
  - rewrite add_nothing in Ha by done. eapply delete_unwatches in Ha as (? & ? & ->); [|done].
    split; [done|]. intros j.
    case_decide as Hj; [by rewrite Hj, lookup_delete_eq|by rewrite lookup_delete_ne].
Qed.

Lemma add_refused u ev l rc u' l' :
  watched l !! fd u = None -> polls_rw (flags u) = false ->
  uloop_fd_add u (eventmask_pollfd_to_ufd ev) l = (rc, u', l') -> rc <> 0 -> watched l' = watched l.
Proof.
  intros Hw Hf Ha Hrc. destruct (polls_rw (eventmask_pollfd_to_ufd ev)) eqn:E; [by eapply add_fails|].
  rewrite add_nothing in Ha by done. eapply delete_unwatches in Ha as (_ & _ & ->); [|by rewrite Hf].
  by apply delete_id.
Qed.

(** The slot of a descriptor in range. *)
Lemma wp_range i (Q : unit -> prog_context -> Prop) st :
  0 < i < num_ufds st -> Q tt st -> wp (assert_range i) Q st.
Proof.
  intros Hi HQ. apply wp_bind, wp_gets, wp_assert; [|done].
  rewrite (proj2 (Z.leb_le 0 i)), (proj2 (Z.ltb_lt 0 i)), (proj2 (Z.ltb_lt i (num_ufds st))) by lia. done.
Qed.

Lemma wp_add_poll_fd others p st calloc_ok a :
  implements others p st -> asks (num_ufds st) others (ADD_POLL_FD a) p ->
  wp (add_poll_fd calloc_ok a)
    (fun rc st' => num_ufds st' = num_ufds st /\
       implements others (if decide (rc = 0) then effect (ADD_POLL_FD a) p else p) st') st.
Proof.
  intros Hi (Hr & Ho & Hp). unfold add_poll_fd. apply wp_bind, wp_range; [done|].
  apply wp_bind. eapply wp_deref; [by apply (imp_free _ _ _ Hi)|]. apply wp_bind, wp_assert; [done|].
  destruct calloc_ok; [|by apply wp_ret]. cbn [negb]. apply wp_bind, wp_gets.
  assert (watched (loop st) !! pa_fd a = None) as Hw by (by rewrite (imp_watched _ _ _ Hi), Hp).
  destruct (uloop_fd_add _ _ _) as [[rc u'] l'] eqn:Ha. apply wp_bind, wp_modify.
  destruct (Z.eqb_spec rc 0) as [Hrc|Hrc]; cbn [negb].
  - apply wp_bind, wp_modify, wp_ret. split; [done|].
    destruct (add_in_order (UloopFd (pa_fd a) false false 0) _ _ _ _ _ Hw Ha Hrc) as [? ?].
    by apply implements_insert.
  - apply wp_ret. split; [done|]. apply implements_loop; [done|].
    by apply (add_refused (UloopFd (pa_fd a) false false 0) _ _ _ _ _ Hw eq_refl Ha).
Qed.

Lemma wp_del_poll_fd others p st a :
  implements others p st -> asks (num_ufds st) others (DEL_POLL_FD a) p ->
  wp (del_poll_fd a)
    (fun rc st' => num_ufds st' = num_ufds st /\
       implements others (if decide (rc = 0) then effect (DEL_POLL_FD a) p else p) st') st.
Proof.
  intros Hi Hr. unfold del_poll_fd. apply wp_bind, wp_range; [done|]. apply wp_bind.
  destruct (p !! pa_fd a) as [ev|] eqn:Hp.
  - destruct (imp_slot _ _ _ Hi _ _ Hp) as (u & Hu & Hok). eapply wp_deref; [exact Hu|].
    apply wp_bind, wp_gets. destruct (uloop_fd_delete u (loop st)) as [[rc u'] l'] eqn:Hd.
    apply wp_bind, wp_modify, wp_bind, wp_modify, wp_ret. split; [done|].
    eapply delete_unwatches in Hd as (_ & _ & Hl).
    + destruct (imp_range _ _ _ Hi _ _ Hp). rewrite (proj1 Hok) in Hl. by apply implements_delete.
    + rewrite <- (watching_in_order _ _ _ Hok), (proj1 Hok), (imp_watched _ _ _ Hi). by rewrite Hp.
  - eapply wp_deref; [by apply (imp_free _ _ _ Hi)|]. apply wp_ret. split; [done|].
    simpl. by rewrite delete_id.
Qed.

Lemma wp_change_mode others p st a :
  implements others p st -> asks (num_ufds st) others (CHANGE_MODE_POLL_FD a) p ->
  wp (change_mode_poll_fd a)
    (fun rc st' => num_ufds st' = num_ufds st /\
       (rc = 0 -> implements others (effect (CHANGE_MODE_POLL_FD a) p) st')) st.
Proof.
  intros Hi [ev Hp]. destruct (imp_range _ _ _ Hi _ _ Hp) as [Hr Ho].
  destruct (imp_slot _ _ _ Hi _ _ Hp) as (u & Hu & Hok). pose proof (proj1 Hok) as Hfd.
  pose proof (watching_in_order _ _ _ Hok) as Hord.
  assert (watched (loop st) !! pa_fd a = watching ev) as Hw by (by rewrite (imp_watched _ _ _ Hi), Hp).
  unfold change_mode_poll_fd. apply wp_bind, wp_range; [done|].
  apply wp_bind. eapply wp_deref; [exact Hu|]. apply wp_bind, wp_assert; [by apply Z.eqb_eq|].
  destruct (Z.eqb_spec (eventmask_pollfd_to_ufd (pa_events a)) (flags u)) as [Heq|Hne]; cbn [negb].
  - apply wp_ret. split; [done|]. intros _. simpl.
    assert (set_ufd (pa_fd a) (Some u) (set_loop (loop st) st) = st) as <-.
    { destruct st. unfold set_ufd. simpl in *. by rewrite list_insert_id. }
    assert (watching (pa_events a) = watching ev) as Hsame by (rewrite Hord; unfold watching; by rewrite Heq).
    apply implements_insert; [done..| |].
    + split; [done|]. rewrite Heq. by destruct (polls_rw (flags u)).
    + intros j. case_decide as Hj; [by rewrite Hj, Hsame|done].
  - apply wp_bind, wp_gets. destruct (uloop_fd_add _ _ _) as [[rc u'] l'] eqn:Ha.
    apply wp_bind, wp_modify, wp_bind, wp_modify.
    destruct (Z.eqb_spec rc 0) as [Hrc|Hrc]; cbn [negb]; apply wp_ret; (split; [done|]); [intros _|done].
    rewrite Hord in Hw. rewrite <- Hfd in Hw, Ho, Hr |- *.
    destruct (add_in_order _ _ _ _ _ _ Hw Ha Hrc) as [? ?].
    simpl. rewrite <- Hfd. by apply implements_insert.
Qed.

(** Every run of libwebsockets leaves a table that implements its requests. *)
Lemma polling_implements n others p st :
  polling n others p st -> num_ufds st = n /\ implements others p st.
Proof.
  induction 1 as [st Hn0 Hn Ht Hw|p st calloc_ok r rc st' _ [Hn Hi] Ha Hrun Hc].
  - split; [done|]. split.
    + rewrite Ht, length_replicate. lia.
    + done.
    + done.
    + intros i Hi _. rewrite Ht. apply lookup_replicate_2. lia.
    + intros i. by rewrite Hw.
  - rewrite <- Hn in Ha. destruct r as [a|a|a| | | | | | | | | | |]; try done; simpl in Hrun.
    + pose proof (wp_add_poll_fd _ _ _ calloc_ok a Hi Ha) as Hwp. unfold wp in Hwp.
      rewrite Hrun in Hwp. by rewrite Hn in Hwp.
    + pose proof (wp_del_poll_fd _ _ _ a Hi Ha) as Hwp. unfold wp in Hwp.
      rewrite Hrun in Hwp. by rewrite Hn in Hwp.
    + pose proof (wp_change_mode _ _ _ a Hi Ha) as Hwp. unfold wp in Hwp.
      rewrite Hrun in Hwp. rewrite decide_True by (by apply Hc). rewrite Hn in Hwp.
      destruct Hwp as [Hn' Himp]. split; [done|]. by apply Himp, Hc.
Qed.

Lemma polling_comes_back n others p st calloc_ok r :
  polling n others p st -> asks n others r p -> is_Some (ws_http_cb serve_file lws_rc calloc_ok r st).
Proof.
  intros [Hn Hi]%polling_implements Ha. rewrite <- Hn in Ha.
  assert (forall (m : M prog_context Z) Q, wp m Q st -> is_Some (m st)) as Hwp.
  { intros m Q Hq. unfold wp in Hq. destruct (m st); [by eexists|done]. }
  destruct r as [a|a|a| | | | | | | | | | |]; try done.
  - eapply Hwp, wp_add_poll_fd; eauto.
  - eapply Hwp, wp_del_poll_fd; eauto.
  - eapply Hwp, wp_change_mode; eauto.
Qed.
End fd_table.

(** C30: owsd polls what libwebsockets asks for.  After every sequence of
    requests to add, change and remove descriptors in which libwebsockets keeps
    to its side and no change fails, the next request fails no assertion, and
    uloop watches each descriptor asked for with the flags of its events (and
    not at all when there are none), and every other descriptor as before.  What
    is reported for a descriptor names it, has the events asked for, and has
    the read, write and hang-up bits uloop reported; at most 30 extra turns
    follow. *)
Theorem descriptors_polled `{Uloop} (serve_file : string -> M (list lws_call) Z)
    (lws_rc : list lws_call -> lws_call -> Z) (n : Z) (others p : gmap Z Z) (st : prog_context) :
  polling serve_file lws_rc n others p st ->
  (forall calloc_ok r, asks n others r p -> is_Some (ws_http_cb serve_file lws_rc calloc_ok r st)) /\
  (forall i, p !! i = None -> watched (loop st) !! i = others !! i) /\
  forall i ev, p !! i = Some ev ->
    watched (loop st) !! i =
      (if decide (Z.land ev (Z.lor POLLIN POLLOUT) = 0) then None else Some (eventmask_pollfd_to_ufd ev)) /\
    exists u, ufds st !! Z.to_nat i = Some (Some u) /\
      (Z.land ev (Z.lor POLLIN POLLOUT) <> 0 -> forall revents pending,
        let '(pfd, turns) := ufd_service_cb u revents pending in
        pfd_fd pfd = i /\ pfd_events pfd = Z.land ev (Z.lor POLLIN POLLOUT) /\
        flag (pfd_revents pfd) POLLIN = flag revents ULOOP_READ /\
        flag (pfd_revents pfd) POLLOUT = flag revents ULOOP_WRITE /\
        flag (pfd_revents pfd) POLLHUP = eof u || error u /\ (turns <= 30)%nat).
Proof.
  intros Hpol. pose proof (polling_implements _ _ _ _ _ _ Hpol) as [Hn Hi]. split_and!.
  - intros. by eapply polling_comes_back.
  - intros i Hp. by rewrite (imp_watched _ _ _ Hi), Hp.
  - intros i ev Hp. split.
    + rewrite (imp_watched _ _ _ Hi), Hp. unfold watching. rewrite polls_rw_mask.
      by case_decide; destruct (Z.eqb_spec (Z.land ev (Z.lor POLLIN POLLOUT)) 0).
    + destruct (imp_slot _ _ _ Hi _ _ Hp) as (u & Hu & Hfd & Hfl). exists u. split; [done|].
      intros Hrw revents pending. rewrite polls_rw_mask, (proj2 (Z.eqb_neq _ _) Hrw) in Hfl. simpl in Hfl.
      unfold ufd_service_cb. simpl. rewrite Hfl, eventmask_roundtrip.
      unfold eventmask_ufd_to_pollfd. split_and!; [done|done|..|apply (reservice_bound pending 30 0)];
        by destruct (flag revents ULOOP_READ), (flag revents ULOOP_WRITE), (eof u), (error u).
Qed.

(** ** A uloop that never fails *)

Definition ref_unwatch (u : uloop_fd) (l : gmap Z Z) : Z * uloop_fd * gmap Z Z :=
  (0, UloopFd (fd u) (eof u) (error u) 0, delete (fd u) l).

Definition ref_watch (u : uloop_fd) (fl : Z) (l : gmap Z Z) : Z * uloop_fd * gmap Z Z :=
  if polls_rw fl then (0, UloopFd (fd u) false false fl, <[fd u := fl]> l) else ref_unwatch u l.

Program Definition ref_uloop : Uloop := {|
  uloop := gmap Z Z;
  watched := id;
  uloop_fd_add := ref_watch;
  uloop_fd_delete := ref_unwatch;
|}.
Next Obligation. intros u fl l u' l' Hf. unfold ref_watch. rewrite Hf. by intros [= <- <-]. Qed.
Next Obligation. intros u fl l rc u' l' Hf. unfold ref_watch. rewrite Hf. by intros [= <- <- <-]. Qed.
Next Obligation. intros u fl l Hf. unfold ref_watch. by rewrite Hf. Qed.
Next Obligation. intros u l rc u' l' _. unfold ref_unwatch. by intros [= <- <- <-]. Qed.

Definition empty_table : @prog_context ref_uloop :=
  @Prog ref_uloop 8 (replicate 8 None) (<[3 := 65]> ∅ : gmap Z Z) [].

Definition one_fd_table : @prog_context ref_uloop :=
  @Prog ref_uloop 8 (<[5%nat := Some (UloopFd 5 false false 65)]> (replicate 8 None))
    (<[5 := 65]> (<[3 := 65]> ∅) : gmap Z Z) [].

Lemma one_fd_polling :
  @polling ref_uloop (fun _ => M_ret 0) (fun _ _ => 0) 8 (<[3 := 65]> ∅) (<[5 := 1]> ∅) one_fd_table.
Proof.
  change (<[5 := 1]> ∅ : gmap Z Z) with
    (if decide (0 = 0) then effect (ADD_POLL_FD (Pollargs 5 1)) ∅ else ∅ : gmap Z Z).
  apply (@polling_step ref_uloop (fun _ => M_ret 0) (fun _ _ => 0) 8 (<[3 := 65]> ∅) ∅ empty_table true).
  - by apply polling_init.
  - by simpl.
  - reflexivity.
  - done.
Qed.

Lemma descriptors_polled_witness :
  @watched ref_uloop (@loop ref_uloop one_fd_table) !! 5 = Some 65 /\
  exists u, @ufds ref_uloop one_fd_table !! 5%nat = Some (Some u).
Proof.
  destruct (@descriptors_polled ref_uloop (fun _ => M_ret 0) (fun _ _ => 0) 8 (<[3 := 65]> ∅)
    (<[5 := 1]> ∅) one_fd_table one_fd_polling) as (_ & _ & Hp).
  destruct (Hp 5 1) as (Hw & u & Hu & _); [reflexivity|]. split; [exact Hw|]. by exists u.
Defined.
