(* ===== verification/DBus.v ===== *)
(** * dubus_conversions_names.c, dubus_conversions_types.c, util_dbus.c

    Names and values between ubus and D-Bus.  libdbus is an interface
    ([LibDbus]): a message is the list of its values, an iterator over it the
    values that are left; what is appended to a message is recorded as a list of
    operations. *)

From Stdlib Require Import Ascii.
From stdpp Require Import base list strings numbers sets gmap.
From S2P Require Import Prelude CStrings Libs.

(** ** Names *)

(** The value CMakeLists.txt gives it. *)
Definition WSD_DBUS_OBJECTS_PATH : string := "/se/inteno/iopsys".

Definition duconv_name_dbus_name_to_path (dbus_name : string) : string :=
  str_replace "." "/" dbus_name.

(** [None]: the path is empty, and [dbus_path + 1] is past its end. *)
Definition duconv_name_dbus_path_to_name (dbus_path : string) : option string :=
  match dbus_path with
  | EmptyString => None
  | String _ rest => Some (str_replace "/" "." rest)
  end.

Definition duconv_name_ubus_to_dbus_path (ubus_objname : string) : string :=
  let sep := match ubus_objname with
             | String c _ => if byte c =? byte "/" then "" else "/"
             | EmptyString => "/"
             end in
  str_replace "." "/" (WSD_DBUS_OBJECTS_PATH +:+ sep +:+ ubus_objname).

Definition duconv_name_ubus_to_dbus_name (ubus_objname : string) : option string :=
  duconv_name_dbus_path_to_name (duconv_name_ubus_to_dbus_path ubus_objname).

(** A name below [prefix], after the separator [sep]. *)
Definition strip_prefix (prefix : string) (sep : ascii) (s : string) : option string :=
  match strstr s prefix with
  | Some r =>
      if (String.length r =? String.length s)%nat then
        match str_drop (String.length prefix) s with
        | String c rest =>
            if byte c =? byte sep then
              match rest with EmptyString => None | _ => Some rest end
            else None
        | EmptyString => None
        end
      else None
  | None => None
  end.

Definition duconv_name_dbus_name_to_ubus (dbus_name : string) : option string :=
  match duconv_name_dbus_path_to_name WSD_DBUS_OBJECTS_PATH with
  | Some tmp => strip_prefix tmp "." dbus_name
  | None => None
  end.

Definition duconv_name_dbus_path_to_ubus (dbus_path : string) : option string :=
  strip_prefix WSD_DBUS_OBJECTS_PATH "/" dbus_path.

(** ** D-Bus values *)

Inductive dbus_type :=
  | DBUS_TYPE_INVALID | DBUS_TYPE_BYTE | DBUS_TYPE_BOOLEAN
  | DBUS_TYPE_INT16 | DBUS_TYPE_UINT16 | DBUS_TYPE_INT32 | DBUS_TYPE_UINT32
  | DBUS_TYPE_INT64 | DBUS_TYPE_UINT64 | DBUS_TYPE_DOUBLE
  | DBUS_TYPE_STRING | DBUS_TYPE_OBJECT_PATH | DBUS_TYPE_SIGNATURE | DBUS_TYPE_UNIX_FD
  | DBUS_TYPE_ARRAY | DBUS_TYPE_VARIANT | DBUS_TYPE_STRUCT | DBUS_TYPE_DICT_ENTRY.

#[export] Instance dbus_type_eq_dec : EqDecision dbus_type.
Proof. solve_decision. Defined.

Definition basic_types : list dbus_type :=
  [ DBUS_TYPE_BYTE; DBUS_TYPE_BOOLEAN; DBUS_TYPE_INT16; DBUS_TYPE_UINT16; DBUS_TYPE_INT32;
    DBUS_TYPE_UINT32; DBUS_TYPE_INT64; DBUS_TYPE_UINT64; DBUS_TYPE_DOUBLE; DBUS_TYPE_STRING;
    DBUS_TYPE_OBJECT_PATH; DBUS_TYPE_SIGNATURE; DBUS_TYPE_UNIX_FD ].

(** A value of a basic type is a number (its bits, unsigned) or a text; the
    values of the other containers are not looked into by the sources. *)
Inductive dvalue :=
  | DNum (t : dbus_type) (z : Z)
  | DText (t : dbus_type) (s : string)
  | DArray (elem : dbus_type) (l : list dvalue)
  | DOther (t : dbus_type).

Definition dvalue_type (v : dvalue) : dbus_type :=
  match v with DNum t _ | DText t _ | DOther t => t | DArray _ _ => DBUS_TYPE_ARRAY end.

Class LibDbus := {
  dbus_type_is_basic : dbus_type -> bool;
  dbus_message_iter_get_arg_type : list dvalue -> dbus_type;
  dbus_message_iter_get_element_type : list dvalue -> dbus_type;
  dbus_message_iter_recurse : list dvalue -> list dvalue;
  (** [dbus_message_iter_get_basic] of a number, and of a text *)
  dbus_message_iter_get_number : list dvalue -> Z;
  dbus_message_iter_get_text : list dvalue -> string;
  (** signature iterators *)
  sigiter : Type;
  dbus_signature_validate_single : string -> bool;
  dbus_signature_iter_init : string -> sigiter;
  dbus_signature_iter_get_current_type : sigiter -> dbus_type;
  dbus_signature_iter_get_element_type : sigiter -> dbus_type;
  dbus_signature_iter_recurse : sigiter -> sigiter;
  dbus_signature_iter_next : sigiter -> sigiter;

  is_basic_spec t : dbus_type_is_basic t = true <-> t ∈ basic_types;
  arg_type_nil : dbus_message_iter_get_arg_type [] = DBUS_TYPE_INVALID;
  arg_type_cons v l : dbus_message_iter_get_arg_type (v :: l) = dvalue_type v;
  element_type_array e a l : dbus_message_iter_get_element_type (DArray e a :: l) = e;
  recurse_array e a l : dbus_message_iter_recurse (DArray e a :: l) = a;
  get_number_num t z l : dbus_message_iter_get_number (DNum t z :: l) = z;
  get_text_text t s l : dbus_message_iter_get_text (DText t s :: l) = s;
}.

(** The iterators something is appended to: the message, or a container in it. *)
Inductive out_iter := Message | Container.

Inductive dbus_op :=
  | Append_number (it : out_iter) (t : dbus_type) (z : Z)
  | Append_text (it : out_iter) (t : dbus_type) (s : string)
  | Open_container (t elem : dbus_type)
  | Close_container.

(** ** D-Bus to ubus *)

Section to_ubus.
Context `{LibDbus}.

(** The type, and the attributes appended; [out] is the iterator with the name
    when the buffer, the iterator and the name are all there. *)
Definition _duconv_dbus_to_ubus_basic (t : dbus_type) (out : option (list dvalue * string))
  : blobmsg_type * list attr :=
  let add (f : list dvalue -> blob) :=
    match out with Some (it, name) => [(name, f it)] | None => [] end in
  match t with
  | DBUS_TYPE_UINT64 | DBUS_TYPE_INT64 =>
      (BLOBMSG_TYPE_INT64, add (fun it => BInt64 (dbus_message_iter_get_number it mod 2 ^ 64)))
  | DBUS_TYPE_UINT32 | DBUS_TYPE_INT32 =>
      (BLOBMSG_TYPE_INT32, add (fun it => BInt32 (dbus_message_iter_get_number it mod 2 ^ 32)))
  | DBUS_TYPE_UINT16 | DBUS_TYPE_INT16 =>
      (BLOBMSG_TYPE_INT16, add (fun it => BInt16 (dbus_message_iter_get_number it mod 2 ^ 16)))
  | DBUS_TYPE_BOOLEAN =>
      (BLOBMSG_TYPE_INT8, add (fun it => BInt8 (if dbus_message_iter_get_number it =? 0 then 0 else 1)))
  | DBUS_TYPE_OBJECT_PATH | DBUS_TYPE_SIGNATURE | DBUS_TYPE_STRING =>
      (BLOBMSG_TYPE_STRING, add (fun it => BString (dbus_message_iter_get_text it)))
  | _ => (BLOBMSG_TYPE_UNSPEC, [])
  end.

(** The loop over the elements of an array, while the iterator has one. *)
Fixpoint array_elements (elem : dbus_type) (it : list dvalue) : list attr :=
  match it with
  | [] => []
  | _ :: rest =>
      if decide (dbus_message_iter_get_arg_type it = DBUS_TYPE_INVALID) then []
      else (_duconv_dbus_to_ubus_basic elem (Some (it, ""))).2 ++ array_elements elem rest
  end.

Definition _duconv_dbus_to_ubus (t elem : dbus_type) (out : option (list dvalue * string))
  : blobmsg_type * list attr :=
  if dbus_type_is_basic t then _duconv_dbus_to_ubus_basic t out
  else match t with
  | DBUS_TYPE_ARRAY =>
      if negb (dbus_type_is_basic elem) then (BLOBMSG_TYPE_UNSPEC, [])
      else (BLOBMSG_TYPE_ARRAY,
            match out with
            | Some (it, name) => [(name, BArray (array_elements elem (dbus_message_iter_recurse it)))]
            | None => []
            end)
  | _ => (BLOBMSG_TYPE_UNSPEC, [])
  end.

Definition duconv_type_dbus_to_ubus (t elem : dbus_type) : blobmsg_type :=
  (_duconv_dbus_to_ubus t elem None).1.

Definition duconv_type_dbus_sigiter_to_ubus (sig : sigiter) : blobmsg_type :=
  let t := dbus_signature_iter_get_current_type sig in
  duconv_type_dbus_to_ubus t
    (if decide (t = DBUS_TYPE_ARRAY) then dbus_signature_iter_get_element_type sig else DBUS_TYPE_INVALID).

Definition duconv_msg_dbus_to_ubus (it : list dvalue) (arg_name : string) : blobmsg_type * list attr :=
  let t := dbus_message_iter_get_arg_type it in
  let elem := if decide (t = DBUS_TYPE_ARRAY) then dbus_message_iter_get_element_type it
              else DBUS_TYPE_INVALID in
  _duconv_dbus_to_ubus t elem (Some (it, arg_name)).

(** [struct duconv_convert]; [print] is [sprintf] of a format with a number. *)
Record duconv_convert := Convert { conv_b : list attr; arg_fmt : string; arg_num : Z }.

Definition duconv_convert_init (fmt : string) : duconv_convert := Convert [] fmt 0.

(** [enum blobmsg_type] as a number. *)
Definition blobmsg_type_number (t : blobmsg_type) : Z :=
  match t with
  | BLOBMSG_TYPE_UNSPEC => 0 | BLOBMSG_TYPE_ARRAY => 1 | BLOBMSG_TYPE_TABLE => 2
  | BLOBMSG_TYPE_STRING => 3 | BLOBMSG_TYPE_INT64 => 4 | BLOBMSG_TYPE_INT32 => 5
  | BLOBMSG_TYPE_INT16 => 6 | BLOBMSG_TYPE_INT8 => 7 | BLOBMSG_TYPE_DOUBLE => 8
  | BLOBMSG_TYPE_LAST => 9
  end.

Variable sprintf : string -> Z -> string.

Definition _duconv_convert_get_next_arg (c : duconv_convert) : string := sprintf (arg_fmt c) (arg_num c).

Definition duconv_msig_dbus_to_ubus_add_arg (arg_type : string) (arg_name : option string)
    (c : duconv_convert) : bool * duconv_convert :=
  if negb (dbus_signature_validate_single arg_type) then (false, c)
  else
    let ubus_type := duconv_type_dbus_sigiter_to_ubus (dbus_signature_iter_init arg_type) in
    let name := default (_duconv_convert_get_next_arg c) arg_name in
    (true, Convert (conv_b c ++ [(name, BInt32 (blobmsg_type_number ubus_type))]) (arg_fmt c) (s32 (arg_num c + 1))).

Definition duconv_msgiter_dbus_to_ubus_add_arg (it : list dvalue) (arg_name : option string)
    (c : duconv_convert) : bool * duconv_convert :=
  let name := default (_duconv_convert_get_next_arg c) arg_name in
  let '(ubus_type, added) := duconv_msg_dbus_to_ubus it name in
  (bool_decide (ubus_type <> BLOBMSG_TYPE_UNSPEC),
   Convert (conv_b c ++ added) (arg_fmt c) (s32 (arg_num c + 1))).
End to_ubus.

(** ** ubus to D-Bus *)

Section to_dbus.
Context `{LibDbus, LibUbox}.
(** [blob_for_each_attr] over the payload of an array, taken as an attribute. *)
Variable blob_data_attrs : attr -> list attr.

(** The wanted type or the default one, if it is among those the argument can
    be appended as. *)
Definition convert_as (out : bool) (wanted : option sigiter) (dflt : dbus_type) (ok : list dbus_type)
    (op : dbus_type -> dbus_op) : dbus_type * list dbus_op :=
  let t := match wanted with
           | Some sig => dbus_signature_iter_get_current_type sig
           | None => dflt
           end in
  if decide (t ∈ ok) then (t, if out then [op t] else []) else (DBUS_TYPE_INVALID, []).

(** The type, and the operations on the message when [out] says there is one. *)
Definition _duconv_msg_ubus_to_dbus_basic (out : bool) (cur_arg : attr) (wanted : option sigiter)
  : dbus_type * list dbus_op :=
  match blobmsg_type_of cur_arg with
  | BLOBMSG_TYPE_INT32 =>
      convert_as out wanted DBUS_TYPE_INT32 [DBUS_TYPE_INT32; DBUS_TYPE_UINT32]
        (fun t => Append_number Message t (blobmsg_get_u32 cur_arg))
  | BLOBMSG_TYPE_INT16 =>
      convert_as out wanted DBUS_TYPE_INT16 [DBUS_TYPE_INT16; DBUS_TYPE_UINT16]
        (fun t => Append_number Message t (blobmsg_get_u16 cur_arg))
  | BLOBMSG_TYPE_INT8 =>
      convert_as out wanted DBUS_TYPE_BOOLEAN [DBUS_TYPE_BOOLEAN]
        (fun t => Append_number Message t (if blobmsg_get_u8 cur_arg =? 0 then 0 else 1))
  | BLOBMSG_TYPE_STRING =>
      convert_as out wanted DBUS_TYPE_STRING [DBUS_TYPE_STRING; DBUS_TYPE_SIGNATURE; DBUS_TYPE_OBJECT_PATH]
        (fun t => Append_text Message t (blobmsg_get_string cur_arg))
  | _ => (DBUS_TYPE_INVALID, [])
  end.

(** The loop that appends the elements of an array. *)
Fixpoint append_elements (l : list attr) (wanted : option sigiter) : list dbus_op :=
  match l with
  | [] => []
  | it :: l' =>
      (_duconv_msg_ubus_to_dbus_basic true it wanted).2 ++
      append_elements l' (dbus_signature_iter_next <$> wanted)
  end.

Definition duconv_msg_ubus_to_dbus (out : bool) (cur_arg : attr) (wanted : option sigiter)
  : dbus_type * list dbus_op :=
  match blobmsg_type_of cur_arg with
  | BLOBMSG_TYPE_ARRAY =>
      let t := match wanted with
               | Some sig => dbus_signature_iter_get_current_type sig
               | None => DBUS_TYPE_ARRAY
               end in
      if decide (t = DBUS_TYPE_ARRAY) then
        let attrs := blobmsg_attrs cur_arg in
        let first := head attrs in
        if forallb (fun it => match first with
                              | Some f => bool_decide (blobmsg_type_of f = blobmsg_type_of it)
                              | None => true
                              end) attrs then
          let wanted_elem := dbus_signature_iter_recurse <$> wanted in
          let elem := match first with
                      | Some f => (_duconv_msg_ubus_to_dbus_basic false f wanted_elem).1
                      | None => match wanted_elem with
                                | Some sig => dbus_signature_iter_get_current_type sig
                                | None => DBUS_TYPE_INVALID
                                end
                      end in
          if decide (elem = DBUS_TYPE_INVALID) then (DBUS_TYPE_INVALID, [])
          else
            (t, if out then
                  [Open_container t elem] ++ append_elements (blob_data_attrs cur_arg) wanted_elem ++
                  [Close_container]
                else [])
        else (DBUS_TYPE_INVALID, [])
      else (DBUS_TYPE_INVALID, [])
  | BLOBMSG_TYPE_TABLE => (DBUS_TYPE_INVALID, [])
  | _ => _duconv_msg_ubus_to_dbus_basic out cur_arg wanted
  end.
End to_dbus.

(** ** Replies (util_dbus.c) *)

Inductive dbus_message_type :=
  | DBUS_MESSAGE_TYPE_METHOD_CALL | DBUS_MESSAGE_TYPE_METHOD_RETURN
  | DBUS_MESSAGE_TYPE_ERROR | DBUS_MESSAGE_TYPE_SIGNAL.

(** A reply: what libdbus tells about it. *)
Record dbus_message := DbusMessage {
  msg_type : dbus_message_type;
  msg_signature : string;
  msg_error_name : string;
  msg_args : list dvalue;
}.

Definition DBUS_ERROR_INVALID_SIGNATURE : string := "org.freedesktop.DBus.Error.InvalidSignature".

(** The result, and the fields of "data" when an error is to be described. *)
Definition check_reply_and_make_error (reply : dbus_message) (expected_signature : option string)
  : bool * option (list attr) :=
  match msg_type reply with
  | DBUS_MESSAGE_TYPE_ERROR =>
      (false, Some (("DBus", BString (msg_error_name reply)) ::
                    match msg_args reply with
                    | DText DBUS_TYPE_STRING s :: _ => [("text", BString s)]
                    | _ => []
                    end))
  | DBUS_MESSAGE_TYPE_METHOD_RETURN =>
      match expected_signature with
      | Some sig =>
          if negb (strcmp (msg_signature reply) sig =? 0)
          then (false, Some [("DBus", BString DBUS_ERROR_INVALID_SIGNATURE)])
          else (true, None)
      | None => (true, None)
      end
  | _ => (false, None)
  end.

(** ** Names: facts *)

(** What is below a prefix, and nothing else, is found. *)
Lemma strip_prefix_spec p sep s n :
  strip_prefix p sep s = Some n <-> n <> "" /\ s = p +:+ String sep n.
Proof.
  assert (strip_prefix p sep s =
    if starts_with p s then
      match str_drop (String.length p) s with
      | String c rest => if byte c =? byte sep then match rest with EmptyString => None | _ => Some rest end else None
      | EmptyString => None
      end else None) as ->.
  { unfold strip_prefix. rewrite <- strstr_prefix. destruct (strstr s p); [|done]. by destruct (_ =? _)%nat. }
  destruct (starts_with p s) eqn:E.
  - apply starts_with_spec in E as [t ->]. rewrite str_drop_app. destruct t as [|c rest].
    + split; [done|]. intros [_ Heq]. apply (f_equal String.length) in Heq.
      rewrite !str_app_length in Heq. simpl in Heq. lia.
    + assert (p +:+ String c rest = p +:+ String sep n <-> String c rest = String sep n) as ->.
      { split; [|by intros ->]. intros Heq%(f_equal (str_drop (String.length p))).
        by rewrite !str_drop_app in Heq. }
      destruct (Z.eqb_spec (byte c) (byte sep)) as [->%byte_inj|Hne].
      * destruct rest; split; [done| |intros [= <-]; done|]; intros [? [= <-]]; done.
      * split; [done|]. intros [_ [= -> _]]. done.
  - split; [done|]. intros [_ ->]. apply not_true_iff_false in E. destruct E.
    apply starts_with_spec. by eexists.
Qed.

Lemma ubus_to_dbus_path_eq n :
  n <> "" -> (forall c r, n = String c r -> c <> "/"%char) ->
  duconv_name_ubus_to_dbus_path n = WSD_DBUS_OBJECTS_PATH +:+ String "/" (str_replace "." "/" n).
Proof.
  intros Hn Hc. unfold duconv_name_ubus_to_dbus_path. destruct n as [|c n]; [done|].
  rewrite byte_eqb, bool_decide_eq_false_2 by (by eapply Hc). by rewrite !str_replace_app.
Qed.

(** Names survive the way to D-Bus.  A ubus object name without slashes is
    the name that its D-Bus service name is turned back into; its D-Bus path is
    turned back into the name with the dots still as slashes, so into the name
    itself exactly if it has no dot.  Only what is below the objects' path has a
    ubus name at all, and names and paths of D-Bus turn into each other. *)
Theorem dbus_names_roundtrip (n s : string) :
  n <> "" -> ("/"%char ∉ chars n) ->
  (exists d, duconv_name_ubus_to_dbus_name n = Some d /\ duconv_name_dbus_name_to_ubus d = Some n) /\
  duconv_name_dbus_path_to_ubus (duconv_name_ubus_to_dbus_path n) = Some (str_replace "." "/" n) /\
  (duconv_name_dbus_path_to_ubus (duconv_name_ubus_to_dbus_path n) = Some n <-> "."%char ∉ chars n) /\
  (duconv_name_dbus_path_to_ubus s = Some n <-> s = WSD_DBUS_OBJECTS_PATH +:+ String "/" n) /\
  duconv_name_dbus_path_to_name (String "/" (duconv_name_dbus_name_to_path n)) = Some n.
Proof.
  intros Hn Hs.
  assert (forall c r, n = String c r -> c <> "/"%char) as Hc by (intros c r -> ->; apply Hs; left).
  assert (str_replace "." "/" n <> "") as Hr by (by destruct n).
  assert (duconv_name_dbus_path_to_ubus (duconv_name_ubus_to_dbus_path n) = Some (str_replace "." "/" n)) as Hp.
  { rewrite ubus_to_dbus_path_eq by done. by apply strip_prefix_spec. }
  split_and!; [|done|..].
  - eexists. split; [unfold duconv_name_ubus_to_dbus_name; by rewrite ubus_to_dbus_path_eq by done|].
    apply strip_prefix_spec. split; [done|].
    change (str_replace "/" "." ("se/inteno/iopsys" +:+ String "/" (str_replace "." "/" n)) =
      "se.inteno.iopsys" +:+ String "." n).
    rewrite str_replace_app. cbn [str_replace]. by rewrite str_replace_inv by done.
  - rewrite Hp. split; [|intros ?; by rewrite str_replace_id by done].
    intros [= Heq] Hd. clear -Heq Hd. induction n as [|c n IH]; [by apply elem_of_nil in Hd|].
    simpl in *. injection Heq as Hc Hn. apply elem_of_cons in Hd as [<-|Hd]; [done|by apply IH].
  - unfold duconv_name_dbus_path_to_ubus. rewrite strip_prefix_spec. tauto.
  - unfold duconv_name_dbus_path_to_name, duconv_name_dbus_name_to_path. by rewrite str_replace_inv by done.
Qed.

Lemma dbus_names_roundtrip_witness :
  (exists d, duconv_name_ubus_to_dbus_name "router.network" = Some d /\
     duconv_name_dbus_name_to_ubus d = Some "router.network") /\
  duconv_name_dbus_path_to_ubus (duconv_name_ubus_to_dbus_path "router.network") = Some "router/network" /\
  (duconv_name_dbus_path_to_ubus (duconv_name_ubus_to_dbus_path "router.network") = Some "router.network" <->
     "."%char ∉ chars "router.network") /\
  (duconv_name_dbus_path_to_ubus "/se/inteno/iopsys/x" = Some "router.network" <->
     "/se/inteno/iopsys/x" = WSD_DBUS_OBJECTS_PATH +:+ String "/" "router.network") /\
  duconv_name_dbus_path_to_name (String "/" (duconv_name_dbus_name_to_path "router.network")) = Some "router.network".
Proof.
  apply (dbus_names_roundtrip "router.network" "/se/inteno/iopsys/x"); [done|].
  cbn. rewrite !not_elem_of_cons. repeat (split; [done|]). apply not_elem_of_nil.
Defined.

(** ** Values: the promise *)

(** The width of the numbers, and the types that are text. *)
Definition num_width (t : dbus_type) : option Z :=
  match t with
  | DBUS_TYPE_BYTE => Some 8
  | DBUS_TYPE_INT16 | DBUS_TYPE_UINT16 => Some 16
  | DBUS_TYPE_BOOLEAN | DBUS_TYPE_INT32 | DBUS_TYPE_UINT32 | DBUS_TYPE_UNIX_FD => Some 32
  | DBUS_TYPE_INT64 | DBUS_TYPE_UINT64 | DBUS_TYPE_DOUBLE => Some 64
  | _ => None
  end.

Definition text_types : list dbus_type := [DBUS_TYPE_STRING; DBUS_TYPE_OBJECT_PATH; DBUS_TYPE_SIGNATURE].

Definition basic_ok (v : dvalue) : Prop :=
  match v with
  | DNum t z => exists w, num_width t = Some w /\ 0 <= z < 2 ^ w
  | DText t s => t ∈ text_types
  | _ => False
  end.

Definition value_ok (v : dvalue) : Prop :=
  match v with
  | DArray e l => Forall (fun x => dvalue_type x = e /\ (e ∈ basic_types -> basic_ok x)) l
  | DOther t => (t ∉ basic_types) /\ t <> DBUS_TYPE_ARRAY /\ t <> DBUS_TYPE_INVALID
  | _ => basic_ok v
  end.

Definition element_type (v : dvalue) : dbus_type :=
  match v with DArray e _ => e | _ => DBUS_TYPE_INVALID end.

(** What a value is on ubus, when it is something. *)
Definition basic_blob (v : dvalue) : option blob :=
  match v with
  | DNum (DBUS_TYPE_INT64 | DBUS_TYPE_UINT64) z => Some (BInt64 z)
  | DNum (DBUS_TYPE_INT32 | DBUS_TYPE_UINT32) z => Some (BInt32 z)
  | DNum (DBUS_TYPE_INT16 | DBUS_TYPE_UINT16) z => Some (BInt16 z)
  | DNum DBUS_TYPE_BOOLEAN z => Some (BInt8 (if z =? 0 then 0 else 1))
  | DText _ s => Some (BString s)
  | _ => None
  end.

Definition value_blob (v : dvalue) : option blob :=
  match v with
  | DArray e l =>
      if decide (e ∈ basic_types) then Some (BArray (pair "" <$> omap basic_blob l)) else None
  | _ => basic_blob v
  end.

(** A number that fits its attribute. *)
Definition blob_fits (b : blob) : Prop :=
  match b with
  | BInt64 z => 0 <= z < 2 ^ 64
  | BInt32 z => 0 <= z < 2 ^ 32
  | BInt16 z => 0 <= z < 2 ^ 16
  | BInt8 z => 0 <= z < 2 ^ 8
  | _ => True
  end.

Lemma invalid_not_basic : DBUS_TYPE_INVALID ∉ basic_types.
Proof. by apply (bool_decide_unpack _). Qed.

Lemma array_not_basic : DBUS_TYPE_ARRAY ∉ basic_types.
Proof. by apply (bool_decide_unpack _). Qed.

Section values.
Context `{LibDbus}.

(** One basic value: the type does not depend on the value, and the attribute
    is the one promised. *)
Lemma basic_converted v rest name :
  basic_ok v ->
  _duconv_dbus_to_ubus_basic (dvalue_type v) (Some (v :: rest, name)) =
  ((_duconv_dbus_to_ubus_basic (dvalue_type v) None).1, pair name <$> option_list (basic_blob v)).
Proof.
  destruct v as [t z|t s| |]; simpl; intros Hok; [| |done..].
  - destruct Hok as (w & Hw & Hz). destruct t; simplify_eq/=; rewrite ?get_number_num, ?Z.mod_small by done; done.
  - unfold text_types in Hok. rewrite !elem_of_cons, elem_of_nil in Hok.
    destruct Hok as [->|[->|[->|[]]]]; simpl; by rewrite get_text_text.
Qed.

Lemma basic_blob_type v b :
  basic_ok v -> basic_blob v = Some b ->
  blob_type b = (_duconv_dbus_to_ubus_basic (dvalue_type v) None).1 /\ blob_type b <> BLOBMSG_TYPE_UNSPEC /\
  blob_fits b /\ blob_children b = [].
Proof.
  destruct v as [t z|t s| |]; simpl; intros Hok Hb; [| |done..].
  - destruct Hok as (w & Hw & Hz). destruct t; simplify_eq/=; try done.
    split_and!; try done; destruct (z =? 0); lia.
  - unfold text_types in Hok. rewrite !elem_of_cons, elem_of_nil in Hok.
    by destruct Hok as [->|[->|[->|[]]]]; simplify_eq/=.
Qed.

Lemma basic_blob_none v :
  basic_ok v -> basic_blob v = None -> (_duconv_dbus_to_ubus_basic (dvalue_type v) None).1 = BLOBMSG_TYPE_UNSPEC.
Proof.
  destruct v as [t z|t s| |]; simpl; intros Hok Hb; [|done..].
  destruct Hok as (w & Hw & _). by destruct t; simplify_eq/=.
Qed.

Lemma basic_ok_type v : basic_ok v -> dvalue_type v ∈ basic_types.
Proof.
  destruct v as [t z|t s| |]; simpl; intros Hok; [| |done..].
  - destruct Hok as (w & Hw & _). destruct t; try done; unfold basic_types; set_solver.
  - unfold text_types, basic_types in *. set_solver.
Qed.

Lemma array_elements_spec e l :
  e ∈ basic_types -> Forall (fun x => dvalue_type x = e /\ (e ∈ basic_types -> basic_ok x)) l ->
  array_elements e l = pair "" <$> omap basic_blob l.
Proof.
  intros He Hl. induction Hl as [|x l [Ht Hx] Hl IH]; [done|]. cbn [array_elements]. rewrite arg_type_cons.
  assert (dvalue_type x <> DBUS_TYPE_INVALID) as Hne.
  { rewrite Ht. intros ->. by apply invalid_not_basic. }
  rewrite decide_False by done. rewrite IH, <- Ht, basic_converted by auto. csimpl.
  by destruct (basic_blob x).
Qed.

Lemma not_basic t : (t ∉ basic_types) -> dbus_type_is_basic t = false.
Proof. intros Ht. apply not_true_is_false. by rewrite is_basic_spec. Qed.

(** All values: what the conversion returns and appends. *)
Lemma value_converted v rest name :
  value_ok v ->
  duconv_msg_dbus_to_ubus (v :: rest) name =
  (duconv_type_dbus_to_ubus (dvalue_type v) (element_type v), pair name <$> option_list (value_blob v)).
Proof.
  intros Hok. unfold duconv_msg_dbus_to_ubus, duconv_type_dbus_to_ubus. rewrite arg_type_cons.
  assert (basic_ok v -> value_blob v = basic_blob v /\ dvalue_type v <> DBUS_TYPE_ARRAY) as Hbasic.
  { intros Hb. split; [by destruct v|]. apply basic_ok_type in Hb. intros Ha. rewrite Ha in Hb. by apply array_not_basic in Hb. }
  destruct v as [t z|t s|e l|t].
  1,2: change (value_ok ?v) with (basic_ok v) in Hok; destruct (Hbasic Hok) as [-> Hne]; rewrite decide_False by done; unfold _duconv_dbus_to_ubus;
       rewrite (proj2 (is_basic_spec _) (basic_ok_type _ Hok)); by rewrite basic_converted.
  - rewrite decide_True by done. rewrite element_type_array. unfold _duconv_dbus_to_ubus. simpl.
    rewrite (not_basic DBUS_TYPE_ARRAY) by apply array_not_basic.
    rewrite recurse_array. destruct (decide (e ∈ basic_types)) as [He|He].
    + rewrite (proj2 (is_basic_spec e) He). simpl. by rewrite array_elements_spec.
    + by rewrite (not_basic e).
  - destruct Hok as (Hb & Ha & Hi). simpl. rewrite decide_False by done.
    unfold _duconv_dbus_to_ubus. rewrite (not_basic t) by done. by destruct t.
Qed.

Lemma basic_type_eq t e :
  t ∈ basic_types -> duconv_type_dbus_to_ubus t e = (_duconv_dbus_to_ubus_basic t None).1.
Proof.
  intros Ht. unfold duconv_type_dbus_to_ubus, _duconv_dbus_to_ubus. by rewrite (proj2 (is_basic_spec t) Ht).
Qed.

Lemma array_type_eq e :
  duconv_type_dbus_to_ubus DBUS_TYPE_ARRAY e =
  if decide (e ∈ basic_types) then BLOBMSG_TYPE_ARRAY else BLOBMSG_TYPE_UNSPEC.
Proof.
  unfold duconv_type_dbus_to_ubus, _duconv_dbus_to_ubus. rewrite (not_basic _ array_not_basic). case_decide as He.
  - by rewrite (proj2 (is_basic_spec e) He).
  - by rewrite (not_basic e He).
Qed.

(** The attribute a value turns into has the type computed from its signature. *)
Lemma value_blob_spec v :
  value_ok v ->
  match value_blob v with
  | Some b => blob_type b = duconv_type_dbus_to_ubus (dvalue_type v) (element_type v) /\
      duconv_type_dbus_to_ubus (dvalue_type v) (element_type v) <> BLOBMSG_TYPE_UNSPEC /\ blob_fits b /\
      forall x, x ∈ blob_children b -> x.1 = "" /\ blob_fits x.2 /\
        blobmsg_type_of x = duconv_type_dbus_to_ubus (element_type v) DBUS_TYPE_INVALID
  | None => duconv_type_dbus_to_ubus (dvalue_type v) (element_type v) = BLOBMSG_TYPE_UNSPEC
  end.
Proof.
  assert (basic_ok v -> value_blob v = basic_blob v) as Heq by (by destruct v).
  intros Hok. destruct v as [t z|t s|e l|t].
  1,2: change (value_ok ?v) with (basic_ok v) in Hok; rewrite (Heq Hok);
       rewrite (basic_type_eq _ _ (basic_ok_type _ Hok)); destruct (basic_blob _) as [b|] eqn:Eb;
       [destruct (basic_blob_type _ _ Hok Eb) as (Ht & Hne & Hf & Hc); rewrite <- Ht, Hc; set_solver
       |by apply basic_blob_none].
  - simpl. rewrite array_type_eq. simpl in Hok. case_decide as He; [|done].
    split_and!; [done..|]. intros x (b & -> & (y & Hy & Hb)%list_elem_of_omap)%list_elem_of_fmap.
    rewrite Forall_forall in Hok. destruct (Hok y Hy) as [Hty Hyok]. specialize (Hyok He).
    destruct (basic_blob_type y b Hyok Hb) as (Ht & _ & Hf & _).
    split_and!; [done..|]. rewrite basic_type_eq by done. by rewrite <- Hty, <- Ht.
  - destruct Hok as (Hb & Ha & _). simpl. unfold duconv_type_dbus_to_ubus, _duconv_dbus_to_ubus.
    rewrite (not_basic t Hb). by destruct t.
Qed.
End values.

(** C36: the type of a D-Bus value on ubus.  Whatever value a message holds, the
    type the conversion returns is the one computed from the signature alone;
    nothing is appended when that is "unspecified", and otherwise exactly one
    attribute with the given name, of that type, whose number fits; the elements
    of an array have no name and the type of the array's element type. *)
Theorem dbus_value_typed `{LibDbus} (v : dvalue) (rest : list dvalue) (name : string) :
  value_ok v ->
  let T := duconv_type_dbus_to_ubus (dvalue_type v) (element_type v) in
  exists added, duconv_msg_dbus_to_ubus (v :: rest) name = (T, added) /\
    (T = BLOBMSG_TYPE_UNSPEC -> added = []) /\
    (T <> BLOBMSG_TYPE_UNSPEC -> exists b, added = [(name, b)] /\ value_blob v = Some b /\
       blob_type b = T /\ blob_fits b /\
       forall x, x ∈ blob_children b ->
         x.1 = "" /\ blob_fits x.2 /\
         blobmsg_type_of x = duconv_type_dbus_to_ubus (element_type v) DBUS_TYPE_INVALID).
Proof.
  intros Hok T. eexists. split; [by apply value_converted|].
  pose proof (value_blob_spec v Hok) as Hs. fold T in Hs. destruct (value_blob v) as [b|].
  - destruct Hs as (Ht & Hne & Hf & Hc). split; [done|]. intros _. by exists b.
  - by rewrite Hs.
Qed.

(** ** A libdbus *)

Definition ref_head_type (it : list dvalue) : dbus_type :=
  match it with v :: _ => dvalue_type v | [] => DBUS_TYPE_INVALID end.
Definition ref_element_type (it : list dvalue) : dbus_type :=
  match it with v :: _ => element_type v | [] => DBUS_TYPE_INVALID end.
Definition ref_recurse (it : list dvalue) : list dvalue :=
  match it with DArray _ l :: _ => l | _ => [] end.
Definition ref_number (it : list dvalue) : Z := match it with DNum _ z :: _ => z | _ => 0 end.
Definition ref_text (it : list dvalue) : string := match it with DText _ s :: _ => s | _ => "" end.

(** Signature iterators are lists of types here: an array is followed by its
    element type. *)
Program Definition ref_libdbus : LibDbus := {|
  dbus_type_is_basic t := bool_decide (t ∈ basic_types);
  dbus_message_iter_get_arg_type := ref_head_type;
  dbus_message_iter_get_element_type := ref_element_type;
  dbus_message_iter_recurse := ref_recurse;
  dbus_message_iter_get_number := ref_number;
  dbus_message_iter_get_text := ref_text;
  sigiter := list dbus_type;
  dbus_signature_validate_single _ := true;
  dbus_signature_iter_init _ := [DBUS_TYPE_STRING];
  dbus_signature_iter_get_current_type := default DBUS_TYPE_INVALID ∘ head;
  dbus_signature_iter_get_element_type s := default DBUS_TYPE_INVALID (head (tail s));
  dbus_signature_iter_recurse := tail;
  dbus_signature_iter_next := id;
|}.
Next Obligation. intros t. by rewrite bool_decide_eq_true. Qed.
Next Obligation. done. Qed.
Next Obligation. done. Qed.
Next Obligation. done. Qed.
Next Obligation. done. Qed.
Next Obligation. done. Qed.
Next Obligation. done. Qed.

Lemma dbus_value_typed_witness :
  let v := DArray DBUS_TYPE_UINT16 [DNum DBUS_TYPE_UINT16 7] in
  let T := duconv_type_dbus_to_ubus (H := ref_libdbus) (dvalue_type v) (element_type v) in
  exists added, duconv_msg_dbus_to_ubus (H := ref_libdbus) [v] "arg" = (T, added) /\
    (T = BLOBMSG_TYPE_UNSPEC -> added = []) /\
    (T <> BLOBMSG_TYPE_UNSPEC -> exists b, added = [("arg", b)] /\ value_blob v = Some b /\
       blob_type b = T /\ blob_fits b /\
       forall x, x ∈ blob_children b ->
         x.1 = "" /\ blob_fits x.2 /\
         blobmsg_type_of x = duconv_type_dbus_to_ubus (H := ref_libdbus) (element_type v) DBUS_TYPE_INVALID).
Proof.
  apply (@dbus_value_typed ref_libdbus (DArray DBUS_TYPE_UINT16 [DNum DBUS_TYPE_UINT16 7]) [] "arg").
  constructor; [|constructor]. split; [done|]. intros _. exists 16. split; [done|lia].
Defined.

(** ** There and back *)

(** The operation that appends a value to a message. *)
Definition append_value (v : dvalue) : list dbus_op :=
  match v with
  | DNum t z => [Append_number Message t z]
  | DText t s => [Append_text Message t s]
  | _ => []
  end.

(** An attribute as it comes back: a boolean is 0 or 1. *)
Definition normal (a : attr) : attr :=
  match a.2 with BInt8 z => (a.1, BInt8 (if z =? 0 then 0 else 1)) | _ => a end.

Section there_and_back.
Context `{LibDbus, LibUbox}.

(** The promise for one argument named [n] that comes back as [b]. *)
Definition comes_back (n : string) (b : blob) (wanted : option sigiter) (rest : list dvalue)
    (r : dbus_type * list dbus_op) : Prop :=
  (r.1 = DBUS_TYPE_INVALID /\ r.2 = []) \/
  exists v, r.2 = append_value v /\ dvalue_type v = r.1 /\ basic_ok v /\
    (forall sig, wanted = Some sig -> dbus_signature_iter_get_current_type sig = r.1) /\
    duconv_msg_dbus_to_ubus (v :: rest) n = (blob_type b, [(n, b)]).

Lemma convert_as_comes_back n b wanted rest dflt ok op :
  (forall t, t ∈ ok -> exists v, [op t] = append_value v /\ dvalue_type v = t /\ basic_ok v /\
     basic_blob v = Some b) ->
  comes_back n b wanted rest (convert_as true wanted dflt ok op).
Proof.
  intros Hop. unfold convert_as. case_decide as Hin; [|by left]. right.
  destruct (Hop _ Hin) as (v & Hv & Ht & Hok & Hb). exists v. simpl. split_and!; [done|done|done|by intros sig ->|].
  rewrite value_converted by (by destruct v). rewrite (basic_type_eq _ _ (basic_ok_type _ Hok)).
  destruct (basic_blob_type _ _ Hok Hb) as (<- & _). replace (value_blob v) with (basic_blob v) by (by destruct v).
  by rewrite Hb.
Qed.

(** One argument. *)
Lemma argument_comes_back (blob_data_attrs : attr -> list attr) (a : attr)
    (wanted : option sigiter) (rest : list dvalue) :
  blobmsg_type_of a <> BLOBMSG_TYPE_ARRAY -> blob_fits a.2 ->
  comes_back a.1 (normal a).2 wanted rest (duconv_msg_ubus_to_dbus blob_data_attrs true a wanted).
Proof.
  intros Ha Hf. destruct a as [n b]. simpl in Hf.
  destruct b as [|l|l|s|z|z|z|z|r]; try done; try (by left); unfold duconv_msg_ubus_to_dbus, _duconv_msg_ubus_to_dbus_basic; simpl.
  - rewrite get_string_attr. apply convert_as_comes_back. intros t Ht. exists (DText t s).
    split_and!; try done. simpl. unfold text_types. set_solver.
  - rewrite get_u32_attr by done. apply convert_as_comes_back. intros t Ht. exists (DNum t z).
    rewrite !elem_of_cons, elem_of_nil in Ht. destruct Ht as [->|[->|[]]]; split_and!; try done; by eexists.
  - rewrite get_u16_attr by done. apply convert_as_comes_back. intros t Ht. exists (DNum t z).
    rewrite !elem_of_cons, elem_of_nil in Ht. destruct Ht as [->|[->|[]]]; split_and!; try done; by eexists.
  - rewrite get_u8_attr by done. apply convert_as_comes_back. intros t ->%list_elem_of_singleton.
    exists (DNum DBUS_TYPE_BOOLEAN (if z =? 0 then 0 else 1)).
    split_and!; try done; [exists 32; split; [done|]; destruct (z =? 0); lia|simpl; by destruct (z =? 0)].
Qed.

(** An argument of a call survives the way to D-Bus and back.  An argument
    that is no array is either refused with nothing appended, or turned into one
    D-Bus value of the returned type, which is the wanted one if one is wanted;
    that value is turned back into the same attribute, of the same type, except
    that a true boolean comes back as 1. *)
Theorem ubus_argument_roundtrip (blob_data_attrs : attr -> list attr) (a : attr)
    (wanted : option sigiter) (rest : list dvalue) :
  blobmsg_type_of a <> BLOBMSG_TYPE_ARRAY -> blob_fits a.2 ->
  comes_back a.1 (normal a).2 wanted rest (duconv_msg_ubus_to_dbus blob_data_attrs true a wanted).
Proof. apply argument_comes_back. Qed.
End there_and_back.

Lemma ubus_argument_roundtrip_witness :
  comes_back (H := ref_libdbus) "flag" (BInt8 1) (Some [DBUS_TYPE_BOOLEAN]) []
    (duconv_msg_ubus_to_dbus (H := ref_libdbus) (H0 := ref_libubox) (fun _ => []) true ("flag", BInt8 5)
       (Some [DBUS_TYPE_BOOLEAN])).
Proof.
  apply (@ubus_argument_roundtrip ref_libdbus ref_libubox (fun _ => []) ("flag", BInt8 5) (Some [DBUS_TYPE_BOOLEAN]) []);
    done.
Defined.
