(* ===== verification/DBusIo.v ===== *)
(** * dbus-io.c: libdbus on the event loop

    libdbus asks for timeouts and watches; they live in two arrays of fixed
    size, and the objects of libdbus (numbers here) point to their slot.  A
    pending timer is the milliseconds it was set to.  uloop is the interface of
    WsHttp.v. *)

From stdpp Require Import base list strings numbers sets gmap.
From S2P Require Import Prelude CStrings HttpServe WsHttp.

Definition MAX_WSD_TIMERS : nat := 10.
Definition MAX_WSD_FDS : nat := 4.

Definition DBUS_WATCH_READABLE : Z := 1.
Definition DBUS_WATCH_WRITABLE : Z := 2.
Definition DBUS_WATCH_ERROR : Z := 4.
Definition DBUS_WATCH_HANGUP : Z := 8.

Definition eventmask_dbus_to_ufd (d : Z) : Z :=
  Z.lor (if flag d DBUS_WATCH_READABLE then ULOOP_READ else 0)
        (if flag d DBUS_WATCH_WRITABLE then ULOOP_WRITE else 0).

Definition eventmask_ufd_to_dbus (u : Z) (hup err : bool) : Z :=
  Z.lor (Z.lor (Z.lor (if flag u ULOOP_READ then DBUS_WATCH_READABLE else 0)
                      (if flag u ULOOP_WRITE then DBUS_WATCH_WRITABLE else 0))
               (if hup then DBUS_WATCH_HANGUP else 0))
        (if err then DBUS_WATCH_ERROR else 0).

(** [struct wsd_utimer] and [struct wsd_ufd] *)
Record wsd_utimer := Utimer { dtimer : option nat; pending : option Z }.
Record wsd_ufd := Ufd { dfd : option nat; ufd : uloop_fd }.

Section io.
Context `{Uloop}.

(** The two arrays, the data pointers of the objects of libdbus, what uloop
    watches, and whether a dispatch is deferred. *)
Record dbus_io := DbusIo {
  timers : list wsd_utimer;
  timer_data : gmap nat nat;
  fds : list wsd_ufd;
  watch_data : gmap nat nat;
  io_loop : uloop;
  dispatch_dbus : option nat;
  udefer : option Z;
}.

Definition io_init (l : uloop) : dbus_io :=
  DbusIo (replicate MAX_WSD_TIMERS (Utimer None None)) ∅
    (replicate MAX_WSD_FDS (Ufd None (UloopFd 0 false false 0))) ∅ l None None.

Definition set_timer_slot (k : nat) (t : wsd_utimer) (io : dbus_io) : dbus_io :=
  DbusIo (<[k := t]> (timers io)) (timer_data io) (fds io) (watch_data io) (io_loop io) (dispatch_dbus io) (udefer io).
Definition set_timer_data (t k : nat) (io : dbus_io) : dbus_io :=
  DbusIo (timers io) (<[t := k]> (timer_data io)) (fds io) (watch_data io) (io_loop io) (dispatch_dbus io) (udefer io).
Definition set_fd_slot (k : nat) (f : wsd_ufd) (io : dbus_io) : dbus_io :=
  DbusIo (timers io) (timer_data io) (<[k := f]> (fds io)) (watch_data io) (io_loop io) (dispatch_dbus io) (udefer io).
Definition set_watch_data (w k : nat) (io : dbus_io) : dbus_io :=
  DbusIo (timers io) (timer_data io) (fds io) (<[w := k]> (watch_data io)) (io_loop io) (dispatch_dbus io) (udefer io).
Definition set_io_loop (l : uloop) (io : dbus_io) : dbus_io :=
  DbusIo (timers io) (timer_data io) (fds io) (watch_data io) l (dispatch_dbus io) (udefer io).

(** The first free slot. *)
Fixpoint free_slot {A} (busy : A -> option nat) (l : list A) : option nat :=
  match l with
  | [] => None
  | x :: rest => match busy x with None => Some O | Some _ => S <$> free_slot busy rest end
  end.

(** [enabled] and [interval] are what libdbus says of the timeout. *)
Definition wsd_add_timeout (timeout : nat) (enabled : bool) (interval : Z) : M dbus_io bool :=
  let* l := gets timers in
  match free_slot dtimer l with
  | None => M_ret false
  | Some k =>
      modify (set_timer_data timeout k) ;;;
      let* slot := deref (fun io => timers io !! k) in
      modify (set_timer_slot k (Utimer (Some timeout) (pending slot))) ;;;
      (when enabled do modify (set_timer_slot k (Utimer (Some timeout) (Some interval)))) ;;;
      M_ret true
  end.

Definition wsd_mod_timeout (timeout : nat) (enabled : bool) (interval : Z) : M dbus_io unit :=
  let* k := deref (fun io => timer_data io !! timeout) in
  let* slot := deref (fun io => timers io !! k) in
  modify (set_timer_slot k (Utimer (dtimer slot) (if enabled then Some interval else None))).

Definition wsd_del_timeout (timeout : nat) : M dbus_io unit :=
  let* k := deref (fun io => timer_data io !! timeout) in
  let* slot := deref (fun io => timers io !! k) in
  modify (set_timer_slot k (Utimer (dtimer slot) None)) ;;;
  modify (set_timer_slot k (Utimer None None)).

(** The timer of slot [k] fires: it is no longer pending; [handle] is
    [dbus_timeout_handle], which may call the functions above. *)
Definition wsd_trigger_timer (k : nat) (handle : nat -> M dbus_io unit) (interval : nat -> Z) : M dbus_io unit :=
  let* slot := deref (fun io => timers io !! k) in
  modify (set_timer_slot k (Utimer (dtimer slot) None)) ;;;
  let* timeout := deref (fun _ => dtimer slot) in
  handle timeout ;;;
  let* slot := deref (fun io => timers io !! k) in
  match dtimer slot with
  | Some _ => modify (set_timer_slot k (Utimer (dtimer slot) (Some (interval timeout))))
  | None => M_ret tt
  end.

(** What is handed to [dbus_watch_handle]. *)
Definition wsd_trigger_io (k : nat) (flags : Z) : M dbus_io (nat * Z) :=
  let* slot := deref (fun io => fds io !! k) in
  let* w := deref (fun _ => dfd slot) in
  M_ret (w, eventmask_ufd_to_dbus flags (eof (ufd slot)) (error (ufd slot))).

(** [socket], [enabled] and [flags] are what libdbus says of the watch. *)
Definition wsd_add_fd (w : nat) (socket : Z) (enabled : bool) (flags : Z) : M dbus_io bool :=
  let* l := gets fds in
  match free_slot dfd l with
  | None => M_ret false
  | Some k =>
      let* slot := deref (fun io => fds io !! k) in
      let u := UloopFd socket (eof (ufd slot)) (error (ufd slot)) (WsHttp.flags (ufd slot)) in
      modify (set_fd_slot k (Ufd (Some w) u)) ;;;
      modify (set_watch_data w k) ;;;
      if enabled then
        let* l := gets io_loop in
        let '(rc, u, l) := uloop_fd_add u (eventmask_dbus_to_ufd flags) l in
        modify (set_io_loop l) ;;;
        modify (set_fd_slot k (Ufd (Some w) u)) ;;;
        M_ret (rc =? 0)
      else M_ret true
  end.

Definition wsd_mod_fd (w : nat) (socket : Z) (enabled : bool) (flags : Z) : M dbus_io unit :=
  let* k := deref (fun io => watch_data io !! w) in
  let* slot := deref (fun io => fds io !! k) in
  let* l := gets io_loop in
  let '(_, u, l) :=
    if enabled then
      uloop_fd_add (UloopFd socket (eof (ufd slot)) (error (ufd slot)) (WsHttp.flags (ufd slot)))
        (eventmask_dbus_to_ufd flags) l
    else uloop_fd_delete (ufd slot) l in
  modify (set_io_loop l) ;;;
  modify (set_fd_slot k (Ufd (dfd slot) u)).

(** The slot keeps its watch. *)
Definition wsd_del_fd (w : nat) : M dbus_io unit :=
  let* k := deref (fun io => watch_data io !! w) in
  let* slot := deref (fun io => fds io !! k) in
  let* l := gets io_loop in
  let '(_, u, l) := uloop_fd_delete (ufd slot) l in
  modify (set_io_loop l) ;;;
  modify (set_fd_slot k (Ufd (dfd slot) u)).

(** [data_remains] is the status of the connection [dbus]. *)
Definition wsd_dispatch_cb (dbus : nat) (data_remains : bool) : M dbus_io unit :=
  let* d := gets dispatch_dbus in
  assert_ (match d with None => true | Some d => (d =? dbus)%nat end) ;;;
  modify (fun io => DbusIo (timers io) (timer_data io) (fds io) (watch_data io) (io_loop io) (Some dbus)
                      (if data_remains then Some 0 else udefer io)).

(** The functions above become those of the connection, which is then asked once
    what it has already; [data_remains] is that status. *)
Definition wsd_dbus_add_to_uloop (dbus : nat) (data_remains : bool) : M dbus_io unit :=
  wsd_dispatch_cb dbus data_remains.

(** The number of calls of [dbus_connection_dispatch]: [remains i] is whether
    data remains after the [i]th; [None] is a loop longer than the fuel. *)
Fixpoint wsd_trigger_dispatch (fuel : nat) (remains : nat -> bool) (i : nat) : option nat :=
  match fuel with
  | O => None
  | S f => if remains i then wsd_trigger_dispatch f remains (S i) else Some (S i)
  end.
End io.

(** ** Facts *)

Lemma free_slot_spec {A} (busy : A -> option nat) l :
  match free_slot busy l with
  | Some k => (exists x, l !! k = Some x /\ busy x = None)
  | None => Forall (fun x => is_Some (busy x)) l
  end.
Proof.
  induction l as [|x l IH]; [constructor|]. simpl. destruct (busy x) eqn:E.
  - destruct (free_slot busy l) as [k|]; simpl; [done|]. constructor; [by eexists|done].
  - exists x. done.
Qed.

Section timer_table.
Context `{Uloop}.

(** The timeouts libdbus has added, with what they are set to. *)
Record implements_timers (live : gmap nat (option Z)) (io : dbus_io) : Prop := {
  tm_length : length (timers io) = MAX_WSD_TIMERS;
  tm_slot t p : live !! t = Some p ->
    exists k, timer_data io !! t = Some k /\ timers io !! k = Some (Utimer (Some t) p);
  tm_live k t p : timers io !! k = Some (Utimer (Some t) p) -> live !! t = Some p /\ timer_data io !! t = Some k;
  tm_free k p : timers io !! k = Some (Utimer None p) -> p = None;
}.

Lemma implements_timers_init l : implements_timers ∅ (io_init l).
Proof.
  split; [done|done|..].
  - intros k t p Hk. by apply lookup_replicate in Hk as [? _].
  - intros k p Hk. apply lookup_replicate in Hk as [[=] _]. done.
Qed.

(** A timeout in a slot that was free, or its own. *)
Lemma implements_timers_put live io t p k x :
  implements_timers live io -> timers io !! k = Some x ->
  (dtimer x = None /\ live !! t = None \/ dtimer x = Some t) ->
  implements_timers (<[t := p]> live) (set_timer_slot k (Utimer (Some t) p) (set_timer_data t k io)).
Proof.
  intros [Hl Hs Hv Hf] Hk Hx.
  assert (k < length (timers io))%nat as Hlt by (by eapply lookup_lt_Some).
  assert (forall j t' p', j <> k -> timers io !! j = Some (Utimer (Some t') p') -> t' <> t) as Hother.
  { intros j t' p' Hne Hj ->. destruct (Hv j t p' Hj) as [Hlive Hd]. destruct Hx as [[_ Hx]|Hx]; [congruence|].
    destruct x as [? p0]. simpl in Hx. subst. destruct (Hv k t p0 Hk). congruence. }
  split; simpl.
  - by rewrite length_insert.
  - intros t' p'. destruct (decide (t' = t)) as [->|Hne].
    + rewrite !lookup_insert_eq. intros [= <-]. exists k. by rewrite list_lookup_insert_eq.
    + rewrite !lookup_insert_ne by done. intros Ht'. destruct (Hs t' p' Ht') as (k2 & Hk2 & Hs2). exists k2.
      rewrite list_lookup_insert_ne; [done|]. intros <-. rewrite Hs2 in Hk. simplify_eq.
      destruct Hx as [[? _]|[= <-]]; done.
  - intros j t' p' Hj. destruct (decide (j = k)) as [->|Hne].
    + rewrite list_lookup_insert_eq in Hj by done. simplify_eq. by rewrite !lookup_insert_eq.
    + rewrite list_lookup_insert_ne in Hj by done. destruct (Hv j t' p' Hj) as [Hl' Hd].
      pose proof (Hother j t' p' Hne Hj). by rewrite !lookup_insert_ne.
  - intros j p' Hj. destruct (decide (j = k)) as [->|Hne].
    + by rewrite list_lookup_insert_eq in Hj.
    + rewrite list_lookup_insert_ne in Hj by done. by eapply Hf.
Qed.

Lemma set_timer_slot_twice k a b io : set_timer_slot k a (set_timer_slot k b io) = set_timer_slot k a io.
Proof. unfold set_timer_slot. simpl. by rewrite list_insert_insert_eq. Qed.

Lemma implements_timers_del live io t k :
  implements_timers live io -> is_Some (live !! t) -> timer_data io !! t = Some k ->
  implements_timers (delete t live) (set_timer_slot k (Utimer None None) io).
Proof.
  intros [Hl Hs Hv Hf] [p0 Hp0] Hk.
  destruct (Hs t p0 Hp0) as (k' & Hk' & Hslot). assert (k' = k) as -> by congruence.
  assert (k < length (timers io))%nat as Hlt by (by eapply lookup_lt_Some).
  split; simpl.
  - by rewrite length_insert.
  - intros t' p' [Hne Ht']%lookup_delete_Some. destruct (Hs t' p' Ht') as (k2 & Hk2 & Hs2). exists k2.
    rewrite list_lookup_insert_ne; [done|]. intros <-. congruence.
  - intros j t' p' Hj. destruct (decide (j = k)) as [->|Hne].
    + by rewrite list_lookup_insert_eq in Hj.
    + rewrite list_lookup_insert_ne in Hj by done. destruct (Hv j t' p' Hj) as [Hl' Hd].
      rewrite lookup_delete_ne; [done|]. intros <-. congruence.
  - intros j p' Hj. destruct (decide (j = k)) as [->|Hne].
    + rewrite list_lookup_insert_eq in Hj by done. by simplify_eq.
    + rewrite list_lookup_insert_ne in Hj by done. by eapply Hf.
Qed.

(** The busy slots are the live timeouts, each once. *)
Lemma busy_slots live io :
  implements_timers live io -> size live = length (omap dtimer (timers io)).
Proof.
  intros [Hl Hs Hv _].
  assert (dom live = list_to_set (omap dtimer (timers io))) as Hdom.
  { apply set_eq. intros t. rewrite elem_of_dom, elem_of_list_to_set, list_elem_of_omap. split.
    - intros [p Hp]. destruct (Hs t p Hp) as (k & _ & Hk). exists (Utimer (Some t) p).
      split; [by eapply list_elem_of_lookup_2|done].
    - intros ([t' p] & (k & Hk)%list_elem_of_lookup_1 & [= ->]). exists p. by apply (Hv k). }
  rewrite <- size_dom, Hdom, size_list_to_set; [done|].
  assert (forall i, (forall k t p, drop i (timers io) !! k = Some (Utimer (Some t) p) -> timer_data io !! t = Some (i + k)%nat)) as Hd.
  { intros i k t p Hk. rewrite lookup_drop in Hk. by apply (Hv (i + k)%nat t p). }
  clear Hs Hv Hdom Hl. specialize (Hd 0%nat). rewrite drop_0 in Hd. simpl in Hd.
  revert Hd. generalize 0%nat as i. assert (forall l i, (forall k t p, l !! k = Some (Utimer (Some t) p) ->
    timer_data io !! t = Some (i + k)%nat) -> NoDup (omap dtimer l)) as Hnd; [|intros i Hd; apply (Hnd _ 0%nat Hd)].
  induction l as [|[[t|] p] l IH]; intros i Hd; [constructor|..]; csimpl.
  - constructor.
    + intros ([t' p'] & (k & Hk)%list_elem_of_lookup_1 & [= ->])%list_elem_of_omap.
      specialize (Hd 0%nat t p eq_refl) as H1. specialize (Hd (S k) t p' Hk) as H2. rewrite H1 in H2.
      injection H2. lia.
    + apply (IH (S i)). intros k t' p' Hk. specialize (Hd (S k) t' p' Hk). rewrite Hd. f_equal. lia.
  - apply (IH (S i)). intros k t' p' Hk. specialize (Hd (S k) t' p' Hk). rewrite Hd. f_equal. lia.
Qed.

Lemma free_slot_size live io :
  implements_timers live io ->
  match free_slot dtimer (timers io) with
  | Some _ => (size live < MAX_WSD_TIMERS)%nat
  | None => (size live = MAX_WSD_TIMERS)%nat
  end.
Proof.
  intros Hi. rewrite (busy_slots _ _ Hi), <- (tm_length _ _ Hi). clear Hi.
  pose proof (free_slot_spec dtimer (timers io)) as Hf. destruct (free_slot _ _) as [k|].
  - destruct Hf as (x & Hk & Hx). revert k Hk. induction (timers io) as [|y l IH]; intros k Hk; [done|].
    assert (forall l, length (omap dtimer l) <= length l)%nat as Hle.
    { clear. induction l as [|[[t|] p] l IH]; csimpl; lia. }
    destruct k as [|k]; simplify_eq/=.
    + csimpl. rewrite Hx. specialize (Hle l). lia.
    + specialize (IH k Hk). csimpl. destruct (dtimer y); simpl; lia.
  - induction Hf as [|x l [t Hx] _ IH]; [done|]. csimpl. rewrite Hx. simpl. by rewrite IH.
Qed.

(** What libdbus does with timeouts. *)
Inductive timeout_op := Add_timeout (t : nat) (enabled : bool) (interval : Z)
  | Mod_timeout (t : nat) (enabled : bool) (interval : Z)
  | Del_timeout (t : nat).

Definition run_timeout (op : timeout_op) : M dbus_io bool :=
  match op with
  | Add_timeout t enabled interval => wsd_add_timeout t enabled interval
  | Mod_timeout t enabled interval => wsd_mod_timeout t enabled interval ;;; M_ret true
  | Del_timeout t => wsd_del_timeout t ;;; M_ret true
  end.

(** libdbus adds a timeout once, and changes and removes those it has added. *)
Definition timeout_asked (live : gmap nat (option Z)) (op : timeout_op) : Prop :=
  match op with
  | Add_timeout t _ _ => live !! t = None
  | Mod_timeout t _ _ | Del_timeout t => is_Some (live !! t)
  end.

Definition timeout_effect (live : gmap nat (option Z)) (op : timeout_op) : gmap nat (option Z) :=
  match op with
  | Add_timeout t enabled interval | Mod_timeout t enabled interval =>
      <[t := if enabled then Some interval else None]> live
  | Del_timeout t => delete t live
  end.
End timer_table.

(** C37: the timers of libdbus.  When the table implements the timeouts libdbus
    has, every request of libdbus comes back; it succeeds unless it is an
    addition and ten timeouts are there already, and then the table implements
    the timeouts after it: each enabled timeout has exactly one timer, set to
    its interval, and no other timer runs. *)
Theorem dbus_timers_refine `{Uloop} (live : gmap nat (option Z)) (io : dbus_io) (op : timeout_op) :
  implements_timers live io -> timeout_asked live op ->
  exists ok io', run_timeout op io = Some (ok, io') /\
    (ok = true <-> (match op with Add_timeout _ _ _ => size live < MAX_WSD_TIMERS | _ => True end)%nat) /\
    implements_timers (if ok then timeout_effect live op else live) io'.
Proof.
  intros Hi Hask. destruct op as [t en iv|t en iv|t]; simpl in Hask.
  - simpl. unfold wsd_add_timeout, M_bind at 1, gets. pose proof (free_slot_size _ _ Hi) as Hsz.
    pose proof (free_slot_spec dtimer (timers io)) as Hf. destruct (free_slot _ _) as [k|].
    + destruct Hf as ([d p] & Hk & Hx). simpl in Hx. subst d. assert (p = None) as -> by (by eapply (tm_free _ _ Hi)).
      unfold M_bind, modify, deref. simpl. rewrite Hk. simpl.
      exists true, (set_timer_slot k (Utimer (Some t) (if en then Some iv else None)) (set_timer_data t k io)).
      split; [|split; [split; done|by eapply implements_timers_put; eauto]].
      destruct en; simpl; [|done]. by rewrite set_timer_slot_twice.
    + exists false, io. split; [done|]. split; [split; [done|lia]|done].
  - destruct Hask as [p Hp]. destruct (tm_slot _ _ Hi t p Hp) as (k & Hd & Hk).
    simpl. unfold wsd_mod_timeout, M_bind, deref, modify. rewrite Hd, Hk. eexists true, _. split; [done|]. split; [done|].
    assert (set_timer_data t k io = io) as <- by (destruct io; unfold set_timer_data; simpl in *; by rewrite insert_id).
    eapply implements_timers_put; eauto.
  - destruct Hask as [p Hp]. destruct (tm_slot _ _ Hi t p Hp) as (k & Hd & Hk).
    simpl. unfold wsd_del_timeout, M_bind, deref, modify. rewrite Hd, Hk. eexists true, _. split; [done|]. split; [done|].
    rewrite set_timer_slot_twice. by eapply implements_timers_del; eauto.
Qed.

Lemma dbus_timers_refine_witness :
  exists ok io', run_timeout (H := ref_uloop) (Add_timeout 1 true 5000) (@io_init ref_uloop ∅) = Some (ok, io') /\
    (ok = true <-> (size (∅ : gmap nat (option Z)) < MAX_WSD_TIMERS)%nat) /\
    implements_timers (if ok then <[1%nat := Some 5000]> ∅ else ∅) io'.
Proof.
  apply (@dbus_timers_refine ref_uloop ∅ (@io_init ref_uloop ∅) (Add_timeout 1 true 5000)).
  - apply (@implements_timers_init ref_uloop).
  - done.
Defined.
