(* ===== verification/Config.v ===== *)
(** * config.c and main.c: options, configuration file and listening vhosts

    The options of the command line and the JSON configuration file fill the
    same state: the global settings, the listening ports (the newest first, as
    the list is built), the access list of exposed objects and the settings of
    the proxy.  Then one vhost of libwebsockets is made per port, and one more
    per allowed origin.  All features are taken as compiled in; memory does not
    run out.  [None] of the [M] monad is a NULL pointer that is used. *)

From Stdlib Require Import Ascii.
From stdpp Require Import base list strings numbers sets gmap.
From S2P Require Import Prelude CStrings Avl Patterns Libs UbusxAcl WsubusClient Rpc PeerIO.

Local Arguments strcmp : simpl never.

(** The [LWS_SERVER_OPTION_...] flags used. *)
Inductive lws_option :=
  | DISABLE_IPV6 | IPV6_V6ONLY_MODIFY | IPV6_V6ONLY_VALUE | DO_SSL_GLOBAL_INIT
  | PEER_CERT_NOT_REQUIRED | REQUIRE_VALID_OPENSSL_CLIENT_CERT.

#[export] Instance lws_option_eq_dec : EqDecision lws_option.
Proof. solve_decision. Defined.

Definition lws_option_nat (o : lws_option) : nat :=
  match o with
  | DISABLE_IPV6 => 0 | IPV6_V6ONLY_MODIFY => 1 | IPV6_V6ONLY_VALUE => 2 | DO_SSL_GLOBAL_INIT => 3
  | PEER_CERT_NOT_REQUIRED => 4 | REQUIRE_VALID_OPENSSL_CLIENT_CERT => 5
  end.

Lemma lws_option_nat_inj : Inj eq eq lws_option_nat.
Proof. by intros [] [] [=]. Qed.

Definition lws_option_of (n : nat) : option lws_option :=
  match n with
  | 0 => Some DISABLE_IPV6 | 1 => Some IPV6_V6ONLY_MODIFY | 2 => Some IPV6_V6ONLY_VALUE
  | 3 => Some DO_SSL_GLOBAL_INIT | 4 => Some PEER_CERT_NOT_REQUIRED
  | 5 => Some REQUIRE_VALID_OPENSSL_CLIENT_CERT | _ => None
  end%nat.

#[export] Instance lws_option_countable : Countable lws_option.
Proof. apply (inj_countable lws_option_nat lws_option_of). by intros []. Defined.

(** [struct vh_context], the fields used of [struct lws_context_creation_info],
    and [struct vhinfo_list] without its link. *)
Record vh_context := VhContext {
  vc_origins : list string;
  vc_users : list string;
  vc_name : string;
  restrict_origins : bool;
}.

Record creation_info := CreationInfo {
  ci_port : Z;
  ci_iface : option string;
  ci_vhost_name : option string;
  ci_options : gset lws_option;
  ci_cert : option string;
  ci_key : option string;
  ci_ca : option string;
}.

Record vhinfo := Vhinfo { vh_info : creation_info; vh_ctx : vh_context }.

Record global_config := GlobalConfig {
  ubus_sock_path : string;
  www_dirpath : string;
  www_maxage : Z;
  redir_from : option string;
  redir_to : option string;
  cgi_from : option string;
  cgi_to : option string;
  any_ssl : bool;
}.

(** What the options set: [vhs] begins with [*currvh]. *)
Record config := Config {
  cfg : global_config;
  vhs : list vhinfo;
  acl : list string;
  proxy : clvh;
  ubusx_prefix : Z;
}.

Definition set_cfg (f : global_config -> global_config) (s : config) : config :=
  Config (f (cfg s)) (vhs s) (acl s) (proxy s) (ubusx_prefix s).
Definition set_vhs (l : list vhinfo) (s : config) : config :=
  Config (cfg s) l (acl s) (proxy s) (ubusx_prefix s).
Definition set_acl (a : list string) (s : config) : config :=
  Config (cfg s) (vhs s) a (proxy s) (ubusx_prefix s).
Definition set_proxy (f : clvh -> clvh) (s : config) : config :=
  Config (cfg s) (vhs s) (acl s) (f (proxy s)) (ubusx_prefix s).
Definition set_prefix (z : Z) (s : config) : config :=
  Config (cfg s) (vhs s) (acl s) (proxy s) z.

Definition with_ssl (g : global_config) : global_config :=
  GlobalConfig (ubus_sock_path g) (www_dirpath g) (www_maxage g) (redir_from g) (redir_to g)
    (cgi_from g) (cgi_to g) true.
Definition with_sock (p : string) (g : global_config) : global_config :=
  GlobalConfig p (www_dirpath g) (www_maxage g) (redir_from g) (redir_to g)
    (cgi_from g) (cgi_to g) (any_ssl g).
Definition with_www (p : string) (g : global_config) : global_config :=
  GlobalConfig (ubus_sock_path g) p (www_maxage g) (redir_from g) (redir_to g)
    (cgi_from g) (cgi_to g) (any_ssl g).
Definition with_maxage (z : Z) (g : global_config) : global_config :=
  GlobalConfig (ubus_sock_path g) (www_dirpath g) z (redir_from g) (redir_to g)
    (cgi_from g) (cgi_to g) (any_ssl g).
Definition with_redir (from to : option string) (g : global_config) : global_config :=
  GlobalConfig (ubus_sock_path g) (www_dirpath g) (www_maxage g) from to
    (cgi_from g) (cgi_to g) (any_ssl g).
Definition with_cgi (from to : option string) (g : global_config) : global_config :=
  GlobalConfig (ubus_sock_path g) (www_dirpath g) (www_maxage g) (redir_from g) (redir_to g)
    from to (any_ssl g).

(** A field of [*currvh]; there must be one. *)
Definition on_currvh (f : vhinfo -> vhinfo) : M config unit :=
  fun s => match vhs s with
           | [] => None
           | v :: l => Some (tt, set_vhs (f v :: l) s)
           end.

Definition on_info (f : creation_info -> creation_info) (v : vhinfo) : vhinfo := Vhinfo (f (vh_info v)) (vh_ctx v).
Definition on_ctx (f : vh_context -> vh_context) (v : vhinfo) : vhinfo := Vhinfo (vh_info v) (f (vh_ctx v)).

Definition set_port z i := CreationInfo z (ci_iface i) (ci_vhost_name i) (ci_options i) (ci_cert i) (ci_key i) (ci_ca i).
Definition set_iface x i := CreationInfo (ci_port i) x (ci_vhost_name i) (ci_options i) (ci_cert i) (ci_key i) (ci_ca i).
Definition set_vhost_name x i := CreationInfo (ci_port i) (ci_iface i) x (ci_options i) (ci_cert i) (ci_key i) (ci_ca i).
Definition set_options (f : gset lws_option -> gset lws_option) i :=
  CreationInfo (ci_port i) (ci_iface i) (ci_vhost_name i) (f (ci_options i)) (ci_cert i) (ci_key i) (ci_ca i).
Definition set_cert x i := CreationInfo (ci_port i) (ci_iface i) (ci_vhost_name i) (ci_options i) x (ci_key i) (ci_ca i).
Definition set_key x i := CreationInfo (ci_port i) (ci_iface i) (ci_vhost_name i) (ci_options i) (ci_cert i) x (ci_ca i).
Definition set_ca x i := CreationInfo (ci_port i) (ci_iface i) (ci_vhost_name i) (ci_options i) (ci_cert i) (ci_key i) x.

Definition set_name n c := VhContext (vc_origins c) (vc_users c) n (restrict_origins c).
Definition set_restrict b c := VhContext (vc_origins c) (vc_users c) (vc_name c) b.
Definition add_origin o c := VhContext (vc_origins c ++ [o]) (vc_users c) (vc_name c) (restrict_origins c).
Definition add_user u c := VhContext (vc_origins c) (vc_users c ++ [u]) (vc_name c) (restrict_origins c).

(** The option words: [&= ~DISABLE_IPV6], and the IPv6-only pair. *)
Definition enable_ipv6 (o : gset lws_option) : gset lws_option := o ∖ {[DISABLE_IPV6]}.
Definition only_ipv6 (o : gset lws_option) : gset lws_option :=
  o ∪ {[IPV6_V6ONLY_MODIFY; IPV6_V6ONLY_VALUE]}.
(** A repeated [-6] disables IPv4. *)
Definition toggle_ipv6 (o : gset lws_option) : gset lws_option :=
  if decide (DISABLE_IPV6 ∈ o) then enable_ipv6 o else only_ipv6 o.
Definition init_ssl (o : gset lws_option) : gset lws_option := o ∪ {[DO_SSL_GLOBAL_INIT]}.

Definition new_vhinfo : vhinfo :=
  Vhinfo (CreationInfo 0 None None {[DISABLE_IPV6]} None None None) (VhContext [] [] "" true).

Definition new_vhinfo_list : M config unit := modify (fun s => set_vhs (new_vhinfo :: vhs s) s).

(** ** config.c *)

(** The text is what [fread] gets before the first NUL; a short read is no text.
    A size of -1, as for a pipe, makes [fread] write past the buffer. *)
Definition file_to_str (handler : option (Z * string)) : option (option string) :=
  match handler with
  | None => Some None
  | Some (string_size, bytes) =>
      if string_size <? 0 then None
      else
        let buffer := str_take (Z.to_nat string_size) bytes in
        if Z.of_nat (String.length buffer) =? string_size then Some (Some (before_chr buffer "000"%char))
        else Some None
  end.

Section config.
Context `{AvlTree, JsonC}.
Variable inet_pton : address_family -> string -> Z.
(** [lws_parse_uri]: protocol, address, port and path of a URL. *)
Variable lws_parse_uri : string -> option (string * string * Z * string).
(** A file that can be opened: its size by [ftell], and its bytes. *)
Variable fopen : string -> option (Z * string).

(** [json_object_get_string] of a value whose text is used. *)
Definition text_of (j : json) : M config string := deref (fun _ => json_object_get_string j).

(** [append_origins]; the result is not used. *)
Definition append_origins (j : json) : M config unit :=
  match j with
  | JArray l =>
      forM_ l (fun elem =>
        when negb (is_null elem) do
          let* str := text_of elem in on_currvh (on_ctx (add_origin str)))
  | _ => M_ret tt
  end.

Definition append_users (j : json) : M config unit :=
  match j with
  | JArray l =>
      forM_ l (fun elem =>
        when negb (is_null elem) do
          let* str := text_of elem in on_currvh (on_ctx (add_user str)))
  | _ => M_ret tt
  end.

Definition create_vhost_by_json (key : string) (obj : json) : M config Z :=
  let port := json_get obj "port" in
  let interface := json_get obj "interface" in
  if is_null port then M_ret (-1)
  else if is_null interface then M_ret (-1)
  else
    new_vhinfo_list ;;;
    on_currvh (on_info (set_port (json_object_get_int port))) ;;;
    on_currvh (on_ctx (set_name key)) ;;;
    on_currvh (on_info (set_vhost_name (Some key))) ;;;
    on_currvh (on_info (set_iface (json_object_get_string interface))) ;;;
    let a := json_get obj "ca" in
    let k := json_get obj "key" in
    let c := json_get obj "cert" in
    (when negb (is_null a) && negb (is_null k) && negb (is_null c) do
       (on_currvh (on_info (set_cert (json_object_get_string c))) ;;;
        on_currvh (on_info (set_key (json_object_get_string k))) ;;;
        on_currvh (on_info (set_ca (json_object_get_string a))) ;;;
        modify (set_cfg with_ssl) ;;;
        on_currvh (on_info (set_options init_ssl)))) ;;;
    let arg := json_get obj "ubusx_acl" in
    (when negb (is_null arg) do
       modify (fun s => set_acl (ubusx_acl__add_objects (acl s) (json_object_get_string arg)) s)) ;;;
    append_origins (json_get obj "origin") ;;;
    let arg := json_get obj "origin_check" in
    (when negb (is_null arg) && negb (json_object_get_boolean arg) do
       on_currvh (on_ctx (set_restrict false))) ;;;
    let arg := json_get obj "ipv6" in
    (when negb (is_null arg) && json_object_get_boolean arg do
       on_currvh (on_info (set_options enable_ipv6))) ;;;
    let arg := json_get obj "ipv6only" in
    (when negb (is_null arg) && json_object_get_boolean arg do
       (on_currvh (on_info (set_options enable_ipv6)) ;;;
        on_currvh (on_info (set_options only_ipv6)))) ;;;
    append_users (json_get obj "restrict_to_user") ;;;
    M_ret 0.

(** The pair ["from:to"]. *)
Definition split_pair (s : string) : option (string * string) :=
  match strchr s ":" with
  | Some (String _ to) => Some (before_chr s ":", to)
  | _ => None
  end.

Definition parse_global_json (global : json) : M config unit :=
  let arg := json_get global "socket" in
  (when negb (is_null arg) do let* t := text_of arg in modify (set_cfg (with_sock t))) ;;;
  let arg := json_get global "www" in
  (when negb (is_null arg) do let* t := text_of arg in modify (set_cfg (with_www t))) ;;;
  let arg := json_get global "redirect" in
  (when negb (is_null arg) do
     let* t := text_of arg in
     match split_pair t with
     | Some (from, to) => modify (set_cfg (with_redir (Some from) (Some to)))
     | None => modify (set_cfg (fun g => with_redir (redir_from g) None g))
     end) ;;;
  let arg := json_get global "www_maxage" in
  (when negb (is_null arg) do modify (set_cfg (with_maxage (json_object_get_int arg)))).

Definition path_pattern_add (pattern : string) : M config unit :=
  let* tree := deref (fun s => wsubus_client_path_pattern_add (paths_tree (proxy s)) pattern) in
  modify (set_proxy (set_paths tree)).

Definition set_retry_timeout (z : Z) (s : clvh) : clvh :=
  Clvh (enabled s) (clients s) (plws_ctx s) (pclvh s) (paths_tree s)
    (ssl_cert_filepath s) (ssl_private_key_filepath s) (ssl_ca_filepath s)
    (rpcd_integration s) z (object_added s).

Definition create_client (addr : string) (port : Z) (path : string) : M config unit :=
  modify (set_cfg with_ssl) ;;;
  modify (set_proxy (fun c => (wsubus_client_create inet_pton (Some addr) port (Some path) CLIENT_FROM_PROGARG c).2)).

Definition parse_ubusx_json (ubusx : json) : M config unit :=
  let cert := json_get ubusx "peer_cert" in
  let key := json_get ubusx "peer_key" in
  let ca := json_get ubusx "peer_ca" in
  (when negb (is_null cert) && negb (is_null key) && negb (is_null ca) do
     (let* c := text_of cert in
      let* k := text_of key in
      let* a := text_of ca in
      modify (set_proxy (wsubus_client_set_cert_filepath c)) ;;;
      modify (set_proxy (wsubus_client_set_private_key_filepath k)) ;;;
      modify (set_proxy (wsubus_client_set_ca_filepath a)))) ;;;
  modify (set_cfg with_ssl) ;;;
  modify (set_proxy wsubus_client_enable_proxy) ;;;
  (match json_get ubusx "object" with
   | JArray l =>
       forM_ l (fun elem => when negb (is_null elem) do let* t := text_of elem in path_pattern_add t)
   | _ => M_ret tt
   end) ;;;
  (match json_get ubusx "peer" with
   | JNull => M_ret tt
   | JArray l =>
       forM_ l (fun elem =>
         when negb (is_null elem) do
           let* t := text_of elem in
           match lws_parse_uri t with
           | Some (proto, addr, port, path) =>
               when strncmp proto "wss" 4 =? 0 do create_client addr port path
           | None => M_ret tt
           end)
   | _ => abort
   end) ;;;
  let arg := json_get ubusx "prefix" in
  (when negb (is_null arg) do
     let* prefix := text_of arg in
     when strncmp prefix "mac" 4 =? 0 do modify (set_prefix 1)) ;;;
  let arg := json_get ubusx "rpcd_integration" in
  (when negb (is_null arg) && json_object_get_boolean arg do
     modify (set_proxy (wsubus_client_set_rpcd_integration true))) ;;;
  let arg := json_get ubusx "reconnect_timeout" in
  (when negb (is_null arg) && (0 <? json_object_get_int arg) do
     modify (set_proxy (set_retry_timeout (json_object_get_int arg)))).

Definition parse_vhosts_json (vhosts : json) : M config unit :=
  match vhosts with
  | JObject l =>
      forM_ l (fun kv =>
        match kv.2 with
        | JArray elems =>
            forM_ elems (fun elem =>
              when negb (is_null elem) do (create_vhost_by_json kv.1 elem ;;; M_ret tt))
        | _ => M_ret tt
        end)
  | _ => abort
  end.

Definition parse_json_cfg (path : string) : M config unit :=
  let* json := deref (fun _ => file_to_str (fopen path)) in
  match json with
  | None => M_ret tt
  | Some text =>
      let obj := json_tokener_parse text in
      if is_null obj then M_ret tt
      else
        let global := json_get obj "global" in
        let ubusx := json_get obj "ubusproxy" in
        let vhosts := json_get obj "owsd-listen" in
        (when negb (is_null global) do parse_global_json global) ;;;
        (when negb (is_null ubusx) do parse_ubusx_json ubusx) ;;;
        (when negb (is_null vhosts) do parse_vhosts_json vhosts)
  end.

(** ** The options of main.c *)

(** [goto error] with [rc], which is still 0. *)
Definition stop (rc : Z) : M config (option Z) := M_ret (Some rc).
Definition go_on : M config (option Z) := M_ret None.

(** The end pointer of [strtol] is at the end of the text: the number, else [None]. *)
Definition number (s : string) : option Z :=
  match strtol10 s with (z, EmptyString) => Some (s32 z) | _ => None end.

(** The options that end at the label [ssl]. *)
Definition ssl_option (f : creation_info -> creation_info) : M config (option Z) :=
  on_currvh (on_info f) ;;;
  modify (set_cfg with_ssl) ;;;
  on_currvh (on_info (set_options init_ssl)) ;;;
  go_on.

(** One option; [Some rc] is the end of the program with that status. *)
Definition main_option (c : ascii) (optarg : option string) : M config (option Z) :=
  let arg := default "" optarg in
  match c with
  | "s"%char => modify (set_cfg (with_sock arg)) ;;; go_on
  | "w"%char => modify (set_cfg (with_www arg)) ;;; go_on
  | "t"%char =>
      match number arg with
      | Some secs => modify (set_cfg (with_maxage secs)) ;;; go_on
      | None => stop 0
      end
  | "r"%char =>
      match split_pair arg with
      | Some (from, to) => modify (set_cfg (with_redir (Some from) (Some to))) ;;; go_on
      | None => stop 0
      end
  | "m"%char =>
      match split_pair arg with
      | Some (from, to) => modify (set_cfg (with_cgi (Some from) (Some to))) ;;; go_on
      | None => stop 0
      end
  | "f"%char => parse_json_cfg arg ;;; go_on
  | "U"%char =>
      modify (set_cfg with_ssl) ;;;
      modify (set_proxy wsubus_client_enable_proxy) ;;;
      (match optarg with Some p => path_pattern_add p | None => M_ret tt end) ;;; go_on
  | "F"%char =>
      (match optarg with
       | Some p => when strncmp p "mac" 4 =? 0 do modify (set_prefix 1)
       | None => M_ret tt
       end) ;;; go_on
  | "P"%char =>
      match lws_parse_uri arg with
      | None => stop 0
      | Some (proto, addr, port, path) =>
          if negb (strncmp proto "wss" 4 =? 0) then stop 0
          else create_client addr port path ;;; go_on
      end
  | "C"%char => modify (set_proxy (wsubus_client_set_cert_filepath arg)) ;;; go_on
  | "K"%char => modify (set_proxy (wsubus_client_set_private_key_filepath arg)) ;;; go_on
  | "A"%char => modify (set_proxy (wsubus_client_set_ca_filepath arg)) ;;; go_on
  | "R"%char => modify (set_proxy (wsubus_client_set_rpcd_integration true)) ;;; go_on
  | "p"%char =>
      new_vhinfo_list ;;;
      match number arg with
      | Some port =>
          on_currvh (on_info (set_port port)) ;;;
          on_currvh (on_ctx (set_name arg)) ;;; go_on
      | None => stop 0
      end
  | "i"%char =>
      let* old := deref (fun s => head (vhs s)) in
      (match ci_iface (vh_info old) with
       | Some _ =>
           new_vhinfo_list ;;;
           on_currvh (on_info (set_port (ci_port (vh_info old)))) ;;;
           on_currvh (on_ctx (set_name (vc_name (vh_ctx old))))
       | None => M_ret tt
       end) ;;;
      on_currvh (on_info (set_iface (Some arg))) ;;; go_on
  | "o"%char => on_currvh (on_ctx (add_origin arg)) ;;; go_on
  | "O"%char => on_currvh (on_ctx (set_restrict false)) ;;; go_on
  | "u"%char => on_currvh (on_ctx (add_user arg)) ;;; go_on
  | "L"%char => on_currvh (on_ctx (set_name arg)) ;;; go_on
  | "6"%char =>
      on_currvh (on_info (set_options toggle_ipv6)) ;;; go_on
  | "c"%char => ssl_option (set_cert (Some arg))
  | "k"%char => ssl_option (set_key (Some arg))
  | "a"%char => ssl_option (set_ca (Some arg))
  | "X"%char => modify (fun s => set_acl (ubusx_acl__add_objects (acl s) (Some arg)) s) ;;; go_on
  | "T"%char =>
      (when 0 <? atoi arg do modify (set_proxy (set_retry_timeout (atoi arg)))) ;;; go_on
  | "h"%char => stop 0
  | _ => stop (-2)
  end.

Fixpoint main_options (opts : list (ascii * option string)) : M config (option Z) :=
  match opts with
  | [] => go_on
  | (c, optarg) :: rest =>
      let* r := main_option c optarg in
      match r with Some rc => M_ret (Some rc) | None => main_options rest end
  end.
End config.

(** ** The vhosts main.c makes *)

(** [calculate_total_req_max]; [estimate] is the number of requests of 1 kB that
    fill 30 % of the memory. *)
Definition MAX_TOTAL_ASYNC_REQS : Z := 30000.
Definition MIN_TOTAL_ASYNC_REQS : Z := 1024.

Definition calculate_total_req_max (estimate : Z) : Z :=
  if MAX_TOTAL_ASYNC_REQS <? estimate then MAX_TOTAL_ASYNC_REQS
  else if estimate <? MIN_TOTAL_ASYNC_REQS then MIN_TOTAL_ASYNC_REQS else estimate.

Definition contains_substring (a b : string) : Z :=
  if strncmp a b (String.length b) =? 0 then strlen b else 0.

(** A vhost: what libwebsockets was given, and the context behind it. *)
Record lws_vhost := LwsVhost { v_info : creation_info; v_ctx : vh_context }.

Section vhosts.
(** [lws_create_vhost] makes the vhost. *)
Variable lws_create_vhost : creation_info -> bool.

(** The status, the list element with the name written into it, and the vhost. *)
Definition create_vhost (v : vhinfo) (name : string) : Z * vhinfo * list lws_vhost :=
  let offset := Z.lor (contains_substring name "http://") (contains_substring name "https://") in
  let v := on_info (set_vhost_name (Some (str_drop (Z.to_nat offset) name))) v in
  if lws_create_vhost (vh_info v) then (0, v, [LwsVhost (vh_info v) (vh_ctx v)]) else (-1, v, []).

(** A copy of a list of texts, with the number of elements allocated. *)
Definition copy_str_list (l : list string) : list string * nat :=
  fold_left (fun '(copy, n) str => (copy ++ [str], S n)) l ([], 0%nat).

(** The copy, and the number of blocks allocated for it. *)
Definition copy_vhinfo_list (orig : vhinfo) : vhinfo * nat :=
  let '(users, n) := copy_str_list (vc_users (vh_ctx orig)) in
  let '(origins, n') := copy_str_list (vc_origins (vh_ctx orig)) in
  (Vhinfo (vh_info orig)
     (VhContext origins users (vc_name (vh_ctx orig)) (restrict_origins (vh_ctx orig))),
   (1 + n + n')%nat).

(** The inner loop over the origins of [c]: the vhosts, [vh_origins], and the
    blocks allocated. *)
Fixpoint create_origins (c : vhinfo) (origins : list string) (vh_origins : list vhinfo)
  : list lws_vhost * list vhinfo * nat :=
  match origins with
  | [] => ([], vh_origins, 0%nat)
  | origin :: rest =>
      let '(copy, n) := copy_vhinfo_list c in
      let '(_, copy, made) := create_vhost copy origin in
      let '(made', vh_origins, n') := create_origins c rest (copy :: vh_origins) in
      (made ++ made', vh_origins, (n + n')%nat)
  end.

(** Peers of a port with a CA are asked for a certificate. *)
Definition ask_cert (v : vhinfo) : vhinfo :=
  match ci_ca (vh_info v) with
  | Some _ => on_info (set_options (fun o => o ∪ {[PEER_CERT_NOT_REQUIRED; REQUIRE_VALID_OPENSSL_CLIENT_CERT]})) v
  | None => v
  end.

(** The outer loop: the vhosts, the list as it is left, [vh_origins], and the
    blocks allocated. *)
Fixpoint create_listening (l : list vhinfo) (vh_origins : list vhinfo)
  : list lws_vhost * list vhinfo * list vhinfo * nat :=
  match l with
  | [] => ([], [], vh_origins, 0%nat)
  | c :: rest =>
      let c := ask_cert c in
      let '(_, c, made) := create_vhost c "default" in
      let '(made', vh_origins, n) := create_origins c (vc_origins (vh_ctx c)) vh_origins in
      let '(made'', rest, vh_origins, n') := create_listening rest vh_origins in
      (made ++ made' ++ made'', c :: rest, vh_origins, (n + n')%nat)
  end.

(** The vhosts of the program, the list that is freed at its end, and the blocks
    allocated for the copies. *)
Definition create_vhosts (l : list vhinfo) : list lws_vhost * list vhinfo * nat :=
  let '(made, l, vh_origins, n) := create_listening l [] in
  (made, match l with [] => [] | _ => l ++ vh_origins end, n).
End vhosts.

(** ** Facts *)

(** The vhosts of a port: the default one, and one per origin. *)
Definition strip_scheme (s : string) : string :=
  if starts_with "http://" s then str_drop 7 s
  else if starts_with "https://" s then str_drop 8 s else s.

Definition port_vhost (c : vhinfo) (name : string) : lws_vhost :=
  LwsVhost (set_vhost_name (Some name) (vh_info (ask_cert c))) (vh_ctx c).

Definition port_vhosts (c : vhinfo) : list lws_vhost :=
  port_vhost c <$> "default" :: (strip_scheme <$> vc_origins (vh_ctx c)).

Lemma schemes_disjoint s : starts_with "http://" s = true -> starts_with "https://" s = false.
Proof.
  intros [t ->]%starts_with_spec. apply not_true_is_false. intros [u Hu]%starts_with_spec. done.
Qed.

Lemma create_vhost_name s :
  str_drop (Z.to_nat (Z.lor (contains_substring s "http://") (contains_substring s "https://"))) s =
  strip_scheme s.
Proof.
  assert (forall p, contains_substring s p = if starts_with p s then strlen p else 0) as Hc.
  { intros p. unfold contains_substring. pose proof (strncmp_opp s p (String.length p)) as Ho.
    pose proof (strncmp_prefix p s) as Hp. destruct (starts_with p s).
    - rewrite (proj2 (Z.eqb_eq _ _)); [done|]. rewrite (proj2 Hp eq_refl) in Ho. simpl in Ho. lia.
    - rewrite (proj2 (Z.eqb_neq _ _)); [done|]. intros E. rewrite E in Ho. simpl in Ho.
      discriminate (proj1 Hp ltac:(lia)). }
  rewrite !Hc. unfold strip_scheme. destruct (starts_with "http://" s) eqn:E.
  - by rewrite (schemes_disjoint _ E).
  - by destruct (starts_with "https://" s).
Qed.

Lemma copy_str_list_eq l : copy_str_list l = (l, length l).
Proof.
  assert (forall (l acc : list string) n,
    fold_left (fun '(copy, n) str => (copy ++ [str], S n)) l (acc, n) = (acc ++ l, (length l + n)%nat)) as Hf.
  { clear l. induction l as [|x l IH]; intros acc' n; simpl; [by rewrite app_nil_r|].
    rewrite IH, <- app_assoc. simpl. f_equal. lia. }
  unfold copy_str_list. rewrite Hf, Nat.add_0_r. done.
Qed.

(** The blocks of an element of the list of ports. *)
Definition blocks_of (v : vhinfo) : nat :=
  (1 + length (vc_origins (vh_ctx v)) + length (vc_users (vh_ctx v)))%nat.

Lemma copy_vhinfo_list_eq v : copy_vhinfo_list v = (v, blocks_of v).
Proof.
  unfold copy_vhinfo_list, blocks_of. rewrite !copy_str_list_eq. destruct v as [? []]. simpl. do 2 f_equal. lia.
Qed.

Section made.
Variable lws_create_vhost : creation_info -> bool.

Definition makes (v : lws_vhost) : Prop := lws_create_vhost (v_info v) = true.

#[export] Instance makes_dec v : Decision (makes v).
Proof. unfold makes. apply _. Defined.

Lemma create_vhost_eq c name :
  create_vhost lws_create_vhost c name =
  let v := on_info (set_vhost_name (Some (strip_scheme name))) c in
  (if lws_create_vhost (vh_info v) then 0 else -1, v, filter makes [LwsVhost (vh_info v) (vh_ctx v)]).
Proof.
  unfold create_vhost. rewrite create_vhost_name. cbv zeta. rewrite filter_cons.
  case_decide as Hd; unfold makes in Hd; cbn [v_info on_info vh_info] in *; [by rewrite Hd|].
  apply not_true_is_false in Hd. by rewrite Hd.
Qed.

Lemma create_origins_made c origins vh_origins :
  (create_origins lws_create_vhost c origins vh_origins).1.1 =
  filter makes ((fun o => LwsVhost (set_vhost_name (Some (strip_scheme o)) (vh_info c)) (vh_ctx c)) <$> origins).
Proof.
  revert vh_origins. induction origins as [|o rest IH]; intros vho; [done|]. cbn [create_origins].
  rewrite copy_vhinfo_list_eq, create_vhost_eq. cbv beta iota zeta.
  specialize (IH (on_info (set_vhost_name (Some (strip_scheme o))) c :: vho)).
  destruct (create_origins _ _ _ _) as [[made' vho'] n']. cbn [fst] in *. rewrite IH.
  rewrite fmap_cons, <- (filter_app _ [_]). done.
Qed.

Lemma create_listening_made l vh_origins :
  (create_listening lws_create_vhost l vh_origins).1.1.1 = filter makes (concat (port_vhosts <$> l)).
Proof.
  revert vh_origins. induction l as [|c rest IH]; intros vho; [done|]. cbn [create_listening].
  rewrite create_vhost_eq. cbv beta iota zeta.
  match goal with |- context [create_origins _ ?c' ?os vho] =>
    pose proof (create_origins_made c' os vho) as Ho; destruct (create_origins _ c' os vho) as [[made' vho'] n] end.
  specialize (IH vho'). destruct (create_listening _ rest vho') as [[[made'' rest'] vho''] n']. cbn [fst] in *.
  rewrite IH, Ho, fmap_cons. cbn [concat]. rewrite filter_app, app_assoc. f_equal.
  assert (vh_ctx (ask_cert c) = vh_ctx c) as Hc by (unfold ask_cert; by destruct (ci_ca _)).
  unfold port_vhosts. rewrite fmap_cons, <- list_fmap_compose, <- (filter_app _ [_]).
  unfold compose, port_vhost. cbn [on_info vh_info vh_ctx]. by rewrite Hc.
Qed.

Lemma create_vhosts_made l :
  (create_vhosts lws_create_vhost l).1.1 = filter makes (concat (port_vhosts <$> l)).
Proof.
  unfold create_vhosts. rewrite <- (create_listening_made l []).
  by destruct (create_listening _ l []) as [[[? ?] ?] ?].
Qed.

Lemma vhost_of_port l v :
  v ∈ (create_vhosts lws_create_vhost l).1.1 ->
  exists c n, c ∈ l /\ v = port_vhost c n /\ n ∈ "default" :: (strip_scheme <$> vc_origins (vh_ctx c)).
Proof.
  rewrite create_vhosts_made. intros [_ Hv]%list_elem_of_filter.
  apply list_elem_of_In, in_concat in Hv as (vs & Hvs%list_elem_of_In & Hv%list_elem_of_In).
  apply list_elem_of_fmap in Hvs as (c & -> & Hc). exists c.
  unfold port_vhosts in Hv. apply list_elem_of_fmap in Hv as (n & -> & Hn). eauto.
Qed.
End made.

(** Every vhost of a port has the restrictions of the port.  The vhosts made
    are, for every listening port, the default one and one for each of its
    origins (named like the origin without its scheme), less those
    libwebsockets refuses.  Each has the users, origins and origin check of its
    port, its address, certificate and key, and asks peers for a certificate if
    the port has a CA. *)
Theorem vhosts_restricted (lws_create_vhost : creation_info -> bool) (l : list vhinfo) :
  (create_vhosts lws_create_vhost l).1.1 = filter (makes lws_create_vhost) (concat (port_vhosts <$> l)) /\
  forall v, v ∈ (create_vhosts lws_create_vhost l).1.1 -> exists c, c ∈ l /\ v_ctx v = vh_ctx c /\
    ci_port (v_info v) = ci_port (vh_info c) /\ ci_iface (v_info v) = ci_iface (vh_info c) /\
    ci_cert (v_info v) = ci_cert (vh_info c) /\ ci_key (v_info v) = ci_key (vh_info c) /\
    ci_ca (v_info v) = ci_ca (vh_info c) /\ ci_options (vh_info c) ⊆ ci_options (v_info v) /\
    (is_Some (ci_ca (vh_info c)) ->
      {[PEER_CERT_NOT_REQUIRED; REQUIRE_VALID_OPENSSL_CLIENT_CERT]} ⊆ ci_options (v_info v)) /\
    (ci_vhost_name (v_info v) = Some "default" \/
     exists o, o ∈ vc_origins (vh_ctx c) /\ ci_vhost_name (v_info v) = Some (strip_scheme o)).
Proof.
  pose proof (create_vhosts_made lws_create_vhost l) as E. split; [done|]. intros v (c & n & Hc & -> & Hn)%vhost_of_port.
  exists c. split; [done|]. unfold port_vhost, ask_cert. split; [done|].
  assert (Some n = Some "default" \/ exists o, o ∈ vc_origins (vh_ctx c) /\ Some n = Some (strip_scheme o)) as Hname.
  { apply elem_of_cons in Hn as [->|(o & -> & Ho)%list_elem_of_fmap]; eauto. }
  destruct (ci_ca (vh_info c)) eqn:Ea; simpl; rewrite ?Ea; split_and!; try done; try set_solver.
Qed.

(** ** The two ways to describe a listening port *)

Inductive ipv6_mode := Ipv6_off | Ipv6_on | Ipv6_only.

Record port_spec := PortSpec {
  sp_label : string;
  sp_port : Z;
  sp_port_text : string;
  sp_iface : string;
  sp_tls : option (string * string * string);
  sp_acl : option string;
  sp_origins : list string;
  sp_check : bool;
  sp_ipv6 : ipv6_mode;
  sp_users : list string;
}.

Definition json_port (sp : port_spec) : json :=
  JObject (
    [("port", JInt (sp_port sp)); ("interface", JString (sp_iface sp))] ++
    match sp_tls sp with
    | Some (c, k, a) => [("cert", JString c); ("key", JString k); ("ca", JString a)]
    | None => []
    end ++
    match sp_acl sp with Some a => [("ubusx_acl", JString a)] | None => [] end ++
    [("origin", JArray (JString <$> sp_origins sp));
     ("origin_check", JBool (sp_check sp));
     ("ipv6", JBool (match sp_ipv6 sp with Ipv6_off => false | _ => true end));
     ("ipv6only", JBool (match sp_ipv6 sp with Ipv6_only => true | _ => false end));
     ("restrict_to_user", JArray (JString <$> sp_users sp))]).

Definition opt (c : ascii) (arg : string) : ascii * option string := (c, Some arg).

Definition cmdline_port (sp : port_spec) : list (ascii * option string) :=
  [opt "p" (sp_port_text sp); opt "i" (sp_iface sp); opt "L" (sp_label sp)] ++
  match sp_tls sp with Some (c, k, a) => [opt "c" c; opt "k" k; opt "a" a] | None => [] end ++
  match sp_acl sp with Some a => [opt "X" a] | None => [] end ++
  (opt "o" <$> sp_origins sp) ++
  (if sp_check sp then [] else [("O"%char, None)]) ++
  match sp_ipv6 sp with
  | Ipv6_off => []
  | Ipv6_on => [("6"%char, None)]
  | Ipv6_only => [("6"%char, None); ("6"%char, None)]
  end ++
  (opt "u" <$> sp_users sp).

Definition port_options (sp : port_spec) : gset lws_option :=
  match sp_ipv6 sp with
  | Ipv6_off => {[DISABLE_IPV6]}
  | Ipv6_on => ∅
  | Ipv6_only => {[IPV6_V6ONLY_MODIFY; IPV6_V6ONLY_VALUE]}
  end ∪ match sp_tls sp with Some _ => {[DO_SSL_GLOBAL_INIT]} | None => ∅ end.

(** The port that both make of it. *)
Definition port_vhinfo (sp : port_spec) (vhost_name : option string) : vhinfo :=
  Vhinfo (CreationInfo (sp_port sp) (Some (sp_iface sp)) vhost_name (port_options sp)
            ((fun t => t.1.1) <$> sp_tls sp) ((fun t => t.1.2) <$> sp_tls sp) (snd <$> sp_tls sp))
         (VhContext (sp_origins sp) (sp_users sp) (sp_label sp) (sp_check sp)).

Section equivalence.
Context `{AvlTree, JsonC}.
Variable inet_pton : address_family -> string -> Z.
Variable lws_parse_uri : string -> option (string * string * Z * string).
Variable fopen : string -> option (Z * string).

Definition port_config (sp : port_spec) (vhost_name : option string) (s : config) : config :=
  Config (match sp_tls sp with Some _ => with_ssl (cfg s) | None => cfg s end)
    (port_vhinfo sp vhost_name :: vhs s)
    (match sp_acl sp with Some a => ubusx_acl__add_objects (acl s) (Some a) | None => acl s end)
    (proxy s) (ubusx_prefix s).

(** The newest port, changed. *)
Definition change (f : vhinfo -> vhinfo) (s : config) : config :=
  match vhs s with [] => s | v :: l => set_vhs (f v :: l) s end.

Definition has_port (s : config) : Prop := vhs s <> [].

Lemma on_currvh_run f s : has_port s -> on_currvh f s = Some (tt, change f s).
Proof. unfold has_port, on_currvh, change. by destruct (vhs s). Qed.

Lemma has_port_change f s : has_port s -> has_port (change f s).
Proof. unfold has_port, change. by destruct (vhs s) eqn:E; rewrite ?E. Qed.

Lemma change_change f g s : change f (change g s) = change (f ∘ g) s.
Proof. unfold change. destruct (vhs s) eqn:E; [by rewrite E|done]. Qed.

Lemma change_id f s : (forall v, f v = v) -> change f s = s.
Proof. intros Hf. unfold change. destruct s as [g [|v l] a p x]; [done|]. simpl. by rewrite Hf. Qed.

Lemma change_ext f g s : (forall v, f v = g v) -> change f s = change g s.
Proof. intros Hf. unfold change. destruct (vhs s); [done|]. by rewrite Hf. Qed.

Definition with_origins (os : list string) : vhinfo -> vhinfo :=
  on_ctx (fun c => VhContext (vc_origins c ++ os) (vc_users c) (vc_name c) (restrict_origins c)).
Definition with_users (us : list string) : vhinfo -> vhinfo :=
  on_ctx (fun c => VhContext (vc_origins c) (vc_users c ++ us) (vc_name c) (restrict_origins c)).

Lemma text_of_run str s : text_of (JString str) s = Some (str, s).
Proof. unfold text_of, deref. by rewrite get_string_string. Qed.

(** Appending strings one by one, to [with_all]. *)
Lemma append_run (add : string -> vhinfo -> vhinfo) (with_all : list string -> vhinfo -> vhinfo) :
  (forall v, with_all [] v = v) ->
  (forall x xs v, with_all xs (add x v) = with_all (x :: xs) v) ->
  forall xs s, has_port s ->
  forM_ (JString <$> xs) (fun elem => when negb (is_null elem) do
    let* str := text_of elem in on_currvh (add str)) s = Some (tt, change (with_all xs) s).
Proof.
  intros H0' Hs xs. induction xs as [|x xs IH]; intros s Hp.
  - by rewrite change_id.
  - rewrite fmap_cons. cbn [forM_ is_null negb]. unfold M_bind. rewrite text_of_run, on_currvh_run by done.
    rewrite IH by (by apply has_port_change). rewrite change_change. do 2 f_equal. apply change_ext, Hs.
Qed.

Lemma with_origins_nil v : with_origins [] v = v.
Proof. destruct v as [? []]. unfold with_origins, on_ctx. simpl. by rewrite app_nil_r. Qed.
Lemma with_users_nil v : with_users [] v = v.
Proof. destruct v as [? []]. unfold with_users, on_ctx. simpl. by rewrite app_nil_r. Qed.
Lemma with_origins_cons x xs v : with_origins xs (on_ctx (add_origin x) v) = with_origins (x :: xs) v.
Proof. unfold with_origins, on_ctx. simpl. by rewrite <- app_assoc. Qed.
Lemma with_users_cons x xs v : with_users xs (on_ctx (add_user x) v) = with_users (x :: xs) v.
Proof. unfold with_users, on_ctx. simpl. by rewrite <- app_assoc. Qed.

Lemma append_origins_run os s :
  has_port s -> append_origins (JArray (JString <$> os)) s = Some (tt, change (with_origins os) s).
Proof. apply (append_run (fun o => on_ctx (add_origin o))); [apply with_origins_nil|apply with_origins_cons]. Qed.

Lemma append_users_run us s :
  has_port s -> append_users (JArray (JString <$> us)) s = Some (tt, change (with_users us) s).
Proof. apply (append_run (fun u => on_ctx (add_user u))); [apply with_users_nil|apply with_users_cons]. Qed.

(** The options of a port, as each way computes them. *)
Lemma json_options sp :
  (match sp_ipv6 sp with Ipv6_only => only_ipv6 ∘ enable_ipv6 | _ => id end
   ∘ match sp_ipv6 sp with Ipv6_off => id | _ => enable_ipv6 end)
    (match sp_tls sp with Some _ => init_ssl {[DISABLE_IPV6]} | None => {[DISABLE_IPV6]} end) = port_options sp.
Proof.
  unfold port_options, only_ipv6, enable_ipv6, init_ssl.
  destruct (sp_ipv6 sp), (sp_tls sp); vm_compute; reflexivity.
Qed.

(** The fields of the JSON object. *)
Lemma json_port_fields sp :
  json_get (json_port sp) "port" = JInt (sp_port sp) /\
  json_get (json_port sp) "interface" = JString (sp_iface sp) /\
  json_get (json_port sp) "ca" = match sp_tls sp with Some (_, _, a) => JString a | None => JNull end /\
  json_get (json_port sp) "key" = match sp_tls sp with Some (_, k, _) => JString k | None => JNull end /\
  json_get (json_port sp) "cert" = match sp_tls sp with Some (c, _, _) => JString c | None => JNull end /\
  json_get (json_port sp) "ubusx_acl" = match sp_acl sp with Some a => JString a | None => JNull end /\
  json_get (json_port sp) "origin" = JArray (JString <$> sp_origins sp) /\
  json_get (json_port sp) "origin_check" = JBool (sp_check sp) /\
  json_get (json_port sp) "ipv6" = JBool (match sp_ipv6 sp with Ipv6_off => false | _ => true end) /\
  json_get (json_port sp) "ipv6only" = JBool (match sp_ipv6 sp with Ipv6_only => true | _ => false end) /\
  json_get (json_port sp) "restrict_to_user" = JArray (JString <$> sp_users sp).
Proof.
  unfold json_port. rewrite !json_get_object.
  destruct (sp_tls sp) as [[[c k] a]|], (sp_acl sp); split_and!; reflexivity.
Qed.

Lemma json_port_run sp s :
  - 2 ^ 31 <= sp_port sp < 2 ^ 31 ->
  create_vhost_by_json (sp_label sp) (json_port sp) s = Some (0, port_config sp (Some (sp_label sp)) s).
Proof.
  intros Hp. destruct s as [g l a p x]. unfold create_vhost_by_json.
  destruct (json_port_fields sp) as (-> & -> & -> & -> & -> & -> & -> & -> & -> & -> & ->).
  rewrite get_int_int, !get_boolean_bool, get_string_string by done. cbn [is_null negb andb].
  unfold port_config, port_vhinfo. rewrite <- json_options.
  destruct (sp_tls sp) as [[[c k] ca]|], (sp_acl sp) as [ac|]; cbn [is_null negb andb]; rewrite ?get_string_string;
    unfold new_vhinfo_list, on_currvh, modify, M_ret, M_bind;
    cbn [vhs set_vhs set_cfg set_acl]; rewrite append_origins_run by done;
    destruct (sp_check sp), (sp_ipv6 sp); cbn [negb change vhs set_vhs set_cfg set_acl];
    rewrite append_users_run by done; reflexivity.
Qed.

Local Abbreviation options := (main_options inet_pton lws_parse_uri fopen).

Lemma main_options_app o1 o2 s s' :
  options o1 s = Some (None, s') -> options (o1 ++ o2) s = options o2 s'.
Proof.
  revert s. induction o1 as [|[c arg] o1 IH]; intros s; simpl; [by intros [= <-]|]. unfold M_bind.
  destruct (main_option _ _ _ c arg s) as [[[rc|] s1]|]; [done|apply IH|done].
Qed.

(** Options that all change the newest port. *)
Lemma options_run c (add : string -> vhinfo -> vhinfo) (with_all : list string -> vhinfo -> vhinfo) :
  (forall x s, main_option inet_pton lws_parse_uri fopen c (Some x) s =
     M_bind (on_currvh (add x)) (fun _ => go_on) s) ->
  (forall v, with_all [] v = v) ->
  (forall x xs v, with_all xs (add x v) = with_all (x :: xs) v) ->
  forall xs s, has_port s -> options (opt c <$> xs) s = Some (None, change (with_all xs) s).
Proof.
  intros Hc H0' Hs xs. induction xs as [|x xs IH]; intros s Hp.
  - by rewrite change_id.
  - rewrite fmap_cons. cbn [main_options opt]. unfold M_bind at 1. rewrite Hc. unfold M_bind, go_on, M_ret.
    rewrite on_currvh_run by done. rewrite IH by (by apply has_port_change). rewrite change_change.
    do 2 f_equal. apply change_ext, Hs.
Qed.

Lemma cmdline_options sp :
  match sp_ipv6 sp with Ipv6_off => id | Ipv6_on => toggle_ipv6 | Ipv6_only => toggle_ipv6 ∘ toggle_ipv6 end
    (match sp_tls sp with Some _ => init_ssl (init_ssl (init_ssl {[DISABLE_IPV6]})) | None => {[DISABLE_IPV6]} end)
  = port_options sp.
Proof.
  unfold port_options. destruct (sp_ipv6 sp), (sp_tls sp); vm_compute; reflexivity.
Qed.

(** The options before the origins. *)
Definition cmdline_head (sp : port_spec) : list (ascii * option string) :=
  [opt "p" (sp_port_text sp); opt "i" (sp_iface sp); opt "L" (sp_label sp)] ++
  match sp_tls sp with Some (c, k, a) => [opt "c" c; opt "k" k; opt "a" a] | None => [] end ++
  match sp_acl sp with Some a => [opt "X" a] | None => [] end.

Definition head_config (sp : port_spec) (s : config) : config :=
  Config (match sp_tls sp with Some _ => with_ssl (cfg s) | None => cfg s end)
    (Vhinfo (CreationInfo (sp_port sp) (Some (sp_iface sp)) None
       (match sp_tls sp with Some _ => init_ssl (init_ssl (init_ssl {[DISABLE_IPV6]})) | None => {[DISABLE_IPV6]} end)
       ((fun t => t.1.1) <$> sp_tls sp) ((fun t => t.1.2) <$> sp_tls sp) (snd <$> sp_tls sp))
       (VhContext [] [] (sp_label sp) true) :: vhs s)
    (match sp_acl sp with Some a => ubusx_acl__add_objects (acl s) (Some a) | None => acl s end)
    (proxy s) (ubusx_prefix s).

Lemma cmdline_head_run sp s :
  strtol10 (sp_port_text sp) = (sp_port sp, "") -> - 2 ^ 31 <= sp_port sp < 2 ^ 31 ->
  options (cmdline_head sp) s = Some (None, head_config sp s).
Proof.
  intros Ht Hp. unfold cmdline_head, head_config.
  assert (number (sp_port_text sp) = Some (sp_port sp)) as Hn.
  { unfold number. rewrite Ht. by rewrite s32_small. }
  destruct s as [g l a p x].
  destruct (sp_tls sp) as [[[c k] ca]|], (sp_acl sp) as [ac|]; simpl app; cbn [main_options opt];
    unfold M_bind at 1; simpl main_option; rewrite Hn; reflexivity.
Qed.

(** The options between the origins and the users. *)
Definition cmdline_mid (sp : port_spec) : list (ascii * option string) :=
  (if sp_check sp then [] else [("O"%char, None)]) ++
  match sp_ipv6 sp with
  | Ipv6_off => []
  | Ipv6_on => [("6"%char, None)]
  | Ipv6_only => [("6"%char, None); ("6"%char, None)]
  end.

Lemma cmdline_port_run sp s :
  strtol10 (sp_port_text sp) = (sp_port sp, "") -> - 2 ^ 31 <= sp_port sp < 2 ^ 31 ->
  options (cmdline_port sp) s = Some (None, port_config sp None s).
Proof.
  intros Ht Hp.
  assert (cmdline_port sp = cmdline_head sp ++ (opt "o" <$> sp_origins sp) ++ cmdline_mid sp ++ (opt "u" <$> sp_users sp))
    as -> by (unfold cmdline_port, cmdline_head, cmdline_mid; by rewrite <- !app_assoc).
  rewrite (main_options_app _ _ s (head_config sp s)) by (by apply cmdline_head_run).
  rewrite (main_options_app _ _ _ _ (options_run "o" (fun o => on_ctx (add_origin o)) with_origins
    (fun _ _ => eq_refl) with_origins_nil with_origins_cons (sp_origins sp) (head_config sp s) ltac:(done))).
  unfold head_config, port_config, port_vhinfo. rewrite <- cmdline_options.
  unfold cmdline_mid. unfold change at 1. cbn [vhs].
  rewrite (main_options_app _ _ _ (Config (match sp_tls sp with Some _ => with_ssl (cfg s) | None => cfg s end)
    (Vhinfo (CreationInfo (sp_port sp) (Some (sp_iface sp)) None
       (match sp_ipv6 sp with Ipv6_off => id | Ipv6_on => toggle_ipv6 | Ipv6_only => toggle_ipv6 ∘ toggle_ipv6 end
         (match sp_tls sp with Some _ => init_ssl (init_ssl (init_ssl {[DISABLE_IPV6]})) | None => {[DISABLE_IPV6]} end))
       ((fun t => t.1.1) <$> sp_tls sp) ((fun t => t.1.2) <$> sp_tls sp) (snd <$> sp_tls sp))
       (VhContext (sp_origins sp) [] (sp_label sp) (sp_check sp)) :: vhs s)
    (match sp_acl sp with Some a => ubusx_acl__add_objects (acl s) (Some a) | None => acl s end)
    (proxy s) (ubusx_prefix s))).
  - by rewrite (options_run "u" (fun u => on_ctx (add_user u)) with_users
      (fun _ _ => eq_refl) with_users_nil with_users_cons).
  - by destruct (sp_check sp), (sp_ipv6 sp).
Qed.
End equivalence.

Lemma port_vhosts_name sp n n' : port_vhosts (port_vhinfo sp n) = port_vhosts (port_vhinfo sp n').
Proof.
  unfold port_vhosts, port_vhost, ask_cert, port_vhinfo. simpl. by destruct (sp_tls sp).
Qed.

(** The configuration file and the command line describe the same ports.  A
    port given as a JSON object and the same port given as options (port,
    interface, label, certificate with key and CA, access list, origins, origin
    check, IPv6 mode, users) leave the same global settings, access list and
    proxy settings, and libwebsockets is given the same vhosts, whatever was
    configured before. *)
Theorem json_port_is_cmdline_port `{AvlTree, JsonC} (inet_pton : address_family -> string -> Z)
    (lws_parse_uri : string -> option (string * string * Z * string))
    (fopen : string -> option (Z * string)) (sp : port_spec) (s : config) :
  strtol10 (sp_port_text sp) = (sp_port sp, "") -> - 2 ^ 31 <= sp_port sp < 2 ^ 31 ->
  exists s1 s2,
    create_vhost_by_json (sp_label sp) (json_port sp) s = Some (0, s1) /\
    main_options inet_pton lws_parse_uri fopen (cmdline_port sp) s = Some (None, s2) /\
    cfg s1 = cfg s2 /\ acl s1 = acl s2 /\ proxy s1 = proxy s2 /\ ubusx_prefix s1 = ubusx_prefix s2 /\
    (forall create, (create_vhosts create (vhs s1)).1.1 = (create_vhosts create (vhs s2)).1.1) /\
    exists v, vhs s2 = v :: vhs s /\ vc_users (vh_ctx v) = sp_users sp /\
      vc_origins (vh_ctx v) = sp_origins sp /\ restrict_origins (vh_ctx v) = sp_check sp.
Proof.
  intros Ht Hp. exists (port_config sp (Some (sp_label sp)) s), (port_config sp None s).
  split; [by apply json_port_run|]. split; [by apply cmdline_port_run|]. split_and!; try done.
  - intros create. rewrite !create_vhosts_made. simpl vhs. rewrite !fmap_cons. by rewrite (port_vhosts_name sp _ None).
  - by exists (port_vhinfo sp None).
Qed.

Definition lan_port : port_spec :=
  PortSpec "lan" 443 "443" "br-lan" (Some ("/etc/cert", "/etc/key", "/etc/ca")) None
    ["https://router.lan"] true Ipv6_only ["admin"; "user"].

Definition config_init : config :=
  Config (GlobalConfig "/var/run/ubus.sock" "/www" 0 None None None None false) [] [] clvh_init 0.

Lemma json_port_is_cmdline_port_witness :
  exists s1 s2,
    create_vhost_by_json (H := list_avl) (H0 := ref_jsonc) "lan" (json_port lan_port) config_init = Some (0, s1) /\
    main_options (H := list_avl) (H0 := ref_jsonc) (fun _ _ => 1) (fun _ => None) (fun _ => None)
      (cmdline_port lan_port) config_init = Some (None, s2) /\
    cfg s1 = cfg s2 /\ acl s1 = acl s2 /\ proxy s1 = proxy s2 /\ ubusx_prefix s1 = ubusx_prefix s2 /\
    (forall create, (create_vhosts create (vhs s1)).1.1 = (create_vhosts create (vhs s2)).1.1) /\
    exists v, vhs s2 = v :: vhs config_init /\ vc_users (vh_ctx v) = ["admin"; "user"] /\
      vc_origins (vh_ctx v) = ["https://router.lan"] /\ restrict_origins (vh_ctx v) = true.
Proof.
  apply (json_port_is_cmdline_port (H := list_avl) (H0 := ref_jsonc) (fun _ _ => 1) (fun _ => None)
    (fun _ => None) lan_port config_init); [reflexivity|simpl; lia].
Defined.

(** The share of a client is at most 512, all shares together at most 30000, and
    with up to 1024 clients each has at least one request. *)
Lemma request_budget (estimate num_active_ses : Z) :
  0 < num_active_ses ->
  let total := calculate_total_req_max estimate in
  let share := recalc_req_max total num_active_ses in
  MIN_TOTAL_ASYNC_REQS <= total <= MAX_TOTAL_ASYNC_REQS /\
  0 <= share <= MAX_ASYNC_REQS /\ num_active_ses * share <= MAX_TOTAL_ASYNC_REQS /\
  (num_active_ses <= 1024 -> 1 <= share).
Proof.
  intros Hn total share.
  assert (1024 <= total <= 30000) as Ht.
  { unfold total, calculate_total_req_max, MAX_TOTAL_ASYNC_REQS, MIN_TOTAL_ASYNC_REQS.
    destruct (Z.ltb_spec 30000 estimate); [lia|]. destruct (Z.ltb_spec estimate 1024); lia. }
  unfold share, recalc_req_max, MIN_TOTAL_ASYNC_REQS, MAX_TOTAL_ASYNC_REQS, MAX_ASYNC_REQS.
  rewrite (proj2 (Z.eqb_neq _ _)) by lia. rewrite u64_small by lia.
  pose proof (Z.mul_div_le total num_active_ses Hn). pose proof (Z.div_pos total num_active_ses ltac:(lia) Hn).
  assert (num_active_ses <= 1024 -> 1 <= total / num_active_ses) by (intros; apply Z.div_le_lower_bound; lia).
  destruct (Z.ltb_spec (total / num_active_ses) 512); [|split_and!; nia].
  rewrite s32_small by lia. split_and!; lia || nia || done.
Qed.
