(* ===== verification/Main.v ===== *)
(** * main.c: start and end of the program

    What [main] does after its options: the handler of SIGCHLD, the buses, the
    table of descriptors, the context of libwebsockets, the vhosts with their
    HTTP mounts, the proxy and the timer; then the event loop; then everything is
    given back.  What is held is part of the state: giving back or using
    something that is not held does not come back.  The blocks of the lists of
    ports, origins and users are counted.  All features are compiled in. *)

From stdpp Require Import base list strings numbers sets gmap.
From S2P Require Import Prelude CStrings Avl Patterns Libs UbusxAcl WsubusClient Rpc PeerIO Config.

Local Arguments strcmp : simpl never.
Set Default Proof Using "Type".

(** ** HTTP mounts *)

Inductive lws_mount_protocols := LWSMPRO_FILE | LWSMPRO_CGI.

(** The fields used of [struct lws_http_mount]; the mounts are a list. *)
Record lws_http_mount := Mount {
  mountpoint : string;
  mountpoint_len : Z;
  mount_origin : string;
  mount_def : option string;
  cgienv : list (string * string);
  cgi_timeout : Z;
  cache_max_age : Z;
  cache_reusable : bool;
  cache_revalidate : bool;
  origin_protocol : lws_mount_protocols;
}.

Definition wwwmount (g : global_config) : lws_http_mount :=
  Mount "/" (strlen "/") "/dev/null" (Some "index.html") [] 0 (www_maxage g)
    (negb (www_maxage g =? 0)) (negb (www_maxage g =? 0)) LWSMPRO_FILE.

Definition cgienv1 : list (string * string) :=
  [("DOCUMENT_ROOT", "/www"); ("SCRIPT_FILENAME", "/www/cgi-bin/luci");
   ("SCRIPT_NAME", "/cgi-bin/luci");
   ("PATH", "/bin:/usr/bin:/usr/local/bin:/usr/sbin:/sbin:/var/www/cgi-bin")].

Definition cgimount (g : global_config) : lws_http_mount :=
  let '(point, origin) := match cgi_from g, cgi_to g with
                          | Some from, Some to => (from, to)
                          | _, _ => ("/cgi-bin/luci", "/www/cgi-bin/luci")
                          end in
  Mount point (strlen point) origin None cgienv1 5000 0 false false LWSMPRO_CGI.

Definition mounts (g : global_config) : list lws_http_mount := [cgimount g; wwwmount g].

(** ** What is held *)

Inductive resource := R_uloop | R_ubus | R_dbus | R_ufds | R_lws | R_schema | R_json.

#[export] Instance resource_eq_dec : EqDecision resource.
Proof. solve_decision. Defined.

(** [w_blocks] counts the blocks allocated and not freed of the lists of ports,
    origins and users; [w_vhosts] are the vhosts with their mounts. *)
Record world := World {
  w_held : list resource;
  w_blocks : nat;
  w_vhosts : list (lws_vhost * list lws_http_mount);
  w_conf : config;
  w_timer : option Z;
  total_req_max : Z;
}.

Definition set_held l w := World l (w_blocks w) (w_vhosts w) (w_conf w) (w_timer w) (total_req_max w).
Definition set_blocks n w := World (w_held w) n (w_vhosts w) (w_conf w) (w_timer w) (total_req_max w).
Definition set_vhosts v w := World (w_held w) (w_blocks w) v (w_conf w) (w_timer w) (total_req_max w).
Definition set_conf c w := World (w_held w) (w_blocks w) (w_vhosts w) c (w_timer w) (total_req_max w).
Definition set_utimer t w := World (w_held w) (w_blocks w) (w_vhosts w) (w_conf w) t (total_req_max w).
Definition set_req_max n w := World (w_held w) (w_blocks w) (w_vhosts w) (w_conf w) (w_timer w) n.

Definition acquire (r : resource) : M world unit := modify (fun w => set_held (r :: w_held w) w).
Definition use (r : resource) : M world unit :=
  let* w := get in assert_ (bool_decide (r ∈ w_held w)).
Definition release (r : resource) : M world unit :=
  use r ;;; modify (fun w => set_held (filter (fun x => x <> r) (w_held w)) w).

(** [free] of [n] blocks. *)
Definition free_blocks (n : nat) : M world unit :=
  let* w := get in
  assert_ (n <=? w_blocks w)%nat ;;;
  modify (fun w => set_blocks (w_blocks w - n) w).

(** The blocks of the list of ports. *)
Definition blocks (l : list vhinfo) : nat := sum_list_with blocks_of l.

(** ** main *)

(** What the system and the libraries answer. *)
Record start_env := StartEnv {
  m_sigaction : Z;
  m_ubus_connect : bool;
  m_dbus_connect : bool;
  m_req_estimate : Z;
  m_lws_context : bool;
  m_create_vhost : creation_info -> bool;
  m_client_vhost : option nat;
}.

Section main.
Variable me : start_env.
(** The program between [uloop_run] and its return, which changes the table of
    remote buses and the access list only. *)
Variable run_loop : config -> config.

Definition install_handler : bool := negb (m_sigaction me =? -1).

(** The timer is set again after libwebsockets was told of the second. *)
Definition utimer_service : M world unit :=
  use R_lws ;;;
  use R_uloop ;;;
  modify (set_utimer (Some 1000)).

(** The vhosts of all ports, and the list of ports with the copies appended. *)
Definition setup_vhosts : M world unit :=
  use R_lws ;;;
  let* w := get in
  let '(made, l, allocated) := create_vhosts (m_create_vhost me) (vhs (w_conf w)) in
  modify (set_vhosts ((fun v => (v, mounts (cfg (w_conf w)))) <$> made)) ;;;
  modify (fun w => set_blocks (w_blocks w + allocated) w) ;;;
  modify (fun w => set_conf (set_vhs l (w_conf w)) w).

Definition start_proxying : M world unit :=
  use R_lws ;;;
  use R_ubus ;;;
  modify (fun w => set_conf (set_proxy (fun p => (wsubus_client_start_proxying 0 (m_client_vhost me) p).2) (w_conf w)) w).

(** The loop over the per-vhost contexts. *)
Definition free_vhosts : M world unit :=
  let* w := get in
  forM_ (vhs (w_conf w)) (fun v =>
    free_blocks (length (vc_origins (vh_ctx v))) ;;;
    free_blocks (length (vc_users (vh_ctx v))) ;;;
    free_blocks 1) ;;;
  modify (fun w => set_conf (set_vhs [] (w_conf w)) w).

(** From the label [error_ubus_ufds] on. *)
Definition error_ubus_ufds (json_cfg : bool) (rc : Z) : M world Z :=
  release R_ufds ;;;
  release R_ubus ;;;
  release R_dbus ;;;
  (when json_cfg do release R_json) ;;;
  M_ret rc.

(** From the timer to the end of the context of libwebsockets. *)
Definition serve : M world unit :=
  use R_uloop ;;;
  modify (set_utimer (Some 1000)) ;;;
  acquire R_schema ;;;
  modify (fun w => set_conf (run_loop (w_conf w)) w) ;;;
  release R_uloop ;;;
  release R_schema ;;;
  modify (fun w => set_conf (set_acl (ubusx_acl__destroy (acl (w_conf w))) (w_conf w)) w) ;;;
  modify (fun w => set_conf (set_proxy wsubus_client_clean (w_conf w)) w) ;;;
  free_vhosts ;;;
  release R_lws ;;;
  modify (set_vhosts []).

Definition main_run (json_cfg : bool) : M world Z :=
  if negb install_handler then M_ret 0
  else
    acquire R_uloop ;;;
    if negb (m_ubus_connect me) then M_ret 2
    else
      acquire R_ubus ;;;
      use R_uloop ;;;
      if negb (m_dbus_connect me) then M_ret 2
      else
        acquire R_dbus ;;;
        use R_uloop ;;;
        acquire R_ufds ;;;
        modify (set_req_max (calculate_total_req_max (m_req_estimate me))) ;;;
        if negb (m_lws_context me) then error_ubus_ufds json_cfg 1
        else
          acquire R_lws ;;;
          setup_vhosts ;;;
          start_proxying ;;;
          serve ;;;
          error_ubus_ufds json_cfg 0.

(** The state in which the options were read. *)
Definition main_start (c : config) (json_cfg : bool) : world :=
  World (if json_cfg then [R_json] else []) (blocks (vhs c)) [] c None 0.
End main.

(** ** Facts *)

Lemma blocks_cons v l : blocks (v :: l) = (blocks_of v + blocks l)%nat.
Proof. done. Qed.

Lemma blocks_app l l' : blocks (l ++ l') = (blocks l + blocks l')%nat.
Proof. unfold blocks. induction l as [|v l IH]; simpl; lia. Qed.

Section blocks.
Variable make : creation_info -> bool.

(** Creating a vhost changes no list. *)
Lemma create_vhost_blocks c name rc v made :
  create_vhost make c name = (rc, v, made) -> vh_ctx v = vh_ctx c.
Proof. unfold create_vhost. destruct (make _); by intros [= <- <- <-]. Qed.

Lemma ask_cert_ctx v : vh_ctx (ask_cert v) = vh_ctx v.
Proof. unfold ask_cert. by destruct (ci_ca (vh_info v)). Qed.

(** What is allocated for the copies is linked in front of [vh_origins]. *)
Lemma create_origins_blocks c os vo made vo' n :
  create_origins make c os vo = (made, vo', n) -> blocks vo' = (blocks vo + n)%nat.
Proof.
  revert vo made vo' n. induction os as [|o os IH]; intros vo made vo' n; simpl; [intros [= <- <- <-]; lia|].
  rewrite copy_vhinfo_list_eq. destruct (create_vhost make c o) as [[rc copy] m1] eqn:E1.
  destruct (create_origins make c os (copy :: vo)) as [[m2 vo2] n2] eqn:E2. intros [= <- <- <-].
  apply IH in E2. apply create_vhost_blocks in E1. rewrite blocks_cons in E2. unfold blocks_of in *. rewrite E1 in E2. lia.
Qed.

(** The ports are kept, the copies are added in front of [vh_origins]. *)
Lemma create_listening_blocks l vo made l' vo' n :
  create_listening make l vo = (made, l', vo', n) ->
  blocks l' = blocks l /\ blocks vo' = (blocks vo + n)%nat /\ (l' = [] -> n = 0%nat).
Proof.
  revert vo made l' vo' n. induction l as [|c l IH]; intros vo made l' vo' n; simpl.
  { intros [= <- <- <- <-]. split_and!; [done|lia|done]. }
  destruct (create_vhost make (ask_cert c) "default") as [[rc c1] m1] eqn:E1.
  destruct (create_origins make c1 _ vo) as [[m2 vo2] n2] eqn:E2.
  destruct (create_listening make l vo2) as [[[m3 l3] vo3] n3] eqn:E3.
  intros [= <- <- <- <-]. apply IH in E3 as (E3 & E4 & _). apply create_origins_blocks in E2.
  apply create_vhost_blocks in E1. rewrite ask_cert_ctx in E1.
  rewrite !blocks_cons. unfold blocks_of. rewrite E1, E3. split_and!; [done|lia|done].
Qed.

Lemma create_vhosts_blocks l made l' n :
  create_vhosts make l = (made, l', n) -> blocks l' = (n + blocks l)%nat.
Proof.
  unfold create_vhosts. destruct (create_listening make l []) as [[[m l1] vo] n1] eqn:E.
  apply create_listening_blocks in E as (E1 & E2 & E3). change (blocks []) with 0%nat in E2.
  destruct l1 as [|v l1]; intros [= <- <- <-].
  - rewrite <- E1, E3 by done. done.
  - change (v :: l1 ++ vo) with ((v :: l1) ++ vo). rewrite blocks_app. lia.
Qed.
End blocks.

(** Freeing the lists of all ports. *)
Lemma free_blocks_run n w :
  (n <= w_blocks w)%nat -> free_blocks n w = Some (tt, set_blocks (w_blocks w - n) w).
Proof.
  intros Hn. unfold free_blocks, M_bind, get, assert_, modify. by rewrite (proj2 (Nat.leb_le _ _)).
Qed.

Lemma free_loop_run l w :
  (blocks l <= w_blocks w)%nat ->
  forM_ l (fun v =>
    free_blocks (length (vc_origins (vh_ctx v))) ;;; free_blocks (length (vc_users (vh_ctx v))) ;;; free_blocks 1) w =
  Some (tt, set_blocks (w_blocks w - blocks l) w).
Proof.
  revert w. induction l as [|v l IH]; intros w Hb.
  { cbn. rewrite Nat.sub_0_r. by destruct w. }
  rewrite blocks_cons in *. unfold blocks_of in *. cbn [forM_]. unfold M_bind at 1 2 3.
  rewrite free_blocks_run by lia. rewrite free_blocks_run by (simpl; lia).
  rewrite free_blocks_run by (simpl; lia). rewrite IH by (simpl; lia).
  unfold set_blocks. simpl. do 3 f_equal. lia.
Qed.

(** The steps of [main_run]. *)
Lemma acquire_run r w : acquire r w = Some (tt, set_held (r :: w_held w) w).
Proof. done. Qed.
Lemma use_run r w : bool_decide (r ∈ w_held w) = true -> use r w = Some (tt, w).
Proof. intros E. unfold use, M_bind, get, assert_. by rewrite E. Qed.
Lemma release_run r w :
  bool_decide (r ∈ w_held w) = true ->
  release r w = Some (tt, set_held (filter (fun x => x <> r) (w_held w)) w).
Proof. intros E. unfold release, M_bind. by rewrite use_run. Qed.

Lemma setup_vhosts_run me w :
  bool_decide (R_lws ∈ w_held w) = true ->
  exists made l n, blocks l = (n + blocks (vhs (w_conf w)))%nat /\
  setup_vhosts me w = Some (tt,
    set_conf (set_vhs l (w_conf w)) (set_blocks (w_blocks w + n) (set_vhosts made w))).
Proof.
  intros E. unfold setup_vhosts, M_bind. rewrite use_run by done. cbn [get modify].
  destruct (create_vhosts _ _) as [[made l] n] eqn:Ev. apply create_vhosts_blocks in Ev.
  by eexists _, l, n.
Qed.

Lemma free_vhosts_run w :
  w_blocks w = blocks (vhs (w_conf w)) ->
  free_vhosts w = Some (tt, set_conf (set_vhs [] (w_conf w)) (set_blocks 0 w)).
Proof.
  intros E. unfold free_vhosts, M_bind, get. rewrite free_loop_run by lia.
  by rewrite E, Nat.sub_diag.
Qed.

Lemma error_ubus_ufds_run (json_cfg : bool) (rc : Z) (w : world) (rest : list resource) :
  w_held w = [R_ufds; R_dbus; R_ubus] ++ rest ++ (if json_cfg then [R_json] else []) ->
  rest = [] \/ rest = [R_uloop] ->
  error_ubus_ufds json_cfg rc w = Some (rc, set_held rest w).
Proof. intros E [-> | ->]; destruct w; cbn in E; subst; by destruct json_cfg. Qed.

(** One step of a program over [world], with the state as a record. *)
Local Ltac world_simpl :=
  cbn [set_held set_blocks set_vhosts set_conf set_utimer set_req_max
       w_held w_blocks w_vhosts w_conf w_timer total_req_max modify].
Local Ltac run_step :=
  unfold M_bind at 1;
  first [rewrite acquire_run | rewrite use_run by (vm_compute; reflexivity) | rewrite release_run by (vm_compute; reflexivity) |
         progress cbn [modify]]; world_simpl.

(** The whole run when everything is there. *)
Lemma main_served (me : start_env) (run_loop : config -> config) (json_cfg : bool) (c : config) :
  (forall c, vhs (run_loop c) = vhs c) ->
  install_handler me = true -> m_ubus_connect me = true -> m_dbus_connect me = true -> m_lws_context me = true ->
  exists w, main_run me run_loop json_cfg (main_start c json_cfg) = Some (0, w) /\
    w_held w = [] /\ w_blocks w = 0%nat /\ w_vhosts w = [] /\
    vhs (w_conf w) = [] /\ acl (w_conf w) = [] /\ clients (proxy (w_conf w)) = [].
Proof.
  intros Hr E1 E2 E3 E4. unfold main_run. rewrite E1, E2, E3, E4. cbn [negb]. destruct json_cfg.
  all: do 8 run_step.
  all: unfold M_bind at 1.
  all: edestruct setup_vhosts_run as (made & l & n & El & ->); [done|].
  all: unfold M_bind at 1, start_proxying; do 2 run_step; cbn [modify].
  all: unfold M_bind at 1, serve; do 8 run_step.
  all: unfold M_bind at 1; rewrite free_vhosts_run by (cbn -[blocks]; rewrite Hr; cbn -[blocks] in *; lia).
  all: run_step; cbn [modify].
  all: rewrite (error_ubus_ufds_run _ _ _ []) by (done || by left).
  all: by eexists.
Qed.

(** C21: [main] comes back on every path.  After the event loop it returns 0
    with nothing held: the buses, the table of descriptors, the context of
    libwebsockets, the validator and the configuration given back once each, every
    block freed of the lists of ports, origins and users that the options left and
    every block allocated since for the copies of the ports, the access list and
    the table of remote buses empty.  On the failure paths what stays held is what
    the labels skip, always with all blocks of the lists of ports: without a handler
    of SIGCHLD the status is still 0 and only the configuration stays; a bus that
    cannot be reached gives 2 and leaves the event loop and the configuration, and
    the ubus connection when it was D-Bus that failed; a failed context gives 1 and
    leaves the event loop.  [run_loop] is the program between; it changes no port. *)
Theorem main_releases_all (me : start_env) (run_loop : config -> config) (json_cfg : bool) (c : config) :
  (forall c, vhs (run_loop c) = vhs c) ->
  let json := if json_cfg then [R_json] else [] in
  exists rc w, main_run me run_loop json_cfg (main_start c json_cfg) = Some (rc, w) /\
    if negb (install_handler me) then rc = 0 /\ w_held w = json /\ w_blocks w = blocks (vhs c)
    else if negb (m_ubus_connect me) then rc = 2 /\ w_held w = R_uloop :: json /\ w_blocks w = blocks (vhs c)
    else if negb (m_dbus_connect me) then rc = 2 /\ w_held w = R_ubus :: R_uloop :: json /\ w_blocks w = blocks (vhs c)
    else if negb (m_lws_context me) then rc = 1 /\ w_held w = [R_uloop] /\ w_blocks w = blocks (vhs c)
    else rc = 0 /\ w_held w = [] /\ w_blocks w = 0%nat /\ w_vhosts w = [] /\
         vhs (w_conf w) = [] /\ acl (w_conf w) = [] /\ clients (proxy (w_conf w)) = [].
Proof.
  intros Hr json.
  destruct (install_handler me) eqn:E1, (m_ubus_connect me) eqn:E2, (m_dbus_connect me) eqn:E3, (m_lws_context me) eqn:E4.
  { destruct (main_served me run_loop json_cfg c) as (w & Hw & Hp); try done. by exists 0, w. }
  all: unfold main_run; rewrite E1, ?E2, ?E3, ?E4; cbn [negb].
  { do 7 run_step. rewrite (error_ubus_ufds_run _ _ _ [R_uloop]) by (done || by right). by eexists _, _. }
  all: repeat run_step; by eexists _, _.
Qed.

Lemma main_releases_all_witness :
  let env := StartEnv 0 true true 5000 true (fun _ => true) (Some 1%nat) in
  let port := Vhinfo (CreationInfo 8080 None None ∅ None None None)
                (VhContext ["http://a"; "http://b"] ["root"] "" false) in
  let c := Config (GlobalConfig "/var/run/ubus.sock" "/www" 0 None None None None false) [port] ["router"]
             (Clvh true [] None None [] None None None false 2000 false) 0 in
  exists rc w, main_run env id true (main_start c true) = Some (rc, w) /\ rc = 0 /\ w_held w = [] /\ w_blocks w = 0%nat.
Proof.
  intros env port c.
  destruct (main_releases_all env id true c) as (rc & w & Hrun & -> & Hh & Hb & _); [done|].
  by exists 0, w.
Defined.

(** With the two origins above three vhosts are made, on two copies of the port. *)
Example main_makes_vhosts :
  let port := Vhinfo (CreationInfo 8080 None None ∅ None None None)
                (VhContext ["http://a"; "http://b"] ["root"] "" false) in
  let '(made, l, n) := create_vhosts (fun _ => true) [port] in
  length made = 3%nat /\ n = 8%nat /\ blocks l = 12%nat.
Proof. by vm_compute. Qed.
