(* ===== verification/Wsubus.v ===== *)
(** * wsubus.c: the "ubus-json" subprotocol on the server side

    Which connections are let in (the Origin header against the configured
    origins), how a message is put together from the fragments libwebsockets
    delivers, and the callback that starts, feeds, drains and ends the sessions
    of Session.v.  [fnmatch] and the incremental parser of json-c are
    interfaces. *)

From stdpp Require Import base list strings numbers sets gmap.
From S2P Require Import Prelude CStrings Avl Patterns Libs UbusxAcl WsubusClient Rpc PeerIO AccessCheck Session SessionInv SessionProps HttpServe Config.

Local Arguments strcmp : simpl never.

(** ** Origins *)

(** A pattern without special characters. *)
Definition plain (p : string) : Prop :=
  forall c, c ∈ chars p -> c ∉ chars "*?[\".

Class Fnmatch := {
  (** [fnmatch(pattern, s, FNM_CASEFOLD) == 0] *)
  fnmatch : string -> string -> bool;
  fnmatch_plain p s : plain p -> fnmatch p s = true <-> lower p = lower s;
}.

Section origins.
Context `{Fnmatch}.

Fixpoint origin_allowed (origin_list : list string) (origin : string) : bool :=
  match origin_list with
  | [] => false
  | str :: rest => if fnmatch str origin then true else origin_allowed rest origin
  end.

(** [len] is the length of the header, [copied] what [lws_hdr_copy] returns,
    [vc] the context of the vhost; [None] is the failed assertion. *)
Definition wsubus_filter (malloc_ok : bool) (len copied : Z) (origin : string) (vc : option vh_context)
  : option Z :=
  if negb (0 <=? len) then None
  else if negb malloc_ok then Some (-1)
  else Some (
    if len =? 0 then 0
    else if copied <? 0 then -3
    else match vc with
    | None => -4
    | Some vc =>
        if restrict_origins vc && negb (origin_allowed (vc_origins vc) origin) then -5 else 0
    end).
End origins.

(** ** Fragments *)

Inductive json_tokener_error := json_tokener_success | json_tokener_continue | json_tokener_error_parse.

#[export] Instance json_tokener_error_eq_dec : EqDecision json_tokener_error.
Proof. solve_decision. Defined.

Class JsonTokenerOps := {
  jtok : Type;
  json_tokener_new : jtok;
  json_tokener_parse_ex : jtok -> string -> jtok * json;
  json_tokener_get_error : jtok -> json_tokener_error;
  json_tokener_char_offset : jtok -> Z;
  json_tokener_reset : jtok -> jtok;
}.

(** A parser that was fed a text in pieces and waits for more. *)
Inductive fed `{JsonTokenerOps} : string -> jtok -> Prop :=
  | fed_new : fed "" json_tokener_new
  | fed_more a t b t' :
      fed a t -> json_tokener_parse_ex t b = (t', JNull) ->
      json_tokener_get_error t' = json_tokener_continue -> fed (a +:+ b) t'.

(** The text is one JSON object, and ends with it. *)
Definition complete `{JsonTokenerOps} (text : string) (l : list (string * json)) : Prop :=
  exists t, json_tokener_parse_ex json_tokener_new text = (t, JObject l) /\
    json_tokener_char_offset t = strlen text.

(** The parser does not depend on how the text is cut: it waits for more until
    the object is complete, and reports success then. *)
Class JsonTokener `{JsonTokenerOps} := {
  reset_new t : json_tokener_reset t = json_tokener_new;
  feed_more a b c l t :
    complete (a +:+ b +:+ c) l -> fed a t -> c <> "" ->
    exists t', json_tokener_parse_ex t b = (t', JNull) /\
      json_tokener_get_error t' = json_tokener_continue;
  feed_last a b l t :
    complete (a +:+ b) l -> fed a t -> b <> "" ->
    exists t', json_tokener_parse_ex t b = (t', JObject l) /\
      json_tokener_char_offset t' = strlen b /\ json_tokener_get_error t' = json_tokener_success;
}.

(** [shutdown] of the socket of the peer. *)
Inductive shut := SHUT_RD | SHUT_RDWR.

Section rx.
Context `{AvlTree, JsonC, LibUbox, JsonTokenerOps}.

(** [struct wsu_peer] of a client: [curr_msg], the session, and what was done to
    its socket. *)
Record wsu_peer := Peer {
  p_len : Z;
  p_jtok : jtok;
  p_sess : session;
  p_shut : list shut;
}.

Definition set_msg (n : Z) (t : jtok) (p : wsu_peer) : wsu_peer := Peer n t (p_sess p) (p_shut p).
Definition shutdown (how : shut) : M wsu_peer unit :=
  modify (fun p => Peer (p_len p) (p_jtok p) (p_sess p) (p_shut p ++ [how])).

Definition on_session {A} (m : M session A) : M wsu_peer A :=
  fun p => match m (p_sess p) with
           | Some (a, s) => Some (a, Peer (p_len p) (p_jtok p) s (p_shut p))
           | None => None
           end.

(** A part of a frame: its text, what is left of its frame, whether the frame is
    the last of its message, and whether it is binary. *)
Record fragment := Fragment {
  f_in : string;
  f_remaining : Z;
  f_final : bool;
  f_binary : bool;
}.

Definition wsu_read_reset : M wsu_peer unit :=
  modify (fun p => set_msg 0 (json_tokener_reset (p_jtok p)) p).

Definition INT32_MAX : Z := 2 ^ 31 - 1.

Definition wsubus_rx_json_part (e : env) (f : fragment) : M wsu_peer unit :=
  assert_ (strlen (f_in f) <? INT32_MAX) ;;;
  modify (fun p => set_msg (u64 (p_len p + strlen (f_in f))) (p_jtok p) p) ;;;
  let* p := get in
  let '(t, jobj) := json_tokener_parse_ex (p_jtok p) (f_in f) in
  modify (fun p => set_msg (p_len p) t p) ;;;
  if (f_remaining f =? 0) && f_final f then
    on_session (wsubus_rx_json e
      (if json_tokener_char_offset t =? strlen (f_in f) then Some jobj else None)) ;;;
    wsu_read_reset
  else
    when bool_decide (json_tokener_get_error t <> json_tokener_continue) do shutdown SHUT_RDWR.

(** Binary messages are not implemented. *)
Definition wsubus_rx_blob (f : fragment) : M wsu_peer unit := M_ret tt.

Definition wsubus_rx (e : env) (f : fragment) : M wsu_peer unit :=
  let len := strlen (f_in f) in
  let* p := get in
  (when (WSUBUS_MAX_MESSAGE_LEN <? len) || (WSUBUS_MAX_MESSAGE_LEN <? f_remaining f)
        || (WSUBUS_MAX_MESSAGE_LEN <? u64 (u64 (p_len p + len) + f_remaining f))
   do shutdown SHUT_RD) ;;;
  if f_binary f then wsubus_rx_blob f else wsubus_rx_json_part e f.

(** ** The server *)

(** The peers of the server, and the counters of [struct prog_context]. *)
Record server := Server {
  peers : gmap nat wsu_peer;
  num_active_ses : Z;
  req_max : Z;
}.

Definition wsu_peer_init (total_req_max : Z) (w : nat) (s : server) : server :=
  let n := u64 (num_active_ses s + 1) in
  Server (<[w := Peer 0 json_tokener_new session_init []]> (peers s)) n (recalc_req_max total_req_max n).

(** The reasons of the callback with what they come with: the Origin header of a
    handshake, a fragment, the results of [lws_write]. *)
Inductive wsubus_reason :=
  | FILTER_PROTOCOL (malloc_ok : bool) (len copied : Z) (origin : string) (vc : option vh_context)
  | ESTABLISHED
  | RECEIVE (f : fragment)
  | WRITEABLE (oracle : list (Z * bool))
  | CLOSED
  | PEER_INITIATED_CLOSE
  | OTHER_CALLBACK.

(** The environment of a step, with the limit of the server. *)
Definition with_limit (z : Z) (e : env) : env :=
  Env (e_acl e) (e_conn e) z (e_now e) (e_session e) (e_access e) (e_lookup e) (e_invoke e)
    (e_register e) (e_objects e) (e_lookup_list e) (e_on_writable e).

(** A step of one peer. *)
Definition on_peer {A} (w : nat) (m : M wsu_peer A) : M server A :=
  fun s => match peers s !! w with
           | None => None
           | Some p =>
               match m p with
               | Some (a, p') => Some (a, Server (<[w := p']> (peers s)) (num_active_ses s) (req_max s))
               | None => None
               end
           end.

(** [wsubus_tx_text] on the queue of the peer. *)
Definition tx_text (oracle : list (Z * bool)) : M wsu_peer Z :=
  let* p := get in
  let* r := deref (fun _ => wsubus_tx_text (write_q (p_sess p)) oracle) in
  let '(rc, _, q) := r in
  on_session (modify (set_write_q q)) ;;;
  (when rc <? 0 do shutdown SHUT_RDWR) ;;;
  M_ret rc.

Context `{Fnmatch}.

Definition wsubus_cb (total_req_max : Z) (e : env) (w : nat) (reason : wsubus_reason) : M server Z :=
  match reason with
  | FILTER_PROTOCOL malloc_ok len copied origin vc =>
      let* rc := deref (fun _ => wsubus_filter malloc_ok len copied origin vc) in
      M_ret (if negb (rc =? 0) then -1 else 0)
  | ESTABLISHED => modify (wsu_peer_init total_req_max w) ;;; M_ret 0
  | RECEIVE f =>
      let* limit := gets req_max in
      on_peer w (wsubus_rx (with_limit limit e) f) ;;; M_ret 0
  | WRITEABLE oracle => on_peer w (tx_text oracle)
  | CLOSED =>
      on_peer w (on_session wsu_peer_deinit) ;;;
      modify (fun s =>
        let n := u64 (num_active_ses s - 1) in
        Server (delete w (peers s)) n (recalc_req_max total_req_max n)) ;;; M_ret 0
  | PEER_INITIATED_CLOSE => M_ret 0
  | OTHER_CALLBACK => M_ret 0
  end.
End rx.

(** ** A message in fragments *)

Definition ends (f : fragment) : bool := (f_remaining f =? 0) && f_final f.

Fixpoint text (l : list fragment) : string :=
  match l with [] => "" | f :: rest => f_in f +:+ text rest end.

(** Fragments of one text message, up to one with something in it that ends the
    message ([final]) or not; at most [after] bytes are still to come. *)
Fixpoint message (final : bool) (after : Z) (l : list fragment) : Prop :=
  match l with
  | [] => False
  | f :: rest =>
      f_binary f = false /\
      match rest with
      | [] => ends f = final /\ f_in f <> "" /\ 0 <= f_remaining f <= after
      | _ => ends f = false /\ 0 <= f_remaining f <= strlen (text rest) + after /\ message final after rest
      end
  end.

Lemma strlen_app a b : strlen (a +:+ b) = strlen a + strlen b.
Proof. unfold strlen. rewrite str_app_length. lia. Qed.

Lemma strlen_nonneg a : 0 <= strlen a.
Proof. unfold strlen. lia. Qed.

Lemma message_text final after l : message final after l -> text l <> "".
Proof.
  induction l as [|f l IH]; [done|]. intros [_ Hm]. cbn [text]. destruct l as [|g l].
  - cbn [text]. rewrite str_app_nil_r. by destruct Hm as (_ & ? & _).
  - destruct Hm as (_ & _ & Hm). intros E. apply (IH Hm). apply (f_equal String.length) in E.
    rewrite str_app_length in E. change (String.length "") with 0%nat in E.
    destruct (text (g :: l)) as [|c r]; [done|]. change (String.length (String c r)) with (S (String.length r)) in E. lia.
Qed.

Section fragments.
Context `{AvlTree, JsonC, LibUbox, !JsonTokenerOps, !JsonTokener}.
Variable e : env.

(** The size checks of a fragment pass. *)
Lemma rx_sizes f n t s sh :
  0 <= n -> 0 <= f_remaining f -> n + strlen (f_in f) + f_remaining f <= WSUBUS_MAX_MESSAGE_LEN ->
  f_binary f = false ->
  wsubus_rx e f (Peer n t s sh) = wsubus_rx_json_part e f (Peer n t s sh).
Proof.
  intros Hn Hr Hle Hb. unfold wsubus_rx, M_bind, get. cbn [p_len]. pose proof (strlen_nonneg (f_in f)) as Hl.
  change WSUBUS_MAX_MESSAGE_LEN with (2 ^ 27) in *.
  rewrite (u64_small (n + strlen (f_in f))) by lia. rewrite u64_small by lia.
  rewrite !(proj2 (Z.ltb_ge _ _)) by lia. simpl. unfold M_ret. by rewrite Hb.
Qed.

Lemma rx_part f n t s sh :
  0 <= n -> n + strlen (f_in f) <= WSUBUS_MAX_MESSAGE_LEN ->
  wsubus_rx_json_part e f (Peer n t s sh) =
  let '(t', jobj) := json_tokener_parse_ex t (f_in f) in
  let p := Peer (n + strlen (f_in f)) t' s sh in
  if ends f then
    match wsubus_rx_json e (if json_tokener_char_offset t' =? strlen (f_in f) then Some jobj else None) s with
    | Some (_, s') => Some (tt, Peer 0 (json_tokener_reset t') s' sh)
    | None => None
    end
  else Some (tt, if decide (json_tokener_get_error t' = json_tokener_continue) then p
                 else Peer (n + strlen (f_in f)) t' s (sh ++ [SHUT_RDWR])).
Proof.
  intros Hn Hle. pose proof (strlen_nonneg (f_in f)) as Hl. change WSUBUS_MAX_MESSAGE_LEN with (2 ^ 27) in *.
  unfold wsubus_rx_json_part, M_bind, assert_, modify, get.
  rewrite (proj2 (Z.ltb_lt _ _)) by (unfold INT32_MAX; lia).
  cbn [set_msg p_len p_jtok p_sess p_shut]. rewrite u64_small by lia.
  destruct (json_tokener_parse_ex t (f_in f)) as [t' jobj]. unfold ends.
  destruct (_ && _).
  - unfold on_session. cbn [set_msg p_len p_jtok p_sess p_shut]. by destruct (wsubus_rx_json _ _ _) as [[??]|].
  - case_decide as Hd.
    + by rewrite bool_decide_eq_false_2 by (intros ?; done).
    + by rewrite bool_decide_eq_true_2.
Qed.

Lemma fragments_run final after l a t s sh obj :
  message final after l -> fed a t -> complete (a +:+ text l) obj -> 0 <= after ->
  strlen (a +:+ text l) + after <= WSUBUS_MAX_MESSAGE_LEN ->
  exists t', forM_ l (wsubus_rx e) (Peer (strlen a) t s sh) =
  if final then
    match wsubus_rx_json e (Some (JObject obj)) s with
    | Some (_, s') => Some (tt, Peer 0 json_tokener_new s' sh)
    | None => None
    end
  else Some (tt, Peer (strlen (a +:+ text l)) t' s (sh ++ [SHUT_RDWR])).
Proof.
  revert a t. induction l as [|f l IH]; intros a t Hm Hfed Hc Haft Hle; [done|].
  destruct Hm as [Hb Hm]. cbn [forM_]. unfold M_bind at 1.
  pose proof (strlen_nonneg a) as Ha. pose proof (strlen_nonneg (f_in f)) as Hf.
  cbn [text] in Hc, Hle |- *. rewrite !strlen_app in Hle.
  destruct l as [|g l].
  - destruct Hm as (Hend & Hne & Hrem). cbn [text] in Hc, Hle |- *. rewrite str_app_nil_r in Hc |- *.
    change (strlen "") with 0 in Hle. rewrite rx_sizes by (lia || done). rewrite rx_part by lia.
    destruct (feed_last a (f_in f) obj t Hc Hfed Hne) as (t' & -> & Ho & Herr). exists t'.
    rewrite Hend, Ho, Z.eqb_refl, reset_new. destruct final.
    + by destruct (wsubus_rx_json e (Some (JObject obj)) s) as [[??]|].
    + cbn -[strlen]. rewrite decide_False by congruence. rewrite strlen_app. done.
  - destruct Hm as (Hend & Hrem & Hm). pose proof (message_text _ _ _ Hm) as Hne.
    rewrite rx_sizes by (lia || done). rewrite rx_part by lia.
    destruct (feed_more a (f_in f) (text (g :: l)) obj t Hc Hfed Hne) as (t' & Hp & He).
    rewrite Hp. cbv zeta. rewrite Hend, decide_True by done. rewrite <- strlen_app, <- str_app_assoc. apply IH.
    + done.
    + by eapply fed_more.
    + by rewrite str_app_assoc.
    + done.
    + rewrite !strlen_app. lia.
Qed.
End fragments.

(** C25: a message does not depend on how it is cut.  A text that is one JSON
    object, in fragments of which the one with the last byte of the text ends the
    message, of at most the maximal length, has the effect on the session of the
    object arriving in one piece; the parser and the length are as for a new message
    afterwards, and the socket is left open.  If the fragment with the last byte does
    not end the message (another, be it empty, follows), the session sees nothing
    of the object and the socket is shut down. *)
Theorem fragments_reassembled `{AvlTree, JsonC, LibUbox, !JsonTokenerOps, !JsonTokener} (e : env)
    (final : bool) (after : Z) (l : list fragment) (obj : list (string * json)) (s : session) (sh : list shut) :
  message final after l -> complete (text l) obj -> 0 <= after ->
  strlen (text l) + after <= WSUBUS_MAX_MESSAGE_LEN ->
  exists t', forM_ l (wsubus_rx e) (Peer 0 json_tokener_new s sh) =
  if final then
    match wsubus_rx_json e (Some (JObject obj)) s with
    | Some (_, s') => Some (tt, Peer 0 json_tokener_new s' sh)
    | None => None
    end
  else Some (tt, Peer (strlen (text l)) t' s (sh ++ [SHUT_RDWR])).
Proof. intros Hm Hc Haft Hle. by apply (fragments_run e final after l "" json_tokener_new); [|apply fed_new|..]. Qed.

(** ** The sessions of the server *)

Section server.
Context `{AvlTree, JsonC, LibUbox, !JsonTokenerOps, !Fnmatch}.

(** The states of the server: the callback, and the steps the sessions take
    when ubus answers. *)
Inductive server_reach (total : Z) : server -> Prop :=
  | server_init : server_reach total (Server ∅ 0 0)
  | server_cb e w reason rc s s' :
      server_reach total s -> (reason = ESTABLISHED -> peers s !! w = None) ->
      wsubus_cb total e w reason s = Some (rc, s') -> server_reach total s'
  | server_session w p sess s :
      server_reach total s -> peers s !! w = Some p ->
      server_reach total (Server (<[w := Peer (p_len p) (p_jtok p) sess (p_shut p)]> (peers s))
                            (num_active_ses s) (req_max s)).

Definition counted (total : Z) (s : server) : Prop :=
  num_active_ses s = u64 (Z.of_nat (size (peers s))) /\
  (peers s <> ∅ -> req_max s = recalc_req_max total (num_active_ses s)).

Lemma size_replace (w : nat) (p q : wsu_peer) (m : gmap nat wsu_peer) :
  m !! w = Some p -> size (<[w := q]> m) = size m /\ m <> ∅.
Proof.
  intros Hw. split; [rewrite map_size_insert; by rewrite Hw|]. intros ->. by rewrite lookup_empty in Hw.
Qed.

Lemma on_peer_counted {A} total w (m : M wsu_peer A) s a s' :
  counted total s -> on_peer w m s = Some (a, s') -> counted total s' /\ is_Some (peers s !! w) /\ peers s' !! w <> None /\
    size (peers s') = size (peers s) /\ num_active_ses s' = num_active_ses s.
Proof.
  intros [Hn Hr]. unfold on_peer. destruct (peers s !! w) as [p|] eqn:E; [|done].
  destruct (m p) as [[? p']|]; [|done]. intros [= <- <-].
  destruct (size_replace w p p' _ E) as [Hs Hne]. unfold counted. simpl. rewrite Hs, lookup_insert_eq.
  split_and!; auto; done.
Qed.

Lemma wsubus_cb_counted total e w reason rc s s' :
  counted total s -> (reason = ESTABLISHED -> peers s !! w = None) ->
  wsubus_cb total e w reason s = Some (rc, s') -> counted total s'.
Proof.
  intros Hc Hw. destruct reason as [malloc_ok len copied origin vc| |f|oracle| | |];
    unfold wsubus_cb, M_bind, M_ret, modify, gets, deref; cbn beta iota.
  - destruct (wsubus_filter _ _ _ _ _); [|done]. by intros [= _ <-].
  - intros [= _ <-]. destruct Hc as [Hn _]. unfold counted, wsu_peer_init. simpl.
    rewrite map_size_insert, Hw by done. split; [|done]. rewrite Hn. unfold u64. rewrite Zplus_mod_idemp_l.
    f_equal. lia.
  - destruct (on_peer _ _ s) as [[? s1]|] eqn:E; [|done]. intros [= _ <-].
    by apply (on_peer_counted total) in E as [? _].
  - intros E. by apply (on_peer_counted total) in E as [? _].
  - destruct (on_peer _ _ s) as [[? s1]|] eqn:E; [|done]. intros [= _ <-].
    apply (on_peer_counted total) in E as (_ & _ & Hin & Hs & Hn); [|done]. destruct Hc as [Hn' _].
    destruct (peers s1 !! w) as [p|] eqn:Ew; [|done]. unfold counted. simpl. rewrite map_size_delete, Ew.
    assert (size (peers s1) <> 0%nat) as Hz.
    { intros Hz%map_size_empty_inv. rewrite Hz in Ew. by rewrite lookup_empty in Ew. }
    split; [|done]. rewrite Hn, Hn', <- Hs. unfold u64. rewrite Zminus_mod_idemp_l. f_equal. lia.
  - by intros [= _ <-].
  - by intros [= _ <-].
Qed.

Lemma server_counted total s : server_reach total s -> counted total s.
Proof.
  induction 1 as [|e w reason rc s s' _ IH Hw Hcb|w p sess s _ IH Hw].
  - by split.
  - by eapply wsubus_cb_counted.
  - destruct IH as [Hn Hr]. destruct (size_replace w p (Peer (p_len p) (p_jtok p) sess (p_shut p)) _ Hw) as [Hs Hne].
    unfold counted. simpl. rewrite Hs. auto.
Qed.
End server.

(** C26: the clients share the memory set aside for requests.  In every reachable
    state of the server, the number of sessions is the number of connected
    clients, and the limit per client is at most 512 and at least one for up to 1024
    clients; the limits of all clients together are at most 30000.  A message of a
    client whose counter is above the limit is dropped without an answer.  The
    counter may reach the limit and one more request is let in then, so that all
    clients together may have 30000 requests and one each. *)
Theorem sessions_share_budget `{AvlTree, JsonC, LibUbox, !JsonTokenerOps, !Fnmatch} (estimate : Z) (s : server) :
  server_reach (calculate_total_req_max estimate) s -> Z.of_nat (size (peers s)) < 2 ^ 64 ->
  num_active_ses s = Z.of_nat (size (peers s)) /\
  (peers s <> ∅ ->
   0 <= req_max s <= MAX_ASYNC_REQS /\
   Z.of_nat (size (peers s)) * (req_max s + 1) <= MAX_TOTAL_ASYNC_REQS + Z.of_nat (size (peers s)) /\
   (Z.of_nat (size (peers s)) <= 1024 -> 1 <= req_max s) /\
   (forall w p e blob, peers s !! w = Some p ->
     let e' := with_limit (req_max s) e in
     (req_max s < rpc_q_len (p_sess p) ->
        admitted e' (p_sess p) blob = None /\ wsu_on_msg_from_client e' blob (p_sess p) = Some (tt, p_sess p)) /\
     (rpc_q_len (p_sess p) <= req_max s ->
        forall z, rpc_q_len (p_sess p) <= u32 z ->
        admitted e' (p_sess p) blob = admitted (with_limit z e) (p_sess p) blob))).
Proof.
  intros [Hn Hr]%server_counted Hsz. rewrite u64_small in Hn by lia. split; [done|]. intros Hne.
  rewrite (Hr Hne), Hn.
  assert (0 < Z.of_nat (size (peers s))) as Hpos.
  { destruct (size (peers s)) eqn:E; [|lia]. by apply map_size_empty_inv in E. }
  destruct (request_budget estimate _ Hpos) as (_ & Hs & Ht & Hone). split_and!; [lia..|lia|auto|].
  intros w p e blob _ e'. assert (u32 (e_req_max e') = e_req_max e') as Hu.
  { apply u32_small. unfold e', MAX_ASYNC_REQS in *. simpl. lia. }
  unfold admitted, wsu_on_msg_from_client, M_bind, gets. rewrite Hu. unfold e'. cbn [with_limit e_req_max]. split.
  - intros Hq. by rewrite (proj2 (Z.ltb_lt _ _)).
  - intros Hq z Hz. by rewrite !(proj2 (Z.ltb_ge _ _)).
Qed.

(** ** The configured origins *)

Lemma origin_allowed_spec `{Fnmatch} l origin :
  origin_allowed l origin = true <-> exists p, p ∈ l /\ fnmatch p origin = true.
Proof.
  induction l as [|p l IH]; simpl.
  - split; [done|]. by intros (p & ?%elem_of_nil & _).
  - destruct (fnmatch p origin) eqn:E; [split; [|done]; intros _; exists p; set_solver|].
    rewrite IH. split; intros (q & Hq & Hf); exists q; [set_solver|].
    apply elem_of_cons in Hq as [->|Hq]; [congruence|done].
Qed.

(** C27: the configured origins decide who gets in.  On every vhost made from the
    configuration, a handshake with an Origin header is accepted exactly if the
    origin check of the port the vhost was made for is off or an origin configured
    for that port matches; an origin without wildcards matches itself, in upper or lower
    case.  A handshake without the header is accepted. *)
Theorem configured_origins_decide `{AvlTree, JsonC, LibUbox, !JsonTokenerOps, !Fnmatch}
    (lws_create_vhost : creation_info -> bool) (l : list vhinfo) (v : lws_vhost)
    (total : Z) (e : env) (w : nat) (s : server) (len copied : Z) (origin : string) :
  v ∈ (create_vhosts lws_create_vhost l).1.1 -> 0 < len -> 0 <= copied ->
  let handshake len := wsubus_cb total e w (FILTER_PROTOCOL true len copied origin (Some (v_ctx v))) s in
  handshake 0 = Some (0, s) /\
  exists c n, c ∈ l /\ v = port_vhost c n /\ ci_port (v_info v) = ci_port (vh_info c) /\
    let accepts := restrict_origins (vh_ctx c) = false \/
                   exists p, p ∈ vc_origins (vh_ctx c) /\ fnmatch p origin = true in
    (accepts -> handshake len = Some (0, s)) /\ (~ accepts -> handshake len = Some (-1, s)) /\
    (forall p, p ∈ vc_origins (vh_ctx c) -> plain p -> lower p = lower origin -> handshake len = Some (0, s)).
Proof.
  intros Hv Hlen Hcopied handshake. split; [done|].
  apply vhost_of_port in Hv as (c & n & Hc & -> & _). exists c, n. split; [done|]. split; [done|].
  split; [unfold port_vhost, ask_cert; by destruct (ci_ca (vh_info c))|].
  assert (handshake len = Some (if restrict_origins (vh_ctx c) && negb (origin_allowed (vc_origins (vh_ctx c)) origin)
                                then -1 else 0, s)) as Hh.
  { unfold handshake, wsubus_cb, M_bind, deref, wsubus_filter. cbn [port_vhost v_ctx].
    rewrite (proj2 (Z.leb_le 0 len)), (proj2 (Z.eqb_neq len 0)), (proj2 (Z.ltb_ge copied 0)) by lia.
    simpl. by destruct (_ && _). }
  rewrite Hh. pose proof (origin_allowed_spec (vc_origins (vh_ctx c)) origin) as Ha.
  assert (restrict_origins (vh_ctx c) = false \/ (exists p, p ∈ vc_origins (vh_ctx c) /\ fnmatch p origin = true) ->
    restrict_origins (vh_ctx c) && negb (origin_allowed (vc_origins (vh_ctx c)) origin) = false) as Hok.
  { intros [->|Hp%Ha]; [done|]. by rewrite Hp, andb_false_r. }
  cbv zeta. split_and!.
  - intros Hacc. by rewrite (Hok Hacc).
  - intros Hn. destruct (restrict_origins (vh_ctx c)) eqn:Er; [|naive_solver].
    destruct (origin_allowed _ _) eqn:Eo; [|done]. destruct Hn. right. by apply Ha.
  - intros p Hp Hpl Hl. rewrite Hok; [done|]. right. exists p. split; [done|]. by apply fnmatch_plain.
Qed.

(** ** Instances *)

Program Definition ref_fnmatch : Fnmatch := {|
  fnmatch p s := bool_decide (lower p = lower s);
|}.
Next Obligation. intros p s _. by rewrite bool_decide_eq_true. Qed.

(** A parser that knows one text. *)
Record ref_tok := RefTok { tok_text : string; tok_offset : Z }.

Definition ref_parse_ex (t : ref_tok) (s : string) : ref_tok * json :=
  let all := tok_text t +:+ s in
  (RefTok all (strlen s), if decide (all = "{}") then JObject [] else JNull).

Definition ref_tokener_ops : JsonTokenerOps := {|
  jtok := ref_tok;
  json_tokener_new := RefTok "" 0;
  json_tokener_parse_ex := ref_parse_ex;
  json_tokener_get_error t :=
    if decide (tok_text t = "{}") then json_tokener_success else json_tokener_continue;
  json_tokener_char_offset := tok_offset;
  json_tokener_reset _ := RefTok "" 0;
|}.

Lemma ref_fed a t : @fed ref_tokener_ops a t -> tok_text t = a.
Proof.
  induction 1 as [|a t b t' _ IH Hp _]; [done|]. cbn in Hp. unfold ref_parse_ex in Hp. cbv zeta in Hp.
  case_decide; simplify_eq. done.
Qed.

Lemma ref_complete text l : @complete ref_tokener_ops text l -> text = "{}" /\ l = [].
Proof. intros (t & Hp & _). cbn in Hp. unfold ref_parse_ex in Hp. cbv zeta in Hp. by case_decide; simplify_eq. Qed.

Lemma ref_tokener : @JsonTokener ref_tokener_ops.
Proof.
  split.
  - done.
  - intros a b c l t [Htext ->]%ref_complete <-%ref_fed Hc. cbn. unfold ref_parse_ex. cbv zeta.
    assert (tok_text t +:+ b <> "{}") as Hne.
    { intros Heq. rewrite <- str_app_assoc, Heq in Htext. apply (f_equal String.length) in Htext.
      rewrite str_app_length in Htext. destruct c; [done|]. simpl in Htext. lia. }
    eexists. rewrite decide_False by done. split; [done|]. simpl. by rewrite decide_False.
  - intros a b l t [Htext ->]%ref_complete <-%ref_fed Hb. cbn. unfold ref_parse_ex. cbv zeta.
    eexists. rewrite decide_True by done. split_and!; [done|done|]. simpl. by rewrite decide_True.
Qed.

Lemma fragments_reassembled_witness :
  let l := [Fragment "{" 1 true false; Fragment "}" 0 true false] in
  let peer := @Peer ref_tokener_ops 0 (RefTok "" 0) session_init [] in
  exists t : @jtok ref_tokener_ops,
  forM_ l (wsubus_rx (H := list_avl) (H0 := ref_jsonc) (H1 := ref_libubox) (H2 := ref_tokener_ops) quiet_env) peer =
  match wsubus_rx_json (H := list_avl) (H0 := ref_jsonc) (H1 := ref_libubox) quiet_env (Some (JObject [])) session_init with
  | Some (_, s') => Some (tt, @Peer ref_tokener_ops 0 (RefTok "" 0) s' [])
  | None => None
  end.
Proof.
  apply (@fragments_reassembled list_avl ref_jsonc ref_libubox ref_tokener_ops ref_tokener quiet_env true 0
    [Fragment "{" 1 true false; Fragment "}" 0 true false] [] session_init []).
  - by repeat split.
  - eexists. by split.
  - done.
  - by vm_compute.
Defined.

(** The same object, with an empty last frame. *)
Example empty_last_frame_drops :
  let l := [Fragment "{}" 0 false false; Fragment "" 0 true false] in
  exists p, forM_ l (wsubus_rx (H := list_avl) (H0 := ref_jsonc) (H1 := ref_libubox) (H2 := ref_tokener_ops) quiet_env)
    (@Peer ref_tokener_ops 0 (RefTok "" 0) session_init []) = Some (tt, p) /\ p_shut p = [SHUT_RDWR].
Proof. eexists. split; vm_compute; reflexivity. Qed.

Definition one_peer : @server ref_tokener_ops :=
  wsu_peer_init (H2 := ref_tokener_ops) (calculate_total_req_max 20000) 1%nat (Server ∅ 0 0).

(** With 59 clients the limit is 508: 59 times 509 requests may be let in. *)
Example budget_of_59 :
  recalc_req_max (calculate_total_req_max 40000) 59 = 508 /\ MAX_TOTAL_ASYNC_REQS < 59 * (508 + 1).
Proof. by vm_compute. Qed.

Lemma sessions_share_budget_witness :
  num_active_ses one_peer = 1 /\ 1 * (req_max one_peer + 1) <= MAX_TOTAL_ASYNC_REQS + 1 /\ 1 <= req_max one_peer.
Proof.
  destruct (@sessions_share_budget list_avl ref_jsonc ref_libubox ref_tokener_ops ref_fnmatch 20000 one_peer)
    as [Hn Hb].
  - by eapply (server_cb _ quiet_env 1%nat ESTABLISHED 0 (Server ∅ 0 0)); [apply server_init|..].
  - by vm_compute.
  - destruct Hb as (_ & Ht & Hone & _); [done|]. split; [exact Hn|]. split; [exact Ht|by apply Hone].
Defined.

Lemma configured_origins_decide_witness :
  let v := port_vhost (port_vhinfo lan_port None) "default" in
  let handshake len := wsubus_cb (H := list_avl) (H0 := ref_jsonc) (H1 := ref_libubox) (H2 := ref_tokener_ops)
    (H3 := ref_fnmatch) 1024 quiet_env 1%nat (FILTER_PROTOCOL true len 20 "https://ROUTER.lan" (Some (v_ctx v))) (Server ∅ 0 0) in
  handshake 0 = Some (0, Server ∅ 0 0) /\
  exists c n, c ∈ [port_vhinfo lan_port None] /\ v = port_vhost c n /\ ci_port (v_info v) = ci_port (vh_info c) /\
    let accepts := restrict_origins (vh_ctx c) = false \/
                   exists p, p ∈ vc_origins (vh_ctx c) /\ fnmatch (Fnmatch := ref_fnmatch) p "https://ROUTER.lan" = true in
    (accepts -> handshake 18 = Some (0, Server ∅ 0 0)) /\ (~ accepts -> handshake 18 = Some (-1, Server ∅ 0 0)) /\
    (forall p, p ∈ vc_origins (vh_ctx c) -> plain p -> lower p = lower "https://ROUTER.lan" ->
       handshake 18 = Some (0, Server ∅ 0 0)).
Proof.
  apply (@configured_origins_decide list_avl ref_jsonc ref_libubox ref_tokener_ops ref_fnmatch (fun _ => true)
    [port_vhinfo lan_port None] (port_vhost (port_vhinfo lan_port None) "default")).
  - rewrite create_vhosts_made. apply list_elem_of_filter. split; [done|]. by left.
  - done.
  - done.
Defined.
