(* ===== verification/DBusRpc.v ===== *)
(** * Calls and lists on D-Bus

    rpc_call_dbus.h, rpc_list_dbus.c and the choice of the bus in rpc_call.c and
    rpc_list.c, for a build with ubus and D-Bus.  The contexts of requests on
    D-Bus are linked in the queue of the client session next to those of ubus;
    here they are two more maps from pointers, beside the session of Session.v.
    libdbus keeps the calls that wait for a reply, each with the callback and
    the context it was given; replies come as arguments of the callbacks.
    Documents are trees of libxml2; its parser is a parameter. *)

From Stdlib Require Import Ascii.
From stdpp Require Import base list strings numbers sets gmap.
From S2P Require Import Prelude CStrings Avl Patterns Libs UbusxAcl Rpc PeerIO AccessCheck Session.
From S2P Require Import DBus.

Local Arguments strcmp : simpl never.

(** ** What is sent and what waits *)

(** A method call on D-Bus, with the operations that appended its arguments. *)
Record dbus_call := DbusCall {
  dc_service : string;
  dc_path : string;
  dc_interface : string;
  dc_method : string;
  dc_args : list dbus_op;
}.

Definition DBUS_INTERFACE_INTROSPECTABLE : string := "org.freedesktop.DBus.Introspectable".
Definition DBUS_SERVICE_DBUS : string := "org.freedesktop.DBus".
Definition DBUS_PATH_DBUS : string := "/org/freedesktop/DBus".
Definition DBUS_ERROR_SERVICE_UNKNOWN : string := "org.freedesktop.DBus.Error.ServiceUnknown".

(** [struct wsd_call_ctx]: [retbuf] is filled and used in one callback. *)
Record wsd_call_ctx := WsdCall {
  wc_id : option attr;
  wc_args : ubusrpc_blob;
  wc_call_req : option nat;
}.

Record introspection_target := Target { t_service : string; t_path : string }.

(** [struct wsd_list_ctx]: [introspectables] is [None] while the list head is
    zeroed memory that was not initialised. *)
Record wsd_list_ctx := WsdList {
  wl_id : option attr;
  wl_retbuf : list attr;
  wl_list_reply : bool;
  wl_call_req : option nat;
  introspectables : option (list introspection_target);
}.

(** The callback of a pending call, with its context. *)
Inductive notify :=
  | Call_cb (p : nat)
  | List_cb (p : nat)
  | Introspect_cb (p : nat).

Record dbus_rpc := DbusRpc {
  d_sess : session;
  d_calls : gmap nat wsd_call_ctx;
  d_lists : gmap nat wsd_list_ctx;
  d_pending : gmap nat notify;
  d_next_call : nat;
  d_bus : list dbus_call;
}.

Definition set_sess s d := DbusRpc s (d_calls d) (d_lists d) (d_pending d) (d_next_call d) (d_bus d).
Definition set_dcalls m d := DbusRpc (d_sess d) m (d_lists d) (d_pending d) (d_next_call d) (d_bus d).
Definition set_dlists m d := DbusRpc (d_sess d) (d_calls d) m (d_pending d) (d_next_call d) (d_bus d).
Definition set_dpending m d := DbusRpc (d_sess d) (d_calls d) (d_lists d) m (d_next_call d) (d_bus d).
Definition set_dbus l d := DbusRpc (d_sess d) (d_calls d) (d_lists d) (d_pending d) (d_next_call d) l.

(** A step of the session. *)
Definition on_sess {A} (m : M session A) : M dbus_rpc A :=
  fun d => match m (d_sess d) with
           | Some (a, s) => Some (a, set_sess s d)
           | None => None
           end.

(** ** The queue of requests

    The requests of both buses are linked in one list.  [list_del] and
    [list_add_tail] write to the neighbours of an element, so they need them to
    be allocated still; one that was freed while linked is left in the list. *)

Definition on_heap (d : dbus_rpc) (p : nat) : Prop :=
  is_Some (d_calls d !! p) \/ is_Some (d_lists d !! p) \/
  is_Some (calls (d_sess d) !! p) \/ is_Some (subs (d_sess d) !! p).

(** The elements before and after [p]; [prev] is before the list. *)
Fixpoint beside (prev : option nat) (p : nat) (q : list nat) : list nat :=
  match q with
  | [] => []
  | x :: rest => if decide (x = p) then option_list prev ++ option_list (head rest)
                 else beside (Some x) p rest
  end.

Definition linked (d : dbus_rpc) (p : nat) : Prop :=
  p ∈ rpc_call_q (d_sess d) /\ on_heap d p /\ Forall (on_heap d) (beside None p (rpc_call_q (d_sess d))).
Definition can_link (d : dbus_rpc) (p : nat) : Prop :=
  Forall (fun x => x <> p /\ on_heap d x) (option_list (last (rpc_call_q (d_sess d)))).

#[export] Instance on_heap_dec d p : Decision (on_heap d p).
Proof. unfold on_heap. apply _. Defined.
#[export] Instance linked_dec d p : Decision (linked d p).
Proof. unfold linked. apply _. Defined.
#[export] Instance can_link_dec d p : Decision (can_link d p).
Proof. unfold can_link. apply _. Defined.

(** [list_del(&ctx->cq)]. *)
Definition list_unlink (p : nat) : M dbus_rpc unit :=
  let* d := get in
  assert_ (bool_decide (linked d p)) ;;;
  on_sess (modify (fun s => set_call_q (list_del p (rpc_call_q s)) s)).

(** [list_add_tail(&ctx->cq, &client->rpc_call_q)]. *)
Definition list_link (p : nat) : M dbus_rpc unit :=
  let* d := get in
  assert_ (bool_decide (can_link d p)) ;;;
  on_sess (modify (fun s => set_call_q (rpc_call_q s ++ [p]) s)).

(** What the libraries answer: [dbus_message_new_method_call] is not NULL (the
    names and the method are valid), the reply to the blocking lookup, and what
    [dbus_connection_send_with_reply] does: it fails, succeeds without a pending
    call (the connection is closed), or a reply will come. *)
Inductive lookup_result := Lookup_reply | Lookup_error (name : string) | Lookup_none.
Inductive send_result := Send_failed | Send_no_call | Send_pending.

Record denv := DEnv {
  d_valid_name : string -> bool;
  d_new_call : string -> string -> string -> string -> bool;
  d_lookup : string -> string -> lookup_result;
  d_send : send_result;
}.

(** The pending call of a message that was sent. *)
Definition send_pending (c : dbus_call) (n : notify) : M dbus_rpc nat :=
  fun d => Some (d_next_call d,
    DbusRpc (d_sess d) (d_calls d) (d_lists d) (<[d_next_call d := n]> (d_pending d))
      (S (d_next_call d)) (d_bus d ++ [c])).

(** libdbus takes the reply of a pending call and calls its callback. *)
Definition steal (k : nat) : M dbus_rpc unit := modify (fun d => set_dpending (delete k (d_pending d)) d).

(** ** Documents *)

(** A node of a document: an element, or a node of another type with its name. *)
Inductive xml :=
  | XElem (name : string) (props : list (string * string)) (children : list xml)
  | XOther (name : string).

Definition xml_name (x : xml) : string := match x with XElem n _ _ | XOther n => n end.
Definition xml_is_elem (x : xml) : bool := match x with XElem _ _ _ => true | XOther _ => false end.
Definition xml_children (x : xml) : list xml := match x with XElem _ _ l => l | XOther _ => [] end.

Definition named (x : xml) (name : string) : bool := strcmp (xml_name x) name =? 0.

(** [xmlGetProp]: the value of the first attribute with the name. *)
Fixpoint prop_lookup (l : list (string * string)) (name : string) : option string :=
  match l with
  | [] => None
  | (n, v) :: l' => if strcmp n name =? 0 then Some v else prop_lookup l' name
  end.
Definition xmlGetProp (x : xml) (name : string) : option string :=
  match x with XElem _ ps _ => prop_lookup ps name | XOther _ => None end.

(** The type code of a character. *)
Definition dbus_type_of (c : ascii) : dbus_type :=
  match c with
  | "y"%char => DBUS_TYPE_BYTE | "b"%char => DBUS_TYPE_BOOLEAN
  | "n"%char => DBUS_TYPE_INT16 | "q"%char => DBUS_TYPE_UINT16
  | "i"%char => DBUS_TYPE_INT32 | "u"%char => DBUS_TYPE_UINT32
  | "x"%char => DBUS_TYPE_INT64 | "t"%char => DBUS_TYPE_UINT64
  | "d"%char => DBUS_TYPE_DOUBLE | "s"%char => DBUS_TYPE_STRING
  | "o"%char => DBUS_TYPE_OBJECT_PATH | "g"%char => DBUS_TYPE_SIGNATURE
  | "h"%char => DBUS_TYPE_UNIX_FD | "a"%char => DBUS_TYPE_ARRAY
  | "v"%char => DBUS_TYPE_VARIANT | "r"%char => DBUS_TYPE_STRUCT
  | "e"%char => DBUS_TYPE_DICT_ENTRY
  | _ => DBUS_TYPE_INVALID
  end.

(** ** The description of an object *)

Section introspection.
Context `{LibDbus}.

(** The type of an argument: [None] when the second character is read past the
    end of an empty text. *)
Definition arg_ubus_type (arg_type : string) : option blobmsg_type :=
  match arg_type with
  | EmptyString => None
  | String c EmptyString => Some (duconv_type_dbus_to_ubus (dbus_type_of c) DBUS_TYPE_INVALID)
  | String c (String c' _) => Some (duconv_type_dbus_to_ubus (dbus_type_of c) (dbus_type_of c'))
  end.

(** The arguments of a method or signal: [q] is the table that is open, if one
    is. *)
Fixpoint member_args (is_method : bool) (args : list xml) (q : option (list attr))
  : option (option (list attr)) :=
  match args with
  | [] => Some q
  | arg :: rest =>
      if negb (named arg "arg") then member_args is_method rest q
      else match xmlGetProp arg "type" with
      | None => member_args is_method rest q
      | Some arg_type =>
          let arg_is_out := is_method && match xmlGetProp arg "direction" with
                                         | Some dir => strcmp dir "out" =? 0
                                         | None => false
                                         end in
          match (if is_method then Some (default [] q) else q) with
          | None => member_args is_method rest None
          | Some l =>
              if arg_is_out then member_args is_method rest (Some l)
              else
                t ← arg_ubus_type arg_type;
                typestr ← blobmsg_type_to_str t;
                member_args is_method rest
                  (Some (l ++ [(default "" (xmlGetProp arg "name"), BString (default "unknown" typestr))]))
          end
      end
  end.

(** What the members of an interface add to its table: a property adds nothing. *)
Fixpoint interface_members (l : list xml) : option (list attr) :=
  match l with
  | [] => Some []
  | member :: rest =>
      let is_method := named member "method" in
      if negb (xml_is_elem member) ||
         negb (is_method || named member "signal" || named member "property")
      then interface_members rest
      else match xmlGetProp member "name" with
      | None => interface_members rest
      | Some m_name =>
          q ← (if is_method || named member "signal" then member_args is_method (xml_children member) None
               else Some None);
          rest' ← interface_members rest;
          Some (match q with Some args => (m_name, BTable args) :: rest' | None => rest' end)
      end
  end.

(** The path of an object below [path], which is not empty. *)
Definition ends_with_slash (path : string) : bool :=
  bool_decide (last (chars path) = Some "/"%char).
Definition sub_path (path node_name : string) : string :=
  path +:+ (if ends_with_slash path then "" else "/") +:+ node_name.

(** The nodes of a document: the objects below are to be introspected later,
    and the interface that is named like the object adds its table. *)
Fixpoint introspect_nodes (cur : introspection_target) (name : option string) (l : list xml)
  : option (list introspection_target * list attr) :=
  match l with
  | [] => Some ([], [])
  | subnode :: rest =>
      if negb (xml_is_elem subnode) then introspect_nodes cur name rest
      else if named subnode "node" then
        match xmlGetProp subnode "name" with
        | None => introspect_nodes cur name rest
        | Some node_name =>
            r ← introspect_nodes cur name rest;
            Some (Target (t_service cur) (sub_path (t_path cur) node_name) :: r.1, r.2)
        end
      else match name with
      | None => introspect_nodes cur name rest
      | Some n =>
          if negb (named subnode "interface") then introspect_nodes cur name rest
          else match xmlGetProp subnode "name" with
          | None => introspect_nodes cur name rest
          | Some iface_name =>
              if match duconv_name_dbus_name_to_ubus iface_name with
                 | Some n' => strcmp n' n =? 0
                 | None => false
                 end
              then
                ms ← interface_members (xml_children subnode);
                r ← introspect_nodes cur name rest;
                Some (r.1, (n, BTable ms) :: r.2)
              else introspect_nodes cur name rest
          end
      end
  end.
End introspection.

(** ** Lists (rpc_list_dbus.c) *)

Section rpc.
Context `{AvlTree, JsonC, LibUbox, !LibDbus}.
Variable e : env.
Variable de : denv.
Variable blob_data_attrs : attr -> list attr.
(** The root element of a document: [None] when it is malformed. *)
Variable xmlParseMemory : string -> option xml.

Definition wsd_list_ctx_free (p : nat) : M dbus_rpc unit :=
  let* _ := deref (fun d => d_lists d !! p) in
  modify (fun d => set_dlists (delete p (d_lists d)) d).

Definition with_list (p : nat) (f : wsd_list_ctx -> wsd_list_ctx) : M dbus_rpc unit :=
  let* c := deref (fun d => d_lists d !! p) in
  modify (fun d => set_dlists (<[p := f c]> (d_lists d)) d).

Definition wl_set_req r c :=
  WsdList (wl_id c) (wl_retbuf c) (wl_list_reply c) r (introspectables c).
Definition wl_set_targets l c :=
  WsdList (wl_id c) (wl_retbuf c) (wl_list_reply c) (wl_call_req c) (Some l).
Definition wl_set_reply c :=
  WsdList (wl_id c) (wl_retbuf c) true (wl_call_req c) (introspectables c).
Definition wl_add l c :=
  WsdList (wl_id c) (wl_retbuf c ++ l) (wl_list_reply c) (wl_call_req c) (introspectables c).

(** The reply of "ListNames" holds the context: it goes with it. *)
Definition wsd_list_ctx_cancel_and_destroy (p : nat) : M dbus_rpc unit :=
  let* c := deref (fun d => d_lists d !! p) in
  match wl_call_req c with Some k => steal k | None => M_ret tt end ;;;
  let* _ := deref (fun _ => introspectables c) in
  wsd_list_ctx_free p.

(** A failed send leaves [introspect_call] unset, and it is used. *)
Definition introspect_list_next (p : nat) : M dbus_rpc unit :=
  let* c := deref (fun d => d_lists d !! p) in
  let* l := deref (fun _ => introspectables c) in
  let* cur := deref (fun _ => head l) in
  assert_ (d_new_call de (t_service cur) (t_path cur) DBUS_INTERFACE_INTROSPECTABLE "Introspect") ;;;
  match d_send de with
  | Send_failed => abort
  | Send_no_call =>
      assert_ (bool_decide (wl_call_req c = None))
  | Send_pending =>
      let* k := send_pending (DbusCall (t_service cur) (t_path cur) DBUS_INTERFACE_INTROSPECTABLE
                                "Introspect" []) (Introspect_cb p) in
      assert_ (bool_decide (wl_call_req c = None)) ;;;
      with_list p (wl_set_req (Some k))
  end.

Definition introspect_list_finish (p : nat) : M dbus_rpc unit :=
  let* c := deref (fun d => d_lists d !! p) in
  on_sess (queue_str e (jsonrpc__resp_ubus (wl_id c) 0 (Some ("", BTable (wl_retbuf c))))) ;;;
  list_unlink p ;;;
  wsd_list_ctx_free p.

(** The next target, or the answer. *)
Definition list_continue (p : nat) : M dbus_rpc unit :=
  let* c := deref (fun d => d_lists d !! p) in
  let* l := deref (fun _ => introspectables c) in
  match l with
  | [] => introspect_list_finish p
  | _ :: _ => introspect_list_next p
  end.

(** The description of an object in a reply: what it adds, and what is below. *)
Definition introspect_reply (cur : introspection_target) (reply : dbus_message)
  : option (list introspection_target * list attr) :=
  if negb (check_reply_and_make_error reply (Some "s")).1 then Some ([], [])
  else
    root ← xmlParseMemory (dbus_message_iter_get_text (msg_args reply));
    match root with
    | XElem name _ ((_ :: _) as nodes) =>
        if strcmp name "node" =? 0
        then introspect_nodes cur (duconv_name_dbus_path_to_ubus (t_path cur)) nodes
        else Some ([], [])
    | _ => Some ([], [])
    end.

Definition wsd_introspect_cb (k p : nat) (reply : dbus_message) : M dbus_rpc unit :=
  steal k ;;;
  let* c := deref (fun d => d_lists d !! p) in
  assert_ (bool_decide (wl_call_req c = Some k)) ;;;
  with_list p (wl_set_req None) ;;;
  let* l := deref (fun _ => introspectables c) in
  let* cur := deref (fun _ => head l) in
  let* r := deref (fun _ => introspect_reply cur reply) in
  with_list p (fun c => wl_add r.2 (wl_set_targets (tail l ++ r.1) c)) ;;;
  list_continue p.

(** The services of a list of names, less the unique names of connections. *)
Fixpoint list_services (it : list dvalue) : list introspection_target :=
  match it with
  | [] => []
  | _ :: rest =>
      if decide (dbus_message_iter_get_arg_type it = DBUS_TYPE_INVALID) then []
      else
        let service := dbus_message_iter_get_text it in
        if starts_with ":" service then list_services rest
        else Target service WSD_DBUS_OBJECTS_PATH :: list_services rest
  end.

Definition wsd_list_cb (k p : nat) (reply : dbus_message) : M dbus_rpc unit :=
  steal k ;;;
  let* c := deref (fun d => d_lists d !! p) in
  assert_ (bool_decide (wl_call_req c = Some k)) ;;;
  with_list p (fun c => wl_set_reply (wl_set_req None c)) ;;;
  match check_reply_and_make_error reply (Some "as") with
  | (false, data) =>
      with_list p (wl_add (match data with Some l => [("data", BTable l)] | None => [] end)) ;;;
      let* c := deref (fun d => d_lists d !! p) in
      let* first := deref (fun _ => head (wl_retbuf c)) in
      on_sess (queue_str e (jsonrpc__resp_error (wl_id c) JSONRPC_ERRORCODE__OTHER (Some first))) ;;;
      wsd_list_ctx_free p
  | (true, _) =>
      with_list p (wl_set_targets (list_services (dbus_message_iter_recurse (msg_args reply)))) ;;;
      list_continue p
  end.

(** [p] is the request that [ubusrpc_handle_list] allocated. *)
Definition handle_list_dbus (p : nat) : M dbus_rpc Z :=
  if negb (d_new_call de DBUS_SERVICE_DBUS DBUS_PATH_DBUS DBUS_SERVICE_DBUS "ListNames") then M_ret (-1)
  else match d_send de with
  | Send_failed | Send_no_call => M_ret (-1)
  | Send_pending =>
      let* k := send_pending (DbusCall DBUS_SERVICE_DBUS DBUS_PATH_DBUS DBUS_SERVICE_DBUS "ListNames" [])
                  (List_cb p) in
      with_list p (wl_set_req (Some k)) ;;;
      list_link p ;;;
      M_ret 0
  end.

(** [handle_list_ubus] without output: the objects it adds to the request. *)
Definition list_ubus_quiet : M session (list attr) :=
  let* l := deref (fun s => list_objects (e_acl e) (peer_sid s) (e_objects e)) in
  dec_q_len ;;;
  M_ret l.

(** [ubusrpc_handle_list]: ubus first, then D-Bus.  The id is copied without
    looking whether there is one. *)
Definition handle_list (id : option attr) : M dbus_rpc Z :=
  let* p := on_sess alloc in
  let* _ := deref (fun _ => id) in
  let* l := on_sess list_ubus_quiet in
  modify (fun d => set_dlists (<[p := WsdList id l false None None]> (d_lists d)) d) ;;;
  let* _ := handle_list_dbus p in
  M_ret 0.

(** ** Calls (rpc_call_dbus.h) *)

(** The arguments appended to the message, until one cannot be converted. *)
Fixpoint append_args (l : list attr) : option (list dbus_op) :=
  match l with
  | [] => Some []
  | cur_arg :: rest =>
      let '(t, ops) := duconv_msg_ubus_to_dbus blob_data_attrs true cur_arg None in
      if decide (t = DBUS_TYPE_INVALID) then None
      else ops' ← append_args rest; Some (ops ++ ops')
  end.

Definition wsd_call_ctx_free (p : nat) : M dbus_rpc unit :=
  let* _ := deref (fun d => d_calls d !! p) in
  modify (fun d => set_dcalls (delete p (d_calls d)) d).

(** The context of a call that is cancelled stays allocated. *)
Definition wsd_call_ctx_cancel_and_destroy (p : nat) : M dbus_rpc unit :=
  let* c := deref (fun d => d_calls d !! p) in
  match wc_call_req c with
  | Some k => steal k
  | None => wsd_call_ctx_free p
  end.

(** The values of a reply, as unnamed attributes. *)
Fixpoint reply_values (it : list dvalue) : list attr :=
  match it with
  | [] => []
  | _ :: rest =>
      if decide (dbus_message_iter_get_arg_type it = DBUS_TYPE_INVALID) then []
      else (duconv_msg_dbus_to_ubus it "").2 ++ reply_values rest
  end.

(** The text of the answer to a call; a reply is a return or an error. *)
Definition call_response (id : option attr) (reply : dbus_message) : option string :=
  match check_reply_and_make_error reply None with
  | (false, None) => None
  | (false, Some data) => Some (jsonrpc__resp_error id JSONRPC_ERRORCODE__OTHER (Some ("data", BTable data)))
  | (true, _) =>
      Some (jsonrpc__resp_ubus id 0
        (Some ("", BTable [(msg_signature reply, BArray (reply_values (msg_args reply)))])))
  end.

Definition wsd_call_cb (k p : nat) (reply : dbus_message) : M dbus_rpc unit :=
  steal k ;;;
  let* c := deref (fun d => d_calls d !! p) in
  assert_ (bool_decide (wc_call_req c = Some k)) ;;;
  let* text := deref (fun _ => call_response (wc_id c) reply) in
  on_sess (queue_str e text) ;;;
  modify (fun d => set_dcalls (<[p := WsdCall (wc_id c) (wc_args c) None]> (d_calls d)) d) ;;;
  list_unlink p ;;;
  wsd_call_ctx_cancel_and_destroy p.

(** The call with its arguments, sent; without a pending call the message is
    unreferenced twice. *)
Definition send_call (c : dbus_call) (r : ubusrpc_blob) (id : option attr) : M dbus_rpc Z :=
  match d_send de with
  | Send_failed => M_ret (-1)
  | Send_no_call => abort
  | Send_pending =>
      let* p := on_sess alloc in
      let* k := send_pending c (Call_cb p) in
      modify (fun d => set_dcalls (<[p := WsdCall id r (Some k)]> (d_calls d)) d) ;;;
      list_link p ;;;
      M_ret 0
  end.

(** The blocking call of the method on "/lookup": is the service unknown?  A
    message that cannot be made is passed on as NULL, which libdbus does not
    take. *)
Definition lookup_unknown (name method : string) : M dbus_rpc bool :=
  assert_ (d_new_call de name "/lookup" name method) ;;;
  modify (fun d => set_dbus (d_bus d ++ [DbusCall name "/lookup" name method []]) d) ;;;
  M_ret (match d_lookup de name method with
         | Lookup_error err => strcmp err DBUS_ERROR_SERVICE_UNKNOWN =? 0
         | _ => false
         end).

Definition handle_call_dbus (r : ubusrpc_blob) (id : option attr) : M dbus_rpc Z :=
  match rpc_args_of r with
  | CallArgs object method params =>
      match duconv_name_ubus_to_dbus_name object with
      | None => M_ret (-1)
      | Some name =>
          if negb (d_valid_name de name) then M_ret (-1)
          else
            let path := duconv_name_ubus_to_dbus_path object in
            let* unknown := lookup_unknown name method in
            if unknown then M_ret 1
            else if negb (d_new_call de name path name method) then M_ret (-1)
            else match append_args params with
            | None => M_ret (-1)
            | Some ops => send_call (DbusCall name path name method ops) r id
            end
      end
  | _ => abort
  end.

(** [ubusrpc_handle_call]: D-Bus first, then ubus. *)
Definition handle_call (r : ubusrpc_blob) (id : option attr) : M dbus_rpc Z :=
  let* ret := handle_call_dbus r id in
  if ret =? 0 then M_ret ret else on_sess (handle_call_ubus e r id).

(** ** Replies and the end of a session *)

(** libdbus dispatches the reply of a pending call. *)
Definition dbus_reply (k : nat) (reply : dbus_message) : M dbus_rpc unit :=
  let* n := deref (fun d => d_pending d !! k) in
  match n with
  | Call_cb p => wsd_call_cb k p reply
  | List_cb p => wsd_list_cb k p reply
  | Introspect_cb p => wsd_introspect_cb k p reply
  end.

(** [cancel_and_destroy] of an element of [rpc_call_q]. *)
Definition cancel_request (p : nat) : M dbus_rpc unit :=
  let* d := get in
  match d_calls d !! p, d_lists d !! p with
  | Some _, _ => wsd_call_ctx_cancel_and_destroy p
  | None, Some _ => wsd_list_ctx_cancel_and_destroy p
  | None, None => on_sess (cancel_and_destroy p)
  end.

(** The last loop of [wsu_peer_deinit]. *)
Definition cancel_requests : M dbus_rpc unit :=
  let* q := gets (fun d => rpc_call_q (d_sess d)) in
  forM_ q (fun p => list_unlink p ;;; cancel_request p).
End rpc.
