(* ===== verification/DBusRpcProps.v ===== *)
(** * Theorems on calls and lists on D-Bus (DBusRpc.v)

    Where a call goes, that every reply of a call is answered once in every
    order of requests and replies, that a list asks for every object once and
    ends with one answer, and what happens when a client leaves while a list
    has just begun, or when the bus refuses to list its names. *)

From Stdlib Require Import Ascii.
From stdpp Require Import base list strings numbers sets gmap.
From S2P Require Import Prelude CStrings Avl Patterns Libs UbusxAcl Rpc PeerIO AccessCheck Session.
From S2P Require Import SessionInv SessionProps DBus DBusRpc.

Local Arguments strcmp : simpl never.

(** ** Calls: facts *)

Lemma ubus_to_dbus_name_some object : is_Some (duconv_name_ubus_to_dbus_name object).
Proof. unfold duconv_name_ubus_to_dbus_name, duconv_name_ubus_to_dbus_path. by destruct object. Qed.

(** An argument that comes back from D-Bus as it was. *)
Definition comes_back_as `{LibDbus} (a : attr) (v : dvalue) : Prop :=
  duconv_msg_dbus_to_ubus [v] a.1 = (blob_type (normal a).2, [(a.1, (normal a).2)]).

Definition simple_arg (a : attr) : Prop := blobmsg_type_of a <> BLOBMSG_TYPE_ARRAY /\ blob_fits a.2.

Lemma append_args_values `{LibUbox, LibDbus} (attrs : attr -> list attr) l ops :
  Forall simple_arg l -> append_args attrs l = Some ops ->
  exists vs, ops = concat (append_value <$> vs) /\ Forall2 comes_back_as l vs.
Proof.
  revert ops. induction l as [|a l IH]; intros ops Hl; simpl.
  { intros [= <-]. by exists []. }
  apply Forall_cons in Hl as [[Ha Hf] Hl].
  pose proof (argument_comes_back attrs a None [] Ha Hf) as Hb.
  destruct (duconv_msg_ubus_to_dbus attrs true a None) as [t ops1]. case_decide; [done|].
  destruct (append_args attrs l) as [ops'|]; simpl; [|done]. intros [= <-].
  destruct (IH _ Hl eq_refl) as (vs & -> & Hvs).
  destruct Hb as [[Hb _]|(v & Hv & _ & _ & _ & Hback)]; [done|]. simpl in Hv. subst ops1.
  exists (v :: vs). split; [done|]. by constructor.
Qed.

(** The state after a call was sent: its context is linked and waits. *)
Definition call_sent (c : dbus_call) (r : ubusrpc_blob) (id : option attr) (d : dbus_rpc) : dbus_rpc :=
  let p := next_ptr (d_sess d) in
  DbusRpc (set_call_q (rpc_call_q (d_sess d) ++ [p]) (set_next (S p) (d_sess d)))
    (<[p := WsdCall id r (Some (d_next_call d))]> (d_calls d)) (d_lists d)
    (<[d_next_call d := Call_cb p]> (d_pending d)) (S (d_next_call d)) (d_bus d ++ [c]).

(** The service of a call is not on D-Bus: what the lookup says. *)
Definition service_unknown (de : denv) (name method : string) : Prop :=
  d_valid_name de name = true /\ d_new_call de name "/lookup" name method = true /\
  d_lookup de name method = Lookup_error DBUS_ERROR_SERVICE_UNKNOWN.

(** A call is sent: the names are valid, the service may be there, every
    argument has a D-Bus type, and libdbus takes the message. *)
Definition sendable `{LibUbox, LibDbus} (de : denv) (attrs : attr -> list attr) (name object method : string)
    (params : list attr) : Prop :=
  d_valid_name de name = true /\ ~ service_unknown de name method /\
  d_new_call de name (duconv_name_ubus_to_dbus_path object) name method = true /\
  Forall (fun a => (duconv_msg_ubus_to_dbus attrs true a None).1 <> DBUS_TYPE_INVALID) params /\
  d_send de = Send_pending.

Lemma append_args_some `{LibUbox, LibDbus} (attrs : attr -> list attr) l :
  is_Some (append_args attrs l) <->
  Forall (fun a => (duconv_msg_ubus_to_dbus attrs true a None).1 <> DBUS_TYPE_INVALID) l.
Proof.
  induction l as [|a l IH]; simpl; [split; [by constructor|by eexists]|].
  rewrite Forall_cons, <- IH. destruct (duconv_msg_ubus_to_dbus attrs true a None) as [t ops]. simpl.
  case_decide; [split; [by intros [? ?]|naive_solver]|].
  destruct (append_args attrs l); simpl; split; try (by intros [? ?]); naive_solver.
Qed.

(** The call does not come back: the message of the lookup or a pending call is
    NULL and is used, or the last request in the queue was freed. *)
Definition call_stops `{LibUbox, LibDbus} (de : denv) (attrs : attr -> list attr) (name object method : string)
    (params : list attr) (d : dbus_rpc) : Prop :=
  d_valid_name de name = true /\
  (d_new_call de name "/lookup" name method = false \/
   ~ service_unknown de name method /\
   d_new_call de name (duconv_name_ubus_to_dbus_path object) name method = true /\
   Forall (fun a => (duconv_msg_ubus_to_dbus attrs true a None).1 <> DBUS_TYPE_INVALID) params /\
   (d_send de = Send_no_call \/ d_send de = Send_pending /\ ~ can_link d (next_ptr (d_sess d)))).

Definition lookup_call (name method : string) : dbus_call := DbusCall name "/lookup" name method [].

Lemma lookup_unknown_run de name method d :
  d_new_call de name "/lookup" name method = true ->
  exists b : bool, lookup_unknown de name method d = Some (b, set_dbus (d_bus d ++ [lookup_call name method]) d) /\
    (b = true <-> d_lookup de name method = Lookup_error DBUS_ERROR_SERVICE_UNKNOWN).
Proof.
  intros Hn. unfold lookup_unknown, M_bind, assert_, modify. rewrite Hn. eexists. split; [done|].
  destruct (d_lookup _ _ _) as [|err|]; [naive_solver| |naive_solver].
  rewrite Z.eqb_eq. split; [intros ->%strcmp_eq; done|intros [= ->]; apply strcmp_refl].
Qed.

Lemma send_call_run de c r id d :
  d_send de = Send_pending ->
  send_call de c r id d = if decide (can_link d (next_ptr (d_sess d))) then Some (0, call_sent c r id d) else None.
Proof.
  intros Hs. unfold send_call. rewrite Hs. unfold list_link, on_sess, alloc, send_pending, M_bind, modify, get, assert_. simpl.
  set (p := next_ptr (d_sess d)). rewrite (bool_decide_ext _ (can_link d p)); [|].
  { case_bool_decide; [by rewrite decide_True|by rewrite decide_False]. }
  unfold can_link. simpl. rewrite !Forall_forall. apply forall_proper. intros x. apply forall_proper. intros _.
  unfold on_heap. simpl. split; intros [Hne Hx]; (split; [done|]); revert Hx; by rewrite lookup_insert_ne.
Qed.

(** The results in the cases of a call. *)
Local Ltac cases_of :=
  repeat match goal with
  | H : _ <-> service_unknown _ _ _ |- _ => rewrite <- H; clear H
  end; intuition (try lia; try congruence; eauto).

Lemma handle_call_dbus_cases `{LibUbox, LibDbus} (de : denv) (attrs : attr -> list attr)
    (r : ubusrpc_blob) (id : option attr) object method params name d :
  rpc_args_of r = CallArgs object method params ->
  duconv_name_ubus_to_dbus_name object = Some name ->
  match handle_call_dbus de attrs r id d with
  | None => call_stops de attrs name object method params d
  | Some (ret, d') => ~ call_stops de attrs name object method params d /\
      (ret = 1 <-> service_unknown de name method) /\
      (ret = 0 <-> sendable de attrs name object method params) /\
      exists log,
      ((ret <> 0 /\ d' = set_dbus (d_bus d ++ log) d) \/
       (ret = 0 /\ exists ops, append_args attrs params = Some ops /\
          d' = call_sent (DbusCall name (duconv_name_ubus_to_dbus_path object) name method ops) r id
                 (set_dbus (d_bus d ++ log) d)))
  end.
Proof.
  intros Hr Hn. unfold handle_call_dbus, sendable, call_stops. rewrite Hr, Hn.
  pose proof (append_args_some attrs params) as Ha. set (typed := Forall _ params) in *. clearbody typed.
  destruct (d_valid_name de name) eqn:Hv; simpl.
  2: { unfold service_unknown. split_and!; [cases_of..|]. exists []. rewrite app_nil_r. left. by destruct d. }
  destruct (d_new_call de name "/lookup" name method) eqn:Hl.
  2: { unfold lookup_unknown, M_bind, assert_. rewrite Hl. by auto. }
  destruct (lookup_unknown_run de name method d Hl) as (b & Hrun & Hb).
  unfold M_bind at 1. rewrite Hrun. assert (b = true <-> service_unknown de name method) as Hu.
  { unfold service_unknown. naive_solver. }
  clear Hb. destruct b.
  { split_and!; [cases_of..|]. exists [lookup_call name method]. by left. }
  destruct (d_new_call de name (duconv_name_ubus_to_dbus_path object) name method); simpl.
  2: { split_and!; [cases_of..|]. exists [lookup_call name method]. by left. }
  destruct (append_args attrs params) as [ops|].
  2: { assert (~ typed) by (rewrite <- Ha; by intros [? ?]). clear Ha. split_and!; [cases_of..|].
       exists [lookup_call name method]. by left. }
  assert typed by (apply Ha; by eexists). clear Ha. destruct (d_send de) eqn:Hs.
  - unfold send_call. rewrite Hs. split_and!; [cases_of..|]. exists [lookup_call name method]. by left.
  - unfold send_call. rewrite Hs. split; [done|right]. rewrite <- Hu. auto 10.
  - rewrite send_call_run by done. change (can_link (set_dbus _ d) _) with (can_link d (next_ptr (d_sess d))).
    case_decide; [|split; [done|right]; rewrite <- Hu; by auto 10]. split_and!; [cases_of..|]. exists [lookup_call name method]. right. by eauto.
Qed.

(** C33: where a call goes.  A call is answered by D-Bus or by ubus: when it is
    sent on D-Bus, it goes to the service, path and interface named after the
    object, with the arguments as the converter appends them, in order, and its
    context waits for the reply with the id of the request; nothing is asked of
    the access checks.  Arguments that are no arrays and fit are appended as one
    value each, which would come back as the argument.  When nothing is sent, the
    state is that of ubus handling the call alone.  It is sent exactly if the
    names are valid, the lookup does not report the service as unknown, every
    argument has a D-Bus type and libdbus takes the message.  The handler does
    not come back exactly if the message of the lookup or the pending call is
    NULL, or the last request of the queue was freed ([call_stops]). *)
Theorem dbus_call_forwarded `{AvlTree, JsonC, LibUbox, !LibDbus} (e : env) (de : denv)
    (attrs : attr -> list attr) (r : ubusrpc_blob) (id : option attr) (object method : string)
    (params : list attr) (d : dbus_rpc) :
  rpc_args_of r = CallArgs object method params ->
  exists name, duconv_name_ubus_to_dbus_name object = Some name /\
  match handle_call_dbus de attrs r id d with
  | None => call_stops de attrs name object method params d /\ handle_call e de attrs r id d = None
  | Some (ret, d1) =>
      ~ call_stops de attrs name object method params d /\
      (ret = 1 <-> service_unknown de name method) /\
      (ret = 0 <-> sendable de attrs name object method params) /\
      exists log,
      (ret = 0 -> handle_call e de attrs r id d = Some (0, d1) /\
         exists ops, append_args attrs params = Some ops /\
           (Forall simple_arg params ->
              exists vs, ops = concat (append_value <$> vs) /\ Forall2 comes_back_as params vs) /\
           d1 = call_sent (DbusCall name (duconv_name_ubus_to_dbus_path object) name method ops) r id
                  (set_dbus (d_bus d ++ log) d)) /\
      (ret <> 0 -> d1 = set_dbus (d_bus d ++ log) d /\
         handle_call e de attrs r id d = on_sess (handle_call_ubus e r id) d1)
  end.
Proof.
  intros Hr. destruct (ubus_to_dbus_name_some object) as [name Hn]. exists name. split; [done|].
  pose proof (handle_call_dbus_cases de attrs r id object method params name d Hr Hn) as Hcases.
  unfold handle_call, M_bind. destruct (handle_call_dbus de attrs r id d) as [[ret d1]|]; [|done].
  destruct Hcases as (Hst & Hun & Hsend & log & Hcase). split_and!; [done..|]. exists log. split.
  - intros ->. split; [done|]. destruct Hcase as [[? _]|(_ & ops & Ha & ->)]; [done|].
    exists ops. split_and!; [done| |done]. intros Hp. by apply (append_args_values attrs params).
  - intros Hne. destruct Hcase as [[_ ->]|[? _]]; [|done]. split; [done|].
    by rewrite (proj2 (Z.eqb_neq ret 0) Hne).
Qed.

(** ** The invariant: every pending call has its context *)

Definition ctx_of (n : notify) : nat :=
  match n with Call_cb p | List_cb p | Introspect_cb p => p end.

(** The context of the callback [n] of call [k] is there, waits for [k], and is
    linked in the queue of the session. *)
Definition waits (d : dbus_rpc) (k : nat) (n : notify) : Prop :=
  ctx_of n ∈ rpc_call_q (d_sess d) /\
  match n with
  | Call_cb p => exists c, d_calls d !! p = Some c /\ wc_call_req c = Some k
  | List_cb p => exists c, d_lists d !! p = Some c /\ wl_call_req c = Some k /\ introspectables c = None
  | Introspect_cb p => exists c t l, d_lists d !! p = Some c /\ wl_call_req c = Some k /\
      introspectables c = Some (t :: l)
  end.

Record dinv (d : dbus_rpc) : Prop := {
  di_waits : forall k n, d_pending d !! k = Some n -> waits d k n /\ (k < d_next_call d)%nat;
  di_calls : forall p, is_Some (d_calls d !! p) -> (p < next_ptr (d_sess d))%nat;
  di_lists : forall p, is_Some (d_lists d !! p) -> (p < next_ptr (d_sess d))%nat /\ d_calls d !! p = None;
}.

Definition dbus_init (s : session) : dbus_rpc := DbusRpc s ∅ ∅ ∅ 0 [].

Lemma dinv_init s : dinv (dbus_init s).
Proof. split; simpl; intros *; rewrite lookup_empty; by try intros [? ?]. Qed.

(** A context waits for one call. *)
Lemma waits_unique d k n k' n' :
  dinv d -> d_pending d !! k = Some n -> d_pending d !! k' = Some n' -> ctx_of n = ctx_of n' -> k = k'.
Proof.
  intros Hi Hk Hk' Hp. destruct (di_waits _ Hi _ _ Hk) as [[_ Hw] _], (di_waits _ Hi _ _ Hk') as [[_ Hw'] _].
  pose proof (fun p c (Hc : d_lists d !! p = Some c) => proj2 (di_lists _ Hi p (mk_is_Some _ _ Hc))) as Hno.
  destruct n, n'; simpl in Hp; subst; naive_solver congruence.
Qed.

(** A context that a step does not touch. *)
Definition untouched (d d' : dbus_rpc) (p : nat) : Prop :=
  d_calls d' !! p = d_calls d !! p /\ d_lists d' !! p = d_lists d !! p /\
  (p ∈ rpc_call_q (d_sess d) -> p ∈ rpc_call_q (d_sess d')).

Lemma waits_untouched d d' k n : untouched d d' (ctx_of n) -> waits d k n -> waits d' k n.
Proof. intros (Hc & Hl & Hq) [Hin Hw]. split; [auto|]. destruct n; simpl in *; by rewrite ?Hc, ?Hl. Qed.

(** A step that only touches the context [p]. *)
Lemma dinv_step p d d' :
  dinv d -> (forall p', p' <> p -> untouched d d' p') ->
  (forall k n, d_pending d' !! k = Some n ->
    (d_pending d !! k = Some n /\ ctx_of n <> p \/ waits d' k n) /\ (k < d_next_call d')%nat) ->
  (next_ptr (d_sess d) <= next_ptr (d_sess d'))%nat ->
  (is_Some (d_calls d' !! p) -> (p < next_ptr (d_sess d'))%nat) ->
  (is_Some (d_lists d' !! p) -> (p < next_ptr (d_sess d'))%nat /\ d_calls d' !! p = None) ->
  dinv d'.
Proof.
  intros Hi Hu Hp Hn Hc Hl. split.
  - intros k n Hk. destruct (Hp k n Hk) as [[[Hk' Hne]|Hw] Hlt]; [|done]. split; [|done].
    eapply waits_untouched; [by apply Hu|]. by apply di_waits.
  - intros q Hq. destruct (decide (q = p)) as [->|Hne]; [auto|]. destruct (Hu q Hne) as (E & _).
    rewrite E in Hq. apply (di_calls _ Hi) in Hq. lia.
  - intros q Hq. destruct (decide (q = p)) as [->|Hne]; [auto|]. destruct (Hu q Hne) as (E & E' & _).
    rewrite E' in Hq. rewrite E. apply (di_lists _ Hi) in Hq as [? ?]. split; [lia|done].
Qed.

(** A step of the session that keeps the requests on D-Bus linked. *)
Definition keeps_requests (d : dbus_rpc) (s' : session) : Prop :=
  (next_ptr (d_sess d) <= next_ptr s')%nat /\
  forall p, is_Some (d_calls d !! p) \/ is_Some (d_lists d !! p) ->
    p ∈ rpc_call_q (d_sess d) -> p ∈ rpc_call_q s'.

Lemma dinv_session d s' : dinv d -> keeps_requests d s' -> dinv (set_sess s' d).
Proof.
  intros Hi [Hn Hq]. split; simpl.
  - intros k n Hk. apply (di_waits _ Hi) in Hk as [[Hin Hw] ?]. split; [|done]. split; [|done]. simpl.
    apply Hq; [|done]. destruct n; naive_solver.
  - intros p Hp. apply (di_calls _ Hi) in Hp. lia.
  - intros p Hp. apply (di_lists _ Hi) in Hp as [? ?]. split; [lia|done].
Qed.

Lemma pwp_on_sess {A} (m : M session A) (Q : A -> dbus_rpc -> Prop) d :
  pwp m (fun a s' => Q a (set_sess s' d)) (d_sess d) -> pwp (on_sess m) Q d.
Proof.
  unfold pwp, on_sess. intros Hm a d'. destruct (m (d_sess d)) as [[a' s']|]; [|done].
  intros [= <- <-]. by apply Hm.
Qed.

(** The requests in the queue are allocated. *)
Definition heap_ok (d : dbus_rpc) : Prop := Forall (on_heap d) (rpc_call_q (d_sess d)).

(** The reply to call [k] refuses the list of the names of the services: the
    context is freed and stays in the queue. *)
Definition names_refused `{LibDbus} (d : dbus_rpc) (k : nat) (reply : dbus_message) : bool :=
  match d_pending d !! k with
  | Some (List_cb _) => negb (check_reply_and_make_error reply (Some "as")).1
  | _ => false
  end.

Section steps.
Context `{AvlTree, JsonC, LibUbox, !LibDbus}.
Variable e : env.
Variable de : denv.
Variable blob_data_attrs : attr -> list attr.
Variable xmlParseMemory : string -> option xml.

Lemma pwp_queue str (Q : unit -> session -> Prop) s :
  (forall q, Q tt (set_write_q q s)) -> pwp (queue_str e str) Q s.
Proof.
  unfold pwp, queue_str. intros HQ a s'.
  destruct (wsu_queue_write_str _ _ _) as [[? q]|]; [|done]. destruct a. intros [= <-]. auto.
Qed.

Lemma pwp_assert {S} b (Q : unit -> S -> Prop) s : (b = true -> Q tt s) -> pwp (assert_ b) Q s.
Proof. unfold pwp, assert_. intros HQ a s'. destruct b; [|done]. intros [= <- <-]. auto. Qed.

Lemma pwp_send c n (Q : nat -> dbus_rpc -> Prop) d :
  Q (d_next_call d) (DbusRpc (d_sess d) (d_calls d) (d_lists d) (<[d_next_call d := n]> (d_pending d))
      (S (d_next_call d)) (d_bus d ++ [c])) ->
  pwp (send_pending c n) Q d.
Proof. by intros ? ? ? [= <- <-]. Qed.

Lemma pwp_alloc (Q : nat -> session -> Prop) s :
  Q (next_ptr s) (set_next (S (next_ptr s)) s) -> pwp alloc Q s.
Proof. by intros ? ? ? [= <- <-]. Qed.

(** Steps of D-Bus requests. *)
Local Ltac dstep :=
  first
    [ pwp_step
    | lazymatch goal with
      | |- pwp (steal _) _ _ => unfold steal
      | |- pwp (list_unlink _) _ _ => unfold list_unlink
      | |- pwp (list_link _) _ _ => unfold list_link
      | |- pwp (with_list _ _) _ _ => unfold with_list
      | |- pwp (send_pending _ _) _ _ => apply pwp_send
      | |- pwp (on_sess _) _ _ => apply pwp_on_sess
      | |- pwp alloc _ _ => apply pwp_alloc
      | |- pwp (queue_str _ _) _ _ => apply pwp_queue; intros ?
      | |- pwp (assert_ _) _ _ => apply pwp_assert; intros ?
      end ].
Local Ltac dsteps := repeat (dstep; simpl in *).

(** The other pending calls have other contexts. *)
Lemma pending_other d k n k' n' :
  dinv d -> d_pending d !! k = Some n -> delete k (d_pending d) !! k' = Some n' ->
  (d_pending d !! k' = Some n' /\ ctx_of n' <> ctx_of n) /\ (k' < d_next_call d)%nat.
Proof.
  intros Hi Hk [Hne Hk']%lookup_delete_Some. split; [|by eapply di_waits]. split; [done|].
  intros E. apply Hne. by eapply waits_unique.
Qed.

(** A step on the context [p] of the pending call [k], which is taken away. *)
Local Ltac touches p Hi Hk :=
  apply (dinv_step p _ _ Hi); simpl;
  [ intros ? ?; split_and!; simpl; intros;
    repeat first [rewrite lookup_insert_ne by done | rewrite lookup_delete_ne by done];
    rewrite ?elem_of_list_del, ?elem_of_app; auto
  | try (intros ? ? Hother; destruct (pending_other _ _ _ _ _ Hi Hk Hother) as [[? ?] ?]; auto; done)
  | simpl; try lia
  | rewrite ?lookup_insert_eq, ?lookup_delete_eq; first [by intros [? ?] | intros; by eapply di_calls | idtac]
  | rewrite ?lookup_insert_eq, ?lookup_delete_eq;
    first [by intros [? ?] | intros; by eapply di_lists
          | let Hl := fresh in intros Hl; apply (di_lists _ Hi) in Hl; naive_solver | idtac] ].

Lemma call_cb_inv k p reply d :
  dinv d -> d_pending d !! k = Some (Call_cb p) ->
  pwp (wsd_call_cb e k p reply) (fun _ d' => dinv d') d.
Proof.
  intros Hi Hk. unfold wsd_call_cb, wsd_call_ctx_cancel_and_destroy, wsd_call_ctx_free. dsteps;
    simplify_map_eq. touches p Hi Hk.
Qed.

(** No pending call has the context [p]. *)
Definition idle (d : dbus_rpc) (p : nat) : Prop := forall k n, d_pending d !! k = Some n -> ctx_of n <> p.

(** The state with a new context at [p], and the call [k] taken away. *)
Definition list_at (k p : nat) (c : wsd_list_ctx) (d : dbus_rpc) : dbus_rpc :=
  set_dlists (<[p := c]> (d_lists d)) (set_dpending (delete k (d_pending d)) d).

Lemma list_at_inv k n p c c' d :
  dinv d -> d_pending d !! k = Some n -> ctx_of n = p -> d_lists d !! p = Some c ->
  dinv (list_at k p c' d) /\ idle (list_at k p c' d) p.
Proof.
  intros Hi Hk <- Hc. split.
  - touches (ctx_of n) Hi Hk.
  - intros k' n' Hk'. by eapply pending_other.
Qed.

Lemma list_continue_inv p c l d :
  dinv d -> idle d p -> d_lists d !! p = Some c -> introspectables c = Some l -> p ∈ rpc_call_q (d_sess d) ->
  pwp (list_continue e de p) (fun _ d' => dinv d') d.
Proof.
  intros Hi Hidle Hc Hl Hq.
  unfold list_continue, introspect_list_finish, introspect_list_next, wsd_list_ctx_free. dsteps; simplify_map_eq.
  - touches p Hi Hi. intros k n Hk. split; [left; eauto|]. by eapply di_waits.
  - done.
  - touches p Hi Hi. intros k n [[<- <-]|[Hne Hk]]%lookup_insert_Some.
    + split; [right|lia]. split; [done|]. simpl. rewrite lookup_insert_eq. by eexists _, _, _.
    + split; [left; eauto|]. apply (di_waits _ Hi) in Hk as [_ ?]. lia.
Qed.

(** The callbacks of a list, up to the next target. *)
Lemma introspect_cb_run k p reply c t l d :
  d_lists d !! p = Some c -> wl_call_req c = Some k -> introspectables c = Some (t :: l) ->
  wsd_introspect_cb e de xmlParseMemory k p reply d =
  match introspect_reply xmlParseMemory t reply with
  | Some r => list_continue e de p
                (list_at k p (wl_add r.2 (wl_set_targets (l ++ r.1) (wl_set_req None c))) d)
  | None => None
  end.
Proof.
  intros Hc Hr Hl. unfold wsd_introspect_cb, steal, with_list, M_bind, modify, deref, assert_, M_ret. simpl.
  rewrite Hc, Hr, bool_decide_eq_true_2 by done. simpl. rewrite Hc. simpl. rewrite Hl. simpl.
  destruct (introspect_reply _ _ _) as [r|]; [|done]. simpl.
  rewrite lookup_insert_eq. simpl. by rewrite insert_insert_eq.
Qed.

Lemma list_cb_run k p reply c d :
  d_lists d !! p = Some c -> wl_call_req c = Some k ->
  (check_reply_and_make_error reply (Some "as")).1 = true ->
  wsd_list_cb e de k p reply d =
  list_continue e de p
    (list_at k p (wl_set_targets (list_services (dbus_message_iter_recurse (msg_args reply)))
                    (wl_set_reply (wl_set_req None c))) d).
Proof.
  intros Hc Hr Hok. unfold wsd_list_cb, steal, with_list, M_bind, modify, deref, assert_, M_ret. simpl.
  rewrite Hc, Hr, bool_decide_eq_true_2 by done. simpl. rewrite Hc. simpl.
  destruct (check_reply_and_make_error _ _) as [[] ?]; [|done]. simpl.
  rewrite lookup_insert_eq. simpl. by rewrite insert_insert_eq.
Qed.

Lemma introspect_cb_inv k p reply d :
  dinv d -> d_pending d !! k = Some (Introspect_cb p) ->
  pwp (wsd_introspect_cb e de xmlParseMemory k p reply) (fun _ d' => dinv d') d.
Proof.
  intros Hi Hk. destruct (di_waits _ Hi _ _ Hk) as [[Hq (c & t & l & Hc & Hr & Hl)] _].
  intros [] d'. rewrite (introspect_cb_run k p reply c t l d) by done.
  destruct (introspect_reply _ _ _) as [r|]; [|done].
  edestruct (list_at_inv k (Introspect_cb p) p c) as [Hi' Hidle]; [done..|].
  eapply list_continue_inv; [done|done|apply lookup_insert_eq|done|done].
Qed.

Lemma list_cb_inv k p reply d :
  dinv d -> d_pending d !! k = Some (List_cb p) ->
  pwp (wsd_list_cb e de k p reply) (fun _ d' => dinv d') d.
Proof.
  intros Hi Hk. destruct (di_waits _ Hi _ _ Hk) as [[Hq (c & Hc & Hr & Hl)] _].
  destruct (check_reply_and_make_error reply (Some "as")) as [[] data] eqn:E.
  - intros [] d'. rewrite (list_cb_run k p reply c d) by (try done; by rewrite E).
    edestruct (list_at_inv k (List_cb p) p c) as [Hi' Hidle]; [done..|].
    eapply list_continue_inv; [done|done|apply lookup_insert_eq|done|done].
  - unfold wsd_list_cb, wsd_list_ctx_free. rewrite E. dsteps; simplify_map_eq.
    touches p Hi Hk.
Qed.
Lemma fresh_ptr d : dinv d ->
  d_calls d !! next_ptr (d_sess d) = None /\ d_lists d !! next_ptr (d_sess d) = None /\
  idle d (next_ptr (d_sess d)).
Proof.
  intros Hi. assert (d_calls d !! next_ptr (d_sess d) = None) as Hc.
  { apply eq_None_not_Some. intros Hs%(di_calls _ Hi). lia. }
  assert (d_lists d !! next_ptr (d_sess d) = None) as Hl.
  { apply eq_None_not_Some. intros Hs%(di_lists _ Hi). lia. }
  split_and!; [done|done|]. intros k n Hk Hp. apply (di_waits _ Hi) in Hk as [[_ Hw] _].
  destruct n; simpl in Hp; subst; naive_solver congruence.
Qed.

Lemma dinv_log l d : dinv d -> dinv (set_dbus l d).
Proof. by destruct 1. Qed.

Lemma send_call_inv c r id d : dinv d -> pwp (send_call de c r id) (fun _ d' => dinv d') d.
Proof.
  intros Hi. destruct (fresh_ptr d Hi) as (Hc & Hl & Hidle). unfold send_call. dsteps; [done|].
  set (p := next_ptr (d_sess d)) in *. touches p Hi Hi.
  - intros k n [[<- <-]|[Hne Hk]]%lookup_insert_Some.
    + split; [right|lia]. split; simpl; [apply elem_of_app; right; set_solver|].
      rewrite lookup_insert_eq. by eexists.
    + split; [left; eauto|]. apply (di_waits _ Hi) in Hk as [_ ?]. lia.
  - intros _. lia.
  - rewrite Hl. by intros [? ?].
Qed.

Lemma handle_call_dbus_inv r id d :
  dinv d -> pwp (handle_call_dbus de blob_data_attrs r id) (fun _ d' => dinv d') d.
Proof.
  intros Hi. unfold handle_call_dbus, lookup_unknown.
  repeat (dstep || (apply send_call_inv)); auto using dinv_log.
Qed.

(** Handling a call on ubus keeps the other requests linked. *)
Lemma handle_call_ubus_keeps r id s :
  pwp (handle_call_ubus e r id) (fun _ s' => (next_ptr s <= next_ptr s')%nat /\
    forall p, (p < next_ptr s)%nat -> p ∈ rpc_call_q s -> p ∈ rpc_call_q s') s.
Proof.
  unfold handle_call_ubus, wsubus_percall_ctx_create, wsubus_call_do_check_then_do_call,
    wsubus_percall_ctx_destroy, with_call, dec_q_len.
  repeat dstep; simpl; (split; [lia|]); intros p Hp Hq; rewrite ?elem_of_list_del, ?elem_of_app;
    repeat split; auto; lia.
Qed.

Lemma handle_call_inv r id d :
  dinv d -> pwp (handle_call e de blob_data_attrs r id) (fun _ d' => dinv d') d.
Proof.
  intros Hi. unfold handle_call. apply pwp_bind.
  eapply pwp_mono; [by apply handle_call_dbus_inv|]. intros ret d1 Hi1. cbn beta.
  destruct (ret =? 0); [by apply pwp_ret|]. apply pwp_on_sess.
  eapply pwp_mono; [apply handle_call_ubus_keeps|]. intros ? s' [Hn Hq]. apply dinv_session; [done|].
  split; [done|]. intros p Hp. apply Hq. destruct Hp as [Hp|Hp]; [by apply (di_calls _ Hi1)|by apply (di_lists _ Hi1)].
Qed.

Lemma handle_list_inv id d : dinv d -> pwp (handle_list e de id) (fun _ d' => dinv d') d.
Proof.
  intros Hi. destruct (fresh_ptr d Hi) as (Hc & Hl & Hidle).
  unfold handle_list, list_ubus_quiet, handle_list_dbus, dec_q_len. dsteps; simplify_map_eq.
  all: set (p := next_ptr (d_sess d)) in *; touches p Hi Hi.
  all: try (intros k n Hk; split; [left; eauto|by eapply di_waits]).
  all: try (rewrite Hc; by intros [? ?]).
  all: try (intros _; split; [lia|done]).
  intros k n [[<- <-]|[Hne Hk]]%lookup_insert_Some.
  - split; [right|lia]. split; simpl; [apply elem_of_app; right; set_solver|].
    rewrite lookup_insert_eq. by eexists.
  - split; [left; eauto|]. apply (di_waits _ Hi) in Hk as [_ ?]. lia.
Qed.

(** *** The queue holds what is allocated

    Every step keeps it, but for a refused list of names. *)

(** A step on the context [p] alone. *)
Lemma heap_step p d d' :
  heap_ok d -> (forall x, x <> p -> on_heap d x -> on_heap d' x) ->
  (forall x, x ∈ rpc_call_q (d_sess d') -> x = p \/ x ∈ rpc_call_q (d_sess d)) ->
  (p ∈ rpc_call_q (d_sess d') -> on_heap d' p) ->
  heap_ok d'.
Proof.
  unfold heap_ok. rewrite !Forall_forall. intros Hok Hx Hq Hp x Hin. destruct (decide (x = p)) as [->|Hne]; [auto|].
  destruct (Hq x Hin) as [->|Hin']; auto.
Qed.

Local Ltac on_heaps p Hh :=
  apply (heap_step p _ _ Hh); unfold on_heap; simpl;
  [ intros ? ?; repeat first [rewrite lookup_insert_ne by done | rewrite lookup_delete_ne by done]; done
  | intros ?; rewrite ?elem_of_list_del, ?elem_of_app, ?list_elem_of_singleton; tauto
  | rewrite ?elem_of_list_del, ?lookup_insert_eq; first [tauto | eauto 6] ].

Lemma call_cb_heap k p reply d :
  heap_ok d -> pwp (wsd_call_cb e k p reply) (fun _ d' => heap_ok d') d.
Proof.
  intros Hh. unfold wsd_call_cb, wsd_call_ctx_cancel_and_destroy, wsd_call_ctx_free. dsteps; simplify_map_eq.
  on_heaps p Hh.
Qed.

Lemma list_continue_heap p d :
  heap_ok d -> pwp (list_continue e de p) (fun _ d' => heap_ok d') d.
Proof.
  intros Hh. unfold list_continue, introspect_list_finish, introspect_list_next, wsd_list_ctx_free. dsteps; simplify_map_eq.
  - on_heaps p Hh.
  - done.
  - on_heaps p Hh.
Qed.

Lemma list_at_heap k p c d : heap_ok d -> heap_ok (list_at k p c d).
Proof. intros Hh. on_heaps p Hh. Qed.

Lemma send_call_heap c r id d : heap_ok d -> pwp (send_call de c r id) (fun _ d' => heap_ok d') d.
Proof. intros Hh. unfold send_call. dsteps; [done|]. on_heaps (next_ptr (d_sess d)) Hh. Qed.

Lemma handle_call_heap r id d :
  heap_ok d -> pwp (handle_call e de blob_data_attrs r id) (fun _ d' => heap_ok d') d.
Proof.
  intros Hh. unfold handle_call. apply pwp_bind. eapply (pwp_mono _ (fun _ d' => heap_ok d')).
  - unfold handle_call_dbus, lookup_unknown. repeat (dstep || apply send_call_heap); done.
  - intros ret d1 Hh1. cbn beta. destruct (ret =? 0); [by apply pwp_ret|].
    unfold handle_call_ubus, wsubus_percall_ctx_create, wsubus_call_do_check_then_do_call,
      wsubus_percall_ctx_destroy, with_call, dec_q_len. repeat dstep; on_heaps (next_ptr (d_sess d1)) Hh1.
Qed.

Lemma handle_list_heap id d : heap_ok d -> pwp (handle_list e de id) (fun _ d' => heap_ok d') d.
Proof.
  intros Hh. unfold handle_list, list_ubus_quiet, handle_list_dbus, dec_q_len. dsteps; simplify_map_eq.
  all: on_heaps (next_ptr (d_sess d)) Hh.
Qed.

Lemma dbus_reply_heap k reply d :
  dinv d -> heap_ok d -> names_refused d k reply = false ->
  pwp (dbus_reply e de xmlParseMemory k reply) (fun _ d' => heap_ok d') d.
Proof.
  intros Hi Hh. unfold names_refused. intros Href. unfold dbus_reply. apply pwp_bind, pwp_deref. intros n Hn.
  rewrite Hn in Href. destruct (di_waits _ Hi _ _ Hn) as [[_ Hw] _]. destruct n as [p|p|p].
  - by apply call_cb_heap.
  - apply negb_false_iff in Href. destruct Hw as (c & Hc & Hr & _). intros [] d'.
    rewrite (list_cb_run k p reply c d) by done. by apply list_continue_heap, list_at_heap.
  - destruct Hw as (c & t & l & Hc & Hr & Hl). intros [] d'. rewrite (introspect_cb_run k p reply c t l d) by done.
    destruct (introspect_reply _ _ _) as [r|]; [|done]. by apply list_continue_heap, list_at_heap.
Qed.
End steps.

(** The states a session with requests on D-Bus can get into: requests, replies
    in any order, and other steps of the session that keep the requests on
    D-Bus linked and unlink what they free.  [ok] says that no list of the names
    of the services was refused so far. *)
Inductive dbus_reach `{AvlTree, JsonC, LibUbox, !LibDbus} (attrs : attr -> list attr)
    (xml_parse : string -> option xml) : bool -> dbus_rpc -> Prop :=
  | dr_init s : heap_ok (dbus_init s) -> dbus_reach attrs xml_parse true (dbus_init s)
  | dr_call ok e de r id ret d d' :
      dbus_reach attrs xml_parse ok d -> handle_call e de attrs r id d = Some (ret, d') ->
      dbus_reach attrs xml_parse ok d'
  | dr_list ok e de id ret d d' :
      dbus_reach attrs xml_parse ok d -> handle_list e de id d = Some (ret, d') ->
      dbus_reach attrs xml_parse ok d'
  | dr_reply ok e de k reply d d' :
      dbus_reach attrs xml_parse ok d -> dbus_reply e de xml_parse k reply d = Some (tt, d') ->
      dbus_reach attrs xml_parse (ok && negb (names_refused d k reply)) d'
  | dr_session ok d s' :
      dbus_reach attrs xml_parse ok d -> keeps_requests d s' ->
      (heap_ok d -> heap_ok (set_sess s' d)) -> dbus_reach attrs xml_parse ok (set_sess s' d).

Lemma dbus_reach_inv `{AvlTree, JsonC, LibUbox, !LibDbus} attrs xml_parse ok d :
  dbus_reach attrs xml_parse ok d -> dinv d /\ (ok = true -> heap_ok d).
Proof.
  induction 1 as [s Hs|ok e de r id ret d d' _ [IH Hh] Hs|ok e de id ret d d' _ [IH Hh] Hs
    |ok e de k reply d d' _ [IH Hh] Hs|ok d s' _ [IH Hh] Hs Hs'].
  - split; [apply dinv_init|done].
  - split; [by eapply handle_call_inv|]. intros ->. by eapply handle_call_heap, Hs; auto.
  - split; [by eapply handle_list_inv|]. intros ->. by eapply handle_list_heap, Hs; auto.
  - split.
    + revert Hs. unfold dbus_reply, M_bind, deref. destruct (d_pending d !! k) as [n|] eqn:E; [|done].
      destruct n; intros Hs; [eapply call_cb_inv|eapply list_cb_inv|eapply introspect_cb_inv]; eauto.
    + intros [-> Href%negb_true_iff]%andb_true_iff. by eapply dbus_reply_heap, Hs; auto.
  - split; [by apply dinv_session|auto].
Qed.

Lemma beside_sub prev p q x : x ∈ beside prev p q -> x ∈ option_list prev \/ x ∈ q.
Proof.
  revert prev. induction q as [|y q IH]; intros prev; simpl; [set_solver|]. case_decide.
  - rewrite elem_of_app. destruct q; simpl; set_solver.
  - intros [Hx|Hx]%IH; simpl in *; set_solver.
Qed.

Lemma heap_linked d p : heap_ok d -> p ∈ rpc_call_q (d_sess d) -> linked d p.
Proof.
  unfold heap_ok, linked. rewrite !Forall_forall. intros Hh Hp. split_and!; [done|auto|].
  intros x [Hx|Hx]%beside_sub; [simpl in Hx; set_solver|auto].
Qed.

(** A request is unlinked, in a state with the same queue and the same contexts. *)
Lemma unlink_run p d d1 :
  rpc_call_q (d_sess d1) = rpc_call_q (d_sess d) -> (forall x, on_heap d1 x <-> on_heap d x) ->
  list_unlink p d1 =
  if decide (linked d p)
  then Some (tt, set_sess (set_call_q (list_del p (rpc_call_q (d_sess d))) (d_sess d1)) d1) else None.
Proof.
  intros Hq Hheap. unfold list_unlink, on_sess, M_bind, get, assert_, modify.
  rewrite (bool_decide_ext _ (linked d p)).
  - case_bool_decide; [|by rewrite decide_False]. rewrite decide_True by done. simpl. by rewrite Hq.
  - unfold linked. rewrite Hq, Hheap, !Forall_forall. by setoid_rewrite Hheap.
Qed.

(** ** The answer to a call *)

(** The state after the reply to call [k] of context [p] was answered. *)
Definition call_answered (k p : nat) (text : string) (d : dbus_rpc) : dbus_rpc :=
  DbusRpc (set_call_q (list_del p (rpc_call_q (d_sess d))) (queued text (d_sess d)))
    (delete p (d_calls d)) (d_lists d) (delete k (d_pending d)) (d_next_call d) (d_bus d).

Lemma call_response_format `{LibUbox, !LibDbus} id reply text :
  call_response id reply = Some text -> exists l, text = blobmsg_format_json l.
Proof.
  unfold call_response. destruct (check_reply_and_make_error reply None) as [[] [data|]];
    intros [= <-]; by eexists.
Qed.

Lemma call_cb_run `{AvlTree, JsonC, LibUbox, !LibDbus} e k p reply c text d :
  texts_fit -> d_calls d !! p = Some c -> wc_call_req c = Some k ->
  call_response (wc_id c) reply = Some text ->
  wsd_call_cb e k p reply d = if decide (linked d p) then Some (tt, call_answered k p text d) else None.
Proof.
  intros Hfit Hc Hr Ht. unfold wsd_call_cb, steal, M_bind, modify, deref, assert_, M_ret. simpl.
  rewrite Hc, Hr, bool_decide_eq_true_2 by done. rewrite Ht.
  destruct (call_response_format _ _ _ Ht) as [l ->]. unfold on_sess at 1. simpl. rewrite (queue_str_run e Hfit).
  rewrite (unlink_run p d); [|done|].
  2: { intros x. unfold on_heap. simpl. destruct (decide (x = p)) as [->|Hne].
       - rewrite lookup_insert_eq, Hc. naive_solver.
       - by rewrite lookup_insert_ne. }
  destruct (decide (linked d p)); [|done].
  unfold wsd_call_ctx_cancel_and_destroy, wsd_call_ctx_free, M_bind, modify, deref. simpl.
  rewrite lookup_insert_eq. simpl. rewrite lookup_insert_eq. simpl. by rewrite delete_insert_eq.
Qed.

Lemma value_ok_type v : value_ok v -> dvalue_type v <> DBUS_TYPE_INVALID.
Proof.
  destruct v as [t z|t s|t l|t]; simpl; intros Hv E; subst; [|unfold text_types in Hv; set_solver|done|].
  - by destruct Hv as (? & ? & _).
  - by destruct Hv as (_ & _ & ?).
Qed.

(** The values of a reply that have a ubus type, in order. *)
Lemma reply_values_spec `{LibDbus} l :
  Forall value_ok l -> reply_values l = omap (fun v => pair "" <$> value_blob v) l.
Proof.
  induction 1 as [|v l Hv Hl IH]; [done|]. simpl. rewrite arg_type_cons, decide_False by (by apply value_ok_type).
  rewrite value_converted by done. rewrite IH. simpl. by destruct (value_blob v).
Qed.

(** C34: a call on D-Bus gets one answer.  Whatever requests are in progress and
    in whatever order replies come, each reply of a pending call finds its context
    and, if that can be unlinked, queues exactly one response with the id of the
    request, and takes the call out of the queue and the heap without touching any
    other request.  The response is the error of D-Bus, or the values of the reply
    that have a ubus type, in order.  The context can be unlinked in every state
    before the bus refused to list the names of its services; a refused list is
    freed while it is linked, and a reply to a call that is linked next to it then
    does not come back. *)
Theorem dbus_call_answered `{AvlTree, JsonC, LibUbox, !LibDbus} (attrs : attr -> list attr)
    (xml_parse : string -> option xml) (e : env) (de : denv) (ok : bool) (d : dbus_rpc) (k p : nat)
    (reply : dbus_message) :
  texts_fit -> dbus_reach attrs xml_parse ok d -> d_pending d !! k = Some (Call_cb p) ->
  (msg_type reply = DBUS_MESSAGE_TYPE_METHOD_RETURN /\ Forall value_ok (msg_args reply)) \/
    msg_type reply = DBUS_MESSAGE_TYPE_ERROR ->
  (ok = true -> linked d p) /\
  exists c text, d_calls d !! p = Some c /\ p ∈ rpc_call_q (d_sess d) /\
    dbus_reply e de xml_parse k reply d =
      (if decide (linked d p) then Some (tt, call_answered k p text d) else None) /\
    (msg_type reply = DBUS_MESSAGE_TYPE_METHOD_RETURN ->
      text = jsonrpc__resp_ubus (wc_id c) 0
        (Some ("", BTable [(msg_signature reply,
                            BArray (omap (fun v => pair "" <$> value_blob v) (msg_args reply)))]))) /\
    (msg_type reply = DBUS_MESSAGE_TYPE_ERROR ->
      exists data, text = jsonrpc__resp_error (wc_id c) JSONRPC_ERRORCODE__OTHER (Some ("data", BTable data)) /\
        head data = Some ("DBus", BString (msg_error_name reply))).
Proof.
  intros Hfit Hr Hk Hreply. destruct (dbus_reach_inv _ _ _ _ Hr) as [Hi Hh].
  destruct (di_waits _ Hi _ _ Hk) as [[Hq (c & Hc & Hreq)] _]. split; [intros ->; by auto using heap_linked|].
  assert (exists text, call_response (wc_id c) reply = Some text) as [text Ht].
  { unfold call_response, check_reply_and_make_error.
    destruct Hreply as [[-> _]|Hm]; [by eexists|]. rewrite Hm. by eexists. }
  exists c, text. split_and!; [done|done|..].
  - unfold dbus_reply, M_bind, deref. rewrite Hk. by eapply call_cb_run.
  - intros Hm. destruct Hreply as [[_ Hok]|Hm']; [|congruence]. revert Ht.
    unfold call_response, check_reply_and_make_error. rewrite Hm, reply_values_spec by done. by intros [= <-].
  - intros Hm. revert Ht. unfold call_response, check_reply_and_make_error. rewrite Hm.
    intros [= <-]. by eexists.
Qed.

(** ** The end of the session *)

(** The list of services is awaited: the list of targets was not initialised. *)
Definition names_awaited (p : nat) (d : dbus_rpc) : Prop :=
  d_calls d !! p = None /\ exists c, d_lists d !! p = Some c /\ introspectables c = None.

Lemma cancel_other p q d :
  q <> p -> names_awaited p d ->
  pwp (list_unlink q ;;; cancel_request q) (fun _ d' => names_awaited p d') d.
Proof.
  intros Hne [Hc Hl].
  unfold cancel_request, wsd_call_ctx_cancel_and_destroy, wsd_list_ctx_cancel_and_destroy,
    wsd_call_ctx_free, wsd_list_ctx_free, steal, list_unlink.
  repeat first [pwp_step | apply pwp_on_sess | apply pwp_assert; intros ?]; unfold names_awaited in *; simpl;
    rewrite ?lookup_delete_ne by done; done.
Qed.

Lemma cancel_awaited p d : names_awaited p d -> (list_unlink p ;;; cancel_request p) d = None.
Proof.
  intros (Hc & c & Hl & Hn). unfold M_bind at 1. rewrite (unlink_run p d d) by done.
  destruct (decide (linked d p)); [|done]. unfold cancel_request, M_bind, get. simpl. rewrite Hc, Hl. unfold wsd_list_ctx_cancel_and_destroy, M_bind, deref. simpl. rewrite Hl, Hn.
  by destruct (wl_call_req c).
Qed.

(** A client that leaves while a list on D-Bus waits for the names of the
    services.  In every state in which a list has not got them yet, ending the
    requests of the session does not come back: the list of targets is walked
    although it was never initialised. *)
Theorem list_close_crashes `{AvlTree, JsonC, LibUbox, !LibDbus} (attrs : attr -> list attr)
    (xml_parse : string -> option xml) (ok : bool) (d : dbus_rpc) (k p : nat) :
  dbus_reach attrs xml_parse ok d -> d_pending d !! k = Some (List_cb p) -> cancel_requests d = None.
Proof.
  intros Hr Hk. destruct (dbus_reach_inv _ _ _ _ Hr) as [Hi _].
  destruct (di_waits _ Hi _ _ Hk) as [[Hq (c & Hl & _ & Hn)] _]. simpl in Hq.
  assert (names_awaited p d) as Hw.
  { split; [by eapply (di_lists _ Hi)|]. by exists c. }
  unfold cancel_requests, M_bind at 1, gets. clear Hk Hr Hi Hl Hn c.
  set (f := fun p => list_unlink p ;;; cancel_request p).
  assert (forall d, names_awaited p d -> f p d = None) as Hp by apply cancel_awaited.
  assert (forall q d, q <> p -> names_awaited p d -> pwp (f q) (fun _ d' => names_awaited p d') d) as Ho
    by apply cancel_other.
  clearbody f.
  revert Hq Hw. generalize (rpc_call_q (d_sess d)). intros q. revert d.
  induction q as [|x q IH]; intros d Hq Hw; [set_solver|]. simpl. unfold M_bind.
  destruct (decide (x = p)) as [->|Hne]; [by rewrite Hp|].
  destruct (f x d) as [[[] d']|] eqn:E; [|done]. apply IH; [set_solver|]. by eapply Ho.
Qed.

(** ** Lists: every object once *)

(** The objects below a target, as the bus describes them. *)
Inductive otree := OTree (at_ : introspection_target) (added : list attr) (subs : list otree).

Fixpoint tree_added (t : otree) : list attr :=
  match t with OTree _ added subs => added ++ concat (tree_added <$> subs) end.
Fixpoint tree_targets (t : otree) : list introspection_target :=
  match t with OTree cur _ subs => cur :: concat (tree_targets <$> subs) end.

Lemma targets_cons cur a subs ts :
  concat (tree_targets <$> OTree cur a subs :: ts) =
  cur :: concat (tree_targets <$> subs) ++ concat (tree_targets <$> ts).
Proof. done. Qed.

Lemma added_cons cur a subs ts :
  concat (tree_added <$> OTree cur a subs :: ts) =
  (a ++ concat (tree_added <$> subs)) ++ concat (tree_added <$> ts).
Proof. done. Qed.

Definition introspect_call (t : introspection_target) : dbus_call :=
  DbusCall (t_service t) (t_path t) DBUS_INTERFACE_INTROSPECTABLE "Introspect" [].

Section listing.
Context `{AvlTree, JsonC, LibUbox, !LibDbus}.
Variable e : env.
Variable de : denv.
Variable xml_parse : string -> option xml.
(** What the services answer. *)
Variable bus : introspection_target -> dbus_message.

(** The answers describe the finite tree [t] below [cur], with valid names and
    documents that can be parsed. *)
Inductive object_at : introspection_target -> otree -> Prop :=
  | object_at_intro cur targets added subs :
      d_new_call de (t_service cur) (t_path cur) DBUS_INTERFACE_INTROSPECTABLE "Introspect" = true ->
      introspect_reply xml_parse cur (bus cur) = Some (targets, added) ->
      Forall2 object_at targets subs ->
      object_at cur (OTree cur added subs).

(** The bus answers the introspection that the list [p] waits for, [n] times. *)
Fixpoint serve_list (n p : nat) : M dbus_rpc unit :=
  match n with
  | O => M_ret tt
  | S n' =>
      let* c := deref (fun d => d_lists d !! p) in
      let* k := deref (fun _ => wl_call_req c) in
      let* t := deref (fun _ => introspectables c ≫= head) in
      dbus_reply e de xml_parse k (bus t) ;;;
      serve_list n' p
  end.

(** What an object adds is under its own name. *)
Lemma introspect_nodes_named cur name nodes targets added :
  introspect_nodes cur name nodes = Some (targets, added) ->
  Forall (fun a => name = Some a.1) added.
Proof.
  revert targets added. induction nodes as [|x nodes IH]; intros targets added; simpl; [by intros [= <- <-]|].
  repeat (case_match; simpl in *; try done; eauto);
    repeat match goal with
    | |- context [mbind _ ?o = _] => destruct o as [?|] eqn:?; simpl; [|done]
    end; intros Heq; simplify_eq; simpl; eauto;
    match goal with r : _ * _ |- _ => destruct r; simpl end;
    first [by eapply IH | constructor; [done|by eapply IH]].
Qed.

Lemma introspect_reply_named cur reply targets added :
  introspect_reply xml_parse cur reply = Some (targets, added) ->
  Forall (fun a => duconv_name_dbus_path_to_ubus (t_path cur) = Some a.1) added.
Proof.
  unfold introspect_reply. destruct (negb _); [by intros [= <- <-]|].
  destruct (xml_parse _) as [[name props [|x nodes]|name]|]; [by intros [= <- <-]| |by intros [= <- <-]|done].
  cbn -[introspect_nodes].
  destruct (strcmp name "node" =? 0); [|by intros [= <- <-]]. apply introspect_nodes_named.
Qed.

(** The state after the list [p] was answered with [added], and the calls [log]
    were made for it. *)
Definition list_answered (p : nat) (c : wsd_list_ctx) (added : list attr) (log : list dbus_call)
    (d : dbus_rpc) : dbus_rpc :=
  DbusRpc (set_call_q (list_del p (rpc_call_q (d_sess d)))
             (queued (jsonrpc__resp_ubus (wl_id c) 0 (Some ("", BTable (wl_retbuf c ++ added)))) (d_sess d)))
    (d_calls d) (delete p (d_lists d)) (d_pending d) (length log + d_next_call d) (d_bus d ++ log).

Lemma finish_run p c d :
  texts_fit -> linked d p -> d_lists d !! p = Some c -> introspectables c = Some [] ->
  list_continue e de p d = Some (tt, list_answered p c [] [] d).
Proof.
  intros Hfit Hlink Hc Hl. unfold list_continue, M_bind, deref. rewrite Hc, Hl.
  unfold introspect_list_finish, M_bind, deref. rewrite Hc.
  unfold on_sess at 1, jsonrpc__resp_ubus. rewrite (queue_str_run e Hfit).
  rewrite (unlink_run p d), decide_True by done. unfold wsd_list_ctx_free, M_bind, modify, deref. simpl. rewrite Hc.
  unfold list_answered. by rewrite !app_nil_r.
Qed.

(** The state while the introspection of [t] is awaited. *)
Definition asked (p : nat) (c : wsd_list_ctx) (t : introspection_target) (d : dbus_rpc) : dbus_rpc :=
  DbusRpc (d_sess d) (d_calls d) (<[p := wl_set_req (Some (d_next_call d)) c]> (d_lists d))
    (<[d_next_call d := Introspect_cb p]> (d_pending d)) (S (d_next_call d)) (d_bus d ++ [introspect_call t]).

Lemma next_run p c t l d :
  d_send de = Send_pending -> d_lists d !! p = Some c -> introspectables c = Some (t :: l) ->
  wl_call_req c = None ->
  d_new_call de (t_service t) (t_path t) DBUS_INTERFACE_INTROSPECTABLE "Introspect" = true ->
  list_continue e de p d = Some (tt, asked p c t d).
Proof.
  intros Hs Hc Hl Hr Hn. unfold list_continue, M_bind, deref. rewrite Hc, Hl.
  unfold introspect_list_next, M_bind, deref, assert_, M_ret. rewrite Hc, Hl. simpl. rewrite Hn, Hs, Hr. simpl.
  unfold with_list, M_bind, deref, modify. simpl. by rewrite Hc.
Qed.

(** One answer of the bus. *)
Lemma serve_step n p c t l r d :
  d_lists d !! p = Some c -> introspectables c = Some (t :: l) ->
  d_pending d !! d_next_call d = None -> introspect_reply xml_parse t (bus t) = Some r ->
  serve_list (S n) p (asked p c t d) =
  (list_continue e de p ;;; serve_list n p)
    (DbusRpc (d_sess d) (d_calls d)
       (<[p := wl_add r.2 (wl_set_targets (l ++ r.1) (wl_set_req None c))]> (d_lists d))
       (d_pending d) (S (d_next_call d)) (d_bus d ++ [introspect_call t])).
Proof.
  intros Hc Hl Hp Hr. cbn [serve_list]. unfold M_bind at 1, deref at 1. simpl. rewrite lookup_insert_eq.
  unfold M_bind at 1, deref at 1. simpl. unfold M_bind at 1, deref at 1. simpl. rewrite Hl. simpl.
  unfold M_bind. unfold dbus_reply, M_bind, deref at 1. simpl. rewrite lookup_insert_eq.
  rewrite (introspect_cb_run e de xml_parse _ p (bus t) (wl_set_req (Some (d_next_call d)) c) t l)
    by (try done; simpl; by rewrite lookup_insert_eq).
  rewrite Hr. unfold list_at. simpl. rewrite insert_insert_eq, delete_insert_id by done. done.
Qed.

(** The list [p] changes and stays linked. *)
Lemma linked_at p c c' d m n b :
  linked d p -> d_lists d !! p = Some c -> linked (DbusRpc (d_sess d) (d_calls d) (<[p := c']> (d_lists d)) m n b) p.
Proof.
  intros (Hq & Hp & Hb) Hc. assert (Hheap : forall x, on_heap d x ->
    on_heap (DbusRpc (d_sess d) (d_calls d) (<[p := c']> (d_lists d)) m n b) x).
  { unfold on_heap. intros x. simpl. destruct (decide (x = p)) as [->|Hne].
    - rewrite lookup_insert_eq. eauto.
    - by rewrite lookup_insert_ne. }
  split_and!; [done|auto|]. eapply Forall_impl; [exact Hb|auto].
Qed.

Lemma list_run n p c l ts d :
  texts_fit -> d_send de = Send_pending -> linked d p -> Forall2 object_at l ts ->
  length (concat (tree_targets <$> ts)) = n ->
  d_lists d !! p = Some c -> introspectables c = Some l -> wl_call_req c = None ->
  (forall k, is_Some (d_pending d !! k) -> (k < d_next_call d)%nat) ->
  exists added log, added ≡ₚ concat (tree_added <$> ts) /\
    log ≡ₚ introspect_call <$> concat (tree_targets <$> ts) /\
    Forall (fun a => exists t, t ∈ concat (tree_targets <$> ts) /\
      duconv_name_dbus_path_to_ubus (t_path t) = Some a.1) added /\
    (list_continue e de p ;;; serve_list n p) d = Some (tt, list_answered p c added log d).
Proof.
  intros Hfit Hs. revert c l ts d. induction n as [|n IH]; intros c l ts d Hlink Hl Hn Hc Ht Hr Hk.
  - destruct Hl as [|cur t l ts [] Hl]; [|done]. exists [], []. split_and!; [done|done|done|].
    unfold M_bind. by rewrite (finish_run p c d).
  - destruct Hl as [|cur t l ts Hcur Hl]; [done|]. destruct Hcur as [cur targets added subs Hv Hb Hsub].
    assert (d_pending d !! d_next_call d = None) as Hfresh.
    { apply eq_None_not_Some. intros Hx%Hk. lia. }
    unfold M_bind at 1. rewrite (next_run p c cur l d) by done. rewrite (serve_step _ _ _ _ _ _ _ Hc Ht Hfresh Hb).
    edestruct (IH (wl_add added (wl_set_targets (l ++ targets) (wl_set_req None c))) (l ++ targets) (ts ++ subs))
      as (added' & log' & Ha & Hlog & Hname & ->); [..|apply lookup_insert_eq|done|done| |].
    + by eapply linked_at.
    + by apply Forall2_app.
    + rewrite targets_cons in Hn. simpl in Hn. rewrite length_app in Hn. rewrite fmap_app, concat_app, length_app. lia.
    + simpl. intros k Hx. apply Hk in Hx. lia.
    + exists (added ++ added'), (introspect_call cur :: log'). rewrite added_cons, targets_cons. split_and!.
      * rewrite Ha, fmap_app, concat_app. solve_Permutation.
      * rewrite Hlog, fmap_app, concat_app, fmap_app, fmap_cons, fmap_app. solve_Permutation.
      * apply Forall_app. split.
        -- eapply Forall_impl; [by eapply introspect_reply_named|]. intros a Hname'. exists cur. set_solver.
        -- eapply Forall_impl; [done|]. intros a (t & Ht' & Hn'). exists t. split; [|done]. revert Ht'.
           rewrite fmap_app, concat_app, elem_of_cons, !elem_of_app. naive_solver.
      * f_equal. f_equal. unfold list_answered. simpl. rewrite delete_insert_eq, <- !app_assoc.
        f_equal. lia.
Qed.
End listing.

(** C35: a list on D-Bus ends, with every object in it.  As long as the bus
    has not refused a list of the names of its services (a refused list is freed
    while it is linked), and when the services answer
    each introspection with the description of a finite tree of objects, a list
    that waits for the names of the services asks for each object of the trees
    of all named services exactly once, and after as many answers as there are
    objects it queues exactly one response with the id of the request and is
    gone: the response has what ubus reported, and what all objects of the trees
    add, each under the ubus name of an object's path. *)
Theorem dbus_list_complete `{AvlTree, JsonC, LibUbox, !LibDbus} (attrs : attr -> list attr)
    (xml_parse : string -> option xml) (e : env) (de : denv) (bus : introspection_target -> dbus_message)
    (d : dbus_rpc) (k p : nat) (reply : dbus_message) (ts : list otree) :
  texts_fit -> dbus_reach attrs xml_parse true d -> d_pending d !! k = Some (List_cb p) ->
  d_send de = Send_pending -> (check_reply_and_make_error reply (Some "as")).1 = true ->
  Forall2 (object_at de xml_parse bus)
    (list_services (dbus_message_iter_recurse (msg_args reply))) ts ->
  let objects := concat (tree_targets <$> ts) in
  exists c added log, d_lists d !! p = Some c /\
    (dbus_reply e de xml_parse k reply ;;; serve_list e de xml_parse bus (length objects) p) d =
      Some (tt, list_answered p c added log (set_dpending (delete k (d_pending d)) d)) /\
    added ≡ₚ concat (tree_added <$> ts) /\ log ≡ₚ introspect_call <$> objects /\
    Forall (fun a => exists t, t ∈ objects /\ duconv_name_dbus_path_to_ubus (t_path t) = Some a.1) added.
Proof.
  intros Hfit Hr Hk Hs Hok Ht objects. destruct (dbus_reach_inv _ _ _ _ Hr) as [Hi Hh].
  destruct (di_waits _ Hi _ _ Hk) as [[Hq (c & Hc & Hreq & _)] _].
  set (c1 := wl_set_targets (list_services (dbus_message_iter_recurse (msg_args reply)))
               (wl_set_reply (wl_set_req None c))).
  destruct (list_run e de xml_parse bus (length objects) p c1 _ ts (list_at k p c1 d) Hfit Hs
    (linked_at _ _ _ _ _ _ _ (heap_linked _ _ (Hh eq_refl) Hq) Hc) Ht)
    as (added & log & Ha & Hl & Hn & Hrun); [done|apply lookup_insert_eq|done|done|..].
  { simpl. intros k' [n [_ Hk']%lookup_delete_Some]. by eapply (di_waits _ Hi). }
  exists c, added, log. split_and!; [done| |done|done|done].
  unfold M_bind at 1, dbus_reply, M_bind at 1, deref. rewrite Hk, (list_cb_run e de k p reply c d) by done.
  etrans; [exact Hrun|]. unfold list_answered, list_at. simpl. by rewrite delete_insert_eq.
Qed.

(** ** Examples *)

(** All names are valid and a reply will come. *)
Definition open_denv : denv := DEnv (fun _ => true) (fun _ _ _ _ => true) (fun _ _ => Lookup_reply) Send_pending.

Definition reboot : ubusrpc_blob :=
  UbusRpc (Some "abc") (CallArgs "system" "reboot" [("delay", BInt32 5); ("why", BString "upgrade")])
    (Some ubusrpc_handle_call).
Definition reboot_call : dbus_call :=
  DbusCall "se.inteno.iopsys.system" "/se/inteno/iopsys/system" "se.inteno.iopsys.system" "reboot"
    [Append_number Message DBUS_TYPE_INT32 5; Append_text Message DBUS_TYPE_STRING "upgrade"].
Definition rebooting : dbus_rpc :=
  call_sent reboot_call reboot (Some ("id", BInt32 1))
    (set_dbus [DbusCall "se.inteno.iopsys.system" "/lookup" "se.inteno.iopsys.system" "reboot" []]
       (dbus_init session_init)).

(** A service with one object below the root, whose method takes a text. *)
Definition root_doc : xml := XElem "node" [] [XOther "text"; XElem "node" [("name", "wifi")] []].
Definition wifi_doc : xml :=
  XElem "node" [] [XElem "interface" [("name", "se.inteno.iopsys.wifi")]
    [XElem "method" [("name", "scan")]
      [XElem "arg" [("name", "band"); ("type", "s"); ("direction", "in")] [];
       XElem "arg" [("name", "found"); ("type", "as"); ("direction", "out")] []]]].
Definition two_docs (text : string) : option xml :=
  if decide (text = "root") then Some root_doc else if decide (text = "wifi") then Some wifi_doc else None.
Definition text_reply (s : string) : dbus_message :=
  DbusMessage DBUS_MESSAGE_TYPE_METHOD_RETURN "s" "" [DText DBUS_TYPE_STRING s].
Definition two_objects (t : introspection_target) : dbus_message :=
  text_reply (if decide (t_path t = WSD_DBUS_OBJECTS_PATH) then "root" else "wifi").
Definition names_reply : dbus_message :=
  DbusMessage DBUS_MESSAGE_TYPE_METHOD_RETURN "as" ""
    [DArray DBUS_TYPE_STRING [DText DBUS_TYPE_STRING ":1.1"; DText DBUS_TYPE_STRING "se.inteno.iopsys"]].
Definition wifi_added : list attr := [("wifi", BTable [("scan", BTable [("band", BString "string")])])].
Definition two_tree : otree :=
  OTree (Target "se.inteno.iopsys" "/se/inteno/iopsys") []
    [OTree (Target "se.inteno.iopsys" "/se/inteno/iopsys/wifi") wifi_added []].
Definition listing : dbus_rpc :=
  let l := WsdList (Some ("id", BInt32 2)) [] false (Some 0%nat) None in
  DbusRpc (set_call_q [0%nat] (set_q_len (u32 (-1)) (set_next 1 session_init))) ∅ {[0%nat := l]}
    {[0%nat := List_cb 0]} 1
    [DbusCall DBUS_SERVICE_DBUS DBUS_PATH_DBUS DBUS_SERVICE_DBUS "ListNames" []].

Local Abbreviation reach := (dbus_reach (H := list_avl) (H0 := ref_jsonc) (H1 := ref_libubox) (H2 := ref_libdbus)).

Lemma rebooting_reach : reach (fun _ => []) two_docs true rebooting.
Proof.
  eapply (dr_call (H := list_avl) (H0 := ref_jsonc) (H1 := ref_libubox) (H2 := ref_libdbus)
    _ _ true quiet_env open_denv reboot (Some ("id", BInt32 1)) 0); [apply (dr_init _ _ session_init); constructor|].
  vm_compute. reflexivity.
Qed.

Lemma listing_reach : reach (fun _ => []) two_docs true listing.
Proof.
  eapply (dr_list (H := list_avl) (H0 := ref_jsonc) (H1 := ref_libubox) (H2 := ref_libdbus)
    _ _ true quiet_env open_denv (Some ("id", BInt32 2)) 0); [apply (dr_init _ _ session_init); constructor|].
  vm_compute. reflexivity.
Qed.

Lemma dbus_call_forwarded_witness :
  let d := dbus_init session_init in
  let id := Some ("id", BInt32 1) in
  let params := [("delay", BInt32 5); ("why", BString "upgrade")] in
  exists name, duconv_name_ubus_to_dbus_name "system" = Some name /\
  match handle_call_dbus (H1 := ref_libubox) (H2 := ref_libdbus) open_denv (fun _ => []) reboot id d with
  | None => False
  | Some (ret, d1) => ret = 0 ->
      exists log vs, Forall2 (comes_back_as (H := ref_libdbus)) params vs /\
        d1 = call_sent (DbusCall name (duconv_name_ubus_to_dbus_path "system") name "reboot"
                          (concat (append_value <$> vs))) reboot id (set_dbus (d_bus d ++ log) d)
  end.
Proof.
  destruct (@dbus_call_forwarded list_avl ref_jsonc ref_libubox ref_libdbus quiet_env open_denv (fun _ => [])
    reboot (Some ("id", BInt32 1)) "system" "reboot" [("delay", BInt32 5); ("why", BString "upgrade")]
    (dbus_init session_init) eq_refl) as (name & Hn & Hrun).
  exists name. split; [exact Hn|]. destruct (handle_call_dbus _ _ _ _ _) as [[ret d1]|] eqn:E.
  - destruct Hrun as (_ & _ & _ & log & Hsent & _). intros Hret. destruct (Hsent Hret) as (_ & ops & _ & Hvs & ->).
    destruct Hvs as (vs & -> & Hback); [repeat constructor; done|]. exists log, vs. split; [exact Hback|reflexivity].
  - vm_compute in E. discriminate E.
Defined.

Lemma dbus_call_answered_witness :
  let reply := DbusMessage DBUS_MESSAGE_TYPE_METHOD_RETURN "b" "" [DNum DBUS_TYPE_BOOLEAN 1] in
  exists c text, d_calls rebooting !! 0%nat = Some c /\ 0%nat ∈ rpc_call_q (d_sess rebooting) /\
    dbus_reply (H1 := ref_libubox) (H2 := ref_libdbus) quiet_env open_denv two_docs 0 reply
      rebooting = Some (tt, call_answered 0 0 text rebooting) /\ linked rebooting 0 /\
    (msg_type reply = DBUS_MESSAGE_TYPE_METHOD_RETURN ->
      text = jsonrpc__resp_ubus (H := ref_libubox) (wc_id c) 0
        (Some ("", BTable [("b", BArray (omap (fun v => pair "" <$> value_blob v) (msg_args reply)))]))) /\
    (msg_type reply = DBUS_MESSAGE_TYPE_ERROR ->
      exists data, text = jsonrpc__resp_error (H := ref_libubox) (wc_id c) JSONRPC_ERRORCODE__OTHER
                            (Some ("data", BTable data)) /\
        head data = Some ("DBus", BString "")).
Proof.
  destruct (@dbus_call_answered list_avl ref_jsonc ref_libubox ref_libdbus (fun _ => []) two_docs quiet_env open_denv
    true rebooting 0 0 (DbusMessage DBUS_MESSAGE_TYPE_METHOD_RETURN "b" "" [DNum DBUS_TYPE_BOOLEAN 1]))
    as (Hlink & c & text & Hc & Hq & Hrun & Hret & Herr).
  - apply ref_fit.
  - apply rebooting_reach.
  - done.
  - left. split; [done|]. constructor; [|constructor]. exists 32. split; [done|lia].
  - specialize (Hlink eq_refl). rewrite decide_True in Hrun by exact Hlink.
    exists c, text. split_and!; [exact Hc|exact Hq|exact Hrun|exact Hlink|exact Hret|exact Herr].
Defined.

(** The names are refused while a call waits behind the list: the reply to the
    call does not come back. *)
Definition refused : dbus_message := DbusMessage DBUS_MESSAGE_TYPE_ERROR "" DBUS_ERROR_SERVICE_UNKNOWN [].
Definition after_refusal : M dbus_rpc unit :=
  let* _ := handle_call (H := list_avl) (H0 := ref_jsonc) (H1 := ref_libubox) (H2 := ref_libdbus)
              quiet_env open_denv (fun _ => []) reboot (Some ("id", BInt32 3)) in
  dbus_reply (H1 := ref_libubox) (H2 := ref_libdbus) quiet_env open_denv two_docs 0 refused.
Example refused_names_crash :
  is_Some (after_refusal listing) /\
  (after_refusal ;;; dbus_reply (H1 := ref_libubox) (H2 := ref_libdbus) quiet_env open_denv two_docs 1
     (text_reply "done")) listing = None.
Proof. split; [vm_compute; by eexists|vm_compute; reflexivity]. Qed.

Lemma list_close_crashes_witness : cancel_requests listing = None.
Proof.
  apply (@list_close_crashes list_avl ref_jsonc ref_libubox ref_libdbus (fun _ => []) two_docs true listing 0 0);
    [apply listing_reach|done].
Defined.

Lemma dbus_list_complete_witness :
  exists c added log, d_lists listing !! 0%nat = Some c /\
    (dbus_reply (H1 := ref_libubox) (H2 := ref_libdbus) quiet_env open_denv two_docs 0 names_reply ;;;
     serve_list (H1 := ref_libubox) (H2 := ref_libdbus) quiet_env open_denv two_docs two_objects 2 0)
      listing = Some (tt, list_answered (H1 := ref_libubox) 0 c added log (set_dpending (delete 0%nat (d_pending listing)) listing)) /\
    added ≡ₚ wifi_added /\ log ≡ₚ introspect_call <$> tree_targets two_tree /\
    Forall (fun a => exists t, t ∈ tree_targets two_tree /\
      duconv_name_dbus_path_to_ubus (t_path t) = Some a.1) added.
Proof.
  apply (@dbus_list_complete list_avl ref_jsonc ref_libubox ref_libdbus (fun _ => []) two_docs quiet_env open_denv
    two_objects listing 0 0 names_reply [two_tree]).
  - apply ref_fit.
  - apply listing_reach.
  - done.
  - done.
  - done.
  - constructor; [|constructor]. econstructor; [done|vm_compute; reflexivity|].
    constructor; [|constructor]. econstructor; [done|vm_compute; reflexivity|constructor].
Defined.
