(* ===== verification/DBusSession.v ===== *)
(** * Sessions in a build with D-Bus: messages, subscriptions and signals

    rpc_sub.c keeps the subscriptions of all clients in one static list.  With
    D-Bus, the first subscription switches the signals of the bus on (a match
    rule and a message filter of the connection) and the last one switches them
    off; a signal goes to every subscription whose pattern matches its member.
    The state is therefore that of the whole daemon: the clients, each with the
    session of Session and the requests of DBusRpc, the static list, and what
    was added to the connection to the bus.  The message handler of wsubus.c,
    the cleaner and the end of a session of wsubus.impl.h are those of this
    build.  The environment of Session is given for each client. *)

From stdpp Require Import base list strings numbers sets gmap.
From S2P Require Import Prelude CStrings Avl Patterns Libs UbusxAcl Rpc PeerIO AccessCheck Session.
From S2P Require Import DBus DBusRpc.

Local Arguments strcmp : simpl never.

(** [dm_listen] is [listen_list]: the client and the address of each element.
    [dm_match] and [dm_filter] count the match rules and filters that were added
    to the connection and not removed. *)
Record daemon := Daemon {
  dm_clients : gmap nat dbus_rpc;
  dm_listen : list (nat * nat);
  dm_match : Z;
  dm_filter : Z;
}.

Definition daemon_init : daemon := Daemon ∅ [] 0 0.

Definition set_client c d D := Daemon (<[c := d]> (dm_clients D)) (dm_listen D) (dm_match D) (dm_filter D).
Definition set_dlisten l D := Daemon (dm_clients D) l (dm_match D) (dm_filter D).

(** A step of one client. *)
Definition on_client {A} (c : nat) (m : M dbus_rpc A) : M daemon A :=
  fun D => match dm_clients D !! c with
           | None => None
           | Some d => match m d with
                       | Some (a, d') => Some (a, set_client c d' D)
                       | None => None
                       end
           end.

Definition on_csess {A} (c : nat) (m : M session A) : M daemon A := on_client c (on_sess m).

Definition signals_on : M daemon unit :=
  modify (fun D => Daemon (dm_clients D) (dm_listen D) (dm_match D + 1) (dm_filter D + 1)).
Definition signals_off : M daemon unit :=
  modify (fun D => Daemon (dm_clients D) (dm_listen D) (dm_match D - 1) (dm_filter D - 1)).

Definition is_nil {A} (l : list A) : bool := match l with [] => true | _ => false end.

Section daemon.
Context `{AvlTree, JsonC, LibUbox, !LibDbus}.
(** What the libraries answer to each client. *)
Variable envs : nat -> env.
Variable de : denv.
Variable blob_data_attrs : attr -> list attr.
(** [fnmatch(pattern, string, 0) == 0], and [sprintf] of a format with a number. *)
Variable fnmatch0 : string -> string -> bool.
Variable sprintf : string -> Z -> string.

(** ** rpc_sub.c *)

Definition unsub_elem (c p : nat) : M daemon unit :=
  let* _ := on_csess c (deref (fun s => subs s !! p)) in
  modify (fun D => set_dlisten (filter (fun x => x <> (c, p)) (dm_listen D)) D) ;;;
  let* D := get in
  (when is_nil (dm_listen D) do signals_off) ;;;
  on_csess c (wsubus_unsub_elem p).

Definition handle_sub (c : nat) (r : ubusrpc_blob) (id : option attr) : M daemon Z :=
  let ret := e_register (envs c) in
  (when ret =? 0 do
     (let* p := on_csess c alloc in
      let pattern := match rpc_args_of r with SubArgs (Some p) => p | _ => "" end in
      on_csess c (modify (fun s => set_subs (<[p := SubInfo pattern (default "" (rpc_sid r))]> (subs s)) s)) ;;;
      let* D := get in
      (when is_nil (dm_listen D) do signals_on) ;;;
      modify (fun D => set_dlisten (dm_listen D ++ [(c, p)]) D) ;;;
      on_csess c (modify (fun s => set_listen (listen_list s ++ [p]) s)) ;;;
      on_client c (list_link p))) ;;;
  on_csess c (queue_str (envs c) (jsonrpc__resp_ubus id ret None)) ;;;
  on_csess c dec_q_len ;;;
  M_ret 0.

(** The elements of the static list that belong to [c]. *)
Fixpoint listen_of (c : nat) (l : list (nat * nat)) : list nat :=
  match l with
  | [] => []
  | (c', p) :: rest => if decide (c' = c) then p :: listen_of c rest else listen_of c rest
  end.

Definition handle_sub_list (c : nat) (id : option attr) : M daemon Z :=
  let* D := get in
  let* l := on_csess c (deref (fun s => sub_list_from (subs s) (listen_of c (dm_listen D)))) in
  on_csess c (queue_str (envs c) (jsonrpc__resp_ubus id 0 (Some ("", BArray l)))) ;;;
  on_csess c dec_q_len ;;;
  M_ret 0.

(** The loop of [ubusrpc_handle_unsub] over the elements of [c]. *)
Fixpoint unsub_all (c : nat) (pattern : string) (l : list nat) : M daemon bool :=
  match l with
  | [] => M_ret false
  | p :: rest =>
      let* i := on_csess c (deref (fun s => subs s !! p)) in
      let* b :=
        if strcmp pattern (si_pattern i) =? 0 then
          on_client c (list_unlink p) ;;;
          unsub_elem c p ;;;
          M_ret true
        else M_ret false in
      let* b' := unsub_all c pattern rest in
      M_ret (b || b')
  end.

Definition handle_unsub (c : nat) (r : ubusrpc_blob) (id : option attr) : M daemon Z :=
  let pattern := match rpc_args_of r with SubArgs (Some p) => p | _ => "" end in
  let* D := get in
  let* found := unsub_all c pattern (listen_of c (dm_listen D)) in
  on_csess c (queue_str (envs c) (jsonrpc__resp_ubus id (if found then 0 else 5) None)) ;;;
  on_csess c dec_q_len ;;;
  M_ret 0.

(** The arguments of a signal: the body of the loop runs once in any case. *)
Fixpoint signal_args (it : list dvalue) (conv : duconv_convert) : duconv_convert :=
  let conv := (duconv_msgiter_dbus_to_ubus_add_arg sprintf it None conv).2 in
  match it with
  | _ :: ((_ :: _) as rest) => signal_args rest conv
  | _ => conv
  end.

Definition signal_blob (type : string) (args : list dvalue) (i : sub_info) : list attr :=
  [("jsonrpc", BString "2.0"); ("method", BString "event");
   ("params", BTable [("type", BString type);
                      ("data", BTable (conv_b (signal_args args (duconv_convert_init "arg%d"))));
                      blobmsg_add_sub_info "subscription" i])].

Inductive DBusHandlerResult := DBUS_HANDLER_RESULT_HANDLED | DBUS_HANDLER_RESULT_NOT_YET_HANDLED.

Definition signal_to (type : string) (args : list dvalue) (x : nat * nat) : M daemon unit :=
  let* i := on_csess x.1 (deref (fun s => subs s !! x.2)) in
  when fnmatch0 (si_pattern i) type do
    on_csess x.1 (queue_str (envs x.1) (blobmsg_format_json (signal_blob type args i))).

(** [member] is [dbus_message_get_member] of the message. *)
Definition ws_sub_cb_dbus (msg : dbus_message) (member : string) : M daemon DBusHandlerResult :=
  match msg_type msg with
  | DBUS_MESSAGE_TYPE_SIGNAL =>
      let* D := get in
      forM_ (dm_listen D) (signal_to member (msg_args msg)) ;;;
      M_ret DBUS_HANDLER_RESULT_HANDLED
  | _ => M_ret DBUS_HANDLER_RESULT_NOT_YET_HANDLED
  end.

(** ** wsubus.c *)

Definition run_handler_dbus (c : nat) (h : handler) (r : ubusrpc_blob) (id : option attr) : M daemon Z :=
  match h with
  | ubusrpc_handle_call => on_client c (handle_call (envs c) de blob_data_attrs r id)
  | ubusrpc_handle_list => on_client c (handle_list (envs c) de id)
  | ubusrpc_handle_sub => handle_sub c r id
  | ubusrpc_handle_sub_list => handle_sub_list c id
  | ubusrpc_handle_unsub => handle_unsub c r id
  end.

Definition on_msg (c : nat) (blob : list attr) : M daemon unit :=
  let* len := on_csess c (gets rpc_q_len) in
  if u32 (e_req_max (envs c)) <? len then M_ret tt
  else
    let '(rc, req) := jsonrpc_blob_req_parse blob in
    if negb (rc =? 0) then
      on_csess c (queue_str (envs c) (jsonrpc__resp_error (req_id req) JSONRPC_ERRORCODE__INVALID_REQUEST None))
    else match req_method req, req_params req with
    | Some method, Some params =>
        match ubusrpc_blob_parse method params with
        | (err, None) => on_csess c (queue_str (envs c) (jsonrpc__resp_error (req_id req) err None))
        | (_, Some r) =>
            let* sid := on_csess c (deref (fun _ => wsu_sid_update (rpc_sid r))) in
            on_csess c (modify (set_sid sid)) ;;;
            let* h := on_csess c (deref (fun _ => rpc_handler r)) in
            let* ret := run_handler_dbus c h r (req_id req) in
            if negb (ret =? 0)
            then on_csess c (queue_str (envs c) (jsonrpc__resp_error (req_id req) JSONRPC_ERRORCODE__OTHER None))
            else on_csess c (modify (fun s => set_q_len (u32 (rpc_q_len s + 1)) s))
        end
    | _, _ => abort
    end.

(** ** wsubus.impl.h *)

(** Requests on D-Bus are not marked as method calls and are passed over. *)
Definition clean_stale_any (c p : nat) : M daemon unit :=
  let* D := get in
  match dm_clients D !! c with
  | None => abort
  | Some d =>
      match d_calls d !! p, d_lists d !! p with
      | None, None => on_csess c (clean_stale_one (envs c) p)
      | _, _ => M_ret tt
      end
  end.

Definition clean_stale (c : nat) : M daemon unit :=
  let* q := on_csess c (gets rpc_call_q) in
  forM_ q (clean_stale_any c).

(** [cancel_and_destroy] of an element of [rpc_call_q] of [c]. *)
Definition cancel_any (c p : nat) : M daemon unit :=
  let* D := get in
  match dm_clients D !! c with
  | None => abort
  | Some d =>
      match d_calls d !! p, d_lists d !! p, calls (d_sess d) !! p with
      | None, None, None => unsub_elem c p
      | _, _, _ => on_client c (cancel_request p)
      end
  end.

(** [wsu_peer_deinit]; libwebsockets then frees the peer. *)
Definition peer_deinit (c : nat) : M daemon unit :=
  on_csess c (modify (set_write_q [])) ;;;
  let* a := on_csess c (gets access_check_q) in
  forM_ a (fun p => on_csess c (cancel_check p)) ;;;
  let* q := on_csess c (gets rpc_call_q) in
  forM_ q (fun p => on_client c (list_unlink p) ;;; cancel_any c p) ;;;
  modify (fun D => Daemon (delete c (dm_clients D)) (dm_listen D) (dm_match D) (dm_filter D)).
End daemon.
