(* ===== verification/DBusSessionProps.v ===== *)
(** * DBusSession: who listens, and what a signal does

    The subscriptions of a client stay linked in its queue whatever callbacks
    come ([quiet]); from that, the static list of the daemon holds exactly the
    subscriptions of the clients that are connected, and the signals of the bus
    are on exactly while it is not empty ([listen_inv], kept by every step).  A
    signal is then computed in closed form ([signalled]). *)

From stdpp Require Import base list strings numbers sets gmap.
From S2P Require Import Prelude CStrings Avl Patterns Libs UbusxAcl Rpc PeerIO AccessCheck Session.
From S2P Require Import SessionInv SessionProps DBus DBusRpc DBusRpcProps DBusSession.

Local Arguments strcmp : simpl never.
Set Default Proof Using "Type".

(** ** Subscriptions stay linked

    What the end of a session relies on: a subscription of a client is in the
    queue of its requests, and its address is not that of another request. *)

Record sub_ok (d : dbus_rpc) : Prop := {
  so_fresh p : (next_ptr (d_sess d) <= p)%nat ->
    subs (d_sess d) !! p = None /\ calls (d_sess d) !! p = None /\ d_calls d !! p = None /\ d_lists d !! p = None;
  so_sub p : is_Some (subs (d_sess d) !! p) ->
    p ∈ rpc_call_q (d_sess d) /\ calls (d_sess d) !! p = None /\ d_calls d !! p = None /\ d_lists d !! p = None;
}.

(** A step that leaves the subscriptions as they are. *)
Definition quiet (d d' : dbus_rpc) : Prop :=
  sub_ok d' /\ subs (d_sess d') = subs (d_sess d) /\ listen_list (d_sess d') = listen_list (d_sess d).

Lemma quiet_trans d1 d2 d3 : quiet d1 d2 -> quiet d2 d3 -> quiet d1 d3.
Proof. intros (_ & E1 & E2) (Hok & E3 & E4). split_and!; congruence. Qed.

(** A step on the context [p] alone, which is no subscription. *)
Lemma quiet_step p d d' :
  sub_ok d -> subs (d_sess d) !! p = None ->
  subs (d_sess d') = subs (d_sess d) -> listen_list (d_sess d') = listen_list (d_sess d) ->
  (next_ptr (d_sess d) <= next_ptr (d_sess d'))%nat -> (p < next_ptr (d_sess d'))%nat ->
  (forall q, q <> p -> calls (d_sess d') !! q = calls (d_sess d) !! q /\
     d_calls d' !! q = d_calls d !! q /\ d_lists d' !! q = d_lists d !! q) ->
  (forall q, q <> p -> q ∈ rpc_call_q (d_sess d) -> q ∈ rpc_call_q (d_sess d')) ->
  quiet d d'.
Proof.
  intros Hok Hp Hs Hl Hn Hlt Hctx Hq. split_and!; [|done..]. split.
  - intros x Hx. destruct (Hctx x) as (-> & -> & ->); [lia|]. rewrite Hs. apply Hok. lia.
  - intros x Hx. rewrite Hs in Hx. destruct (so_sub _ Hok x Hx) as (Hin & H1 & H2 & H3).
    assert (x <> p) by (intros ->; rewrite Hp in Hx; by destruct Hx).
    destruct (Hctx x) as (-> & -> & ->); auto.
Qed.

(** A step that touches no context. *)
Lemma quiet_same d d' :
  sub_ok d -> subs (d_sess d') = subs (d_sess d) -> listen_list (d_sess d') = listen_list (d_sess d) ->
  next_ptr (d_sess d') = next_ptr (d_sess d) -> calls (d_sess d') = calls (d_sess d) ->
  d_calls d' = d_calls d -> d_lists d' = d_lists d -> rpc_call_q (d_sess d') = rpc_call_q (d_sess d) ->
  quiet d d'.
Proof.
  intros Hok Hs Hl Hn Hc Hdc Hdl Hq. split_and!; [|done..]. split.
  - intros x. rewrite Hn, Hs, Hc, Hdc, Hdl. apply Hok.
  - intros x. rewrite Hs, Hc, Hdc, Hdl, Hq. apply Hok.
Qed.

Lemma quiet_refl d : sub_ok d -> quiet d d.
Proof. intros. by apply quiet_same. Qed.

Lemma not_sub_call d p : sub_ok d -> is_Some (calls (d_sess d) !! p) -> subs (d_sess d) !! p = None /\ (p < next_ptr (d_sess d))%nat.
Proof.
  intros Hok [x Hx]. split.
  - apply eq_None_not_Some. intros Hs. apply (so_sub _ Hok) in Hs as (_ & Hc & _). congruence.
  - destruct (decide (p < next_ptr (d_sess d))%nat); [done|]. destruct (so_fresh _ Hok p) as (_ & Hc & _); [lia|congruence].
Qed.

Lemma not_sub_dcall d p : sub_ok d -> is_Some (d_calls d !! p) -> subs (d_sess d) !! p = None /\ (p < next_ptr (d_sess d))%nat.
Proof.
  intros Hok [x Hx]. split.
  - apply eq_None_not_Some. intros Hs. apply (so_sub _ Hok) in Hs as (_ & _ & Hc & _). congruence.
  - destruct (decide (p < next_ptr (d_sess d))%nat); [done|]. destruct (so_fresh _ Hok p) as (_ & _ & Hc & _); [lia|congruence].
Qed.

Lemma not_sub_dlist d p : sub_ok d -> is_Some (d_lists d !! p) -> subs (d_sess d) !! p = None /\ (p < next_ptr (d_sess d))%nat.
Proof.
  intros Hok [x Hx]. split.
  - apply eq_None_not_Some. intros Hs. apply (so_sub _ Hok) in Hs as (_ & _ & _ & Hc). congruence.
  - destruct (decide (p < next_ptr (d_sess d))%nat); [done|]. destruct (so_fresh _ Hok p) as (_ & _ & _ & Hc); [lia|congruence].
Qed.

Section quiet.
Context `{AvlTree, JsonC, LibUbox, !LibDbus}.
Variable e : env.
Variable de : denv.
Variable blob_data_attrs : attr -> list attr.
Variable xmlParseMemory : string -> option xml.

Local Ltac qstep :=
  first
    [ pwp_step
    | lazymatch goal with
      | |- pwp (list_link _) _ _ => unfold list_link
      | |- pwp (send_pending _ _) _ _ => apply pwp_send
      | |- pwp (on_sess _) _ _ => apply pwp_on_sess
      | |- pwp alloc _ _ => apply pwp_alloc
      | |- pwp (queue_str _ _) _ _ => apply pwp_queue; intros ?
      | |- pwp (assert_ _) _ _ => apply pwp_assert; intros ?
      end ].
Local Ltac qsteps := repeat (qstep; simpl in *).

(** The context [p] is the only one touched. *)
Local Ltac touch p :=
  apply (quiet_step p); simpl;
  [ done | done | done | done | lia | lia
  | intros ? ?; repeat first [rewrite lookup_insert_ne by done | rewrite lookup_delete_ne by done]; done
  | intros ? ?; rewrite ?elem_of_list_del, ?elem_of_app; auto ].

Lemma fresh_not_sub d : sub_ok d -> subs (d_sess d) !! next_ptr (d_sess d) = None.
Proof. intros Hok. by apply (so_fresh _ Hok). Qed.

Lemma handle_call_ubus_quiet r id d :
  sub_ok d -> pwp (on_sess (handle_call_ubus e r id)) (fun _ d' => quiet d d') d.
Proof.
  intros Hok. pose proof (fresh_not_sub d Hok) as Hf.
  unfold handle_call_ubus, wsubus_percall_ctx_create, wsubus_call_do_check_then_do_call,
    wsubus_percall_ctx_destroy, with_call, dec_q_len.
  qsteps; touch (next_ptr (d_sess d)).
Qed.

Lemma quiet_log d l : sub_ok d -> quiet d (set_dbus l d).
Proof. intros. by apply quiet_same. Qed.

Lemma send_call_quiet c r id d : sub_ok d -> pwp (send_call de c r id) (fun _ d' => quiet d d') d.
Proof.
  intros Hok. pose proof (fresh_not_sub d Hok) as Hf. unfold send_call.
  qsteps; [by apply quiet_refl|]. touch (next_ptr (d_sess d)).
Qed.

Lemma handle_call_dbus_quiet r id d :
  sub_ok d -> pwp (handle_call_dbus de blob_data_attrs r id) (fun _ d' => quiet d d') d.
Proof.
  intros Hok. unfold handle_call_dbus, lookup_unknown.
  repeat qstep; try (by apply quiet_refl); try (by apply quiet_log).
  all: eapply pwp_mono; [apply send_call_quiet; first [done | by apply (quiet_log d)]|].
  all: intros ? d' Hq; eapply quiet_trans; [|exact Hq]; first [by apply quiet_refl | by apply quiet_log].
Qed.

Lemma handle_call_quiet r id d :
  sub_ok d -> pwp (handle_call e de blob_data_attrs r id) (fun _ d' => quiet d d') d.
Proof.
  intros Hok. unfold handle_call. apply pwp_bind. eapply pwp_mono; [by apply handle_call_dbus_quiet|].
  intros ret d1 Hq. cbn beta. destruct (ret =? 0); [by apply pwp_ret|].
  eapply pwp_mono; [apply handle_call_ubus_quiet, Hq|]. intros ? d2 Hq2. eapply quiet_trans; [exact Hq|exact Hq2].
Qed.

Lemma handle_list_quiet id d : sub_ok d -> pwp (handle_list e de id) (fun _ d' => quiet d d') d.
Proof.
  intros Hok. pose proof (fresh_not_sub d Hok) as Hf.
  unfold handle_list, list_ubus_quiet, handle_list_dbus, with_list, dec_q_len. qsteps; touch (next_ptr (d_sess d)).
Qed.

Lemma call_cb_quiet k p reply d : sub_ok d -> pwp (wsd_call_cb e k p reply) (fun _ d' => quiet d d') d.
Proof.
  intros Hok. unfold wsd_call_cb, wsd_call_ctx_cancel_and_destroy, wsd_call_ctx_free, steal, list_unlink.
  qsteps; destruct (not_sub_dcall d p Hok) as [Hs Hlt]; eauto; touch p.
Qed.

Lemma list_continue_quiet p d : sub_ok d -> pwp (list_continue e de p) (fun _ d' => quiet d d') d.
Proof.
  intros Hok. unfold list_continue, introspect_list_finish, introspect_list_next, wsd_list_ctx_free, with_list, list_unlink.
  qsteps; destruct (not_sub_dlist d p Hok) as [Hs Hlt]; eauto; first [by apply quiet_refl | touch p].
Qed.

Lemma then_continue p d d1 : quiet d d1 -> pwp (list_continue e de p) (fun _ d' => quiet d d') d1.
Proof.
  intros Hq. eapply pwp_mono; [apply list_continue_quiet, Hq|]. intros ? d2 Hq2.
  eapply quiet_trans; [exact Hq|exact Hq2].
Qed.

(** The pending call and the fields of the list [p] change. *)
Lemma quiet_list p d d' : sub_ok d -> is_Some (d_lists d !! p) ->
  d_sess d' = d_sess d -> d_calls d' = d_calls d ->
  (forall q, q <> p -> d_lists d' !! q = d_lists d !! q) -> quiet d d'.
Proof.
  intros Hok Hp Es Ec Hl. destruct (not_sub_dlist d p Hok Hp) as [Hs Hlt].
  apply (quiet_step p); rewrite ?Es, ?Ec; auto.
Qed.

Local Ltac keep_others := intros ? ?; simpl; by rewrite ?lookup_insert_ne, ?lookup_delete_ne.

Lemma list_cb_quiet k p reply d : sub_ok d -> pwp (wsd_list_cb e de k p reply) (fun _ d' => quiet d d') d.
Proof.
  intros Hok. unfold wsd_list_cb, wsd_list_ctx_free, steal, with_list. repeat qstep.
  - apply then_continue. apply (quiet_list p); [done|by eauto|done|done|keep_others].
  - destruct (not_sub_dlist d p Hok) as [Hs Hlt]; [by eauto|]. simpl in *. touch p.
Qed.

Lemma introspect_cb_quiet k p reply d :
  sub_ok d -> pwp (wsd_introspect_cb e de xmlParseMemory k p reply) (fun _ d' => quiet d d') d.
Proof.
  intros Hok. unfold wsd_introspect_cb, steal, with_list. repeat qstep.
  apply then_continue. apply (quiet_list p); [done|by eauto|done|done|keep_others].
Qed.

Lemma dbus_reply_quiet k reply d :
  sub_ok d -> pwp (dbus_reply e de xmlParseMemory k reply) (fun _ d' => quiet d d') d.
Proof.
  intros Hok. unfold dbus_reply. do 3 qstep;
    auto using call_cb_quiet, list_cb_quiet, introspect_cb_quiet.
Qed.

(** *** Steps of the session *)

Lemma access_completed_quiet p allow d :
  sub_ok d -> pwp (on_sess (wsubus_access_on_completed e p allow)) (fun _ d' => quiet d d') d.
Proof.
  intros Hok. unfold wsubus_access_on_completed, wsubus_call_do_call, wsubus_percall_ctx_destroy, with_call, dec_q_len.
  repeat qstep; (destruct (not_sub_call d p Hok) as [Hs Hlt]; [by eauto|]); simpl in *; touch p.
Qed.

Lemma completed_quiet p status d :
  sub_ok d -> pwp (on_sess (wsubus_call_on_completed e p status)) (fun _ d' => quiet d d') d.
Proof.
  intros Hok. unfold wsubus_call_on_completed, wsubus_percall_ctx_destroy, with_call, dec_q_len.
  repeat qstep; (destruct (not_sub_call d p Hok) as [Hs Hlt]; [by eauto|]); simpl in *; touch p.
Qed.

Lemma retdata_quiet p msg d :
  sub_ok d -> pwp (on_sess (wsubus_call_on_retdata p msg)) (fun _ d' => quiet d d') d.
Proof.
  intros Hok. unfold wsubus_call_on_retdata, with_call.
  repeat qstep; [destruct (not_sub_call d p Hok) as [Hs Hlt]; [by eauto|]; simpl in *; touch p|by apply quiet_same].
Qed.

Lemma ev_check_quiet t access d :
  sub_ok d -> pwp (on_sess (wsubus_ev_check_cb e t access)) (fun _ d' => quiet d d') d.
Proof. intros Hok. unfold wsubus_ev_check_cb, wsubus_ev_destroy_ctx. repeat qstep; by apply quiet_same. Qed.

Lemma sub_cb_quiet p type msg d :
  sub_ok d -> pwp (on_sess (wsubus_sub_cb e p type msg)) (fun _ d' => quiet d d') d.
Proof.
  intros Hok. pose proof (fresh_not_sub d Hok) as Hf.
  unfold wsubus_sub_cb, wsubus_ev_destroy_ctx. repeat qstep; simpl in *; touch (next_ptr (d_sess d)).
Qed.

Lemma clean_one_quiet p d :
  sub_ok d -> pwp (on_sess (clean_stale_one e p)) (fun _ d' => quiet d d') d.
Proof.
  intros Hok. unfold clean_stale_one, wsubus_percall_ctx_destroy, dec_q_len. repeat qstep.
  all: try (by apply quiet_same).
  destruct (not_sub_call d p Hok) as [Hs Hlt]; [by eauto|]. simpl in *. touch p.
Qed.

Lemma cancel_check_quiet p d :
  sub_ok d -> pwp (on_sess (cancel_check p)) (fun _ d' => quiet d d') d.
Proof. intros Hok. unfold cancel_check, wsubus_ev_destroy_ctx. repeat qstep; by apply quiet_same. Qed.

(** A request that is no subscription is unlinked and cancelled. *)
Lemma cancel_request_quiet p d :
  sub_ok d -> is_Some (d_calls d !! p) \/ is_Some (d_lists d !! p) \/ is_Some (calls (d_sess d) !! p) ->
  pwp (list_unlink p ;;; cancel_request p) (fun _ d' => quiet d d' /\
    rpc_call_q (d_sess d') = list_del p (rpc_call_q (d_sess d))) d.
Proof.
  intros Hok Hp.
  assert (Hnot : subs (d_sess d) !! p = None /\ (p < next_ptr (d_sess d))%nat).
  { destruct Hp as [?|[?|?]]; auto using not_sub_dcall, not_sub_dlist, not_sub_call. }
  destruct Hnot as [Hs Hlt].
  unfold list_unlink, cancel_request, wsd_call_ctx_cancel_and_destroy, wsd_list_ctx_cancel_and_destroy,
    wsd_list_ctx_free, wsd_call_ctx_free, steal, cancel_and_destroy, wsubus_percall_ctx_destroy, wsubus_unsub_elem, dec_q_len.
  repeat qstep; simpl in *.
  all: try (split; [touch p|done]).
  all: exfalso; destruct Hp as [[? ?]|[[? ?]|[? ?]]]; simplify_map_eq.
Qed.
End quiet.

(** ** The list of subscriptions of the daemon *)

Lemma listen_of_app c l l' : listen_of c (l ++ l') = listen_of c l ++ listen_of c l'.
Proof. induction l as [|[c' p] l IH]; simpl; [done|]. case_decide; simpl; by rewrite IH. Qed.

Lemma elem_of_listen c p l : p ∈ listen_of c l <-> (c, p) ∈ l.
Proof.
  induction l as [|[c' q] l IH]; simpl; [set_solver|].
  case_decide as E; rewrite ?elem_of_cons, IH; naive_solver.
Qed.

Lemma listen_of_drop c p c' l :
  listen_of c' (filter (fun x => x <> (c, p)) l) = if decide (c' = c) then list_del p (listen_of c' l) else listen_of c' l.
Proof.
  induction l as [|[c0 q] l IH]; [by case_decide|]. rewrite filter_cons.
  destruct (decide ((c0, q) <> (c, p))) as [Hne|Heq]; simpl; rewrite IH.
  - case_decide as E; case_decide as E'; subst; try done. unfold list_del. rewrite filter_cons, decide_True; [done|].
    intros ->. by apply Hne.
  - apply dec_stable in Heq. injection Heq as -> ->. case_decide as E; subst.
    + rewrite decide_True by done. unfold list_del. rewrite filter_cons, decide_False; [done|]. by intros [].
    + by rewrite decide_False.
Qed.

(** Every client has its part of the list, and the signals of the bus are
    switched on, once, exactly while the list is not empty. *)
Record listen_inv (D : daemon) : Prop := {
  li_ok c d : dm_clients D !! c = Some d -> sub_ok d;
  li_part c d : dm_clients D !! c = Some d -> listen_list (d_sess d) = listen_of c (dm_listen D);
  li_live c d p : dm_clients D !! c = Some d -> (c, p) ∈ dm_listen D <-> is_Some (subs (d_sess d) !! p);
  li_known c p : (c, p) ∈ dm_listen D -> is_Some (dm_clients D !! c);
  li_nodup : NoDup (dm_listen D);
  li_signals : dm_match D = (if is_nil (dm_listen D) then 0 else 1) /\
               dm_filter D = (if is_nil (dm_listen D) then 0 else 1);
}.

Lemma listen_inv_init : listen_inv daemon_init.
Proof.
  split; simpl; try (intros *; rewrite ?lookup_empty; done); try done.
  - intros c p ?%elem_of_nil. done.
  - constructor.
Qed.

(** Another client connects. *)
Lemma listen_inv_open D c :
  listen_inv D -> dm_clients D !! c = None -> listen_inv (set_client c (dbus_init session_init) D).
Proof.
  intros Hi Hc. assert (Hno : forall p, (c, p) ∉ dm_listen D).
  { intros p Hp%(li_known _ Hi). rewrite Hc in Hp. by destruct Hp. }
  split; simpl; [..|by apply Hi|by apply Hi].
  - intros c' d [[<- <-]|[_ Hd]]%lookup_insert_Some; [|by eapply li_ok].
    split; simpl; intros p; rewrite lookup_empty; [done|by intros [? ?]].
  - intros c' d [[<- <-]|[_ Hd]]%lookup_insert_Some; [|by eapply li_part]. simpl.
    symmetry. apply no_elements. intros p. by rewrite elem_of_listen.
  - intros c' d p [[<- <-]|[_ Hd]]%lookup_insert_Some; [|by eapply li_live]. simpl. rewrite lookup_empty.
    split; [by intros ?%Hno|by intros [? ?]].
  - intros c' p Hp%(li_known _ Hi). rewrite lookup_insert_is_Some. destruct (decide (c = c')); auto.
Qed.

(** A client takes a step that leaves its subscriptions alone. *)
Lemma listen_inv_quiet D c d d' :
  listen_inv D -> dm_clients D !! c = Some d -> quiet d d' -> listen_inv (set_client c d' D).
Proof.
  intros Hi Hc (Hok & Es & El). split; simpl; [..|by apply Hi|by apply Hi].
  - intros c' x [[<- <-]|[_ Hd]]%lookup_insert_Some; [done|by eapply li_ok].
  - intros c' x [[<- <-]|[_ Hd]]%lookup_insert_Some; [|by eapply li_part]. rewrite El. by eapply li_part.
  - intros c' x p [[<- <-]|[_ Hd]]%lookup_insert_Some; [|by eapply li_live]. rewrite Es. by eapply li_live.
  - intros c' p Hp%(li_known _ Hi). rewrite lookup_insert_is_Some. destruct (decide (c = c')); auto.
Qed.

Lemma pwp_on_client {A} c (m : M dbus_rpc A) (Q : A -> daemon -> Prop) D :
  (forall d, dm_clients D !! c = Some d -> pwp m (fun a d' => Q a (set_client c d' D)) d) ->
  pwp (on_client c m) Q D.
Proof.
  intros HQ a D'. unfold on_client. destruct (dm_clients D !! c) as [d|]; [|done].
  destruct (m d) as [[a' d']|] eqn:E; [|done]. intros [= <- <-]. by apply (HQ d).
Qed.

(** A quiet operation of a client keeps the invariant. *)
Lemma pwp_quiet {A} c (m : M dbus_rpc A) D :
  listen_inv D -> (forall d, sub_ok d -> pwp m (fun _ d' => quiet d d') d) ->
  pwp (on_client c m) (fun _ => listen_inv) D.
Proof.
  intros Hi Hm. apply pwp_on_client. intros d Hd. eapply pwp_mono; [apply Hm; by eapply li_ok|].
  intros a d' Hq. by eapply listen_inv_quiet.
Qed.

(** *** A subscription goes *)

Definition dropped_session (p : nat) (s : session) : session :=
  set_subs (delete p (subs s)) (set_listen (list_del p (listen_list s))
    (set_call_q (list_del p (rpc_call_q s)) s)).

Definition dropped (c p : nat) (d : dbus_rpc) (D : daemon) : daemon :=
  let l := filter (fun x => x <> (c, p)) (dm_listen D) in
  let off := if is_nil l then 1 else 0 in
  Daemon (<[c := set_sess (dropped_session p (d_sess d)) d]> (dm_clients D)) l (dm_match D - off) (dm_filter D - off).

Lemma unsub_elem_run c p d D :
  dm_clients D !! c = Some d -> is_Some (subs (d_sess d) !! p) ->
  (on_client c (list_unlink p) ;;; unsub_elem c p) D =
  if decide (linked d p) then Some (tt, dropped c p d D) else None.
Proof.
  intros Hc [i Hi]. unfold M_bind at 1, on_client at 1. rewrite Hc, (unlink_run p d d) by done.
  destruct (decide (linked d p)); [|done]. unfold unsub_elem, wsubus_unsub_elem, signals_off, on_csess, on_client, on_sess, dropped, set_client.
  unfold M_bind, modify, deref, get.
  repeat first [rewrite lookup_insert_eq | rewrite Hc | rewrite Hi | progress simpl].
  destruct (is_nil _); repeat first [rewrite lookup_insert_eq | rewrite Hi | progress simpl];
    unfold set_client; simpl; rewrite !insert_insert_eq; by rewrite ?Z.sub_0_r.
Qed.

Lemma dropped_inv c p d D :
  listen_inv D -> dm_clients D !! c = Some d -> is_Some (subs (d_sess d) !! p) -> listen_inv (dropped c p d D).
Proof.
  intros Hi Hc Hp. assert (Hin : (c, p) ∈ dm_listen D) by (by eapply li_live).
  pose proof (li_ok _ Hi _ _ Hc) as Hok. split; simpl.
  - intros c' x [[<- <-]|[_ Hd]]%lookup_insert_Some; [|by eapply li_ok]. split; simpl.
    + intros q Hq. rewrite lookup_delete_None. destruct (so_fresh _ Hok q Hq) as (? & ? & ? & ?). auto.
    + intros q [Hne Hq]%lookup_delete_is_Some. destruct (so_sub _ Hok q Hq) as (? & ? & ? & ?).
      rewrite elem_of_list_del. auto.
  - intros c' x [[<- <-]|[Hne Hd]]%lookup_insert_Some; simpl; rewrite listen_of_drop.
    + rewrite decide_True by done. f_equal. by eapply li_part.
    + rewrite decide_False by done. by eapply li_part.
  - intros c' x q [[<- <-]|[Hne Hd]]%lookup_insert_Some; simpl; rewrite list_elem_of_filter.
    + rewrite lookup_delete_is_Some, (li_live _ Hi _ _ q Hc). split; [|by intros [? ?]; split; [intros [=]|]].
      intros [Hx ?]. split; [|done]. intros ->. by apply Hx.
    + rewrite (li_live _ Hi _ _ q Hd). split; [tauto|]. intros ?. split; [|done]. intros [=]. by apply Hne.
  - intros c' q [_ Hq]%list_elem_of_filter. apply (li_known _ Hi) in Hq. rewrite lookup_insert_is_Some.
    destruct (decide (c = c')); auto.
  - apply NoDup_filter, Hi.
  - destruct (li_signals _ Hi) as [-> ->]. assert (Hn : is_nil (dm_listen D) = false) by (destruct (dm_listen D); [set_solver|done]).
    rewrite Hn. by destruct (filter _ (dm_listen D)).
Qed.

Lemma unsub_step c p D :
  listen_inv D -> (forall d, dm_clients D !! c = Some d -> is_Some (subs (d_sess d) !! p)) ->
  pwp (on_client c (list_unlink p) ;;; unsub_elem c p)
    (fun _ D' => listen_inv D' /\ exists d, dm_clients D !! c = Some d /\ D' = dropped c p d D) D.
Proof.
  intros Hi Hp a D' Hrun. destruct (dm_clients D !! c) as [d|] eqn:Hc.
  - rewrite (unsub_elem_run c p d) in Hrun; auto. destruct (decide (linked d p)); [|done]. injection Hrun as <- <-.
    split; [apply dropped_inv; auto|]. eauto.
  - exfalso. revert Hrun. unfold on_client, M_bind. by rewrite Hc.
Qed.

(** *** A subscription comes *)

Definition subscribed_session (i : sub_info) (s : session) : session :=
  let p := next_ptr s in
  set_call_q (rpc_call_q s ++ [p]) (set_listen (listen_list s ++ [p])
    (set_subs (<[p := i]> (subs s)) (set_next (S p) s))).

Definition subscribed (c : nat) (i : sub_info) (d : dbus_rpc) (D : daemon) : daemon :=
  let on := if is_nil (dm_listen D) then 1 else 0 in
  Daemon (<[c := set_sess (subscribed_session i (d_sess d)) d]> (dm_clients D))
    (dm_listen D ++ [(c, next_ptr (d_sess d))]) (dm_match D + on) (dm_filter D + on).

Lemma subscribed_inv c i d D :
  listen_inv D -> dm_clients D !! c = Some d -> listen_inv (subscribed c i d D).
Proof.
  intros Hi Hc. set (p := next_ptr (d_sess d)). pose proof (li_ok _ Hi _ _ Hc) as Hok.
  assert (Hnew : (c, p) ∉ dm_listen D).
  { intros Hin%(li_live _ Hi _ _ p Hc). destruct (so_fresh _ Hok p) as (E & _); [done|]. rewrite E in Hin. by destruct Hin. }
  split; simpl; fold p.
  - intros c' x [[<- <-]|[_ Hd]]%lookup_insert_Some; [|by eapply li_ok]. split; simpl; fold p.
    + intros q Hq. rewrite lookup_insert_ne by lia. apply (so_fresh _ Hok). lia.
    + intros q [<-|[Hne Hq]]%lookup_insert_is_Some.
      * destruct (so_fresh _ Hok p) as (_ & ? & ? & ?); [done|]. split_and!; [set_solver|done..].
      * destruct (so_sub _ Hok q Hq) as (? & ? & ? & ?). split_and!; [set_solver|done..].
  - intros c' x [[<- <-]|[Hne Hd]]%lookup_insert_Some; simpl; rewrite listen_of_app; simpl.
    + rewrite decide_True by done. f_equal. by eapply li_part.
    + rewrite decide_False by done. rewrite app_nil_r. by eapply li_part.
  - intros c' x q [[<- <-]|[Hne Hd]]%lookup_insert_Some; simpl; rewrite elem_of_app, list_elem_of_singleton; fold p.
    + rewrite lookup_insert_is_Some, (li_live _ Hi _ _ q Hc). destruct (decide (p = q)) as [->|]; naive_solver.
    + rewrite (li_live _ Hi _ _ q Hd). naive_solver.
  - intros c' q. rewrite elem_of_app, list_elem_of_singleton, lookup_insert_is_Some.
    intros [Hq%(li_known _ Hi)|Hq]; destruct (decide (c = c')); auto. congruence.
  - apply NoDup_app. split_and!; [apply Hi|set_solver|apply NoDup_singleton].
  - destruct (li_signals _ Hi) as [-> ->]. by destruct (dm_listen D).
Qed.

Lemma read_client {A} c (m : M session A) (Q : A -> daemon -> Prop) D :
  (forall s, pwp m (fun a s' => s' = s) s) -> (forall a, Q a D) -> pwp (on_csess c m) Q D.
Proof.
  intros Hm HQ. apply pwp_on_client. intros d Hd. apply pwp_on_sess. eapply pwp_mono; [apply Hm|].
  intros a s' ->. assert (set_client c (set_sess (d_sess d) d) D = D) as ->; [|done].
  unfold set_client, set_sess. destruct d, D. simpl in *. by rewrite insert_id.
Qed.

Lemma unsub_all_inv c pattern l D :
  listen_inv D -> NoDup l -> (forall p, p ∈ l -> (c, p) ∈ dm_listen D) ->
  pwp (unsub_all c pattern l) (fun _ => listen_inv) D.
Proof.
  revert D. induction l as [|p l IH]; intros D Hi Hnd Hl; simpl; [by apply pwp_ret|].
  apply NoDup_cons in Hnd as [Hp Hnd]. apply pwp_bind. apply read_client; [intros s; by apply pwp_deref|]. intros i.
  apply pwp_bind. eapply (pwp_mono _ (fun _ D' => listen_inv D' /\ forall q, q ∈ l -> (c, q) ∈ dm_listen D')).
  - destruct (strcmp pattern (si_pattern i) =? 0); [|apply pwp_ret; split; [done|set_solver]].
    intros b D' Hrun. unfold M_bind at 1 in Hrun. revert Hrun.
    destruct (on_client c (list_unlink p) D) as [[u D0]|] eqn:E0; [|done]. unfold M_bind.
    destruct (unsub_elem c p D0) as [[u' D1]|] eqn:E1; [|done]. intros [= _ <-].
    destruct (unsub_step c p D Hi) with (a := u') (s' := D1) as [Hi1 (d & Hd & ->)].
    { intros d Hd. apply (li_live _ Hi _ _ p Hd), Hl. set_solver. }
    { unfold M_bind. rewrite E0. exact E1. }
    split; [done|]. intros q Hq. simpl. apply list_elem_of_filter. split; [|apply Hl; set_solver].
    intros [= ->]. by apply Hp.
  - intros b D1 [Hi1 Hl1]. apply pwp_bind. eapply pwp_mono; [by apply IH|]. intros b' D2 Hi2. by apply pwp_ret.
Qed.

Lemma listen_of_nodup c l : NoDup l -> NoDup (listen_of c l).
Proof.
  induction 1 as [|[c' p] l Hn Hnd IH]; simpl; [constructor|]. case_decide; [|done]. subst.
  constructor; [|done]. by rewrite elem_of_listen.
Qed.

Section inv.
Context `{AvlTree, JsonC, LibUbox, !LibDbus}.
Variable envs : nat -> env.
Variable de : denv.
Variable blob_data_attrs : attr -> list attr.

(** Operations of the session that touch no context. *)
Lemma queue_quiet c str D : listen_inv D -> pwp (on_csess c (queue_str (envs c) str)) (fun _ => listen_inv) D.
Proof.
  intros Hi. apply pwp_quiet; [done|]. intros d Hok. apply pwp_on_sess, pwp_queue. intros q. by apply quiet_same.
Qed.

Lemma modify_quiet c f D :
  listen_inv D ->
  (forall s, subs (f s) = subs s /\ listen_list (f s) = listen_list s /\ next_ptr (f s) = next_ptr s /\
     calls (f s) = calls s /\ rpc_call_q (f s) = rpc_call_q s) ->
  pwp (on_csess c (modify f)) (fun _ => listen_inv) D.
Proof.
  intros Hi Hf. apply pwp_quiet; [done|]. intros d Hok. apply pwp_on_sess, pwp_modify.
  destruct (Hf (d_sess d)) as (? & ? & ? & ? & ?). by apply quiet_same.
Qed.

Lemma dec_quiet c D : listen_inv D -> pwp (on_csess c dec_q_len) (fun _ => listen_inv) D.
Proof. intros Hi. by apply modify_quiet. Qed.

(** The answer of a handler: a text is queued and the counter goes down. *)
Lemma answer_inv c str D :
  listen_inv D ->
  pwp (on_csess c (queue_str (envs c) str) ;;; on_csess c dec_q_len ;;; M_ret 0) (fun _ => listen_inv) D.
Proof.
  intros Hi. apply pwp_bind. eapply pwp_mono; [by apply queue_quiet|]. intros u D1 Hi1. cbn beta in *. clear u.
  apply pwp_bind. eapply pwp_mono; [by apply dec_quiet|]. intros u D2 Hi2. cbn beta in *. clear u. by apply pwp_ret.
Qed.

Lemma handle_sub_inv c r id D : listen_inv D -> pwp (handle_sub envs c r id) (fun _ => listen_inv) D.
Proof.
  intros Hi. unfold handle_sub. apply pwp_bind. eapply (pwp_mono _ (fun _ => listen_inv)).
  - destruct (e_register (envs c) =? 0); [|by apply pwp_ret].
    set (i := SubInfo _ _). intros a D' Hrun.
    destruct (dm_clients D !! c) as [d|] eqn:Hc.
    + assert (E : D' = subscribed c i d D); [|subst D'; by apply subscribed_inv].
      revert Hrun. unfold list_link, assert_, on_csess, on_client, on_sess, signals_on, subscribed, M_bind, modify, get, alloc.
      repeat first [rewrite lookup_insert_eq | rewrite Hc | progress simpl].
      destruct (is_nil (dm_listen D)); repeat first [rewrite lookup_insert_eq | progress simpl];
        (destruct (bool_decide _); [|done]); unfold set_client; simpl;
        rewrite !insert_insert_eq, ?Z.add_0_r; by intros [= _ <-].
    + exfalso. revert Hrun. unfold on_csess, on_client, M_bind. by rewrite Hc.
  - intros u D1 Hi1. cbn beta in *. by apply answer_inv.
Qed.

Lemma handle_sub_list_inv c id D : listen_inv D -> pwp (handle_sub_list envs c id) (fun _ => listen_inv) D.
Proof.
  intros Hi. unfold handle_sub_list. apply pwp_bind, pwp_get, pwp_bind. apply read_client.
  - intros s. by apply pwp_deref.
  - intros l. by apply answer_inv.
Qed.

Lemma handle_unsub_inv c r id D : listen_inv D -> pwp (handle_unsub envs c r id) (fun _ => listen_inv) D.
Proof.
  intros Hi. unfold handle_unsub. apply pwp_bind, pwp_get, pwp_bind.
  eapply pwp_mono; [apply unsub_all_inv; [done|apply listen_of_nodup, Hi|]|].
  - intros p. by rewrite elem_of_listen.
  - intros b D1 Hi1. by apply answer_inv.
Qed.

Lemma on_msg_inv c blob D : listen_inv D -> pwp (on_msg envs de blob_data_attrs c blob) (fun _ => listen_inv) D.
Proof.
  intros Hi. unfold on_msg. apply pwp_bind. apply read_client; [intros s; by apply pwp_gets|]. intros len.
  destruct (u32 (e_req_max (envs c)) <? len); [by apply pwp_ret|].
  destruct (jsonrpc_blob_req_parse blob) as [rc req]. destruct (negb (rc =? 0)); [by apply queue_quiet|].
  destruct (req_method req) as [m|], (req_params req) as [ps|]; try done.
  destruct (ubusrpc_blob_parse m ps) as [err [r|]]; [|by apply queue_quiet].
  apply pwp_bind, read_client; [intros s; by apply pwp_deref|]. intros sid.
  apply pwp_bind. eapply pwp_mono; [by apply modify_quiet|]. intros u D1 Hi1. cbn beta in *. clear u.
  apply pwp_bind, read_client; [intros s; by apply pwp_deref|]. intros h.
  apply pwp_bind. eapply (pwp_mono _ (fun _ => listen_inv)).
  - destruct h; simpl; auto using handle_sub_inv, handle_sub_list_inv, handle_unsub_inv.
    + apply pwp_quiet; [done|]. intros d Hok. by apply handle_call_quiet.
    + apply pwp_quiet; [done|]. intros d Hok. by apply handle_list_quiet.
  - intros ret D2 Hi2. cbn beta in *. destruct (negb (ret =? 0)); [by apply queue_quiet|by apply modify_quiet].
Qed.
End inv.

(** *** The cleaner and the end of a session *)

Lemma pwp_forM {S A} (l : list A) (f : A -> M S unit) (I : list A -> S -> Prop) s :
  I l s -> (forall a l' s', I (a :: l') s' -> pwp (f a) (fun _ => I l') s') ->
  pwp (forM_ l f) (fun _ : unit => I []) s.
Proof.
  intros HI Hstep. revert s HI. induction l as [|a l IH]; intros s HI; [by apply pwp_ret|].
  cbn [forM_]. apply pwp_bind. eapply pwp_mono; [by apply Hstep|]. eauto.
Qed.

(** While the requests of [c] are cancelled: those left in the queue are still
    to come. *)
Definition closing (c : nat) (l : list nat) (D : daemon) : Prop :=
  listen_inv D /\ forall d p, dm_clients D !! c = Some d -> p ∈ rpc_call_q (d_sess d) -> p ∈ l.

Lemma closing_step c p l D :
  closing c (p :: l) D -> pwp (on_client c (list_unlink p) ;;; cancel_any c p) (fun _ => closing c l) D.
Proof.
  intros [Hi Hq]. destruct (dm_clients D !! c) as [d|] eqn:Hc.
  2:{ intros ? ? Hrun. exfalso. revert Hrun. unfold on_client, M_bind. by rewrite Hc. }
  set (d1 := set_sess (set_call_q (list_del p (rpc_call_q (d_sess d))) (d_sess d)) d).
  intros a D' Hrun. destruct (decide (linked d p)) as [Hlink|Hlink].
  2:{ exfalso. revert Hrun. unfold on_client, M_bind. by rewrite Hc, (unlink_run p d d), decide_False by done. }
  assert (E0 : list_unlink p d = Some (tt, d1)) by (by rewrite (unlink_run p d d), decide_True by done).
  assert (E1 : on_client c (list_unlink p) D = Some (tt, set_client c d1 D)).
  { unfold on_client. by rewrite Hc, E0. }
  assert (Hd1 : dm_clients (set_client c d1 D) !! c = Some d1) by apply lookup_insert_eq.
  unfold M_bind at 1 in Hrun. rewrite E1 in Hrun. unfold cancel_any, M_bind, get in Hrun. rewrite Hd1 in Hrun.
  destruct (decide (is_Some (d_calls d !! p) \/ is_Some (d_lists d !! p) \/ is_Some (calls (d_sess d) !! p))) as [Hreq|Hsub].
  - assert (Hrun' : (on_client c (list_unlink p ;;; cancel_request p)) D = Some (a, D')).
    { revert Hrun. unfold on_client. rewrite Hc. unfold M_bind. rewrite E0.
      simpl (d_calls d1). simpl (d_lists d1). simpl (calls (d_sess d1)).
      destruct (d_calls d !! p), (d_lists d !! p), (calls (d_sess d) !! p);
        try (exfalso; destruct Hreq as [[? ?]|[[? ?]|[? ?]]]; done);
        rewrite Hd1; destruct (cancel_request p d1) as [[? ?]|]; try done;
        unfold set_client; simpl; by rewrite insert_insert_eq. }
    revert Hrun'. apply (pwp_on_client c _ (fun _ => closing c l)). intros d0 Hd0. rewrite Hc in Hd0. injection Hd0 as <-.
    eapply pwp_mono; [apply cancel_request_quiet; [by eapply li_ok|done]|]. intros u d2 [Hquiet Eq].
    split; [by eapply listen_inv_quiet|]. intros d3 x. simpl. rewrite lookup_insert_eq. intros [= <-].
    rewrite Eq, elem_of_list_del. intros [Hne Hx]. specialize (Hq d x eq_refl Hx). set_solver.
  - assert (Hnone : d_calls d1 !! p = None /\ d_lists d1 !! p = None /\ calls (d_sess d1) !! p = None).
    { simpl. split_and!; apply eq_None_not_Some; tauto. }
    destruct Hnone as (En1 & En2 & En3). rewrite En1, En2, En3 in Hrun.
    assert (Hs : is_Some (subs (d_sess d) !! p)).
    { revert Hrun. unfold unsub_elem, on_csess, on_client, on_sess, M_bind, deref. rewrite Hd1. simpl.
      destruct (subs (d_sess d) !! p); [eauto|done]. }
    destruct (unsub_step c p D Hi) with (a := a) (s' := D') as [Hi1 (d0 & Hd0 & ->)].
    { intros d0 Hd0. rewrite Hc in Hd0. by injection Hd0 as <-. }
    { unfold M_bind. by rewrite E1. }
    rewrite Hc in Hd0. injection Hd0 as <-. split; [done|]. intros d3 x. simpl. rewrite lookup_insert_eq.
    intros [= <-]. simpl. rewrite elem_of_list_del. intros [Hne Hx]. specialize (Hq d x eq_refl Hx). set_solver.
Qed.

Lemma peer_deinit_inv c D : listen_inv D -> pwp (peer_deinit c) (fun _ => listen_inv) D.
Proof.
  intros Hi. unfold peer_deinit. apply pwp_bind. eapply pwp_mono; [by apply modify_quiet|].
  intros u D1 Hi1. cbn beta in *. clear u. apply pwp_bind, read_client; [intros s; by apply pwp_gets|]. intros q.
  apply pwp_bind. eapply pwp_mono; [apply (pwp_forM q _ (fun _ => listen_inv)); [done|]|].
  { intros p l D2 Hi2. apply pwp_quiet; [done|]. intros d Hok. by apply cancel_check_quiet. }
  intros u D2 Hi2. cbn beta in *. clear u. apply pwp_bind.
  intros q' D2' Hread. assert (HD : D2' = D2 /\ closing c q' D2).
  { revert Hread. unfold on_csess, on_client, on_sess, gets. destruct (dm_clients D2 !! c) as [d|] eqn:Hc; [|done].
    intros [= <- <-]. split.
    - unfold set_client, set_sess. destruct d, D2. simpl in *. by rewrite insert_id.
    - split; [done|]. intros d0 p. rewrite Hc. by intros [= <-]. }
  destruct HD as [-> Hclosing]. apply pwp_bind.
  eapply pwp_mono; [apply (pwp_forM q' _ (closing c)); [done|intros; by apply closing_step]|].
  intros u D3 [Hi3 Hq3]. clear u. apply pwp_modify. destruct (dm_clients D3 !! c) as [d|] eqn:Hc.
  - assert (Hno : forall p, (c, p) ∉ dm_listen D3).
    { intros p Hp%(li_live _ Hi3 _ _ p Hc). apply (so_sub _ (li_ok _ Hi3 _ _ Hc)) in Hp as [Hin _].
      apply (Hq3 d p eq_refl) in Hin. set_solver. }
    split; simpl; [..|by apply Hi3|by apply Hi3].
    + intros c' x [_ Hx]%lookup_delete_Some. by eapply li_ok.
    + intros c' x [_ Hx]%lookup_delete_Some. by eapply li_part.
    + intros c' x p [_ Hx]%lookup_delete_Some. by eapply li_live.
    + intros c' p Hp. rewrite lookup_delete_is_Some. split; [|by eapply li_known]. intros ->. by eapply Hno.
  - rewrite delete_id by done. by destruct D3.
Qed.
Section ends.
Context `{AvlTree, JsonC, LibUbox, !LibDbus}.
Variable envs : nat -> env.

Lemma clean_stale_inv c D : listen_inv D -> pwp (clean_stale envs c) (fun _ => listen_inv) D.
Proof.
  intros Hi. unfold clean_stale. apply pwp_bind, read_client; [intros s; by apply pwp_gets|]. intros q.
  apply (pwp_forM q _ (fun _ => listen_inv)); [done|]. intros p q' D1 Hi1. unfold clean_stale_any.
  apply pwp_bind, pwp_get. destruct (dm_clients D1 !! c) as [d|] eqn:Hc; [|done].
  destruct (d_calls d !! p), (d_lists d !! p); try by apply pwp_ret.
  apply pwp_quiet; [done|]. intros d' Hok. by apply clean_one_quiet.
Qed.

End ends.

(** ** Signals *)

Section signals.
Context `{AvlTree, JsonC, LibUbox, !LibDbus}.
Variable envs : nat -> env.
Variable fnmatch0 : string -> string -> bool.
Variable sprintf : string -> Z -> string.

(** The text for a subscription, if its pattern matches. *)
Definition signal_text (type : string) (args : list dvalue) (s : session) (p : nat) : list wsu_writereq :=
  match subs s !! p with
  | Some i => if fnmatch0 (si_pattern i) type
              then [WriteReq (blobmsg_format_json (signal_blob sprintf type args i)) 0] else []
  | None => []
  end.

(** A client after the signal went to the elements [l] of its list. *)
Definition signalled_session (type : string) (args : list dvalue) (l : list nat) (s : session) : session :=
  set_write_q (write_q s ++ concat (signal_text type args s <$> l)) s.

Definition signalled (type : string) (args : list dvalue) (l : list (nat * nat)) (D : daemon) : daemon :=
  Daemon (map_imap (fun c d => Some (set_sess (signalled_session type args (listen_of c l) (d_sess d)) d)) (dm_clients D))
    (dm_listen D) (dm_match D) (dm_filter D).

Lemma signalled_nil type args D : signalled type args [] D = D.
Proof.
  destruct D as [cs l m f]. unfold signalled. simpl. f_equal. apply map_eq. intros c.
  rewrite map_lookup_imap. destruct (cs !! c) as [[[] ? ? ? ? ?]|]; simpl; [|done].
  unfold signalled_session, set_sess, set_write_q. simpl. by rewrite app_nil_r.
Qed.

Lemma signal_one (Hfit : texts_fit) type args c p d i D :
  dm_clients D !! c = Some d -> subs (d_sess d) !! p = Some i ->
  signal_to envs fnmatch0 sprintf type args (c, p) D = Some (tt, signalled type args [(c, p)] D).
Proof.
  intros Hc Hp.
  assert (E : signalled type args [(c, p)] D =
    set_client c (set_sess (signalled_session type args [p] (d_sess d)) d) D).
  { unfold signalled, set_client. f_equal. apply map_eq. intros c'. rewrite map_lookup_imap.
    destruct (decide (c = c')) as [<-|Hne].
    - rewrite lookup_insert_eq, Hc. simpl. by rewrite decide_True.
    - rewrite lookup_insert_ne by done. destruct (dm_clients D !! c') as [[[] ? ? ? ? ?]|]; simpl; [|done].
      rewrite decide_False by done. unfold signalled_session, set_sess, set_write_q. simpl. by rewrite app_nil_r. }
  rewrite E. unfold signal_to, on_csess, on_client, on_sess, M_bind, deref. cbn [fst snd]. rewrite Hc, Hp.
  assert (Eid : set_client c (set_sess (d_sess d) d) D = D).
  { unfold set_client, set_sess. destruct d, D. simpl in *. by rewrite insert_id. }
  rewrite Eid. unfold signalled_session, signal_text. cbn [fmap list_fmap concat]. rewrite Hp. destruct (fnmatch0 (si_pattern i) type).
  - rewrite Hc, queue_str_run by done. done.
  - unfold M_ret. do 2 f_equal. rewrite <- Eid at 1. f_equal. destruct d as [[] ? ? ? ? ?].
    unfold set_sess, set_write_q. simpl. by rewrite app_nil_r.
Qed.

Lemma signalled_session_app type args l l' s :
  signalled_session type args l' (signalled_session type args l s) = signalled_session type args (l ++ l') s.
Proof. unfold signalled_session, set_write_q. simpl. f_equal. by rewrite fmap_app, concat_app, app_assoc. Qed.

Lemma signalled_app type args l l' D :
  signalled type args l' (signalled type args l D) = signalled type args (l ++ l') D.
Proof.
  unfold signalled. simpl. f_equal. apply map_eq. intros c. rewrite !map_lookup_imap.
  destruct (dm_clients D !! c) as [d|]; simpl; [|done]. rewrite listen_of_app, <- signalled_session_app. done.
Qed.

Lemma signal_all (Hfit : texts_fit) type args l D :
  (forall c p, (c, p) ∈ l -> exists d, dm_clients D !! c = Some d /\ is_Some (subs (d_sess d) !! p)) ->
  forM_ l (signal_to envs fnmatch0 sprintf type args) D = Some (tt, signalled type args l D).
Proof.
  revert D. induction l as [|[c p] l IH]; intros D Hl; [by rewrite signalled_nil|].
  destruct (Hl c p) as (d & Hc & [i Hp]); [set_solver|]. cbn [forM_]. unfold M_bind.
  rewrite (signal_one Hfit type args c p d i D Hc Hp), IH.
  - by rewrite signalled_app.
  - intros c' p' Hin. destruct (Hl c' p') as (d' & Hc' & Hp'); [set_solver|].
    simpl. rewrite map_lookup_imap, Hc'. simpl. eauto.
Qed.

(** The values of a signal, named by their position. *)
Lemma signal_args_spec args conv n :
  Forall value_ok args -> arg_num conv = Z.of_nat n -> Z.of_nat (n + length args) < 2 ^ 31 -> args <> [] ->
  conv_b (signal_args sprintf args conv) =
  conv_b conv ++ concat (imap (fun i v => pair (sprintf (arg_fmt conv) (Z.of_nat (n + i))) <$> option_list (value_blob v)) args).
Proof.
  revert conv n. induction args as [|v args IH]; intros conv n Hok Hn Hlt Hne; [done|].
  apply Forall_cons in Hok as [Hv Hok].
  assert (Estep : (duconv_msgiter_dbus_to_ubus_add_arg sprintf (v :: args) None conv).2 =
    Convert (conv_b conv ++ (pair (sprintf (arg_fmt conv) (Z.of_nat n)) <$> option_list (value_blob v))) (arg_fmt conv) (s32 (Z.of_nat n + 1))).
  { unfold duconv_msgiter_dbus_to_ubus_add_arg. simpl. rewrite value_converted by done. simpl.
    unfold _duconv_convert_get_next_arg. by rewrite Hn. }
  cbn [signal_args imap concat]. rewrite Estep. destruct args as [|v' args].
  - simpl. rewrite Nat.add_0_r, app_nil_r. done.
  - rewrite (IH _ (S n)); [|done| | |done].
    + simpl. rewrite Nat.add_0_r, <- app_assoc. do 3 f_equal. rewrite Nat.add_1_r. f_equal.
      f_equal. apply imap_ext. intros i x _. simpl. by rewrite !Nat.add_succ_r.
    + simpl. rewrite s32_small; [lia|]. simpl in Hlt. lia.
    + simpl in Hlt |- *. lia.
Qed.

Definition signal_data (args : list dvalue) : list attr :=
  concat (imap (fun i v => pair (sprintf "arg%d" (Z.of_nat i)) <$> option_list (value_blob v)) args).

Lemma signal_args_data args :
  Forall value_ok args -> Z.of_nat (length args) < 2 ^ 31 ->
  conv_b (signal_args sprintf args (duconv_convert_init "arg%d")) = signal_data args.
Proof.
  intros Hok Hlt. destruct args as [|v args].
  - cbn [signal_args]. unfold duconv_msgiter_dbus_to_ubus_add_arg, duconv_msg_dbus_to_ubus, _duconv_dbus_to_ubus.
    rewrite arg_type_nil, (not_basic DBUS_TYPE_INVALID) by apply invalid_not_basic. done.
  - rewrite (signal_args_spec _ _ 0); done.
Qed.
End signals.

(** ** The daemon

    Clients come and go, send messages and get callbacks of ubus, of the checks
    and of D-Bus, in any order.  A step that does not come back has no successor. *)

Section reach.
Context `{AvlTree, JsonC, LibUbox, !LibDbus}.
Variable fnmatch0 : string -> string -> bool.
Variable sprintf : string -> Z -> string.

(** Callbacks of ubus and of access checks. *)
Definition is_callback (ev : sevent) : Prop :=
  match ev with EvMessage _ | EvCleanStale | EvClosed => False | _ => True end.

Inductive dreach : daemon -> Prop :=
  | dreach_init : dreach daemon_init
  | dreach_open D c :
      dreach D -> dm_clients D !! c = None -> dreach (set_client c (dbus_init session_init) D)
  | dreach_message D D' envs de attrs c blob :
      dreach D -> on_msg envs de attrs c blob D = Some (tt, D') -> dreach D'
  | dreach_callback D D' e c ev :
      dreach D -> is_callback ev -> on_csess c (sstep e ev) D = Some (tt, D') -> dreach D'
  | dreach_reply D D' e de xml_parse c k reply :
      dreach D -> on_client c (dbus_reply e de xml_parse k reply) D = Some (tt, D') -> dreach D'
  | dreach_signal D D' envs msg member r :
      dreach D -> ws_sub_cb_dbus envs fnmatch0 sprintf msg member D = Some (r, D') -> dreach D'
  | dreach_stale D D' envs c :
      dreach D -> clean_stale envs c D = Some (tt, D') -> dreach D'
  | dreach_close D D' c :
      dreach D -> peer_deinit c D = Some (tt, D') -> dreach D'.

Lemma callback_quiet e ev d : is_callback ev -> sub_ok d -> pwp (on_sess (sstep e ev)) (fun _ d' => quiet d d') d.
Proof.
  destruct ev; simpl; try done; intros _ Hok;
    auto using access_completed_quiet, completed_quiet, retdata_quiet, ev_check_quiet, sub_cb_quiet.
Qed.

Lemma signal_inv envs msg member D :
  listen_inv D -> pwp (ws_sub_cb_dbus envs fnmatch0 sprintf msg member) (fun _ => listen_inv) D.
Proof.
  intros Hi. unfold ws_sub_cb_dbus. destruct (msg_type msg); try by apply pwp_ret.
  apply pwp_bind, pwp_get, pwp_bind. eapply pwp_mono; [apply (pwp_forM _ _ (fun _ => listen_inv)); [done|]|].
  - intros [c p] l D1 Hi1. unfold signal_to. apply pwp_bind, read_client; [intros s; by apply pwp_deref|].
    intros i. cbn [fst snd]. destruct (fnmatch0 (si_pattern i) member); [by apply queue_quiet|by apply pwp_ret].
  - intros u D1 Hi1. by apply pwp_ret.
Qed.

Lemma dreach_inv D : dreach D -> listen_inv D.
Proof.
  induction 1 as [|D c _ IH Hc|D D' envs de attrs c blob _ IH Hrun|D D' e c ev _ IH Hcb Hrun
    |D D' e de x c k reply _ IH Hrun|D D' envs msg member r _ IH Hrun|D D' envs c _ IH Hrun|D D' c _ IH Hrun].
  - apply listen_inv_init.
  - by apply listen_inv_open.
  - by apply (on_msg_inv envs de attrs c blob D IH) in Hrun.
  - revert Hrun. apply (pwp_quiet c _ D IH). intros d Hok. by apply callback_quiet.
  - revert Hrun. apply (pwp_quiet c _ D IH). intros d Hok. by apply dbus_reply_quiet.
  - by apply (signal_inv envs msg member D IH) in Hrun.
  - by apply (clean_stale_inv envs c D IH) in Hrun.
  - by apply (peer_deinit_inv c D IH) in Hrun.
Qed.
End reach.

(** ** Theorems *)

(** C19: The signals of D-Bus are switched on (one match rule, one filter) exactly while some
    client is subscribed, in every order of connections, subscriptions, unsubscriptions,
    callbacks and disconnections of any number of clients; the static list of subscriptions
    holds each subscription of each connected client once, and none of a client that left. *)
Theorem signals_while_subscribed `{AvlTree, JsonC, LibUbox, !LibDbus} (fnmatch0 : string -> string -> bool)
    (sprintf : string -> Z -> string) (D : daemon) :
  dreach fnmatch0 sprintf D ->
  dm_filter D = (if is_nil (dm_listen D) then 0 else 1) /\
  dm_match D = (if is_nil (dm_listen D) then 0 else 1) /\
  NoDup (dm_listen D) /\
  forall c p, (c, p) ∈ dm_listen D <->
    exists d, dm_clients D !! c = Some d /\ is_Some (subs (d_sess d) !! p).
Proof.
  intros Hi%dreach_inv. destruct (li_signals _ Hi) as [Hm Hf]. split_and!; [done|done|apply Hi|].
  intros c p. split.
  - intros Hp. destruct (li_known _ Hi _ _ Hp) as [d Hd]. exists d. split; [done|]. by apply (li_live _ Hi _ _ p Hd).
  - intros (d & Hd & Hp). by apply (li_live _ Hi _ _ p Hd).
Qed.

(** C20: A signal of D-Bus reaches every subscription whose pattern matches its member, and
    only those: each client gets, in the order of its subscriptions, one event per matching
    subscription, in the same form as an event of ubus, with the values of the signal as
    "arg0", "arg1", ... in the data; nothing else of any client changes. *)
Theorem signal_delivered `{AvlTree, JsonC, LibUbox, !LibDbus} (fnmatch0 : string -> string -> bool)
    (sprintf : string -> Z -> string) (envs : nat -> env) (D : daemon) (msg : dbus_message) (member : string) :
  texts_fit -> dreach fnmatch0 sprintf D -> msg_type msg = DBUS_MESSAGE_TYPE_SIGNAL ->
  Forall value_ok (msg_args msg) -> Z.of_nat (length (msg_args msg)) < 2 ^ 31 ->
  exists D', ws_sub_cb_dbus envs fnmatch0 sprintf msg member D = Some (DBUS_HANDLER_RESULT_HANDLED, D') /\
    dm_listen D' = dm_listen D /\ dm_filter D' = dm_filter D /\
    forall c, dm_clients D' !! c =
      (fun d => set_sess (set_write_q (write_q (d_sess d) ++ concat ((fun p =>
         match subs (d_sess d) !! p with
         | Some i => if fnmatch0 (si_pattern i) member
                     then [WriteReq (blobmsg_format_json
                            (event_blob (Notif member (signal_data sprintf (msg_args msg)) p) i)) 0]
                     else []
         | None => []
         end) <$> listen_list (d_sess d))) (d_sess d)) d) <$> dm_clients D !! c.
Proof.
  intros Hfit Hi%dreach_inv Hmsg Hok Hlen. unfold ws_sub_cb_dbus. rewrite Hmsg.
  exists (signalled fnmatch0 sprintf member (msg_args msg) (dm_listen D) D). split_and!; [|done|done|].
  - unfold M_bind, get. rewrite signal_all; [done|done|]. intros c p Hp.
    destruct (li_known _ Hi _ _ Hp) as [d Hd]. exists d. split; [done|]. by apply (li_live _ Hi _ _ p Hd).
  - intros c. simpl. rewrite map_lookup_imap. destruct (dm_clients D !! c) as [d|] eqn:Hd; simpl; [|done].
    unfold signalled_session. rewrite (li_part _ Hi _ _ Hd). do 5 f_equal. apply list_fmap_ext. intros i p _.
    unfold signal_text. destruct (subs (d_sess d) !! p) as [si|]; [|done]. destruct (fnmatch0 (si_pattern si) member); [|done].
    unfold signal_blob, event_blob. by rewrite signal_args_data.
Qed.

(** ** A client with a subscription *)

Section examples.
Local Existing Instance list_avl.
Local Existing Instance ref_jsonc.
Local Existing Instance ref_libubox.
Local Existing Instance ref_libdbus.

Definition star_fnmatch (p s : string) : bool := bool_decide (p = "*") || bool_decide (p = s).
Definition no_sprintf (fmt : string) (z : Z) : string := fmt.

Definition opened : daemon := set_client 7 (dbus_init session_init) daemon_init.
Definition listening : daemon := Eval vm_compute in
  match on_msg (fun _ => quiet_env) open_denv (fun _ => []) 7 sub_msg opened with
  | Some (_, D) => D
  | None => opened
  end.

Lemma listening_reach : dreach star_fnmatch no_sprintf listening.
Proof.
  eapply (dreach_message _ _ opened listening (fun _ => quiet_env) open_denv (fun _ => []) 7 sub_msg).
  - apply dreach_open; [constructor|done].
  - vm_compute. reflexivity.
Qed.

Definition scan_done : dbus_message :=
  DbusMessage DBUS_MESSAGE_TYPE_SIGNAL "su" "" [DText DBUS_TYPE_STRING "wlan0"; DNum DBUS_TYPE_UINT32 3].

Lemma scan_done_ok : Forall value_ok (msg_args scan_done).
Proof.
  apply Forall_cons; split; [by left|]. apply Forall_cons; split; [|constructor]. exists 32. split; [done|lia].
Qed.

Lemma signals_while_subscribed_witness : dm_filter listening = 1 /\ is_nil (dm_listen listening) = false.
Proof.
  destruct (signals_while_subscribed star_fnmatch no_sprintf listening listening_reach) as (Hf & _).
  rewrite Hf. split; vm_compute; reflexivity.
Defined.

Lemma signal_delivered_witness :
  exists D' d, ws_sub_cb_dbus (fun _ => quiet_env) star_fnmatch no_sprintf scan_done "ScanDone" listening =
      Some (DBUS_HANDLER_RESULT_HANDLED, D') /\
    dm_clients D' !! 7%nat = Some d /\ length (write_q (d_sess d)) = 2%nat.
Proof.
  destruct (signal_delivered star_fnmatch no_sprintf (fun _ => quiet_env) listening scan_done "ScanDone"
    ref_fit listening_reach eq_refl scan_done_ok) as (D' & Hrun & _ & _ & Hc).
  - vm_compute. reflexivity.
  - exists D'. specialize (Hc 7%nat). eexists. split; [exact Hrun|]. split; [exact Hc|]. vm_compute. reflexivity.
Defined.
End examples.
